(** * SPACE protocol tool: a shallow embedding of [space.py] and [spacesuit.py]

    The development follows the two Python modules of the tool:

    - [space.py]: the typed parser framework ([SpaceData], [SpaceParser] and
      their subclasses), the frame codec ([_crc16], [_to_packet],
      [_from_packet]) and the transport ([send_message]);
    - [spacesuit.py]: the logging session ([run_line], [run_script],
      [flash_binary], [load_config], [save_config], [crc32]).

    Conventions of the embedding.

    - A Python [bytes] object is a [list byte]; a Python [str] is a Rocq
      [string] whose characters are the code points below 256.
    - A Python [int] is a [Z]; fixed-width wire integers are written out with
      [Z.land], [Z.shiftl], [Z.shiftr].
    - A Python [float] is an IEEE-754 binary64 number, represented by a
      [spec_float] in canonical form (NaN carries no payload).
    - A raised exception is the [Raise] branch of [result]; only the class of
      the exception is kept, not its message.
    - Console output ([print]) is not part of the session state. *)

From Stdlib Require Import ZArith Lia Bool List Ascii String.
From Stdlib Require Import Strings.Byte.
From Stdlib Require Import Floats.SpecFloat.
From stdpp Require Import base option list gmap strings sorting.

#[local] Set Warnings "-register-all".

Local Open Scope string_scope.
Local Open Scope list_scope.
Local Open Scope Z_scope.

Abbreviation bytes := (list byte).

(** ** Exceptions and the error monad *)

(** The exception classes the modelled code can raise.  The first six are the
    classes of [space.py] ([SpaceError] and its subclasses); the others are
    Python built-ins reached by the code.  The last two are not exceptions:
    [Unmodelled] marks an input outside the domain of the embedding (a code
    point above 255) and [Diverges] a loop of the source that makes no
    progress and so never returns. *)
Inductive exn : Type :=
| SpaceError
| InitializationError
| ParseError
| IdentifierUnknown
| ParameterInvalid
| ParameterOutOfRange
| StructError
| IndexError
| KeyError
| ValueError
| TypeError
| AttributeError
| AssertionError
| OverflowError
| UnicodeDecodeError
| RecursionError
| Unmodelled
| Diverges.

(** [isinstance(e, space.SpaceError)] *)
Definition is_space_error (e : exn) : bool :=
  match e with
  | SpaceError | InitializationError | ParseError | IdentifierUnknown
  | ParameterInvalid | ParameterOutOfRange => true
  | _ => false
  end.

Inductive result (A : Type) : Type :=
| Return (a : A)
| Raise (e : exn).
Arguments Return {A} a.
Arguments Raise {A} e.

Definition rbind {A B : Type} (m : result A) (k : A -> result B) : result B :=
  match m with
  | Return a => k a
  | Raise e => Raise e
  end.

Notation "'let*' p ':=' m 'in' k" := (rbind m (fun p => k))
  (at level 10, p pattern, m at level 100, k at level 200).

(** ** Bytes *)

Definition byte_val (b : byte) : Z := Z.of_N (Byte.to_N b).

(** The byte of value [z mod 256]. *)
Definition byte_of (z : Z) : byte :=
  match Byte.of_N (Z.to_N (z mod 256)) with
  | Some b => b
  | None => x00
  end.

#[global] Instance byte_eq_dec : EqDecision byte := Byte.byte_eq_dec.

Definition bytes_eqb (a b : bytes) : bool :=
  if decide (a = b) then true else false.

(** [b[i:j]] for [0 <= i], [0 <= j]. *)
Definition slice {A : Type} (i j : nat) (l : list A) : list A :=
  take (j - i) (drop i l).

(** [b[i]] for an index known to be in range. *)
Definition byte_at (i : nat) (b : bytes) : Z :=
  match b !! i with
  | Some x => byte_val x
  | None => 0
  end.

(** ** [struct.pack] and [struct.unpack] for the little-endian integer formats *)

(** [struct_format(bits, signed)]: the format exists for 8, 16, 32 and 64
    bits; the source asserts on any other width. *)
Definition struct_format (bits : Z) (signed : bool) : result (nat * bool) :=
  if bits =? 8 then Return (1%nat, signed)
  else if bits =? 16 then Return (2%nat, signed)
  else if bits =? 32 then Return (4%nat, signed)
  else if bits =? 64 then Return (8%nat, signed)
  else Raise AssertionError.

(** The [n] low-order bytes of [v], least significant first. *)
Fixpoint le_bytes (n : nat) (v : Z) : bytes :=
  match n with
  | O => []
  | S n' => byte_of (Z.land v 0xFF) :: le_bytes n' (Z.shiftr v 8)
  end.

(** The unsigned value of a little-endian byte string. *)
Fixpoint le_value (b : bytes) : Z :=
  match b with
  | [] => 0
  | x :: b' => byte_val x + 256 * le_value b'
  end.

(** [struct.pack(fmt, value)]: [struct.error] when the value does not fit. *)
Definition struct_pack (fmt : nat * bool) (value : Z) : result bytes :=
  let '(n, signed) := fmt in
  let w := 8 * Z.of_nat n in
  let lo := if signed then - 2 ^ (w - 1) else 0 in
  let hi := if signed then 2 ^ (w - 1) - 1 else 2 ^ w - 1 in
  if (lo <=? value) && (value <=? hi)
  then Return (le_bytes n (value mod 2 ^ w))
  else Raise StructError.

(** [struct.unpack(fmt, data)[0]]: [struct.error] unless the buffer has
    exactly the size of the format. *)
Definition struct_unpack (fmt : nat * bool) (data : bytes) : result Z :=
  let '(n, signed) := fmt in
  let w := 8 * Z.of_nat n in
  if Nat.eqb (length data) n
  then
    let u := le_value data in
    Return (if signed && (2 ^ (w - 1) <=? u) then u - 2 ^ w else u)
  else Raise StructError.

(** ** CRC-16 of the frame *)

(** [binascii.crc_hqx(data, value)]: the CRC-CCITT polynomial
    x^16 + x^12 + x^5 + 1 (0x1021), most significant bit first, no reflection
    and no final xor. *)
Definition crc_hqx_bit (crc : Z) : Z :=
  if Z.testbit crc 15
  then Z.land (Z.lxor (Z.shiftl crc 1) 0x1021) 0xFFFF
  else Z.land (Z.shiftl crc 1) 0xFFFF.

Definition crc_hqx_byte (crc : Z) (b : byte) : Z :=
  Nat.iter 8 crc_hqx_bit (Z.lxor crc (Z.shiftl (byte_val b) 8)).

Definition crc_hqx (data : bytes) (value : Z) : Z :=
  fold_left crc_hqx_byte data value.

Definition CRC_INITIAL : Z := 0xFFFF.
Definition CRC_XOR : Z := 0xACE1.

(** [SpaceProtocol._crc16] *)
Definition _crc16 (data : bytes) : Z :=
  Z.lxor (crc_hqx data CRC_INITIAL) CRC_XOR.


(** ** Text: the [str] methods used by the tool *)

Definition char_code (a : ascii) : Z := Z.of_N (N_of_ascii a).
Definition char_of (z : Z) : ascii := ascii_of_N (Z.to_N z).

(** [str.isspace] on the code points below 256. *)
Definition py_isspace (a : ascii) : bool :=
  let c := char_code a in
  ((9 <=? c) && (c <=? 13)) || ((28 <=? c) && (c <=? 32))
  || (c =? 0x85) || (c =? 0xA0).

(** [s.startswith(prefix)] *)
Fixpoint startswith (prefix s : string) : bool :=
  match prefix, s with
  | EmptyString, _ => true
  | String a p', String b s' => Ascii.eqb a b && startswith p' s'
  | String _ _, EmptyString => false
  end.

(** [s[n:]] *)
Fixpoint str_drop (n : nat) (s : string) : string :=
  match n, s with
  | O, _ => s
  | S n', String _ s' => str_drop n' s'
  | S _, EmptyString => EmptyString
  end.

(** [s.split(sep, 1)] when [sep in s], for a non-empty [sep]: the text before
    and after the first occurrence of [sep]; [None] when [sep not in s]. *)
Fixpoint split_once (sep s : string) : option (string * string) :=
  if startswith sep s then Some (EmptyString, str_drop (String.length sep) s)
  else match s with
       | EmptyString => None
       | String a s' =>
           match split_once sep s' with
           | Some (before, after) => Some (String a before, after)
           | None => None
           end
       end.

(** The idiom shared by the scalar parsers:
    [if sep in text: parse, rest = text.split(sep, 1)]
    [else: parse, rest = text, ''].
    An empty [sep] is always [in text], and [split] then raises
    [ValueError]. *)
Definition split_sep (sep text : string) : result (string * string) :=
  if String.eqb sep EmptyString then Raise ValueError
  else match split_once sep text with
       | Some pr => Return pr
       | None => Return (text, EmptyString)
       end.

(** [s.lstrip()], [s.rstrip()], [s.strip()] *)
Fixpoint lstrip (s : string) : string :=
  match s with
  | String a s' => if py_isspace a then lstrip s' else s
  | EmptyString => EmptyString
  end.

Fixpoint rstrip (s : string) : string :=
  match s with
  | String a s' =>
      match rstrip s' with
      | EmptyString => if py_isspace a then EmptyString else String a EmptyString
      | r => String a r
      end
  | EmptyString => EmptyString
  end.

Definition strip (s : string) : string := rstrip (lstrip s).

(** The white space [int(text)] and [float(text)] skip around a literal:
    the white space of C (tab, line feed, vertical tab, form feed, carriage
    return, space) and, from 128 on, the code points [str.isspace] accepts
    (0x85 and 0xA0), which the conversion first replaces by spaces.  The
    separators 0x1C to 0x1F, which [str.strip] removes, are not skipped. *)
Definition number_space (a : ascii) : bool :=
  let c := char_code a in
  ((9 <=? c) && (c <=? 13)) || (c =? 32) || (c =? 0x85) || (c =? 0xA0).

Fixpoint number_lstrip (s : string) : string :=
  match s with
  | String a s' => if number_space a then number_lstrip s' else s
  | EmptyString => EmptyString
  end.

Fixpoint number_rstrip (s : string) : string :=
  match s with
  | String a s' =>
      match number_rstrip s' with
      | EmptyString =>
          if number_space a then EmptyString else String a EmptyString
      | r => String a r
      end
  | EmptyString => EmptyString
  end.

Definition number_strip (s : string) : string :=
  number_rstrip (number_lstrip s).

(** [sep.join(parts)] *)
Definition join (sep : string) (parts : list string) : string :=
  String.concat sep parts.

(** ** [int(text)], [int(text, 16)] and [str(n)] *)

Definition digit_value (a : ascii) : option Z :=
  let c := char_code a in
  if (48 <=? c) && (c <=? 57) then Some (c - 48)
  else if (97 <=? c) && (c <=? 122) then Some (c - 87)
  else if (65 <=? c) && (c <=? 90) then Some (c - 55)
  else None.

(** The digits of an integer literal: digits of the base, single underscores
    between digits.  [prev] tells whether the previous character was a digit
    ([Some true]), an underscore ([Some false]) or there was none. *)
Fixpoint scan_digits (base : Z) (prev : option bool) (acc : Z) (s : string)
  : option Z :=
  match s with
  | EmptyString =>
      match prev with
      | Some true => Some acc
      | _ => None
      end
  | String a s' =>
      if Ascii.eqb a "_"
      then match prev with
           | Some true => scan_digits base (Some false) acc s'
           | _ => None
           end
      else match digit_value a with
           | Some d =>
               if d <? base
               then scan_digits base (Some true) (base * acc + d) s'
               else None
           | None => None
           end
  end.

(** [sys.int_info.default_max_str_digits]: the longest decimal text the
    interpreter converts to or from an [int]. *)
Definition MAX_STR_DIGITS : Z := 4300.

(** The number of digits of an integer literal, its underscores apart. *)
Fixpoint count_digits (s : string) : Z :=
  match s with
  | String a s' =>
      if Ascii.eqb a "_" then count_digits s' else 1 + count_digits s'
  | EmptyString => 0
  end.

(** [int(text, base)] for base 10 and 16: surrounding whitespace, an optional
    sign, for base 16 an optional [0x] prefix (which may be followed by one
    underscore), then the digits.  [None] stands for [ValueError], which a
    decimal literal of more than [MAX_STR_DIGITS] digits raises too,
    whatever its value; base 16 has no such limit. *)
Definition py_int_base (base : Z) (text : string) : option Z :=
  let s := number_strip text in
  let '(neg, s) :=
    match s with
    | String "-" s' => (true, s')
    | String "+" s' => (false, s')
    | _ => (false, s)
    end in
  let s :=
    if (base =? 16) && (startswith "0x" s || startswith "0X" s)
    then match str_drop 2 s with
         | String "_" s' => s'
         | s' => s'
         end
    else s in
  match scan_digits base None 0 s with
  | Some v =>
      if (base =? 10) && (MAX_STR_DIGITS <? count_digits s) then None
      else Some (if neg then - v else v)
  | None => None
  end.

Definition py_int (text : string) : option Z := py_int_base 10 text.

(** The decimal text of an integer: [str(n)] for an [n] of at most
    [MAX_STR_DIGITS] digits ([int_to_str] adds the limit). *)
Fixpoint pos_digits (fuel : nat) (n : Z) (acc : string) : string :=
  match fuel with
  | O => acc
  | S fuel' =>
      let acc' := String (char_of (48 + n mod 10)) acc in
      if n <? 10 then acc' else pos_digits fuel' (n / 10) acc'
  end.

Definition str_of_nonneg (n : Z) : string :=
  pos_digits (S (Z.to_nat (Z.log2 n))) n EmptyString.

Definition py_str (n : Z) : string :=
  if n <? 0 then String "-" (str_of_nonneg (- n)) else str_of_nonneg n.

(** [str(n)] for any [int]: a text of more than [MAX_STR_DIGITS] digits, the
    sign apart, is not produced; the conversion raises [ValueError]. *)
Definition int_to_str (n : Z) : result string :=
  if MAX_STR_DIGITS <? Z.of_nat (String.length (str_of_nonneg (Z.abs n)))
  then Raise ValueError
  else Return (py_str n).

(** [raise E(f"... {n}")]: the message is built first, so for an integer the
    interpreter does not convert the statement raises [ValueError] in place
    of [E]. *)
Definition raise_with_int {A : Type} (n : Z) (e : exn) : result A :=
  match int_to_str n with
  | Return _ => Raise e
  | Raise e' => Raise e'
  end.

(** [format(n, 'x')] for [n >= 0], and the zero-padded [format(n, '08x')]. *)
Definition hex_char (d : Z) : ascii :=
  if d <? 10 then char_of (48 + d) else char_of (87 + d).

Fixpoint hex_digits (fuel : nat) (n : Z) (acc : string) : string :=
  match fuel with
  | O => acc
  | S fuel' =>
      let acc' := String (hex_char (n mod 16)) acc in
      if n <? 16 then acc' else hex_digits fuel' (n / 16) acc'
  end.

Fixpoint zero_pad (n : nat) (s : string) : string :=
  match n with
  | O => s
  | S n' => String "0" (zero_pad n' s)
  end.

Definition py_hex08 (n : Z) : string :=
  let h := hex_digits (S (Z.to_nat (Z.log2 n))) n EmptyString in
  zero_pad (8 - String.length h) h.

(** ** Python floats *)

(** A Python [float] is a binary64 number in canonical form. *)
Abbreviation pyfloat := spec_float.

Definition float_eqb (x y : pyfloat) : bool :=
  match x, y with
  | S754_zero a, S754_zero b => Bool.eqb a b
  | S754_infinity a, S754_infinity b => Bool.eqb a b
  | S754_nan, S754_nan => true
  | S754_finite a m e, S754_finite b m' e' =>
      Bool.eqb a b && Pos.eqb m m' && (e =? e')
  | _, _ => false
  end.

(** The binary64 number nearest to [n / d] (ties to even), for [0 <= n] and
    [0 < d]: the quotient is computed with at least 56 significant bits and a
    sticky bit, then rounded once. *)
Definition float_of_ratio (neg : bool) (n d : Z) : pyfloat :=
  if n =? 0 then S754_zero neg
  else
    let s := Z.max 0 (Z.log2 d - Z.log2 n + 56) in
    let q := (n * 2 ^ s) / d in
    let r := (n * 2 ^ s) mod d in
    let m := 2 * q + (if r =? 0 then 0 else 1) in
    binary_normalize 53 1024 (if neg then - m else m) (- s - 1) false.

(** The binary64 number nearest to [m * 10 ^ e] for [0 <= m]. *)
Definition float_of_decimal (neg : bool) (m e ndigits : Z) : pyfloat :=
  if m =? 0 then S754_zero neg
  else if 400 <? e then S754_infinity neg
  else if e + ndigits <? -400 then S754_zero neg
  else if 0 <=? e then float_of_ratio neg (m * 10 ^ e) 1
  else float_of_ratio neg m (10 ^ (- e)).

Definition is_digit (a : ascii) : bool :=
  let c := char_code a in (48 <=? c) && (c <=? 57).

(** Underscores in a numeric literal must stand between two digits; the
    literal is then read without them. *)
Fixpoint remove_underscores (prev_digit : bool) (s : string) : option string :=
  match s with
  | EmptyString => Some EmptyString
  | String a s' =>
      if Ascii.eqb a "_"
      then match s' with
           | String b _ =>
               if prev_digit && is_digit b then remove_underscores false s'
               else None
           | EmptyString => None
           end
      else match remove_underscores (is_digit a) s' with
           | Some r => Some (String a r)
           | None => None
           end
  end.

(** A maximal run of decimal digits: its value on top of [acc], the number of
    digits read and the rest of the text. *)
Fixpoint span_digits (acc count : Z) (s : string) : Z * Z * string :=
  match s with
  | String a s' =>
      if is_digit a then span_digits (10 * acc + (char_code a - 48)) (count + 1) s'
      else (acc, count, s)
  | EmptyString => (acc, count, s)
  end.

Definition lower (a : ascii) : ascii :=
  let c := char_code a in
  if (65 <=? c) && (c <=? 90) then char_of (c + 32) else a.

Fixpoint str_lower (s : string) : string :=
  match s with
  | String a s' => String (lower a) (str_lower s')
  | EmptyString => EmptyString
  end.

(** The optional exponent part of a float literal. *)
Definition float_exponent (s : string) : option Z :=
  match s with
  | EmptyString => Some 0
  | String c s' =>
      if Ascii.eqb (lower c) "e"
      then
        let '(neg, s'') :=
          match s' with
          | String "-" t => (true, t)
          | String "+" t => (false, t)
          | _ => (false, s')
          end in
        match span_digits 0 0 s'' with
        | (v, n, EmptyString) =>
            if 0 <? n then Some (if neg then - v else v) else None
        | _ => None
        end
      else None
  end.

(** [float(text)]; [None] stands for [ValueError]. *)
Definition py_float (text : string) : option pyfloat :=
  let s := number_strip text in
  let '(neg, s) :=
    match s with
    | String "-" s' => (true, s')
    | String "+" s' => (false, s')
    | _ => (false, s)
    end in
  let l := str_lower s in
  if String.eqb l "inf" || String.eqb l "infinity" then Some (S754_infinity neg)
  else if String.eqb l "nan" then Some S754_nan
  else
    match remove_underscores false s with
    | None => None
    | Some s =>
        let '(ip, ni, s1) := span_digits 0 0 s in
        let '(m, nf, s2) :=
          match s1 with
          | String "." t => span_digits ip 0 t
          | _ => (ip, 0, s1)
          end in
        if 0 <? ni + nf
        then match float_exponent s2 with
             | Some e => Some (float_of_decimal neg m (e - nf) (ni + nf))
             | None => None
             end
        else None
    end.

(** *** [format(x, 'g')] *)

(** [n / d] rounded to the nearest integer, ties to even, for [0 <= n],
    [0 < d]. *)
Definition round_half_even (n d : Z) : Z :=
  let q := n / d in
  let r := n mod d in
  if 2 * r <? d then q
  else if d <? 2 * r then q + 1
  else if Z.even q then q else q + 1.

(** [floor(log10(n / d))] for [0 < n], [0 < d]: an estimate from the bit
    lengths, corrected by exact comparisons. *)
Definition pow10_le (x n d : Z) : bool :=
  if 0 <=? x then 10 ^ x * d <=? n else d <=? n * 10 ^ (- x).

Definition floor_log10 (n d : Z) : Z :=
  let est := ((Z.log2 n - Z.log2 d) * 30103) / 100000 in
  if pow10_le (est + 2) n d then est + 2
  else if pow10_le (est + 1) n d then est + 1
  else if pow10_le est n d then est
  else if pow10_le (est - 1) n d then est - 1
  else est - 2.

(** The six significant digits of [n / d] and its decimal exponent, as
    printf's [%e] conversion with precision 5 chooses them. *)
Definition sig6 (n d : Z) : Z * Z :=
  let x := floor_log10 n d in
  let k := x - 5 in
  let digits :=
    if 0 <=? k then round_half_even n (d * 10 ^ k)
    else round_half_even (n * 10 ^ (- k)) d in
  if digits =? 1000000 then (100000, x + 1) else (digits, x).

Fixpoint rstrip_zeros (s : string) : string :=
  match s with
  | String a s' =>
      match rstrip_zeros s' with
      | EmptyString => if Ascii.eqb a "0" then EmptyString else String a EmptyString
      | r => String a r
      end
  | EmptyString => EmptyString
  end.

Fixpoint str_take (n : nat) (s : string) : string :=
  match n, s with
  | S n', String a s' => String a (str_take n' s')
  | _, _ => EmptyString
  end.

Definition with_fraction (int_part frac : string) : string :=
  match rstrip_zeros frac with
  | EmptyString => int_part
  | f => String.append int_part (String "." f)
  end.

Definition format_g_finite (neg : bool) (n d : Z) : string :=
  let '(digits, x) := sig6 n d in
  let ds := py_str digits in
  let body :=
    if (-4 <=? x) && (x <? 6)
    then
      if x <? 0
      then with_fraction "0" (zero_pad (Z.to_nat (- x - 1)) ds)
      else with_fraction (str_take (Z.to_nat (x + 1)) ds)
                         (str_drop (Z.to_nat (x + 1)) ds)
    else
      let ex := py_str (Z.abs x) in
      String.append (with_fraction (str_take 1 ds) (str_drop 1 ds))
        (String "e" (String (if x <? 0 then "-"%char else "+"%char)
           (if Z.abs x <? 10 then String "0" ex else ex)))
  in if neg then String "-" body else body.

(** [f"{x:g}"] *)
Definition format_g (x : pyfloat) : string :=
  match x with
  | S754_nan => "nan"
  | S754_infinity s => if s then "-inf" else "inf"
  | S754_zero s => if s then "-0" else "0"
  | S754_finite s m e =>
      if 0 <=? e then format_g_finite s (Zpos m * 2 ^ e) 1
      else format_g_finite s (Zpos m) (2 ^ (- e))
  end.

(** *** [struct.pack('<f', x)] and [struct.unpack('<f', b)] *)

(** The 32-bit pattern of a binary32 number in canonical form. *)
Definition bits_of_b32 (x : spec_float) : Z :=
  match x with
  | S754_zero s => if s then 0x80000000 else 0
  | S754_infinity s => if s then 0xFF800000 else 0x7F800000
  | S754_nan => 0x7FC00000
  | S754_finite s m e =>
      let sign := if s then 0x80000000 else 0 in
      if Zpos m <? 0x800000 then sign + Zpos m
      else sign + Z.shiftl (e + 150) 23 + (Zpos m - 0x800000)
  end.

(** [struct.pack('<f', x)]: the value is rounded to binary32 (ties to even);
    a finite value too large for binary32 raises [OverflowError]. *)
Definition pack_f (x : pyfloat) : result bytes :=
  match x with
  | S754_finite s m e =>
      match binary_normalize 24 128 (if s then Zneg m else Zpos m) e s with
      | S754_infinity _ => Raise OverflowError
      | y => Return (le_bytes 4 (bits_of_b32 y))
      end
  | _ => Return (le_bytes 4 (bits_of_b32 x))
  end.

(** [struct.unpack('<f', b)[0]] *)
Definition unpack_f (data : bytes) : result pyfloat :=
  if Nat.eqb (length data) 4
  then
    let u := le_value data in
    let s := Z.testbit u 31 in
    let ex := Z.land (Z.shiftr u 23) 0xFF in
    let frac := Z.land u 0x7FFFFF in
    Return
      (if ex =? 255 then (if frac =? 0 then S754_infinity s else S754_nan)
       else if ex =? 0 then
         (if frac =? 0 then S754_zero s
          else binary_normalize 53 1024 (if s then - frac else frac) (-149) s)
       else binary_normalize 53 1024
              (if s then - (frac + 0x800000) else frac + 0x800000) (ex - 150) s)
  else Raise StructError.

(** ** Strings: UTF-8, [repr] and [ast.literal_eval] *)

(** [value.decode('utf-8')], for byte strings whose code points stay below
    256; a sequence that decodes to a larger code point is outside the
    model. *)
Fixpoint utf8_decode (b : bytes) : result string :=
  match b with
  | [] => Return EmptyString
  | x :: b' =>
      let c := byte_val x in
      if c <? 0x80 then
        let* r := utf8_decode b' in Return (String (char_of c) r)
      else if (c =? 0xC2) || (c =? 0xC3) then
        match b' with
        | y :: b'' =>
            let d := byte_val y in
            if (0x80 <=? d) && (d <=? 0xBF) then
              let* r := utf8_decode b'' in
              Return (String (char_of (Z.lor (Z.shiftl (Z.land c 0x1F) 6)
                                           (Z.land d 0x3F))) r)
            else Raise UnicodeDecodeError
        | [] => Raise UnicodeDecodeError
        end
      else if (0xC4 <=? c) && (c <=? 0xF4) then Raise Unmodelled
      else Raise UnicodeDecodeError
  end.

(** [text.encode('utf-8')] *)
Fixpoint utf8_encode (s : string) : bytes :=
  match s with
  | EmptyString => []
  | String a s' =>
      let c := char_code a in
      if c <? 0x80 then byte_of c :: utf8_encode s'
      else byte_of (Z.lor 0xC0 (Z.shiftr c 6))
           :: byte_of (Z.lor 0x80 (Z.land c 0x3F)) :: utf8_encode s'
  end.

(** The double-quote character. *)
Definition DQUOTE : ascii := Ascii false true false false false true false false.

Fixpoint str_contains (a : ascii) (s : string) : bool :=
  match s with
  | String b s' => Ascii.eqb a b || str_contains a s'
  | EmptyString => false
  end.

Definition hex2 (c : Z) : string :=
  String (hex_char (c / 16)) (String (hex_char (c mod 16)) EmptyString).

(** [str.isprintable] on the code points below 256. *)
Definition py_isprintable (c : Z) : bool :=
  ((0x20 <=? c) && (c <? 0x7F)) || ((0xA1 <=? c) && negb (c =? 0xAD)).

Fixpoint repr_body (quote : ascii) (s : string) : string :=
  match s with
  | EmptyString => EmptyString
  | String a s' =>
      let c := char_code a in
      let r := repr_body quote s' in
      if Ascii.eqb a quote || Ascii.eqb a "\" then String "\" (String a r)
      else if c =? 9 then String "\" (String "t" r)
      else if c =? 10 then String "\" (String "n" r)
      else if c =? 13 then String "\" (String "r" r)
      else if py_isprintable c then String a r
      else String "\" (String "x" (String.append (hex2 c) r))
  end.

(** [repr(text)]: double quotes are used when the text holds a single quote
    and no double quote, single quotes otherwise. *)
Definition py_repr (s : string) : string :=
  let quote : ascii :=
    if str_contains "'" s && negb (str_contains DQUOTE s) then DQUOTE
    else "'"%char in
  String quote (String.append (repr_body quote s) (String quote EmptyString)).

Definition is_octal (a : ascii) : bool :=
  let c := char_code a in (48 <=? c) && (c <=? 55).

Definition hex_value (a : ascii) : option Z :=
  match digit_value a with
  | Some d => if d <? 16 then Some d else None
  | None => None
  end.

Definition code_point (c : Z) (r : result string) : result string :=
  if c <? 256 then (let* t := r in Return (String (char_of c) t))
  else Raise Unmodelled.

(** The body of a string literal (the text between the quotes), decoded as
    the Python tokenizer and [ast.literal_eval] do: no raw line break and no
    NUL, the escape sequences of the language, an unrecognised escape kept
    with its backslash.  Any failure is reported as [ValueError]; the caller
    catches every exception alike. *)
Fixpoint unescape (s : string) : result string :=
  match s with
  | EmptyString => Return EmptyString
  | String "\" EmptyString => Raise ValueError
  | String "\" (String e t) =>
      let c := char_code e in
      if c =? 0 then Raise ValueError
      else if c =? 10 then unescape t
      else if c =? 13 then
        match t with
        | String n t' => if char_code n =? 10 then unescape t' else unescape t
        | EmptyString => unescape t
        end
      else if Ascii.eqb e "\" || Ascii.eqb e "'" || Ascii.eqb e DQUOTE
      then code_point c (unescape t)
      else if Ascii.eqb e "a" then code_point 7 (unescape t)
      else if Ascii.eqb e "b" then code_point 8 (unescape t)
      else if Ascii.eqb e "f" then code_point 12 (unescape t)
      else if Ascii.eqb e "n" then code_point 10 (unescape t)
      else if Ascii.eqb e "r" then code_point 13 (unescape t)
      else if Ascii.eqb e "t" then code_point 9 (unescape t)
      else if Ascii.eqb e "v" then code_point 11 (unescape t)
      else if is_octal e then
        match t with
        | String o2 t2 =>
            if is_octal o2 then
              match t2 with
              | String o3 t3 =>
                  if is_octal o3
                  then code_point (64 * (c - 48) + 8 * (char_code o2 - 48)
                                   + (char_code o3 - 48)) (unescape t3)
                  else code_point (8 * (c - 48) + (char_code o2 - 48))
                                  (unescape t2)
              | EmptyString =>
                  code_point (8 * (c - 48) + (char_code o2 - 48)) (unescape t2)
              end
            else code_point (c - 48) (unescape t)
        | EmptyString => code_point (c - 48) (unescape t)
        end
      else if Ascii.eqb e "x" then
        match t with
        | String h1 (String h2 t') =>
            match hex_value h1, hex_value h2 with
            | Some a, Some b => code_point (16 * a + b) (unescape t')
            | _, _ => Raise ValueError
            end
        | _ => Raise ValueError
        end
      else if Ascii.eqb e "N" || Ascii.eqb e "u" || Ascii.eqb e "U"
      then Raise Unmodelled
      else let* r := unescape t in Return (String "\" (String e r))
  | String a t =>
      let c := char_code a in
      if (c =? 0) || (c =? 10) || (c =? 13) then Raise ValueError
      else let* r := unescape t in Return (String a r)
  end.

(** ** The data model of [space.py] *)

(** [SpaceData] and its subclasses.  [ByteData] is the [IntegerData] subclass
    with 8 unsigned bits and an optional label; [MessageData] is the
    [ListData] subclass that also keeps the deadline of the message type. *)
Inductive SpaceData : Type :=
| EmptyData (label : string)
| IntegerData (value : Z) (bits : Z) (signed : bool)
| ByteData (value : Z) (label : option string)
| FloatData (value : pyfloat) (units : option string)
| StringData (value : bytes)
| ListData (fields : list SpaceData) (sep : string)
| MessageData (fields : list SpaceData) (sep : string)
              (deadline : option pyfloat).

(** [IntegerData.__init__]: the range check of the constructor. *)
Definition IntegerData_init (value : Z) (bits : Z) (signed : bool)
  : result SpaceData :=
  let minimum := 0 in
  let maximum := Z.shiftl 1 bits - 1 in
  let minimum := if signed then minimum - Z.shiftl 1 (bits - 1) else minimum in
  let maximum := if signed then maximum - Z.shiftl 1 (bits - 1) else maximum in
  if (minimum <=? value) && (value <=? maximum)
  then Return (IntegerData value bits signed)
  else raise_with_int value ParameterInvalid.

(** [ByteData.__init__] *)
Definition ByteData_init (value : Z) (label : option string)
  : result SpaceData :=
  let* _ := IntegerData_init value 8 false in
  Return (ByteData value label).

(** [to_binary] *)
Fixpoint to_binary (d : SpaceData) : result bytes :=
  let join_all :=
    fix join_all (l : list SpaceData) : result bytes :=
      match l with
      | [] => Return []
      | x :: l' =>
          let* b := to_binary x in
          let* r := join_all l' in
          Return (b ++ r)
      end in
  match d with
  | EmptyData _ => Return []
  | IntegerData value bits signed =>
      let* fmt := struct_format bits signed in
      struct_pack fmt value
  | ByteData value _ =>
      let* fmt := struct_format 8 false in
      struct_pack fmt value
  | FloatData value _ => pack_f value
  | StringData value => Return (value ++ [x00])
  | ListData fields _ => join_all fields
  | MessageData fields _ _ => join_all fields
  end.

(** [to_text] *)
Fixpoint to_text (d : SpaceData) : result string :=
  let texts :=
    fix texts (l : list SpaceData) : result (list string) :=
      match l with
      | [] => Return []
      | x :: l' =>
          let* t := to_text x in
          let* r := texts l' in
          Return (t :: r)
      end in
  match d with
  | EmptyData label => Return label
  | IntegerData value _ _ => int_to_str value
  | ByteData value label =>
      match label with
      | Some l => Return l
      | None => int_to_str value
      end
  | FloatData value _ => Return (format_g value)
  | StringData value =>
      let* t := utf8_decode value in Return (py_repr t)
  | ListData fields sep =>
      let* ts := texts fields in Return (join sep ts)
  | MessageData fields sep _ =>
      let* ts := texts fields in Return (join sep ts)
  end.

(** The integer a [first.value] stands for as a dictionary key: an int, or a
    float equal to an int; a value of another type matches no integer key. *)
Definition float_int_value (x : pyfloat) : option Z :=
  match x with
  | S754_zero _ => Some 0
  | S754_finite s m e =>
      let v := if 0 <=? e then Some (Zpos m * 2 ^ e)
               else if Zpos m mod 2 ^ (- e) =? 0 then Some (Zpos m / 2 ^ (- e))
               else None in
      match v with
      | Some v => Some (if s then - v else v)
      | None => None
      end
  | _ => None
  end.

Definition dict_key (d : SpaceData) : option Z :=
  match d with
  | IntegerData v _ _ => Some v
  | ByteData v _ => Some v
  | FloatData x _ => float_int_value x
  | _ => None
  end.

(** [data[i]] ([ListData.__getitem__]): [IndexError] out of range,
    [TypeError] on an object that is not a list. *)
Definition getitem (d : SpaceData) (i : nat) : result SpaceData :=
  match d with
  | ListData fields _ | MessageData fields _ _ =>
      match fields !! i with
      | Some x => Return x
      | None => Raise IndexError
      end
  | _ => Raise TypeError
  end.

(** [bool(data)]: a list is true when it has fields ([ListData.__bool__]);
    any other object is true. *)
Definition truthy (d : SpaceData) : bool :=
  match d with
  | ListData fields _ | MessageData fields _ _ =>
      match fields with [] => false | _ => true end
  | _ => true
  end.

(** [len(data)] ([ListData.__len__]) *)
Definition data_len (d : SpaceData) : result nat :=
  match d with
  | ListData fields _ | MessageData fields _ _ => Return (length fields)
  | _ => Raise TypeError
  end.

(** ** Parsers *)

(** A parser object: its two methods and the attributes that other code
    reads from it. *)
Inductive SpaceParser : Type :=
| Parser (from_binary : bytes -> result (SpaceData * bytes))
         (from_text : string -> result (SpaceData * string))
         (attrs : ParserAttrs)
with ParserAttrs : Type :=
| NoAttrs
| IdentifierAttrs (_code_to_label : gmap Z string)
                  (_label_to_code : gmap string Z)
| PairAttrs (first_parser : SpaceParser) (default_parser : option SpaceParser)
            (_second_parsers : gmap Z (option SpaceParser))
            (_deadlines : option (gmap Z (option pyfloat)))
            (sep : string).

Definition from_binary (p : SpaceParser) : bytes -> result (SpaceData * bytes) :=
  match p with Parser fb _ _ => fb end.
Definition from_text (p : SpaceParser) : string -> result (SpaceData * string) :=
  match p with Parser _ ft _ => ft end.
Definition attrs (p : SpaceParser) : ParserAttrs :=
  match p with Parser _ _ a => a end.

(** *** [IntegerParser] and [ByteParser] *)

Definition IntegerParser_from_binary (bits : Z) (signed : bool) (binary : bytes)
  : result (SpaceData * bytes) :=
  let length := Z.to_nat ((bits + 7) / 8) in
  let parse := take length binary in
  let rest := drop length binary in
  let* fmt := struct_format bits signed in
  let* value := struct_unpack fmt parse in
  let* d := IntegerData_init value bits signed in
  Return (d, rest).

Definition IntegerParser_from_text (bits : Z) (signed : bool) (sep : string)
  (text : string) : result (SpaceData * string) :=
  let* (parse, rest) := split_sep sep text in
  let* value :=
    if startswith "0x" parse || startswith "0X" parse
    then match py_int_base 16 (str_drop 2 parse) with
         | Some value =>
             if signed && (Z.shiftl 1 (bits - 1) <=? value)
             then Return (value - Z.shiftl 1 bits)
             else Return value
         | None => Raise ParseError
         end
    else match py_int parse with
         | Some value => Return value
         | None => Raise ParseError
         end in
  let* d := IntegerData_init value bits signed in
  Return (d, rest).

Definition IntegerParser (bits : Z) (signed : bool) (sep : string)
  : SpaceParser :=
  Parser (IntegerParser_from_binary bits signed)
         (IntegerParser_from_text bits signed sep) NoAttrs.

Definition ByteParser (sep : string) : SpaceParser := IntegerParser 8 false sep.

(** *** [FloatParser] *)

Definition FloatParser_from_binary (units : option string) (binary : bytes)
  : result (SpaceData * bytes) :=
  let parse := take 4 binary in
  let rest := drop 4 binary in
  let* value := unpack_f parse in
  Return (FloatData value units, rest).

Definition FloatParser_from_text (units : option string) (sep : string)
  (text : string) : result (SpaceData * string) :=
  let* (parse, rest) := split_sep sep text in
  match py_float parse with
  | Some value => Return (FloatData value units, rest)
  | None => Raise ParseError
  end.

Definition FloatParser (units : option string) (sep : string) : SpaceParser :=
  Parser (FloatParser_from_binary units) (FloatParser_from_text units sep)
         NoAttrs.

(** *** [StringParser] *)

Fixpoint until_newline (s : string) : string :=
  match s with
  | String a s' =>
      if char_code a =? 10 then EmptyString else String a (until_newline s')
  | EmptyString => EmptyString
  end.

Definition StringParser_from_binary (binary : bytes)
  : result (SpaceData * bytes) :=
  match list_find (fun b => b = x00) binary with
  | None => Raise ParseError
  | Some (i, _) => Return (StringData (take i binary), drop (S i) binary)
  end.

(** The regular expression of the source matches an opening quote (single or
    double), the text up to the next quote of the same kind, and then the
    rest of the line. *)
Definition StringParser_from_text (sep : string) (text : string)
  : result (SpaceData * string) :=
  match text with
  | String q t =>
      if Ascii.eqb q "'" || Ascii.eqb q DQUOTE
      then
        match split_once (String q EmptyString) t with
        | None => Raise ParseError
        | Some (body, after) =>
            let* value :=
              match unescape body with
              | Return v => Return v
              | Raise Unmodelled => Raise Unmodelled
              | Raise _ => Raise ParseError
              end in
            let rest := until_newline after in
            let* rest :=
              match rest with
              | EmptyString => Return rest
              | _ => if startswith sep rest
                     then Return (str_drop (String.length sep) rest)
                     else Raise ParseError
              end in
            Return (StringData (utf8_encode value), rest)
        end
      else Raise ParseError
  | EmptyString => Raise ParseError
  end.

Definition StringParser (sep : string) : SpaceParser :=
  Parser StringParser_from_binary (StringParser_from_text sep) NoAttrs.

(** *** [IdentifierParser] *)

Record IdentifierTable : Type := {
  code_to_label : gmap Z string;
  label_to_code : gmap string Z
}.

Definition empty_table : IdentifierTable :=
  {| code_to_label := ∅; label_to_code := ∅ |}.

(** The loop of [IdentifierParser.add] over the label and its aliases. *)
Fixpoint add_aliases (l2c : gmap string Z) (code : Z) (aliases : list string)
  : result (gmap string Z) :=
  match aliases with
  | [] => Return l2c
  | alias :: rest =>
      match l2c !! alias with
      | Some c =>
          if negb (code =? c) then Raise InitializationError
          else add_aliases (<[alias := code]> l2c) code rest
      | None => add_aliases (<[alias := code]> l2c) code rest
      end
  end.

(** [IdentifierParser.add] *)
Definition IdentifierParser_add (t : IdentifierTable) (code : Z)
  (label : string) (aliases : list string) : result IdentifierTable :=
  if negb ((0 <=? code) && (code <=? 0xFF))
  then raise_with_int code ParameterInvalid
  else
    let* _ :=
      match code_to_label t !! code with
      | Some l => if negb (String.eqb label l) then Raise InitializationError
                  else Return tt
      | None => Return tt
      end in
    let c2l := <[code := label]> (code_to_label t) in
    let* l2c := add_aliases (label_to_code t) code
                  (label :: py_str code :: aliases) in
    Return {| code_to_label := c2l; label_to_code := l2c |}.

Definition IdentifierParser_from_binary (t : IdentifierTable) (binary : bytes)
  : result (SpaceData * bytes) :=
  match binary with
  | [] => Raise IndexError
  | b :: rest =>
      let code := byte_val b in
      match code_to_label t !! code with
      | None => Raise IdentifierUnknown
      | Some label =>
          let* d := ByteData_init code (Some label) in
          Return (d, rest)
      end
  end.

Definition IdentifierParser_from_text (t : IdentifierTable) (text : string)
  : result (SpaceData * string) :=
  let* (label, rest) := split_sep " " text in
  match label_to_code t !! label with
  | None => Raise IdentifierUnknown
  | Some code =>
      match code_to_label t !! code with
      | None => Raise KeyError
      | Some label =>
          let* d := ByteData_init code (Some label) in
          Return (d, rest)
      end
  end.

Definition IdentifierParser (t : IdentifierTable) : SpaceParser :=
  Parser (IdentifierParser_from_binary t) (IdentifierParser_from_text t)
         (IdentifierAttrs (code_to_label t) (label_to_code t)).

(** *** [ListParser] *)

(** The loop [while input and (max_length is None or len(fields) <
    max_length)].  With a [max_length] the loop runs at most that many times;
    without one it runs until the input is empty, and [fuel] is the length of
    the input: it runs out only when some call of the inner parser consumed
    nothing, and then the source loops forever. *)
Fixpoint list_loop {I : Type} (is_empty : I -> bool)
  (step : I -> result (SpaceData * I)) (bounded : bool) (fuel : nat)
  (fields : list SpaceData) (input : I) : result (list SpaceData * I) :=
  if is_empty input then Return (fields, input)
  else match fuel with
       | O => if bounded then Return (fields, input) else Raise Diverges
       | S fuel' =>
           let* (data, input') := step input in
           list_loop is_empty step bounded fuel' (fields ++ [data]) input'
       end.

Definition bytes_empty (b : bytes) : bool :=
  match b with [] => true | _ => false end.
Definition str_empty (s : string) : bool :=
  match s with EmptyString => true | _ => false end.

Definition ListParser_from_binary (parser : SpaceParser)
  (max_length : option nat) (sep : string) (binary : bytes)
  : result (SpaceData * bytes) :=
  let* (fields, binary) :=
    match max_length with
    | Some n => list_loop bytes_empty (from_binary parser) true n [] binary
    | None => list_loop bytes_empty (from_binary parser) false
                (length binary) [] binary
    end in
  Return (ListData fields sep, binary).

Definition ListParser_from_text (parser : SpaceParser)
  (max_length : option nat) (sep : string) (text : string)
  : result (SpaceData * string) :=
  let* (fields, text) :=
    match max_length with
    | Some n => list_loop str_empty (from_text parser) true n [] text
    | None => list_loop str_empty (from_text parser) false
                (String.length text) [] text
    end in
  Return (ListData fields sep, text).

Definition ListParser (parser : SpaceParser) (max_length : option nat)
  (sep : string) : SpaceParser :=
  Parser (ListParser_from_binary parser max_length sep)
         (ListParser_from_text parser max_length sep) NoAttrs.

(** *** [PairParser] *)

(** [self._second_parsers.get(first.value, self.default_parser)] *)
Definition second_parser (second : gmap Z (option SpaceParser))
  (default : option SpaceParser) (first : SpaceData) : option SpaceParser :=
  match dict_key first with
  | Some code =>
      match second !! code with
      | Some parser => parser
      | None => default
      end
  | None => default
  end.

(** [raise IdentifierUnknown(f"Unknown identifier value: {first.value}")] *)
Definition unknown_identifier {A : Type} (first : SpaceData) : result A :=
  match first with
  | IntegerData value _ _ | ByteData value _ =>
      raise_with_int value IdentifierUnknown
  | _ => Raise IdentifierUnknown
  end.

Definition PairParser_from_binary (first_parser : SpaceParser)
  (default : option SpaceParser) (second : gmap Z (option SpaceParser))
  (sep : string) (binary : bytes) : result (SpaceData * bytes) :=
  let* (first, binary) := from_binary first_parser binary in
  match second_parser second default first with
  | None =>
      if bytes_empty binary then Return (ListData [first] sep, binary)
      else unknown_identifier first
  | Some parser =>
      let* (second, rest) := from_binary parser binary in
      Return (ListData [first; second] sep, rest)
  end.

Definition PairParser_from_text (first_parser : SpaceParser)
  (default : option SpaceParser) (second : gmap Z (option SpaceParser))
  (sep : string) (text : string) : result (SpaceData * string) :=
  let* (first_text, second_text) := split_sep sep text in
  let* (first, rest) := from_text first_parser first_text in
  if negb (str_empty rest) then Raise ParseError
  else
    match second_parser second default first with
    | None =>
        if str_empty second_text
        then Return (ListData [first] sep, second_text)
        else unknown_identifier first
    | Some parser =>
        let* (second, rest) := from_text parser second_text in
        Return (ListData [first; second] sep, rest)
    end.

Definition PairParser_with (first_parser : SpaceParser)
  (default : option SpaceParser) (second : gmap Z (option SpaceParser))
  (sep : string) : SpaceParser :=
  Parser (PairParser_from_binary first_parser default second sep)
         (PairParser_from_text first_parser default second sep)
         (PairAttrs first_parser default second None sep).

(** [PairParser(first_parser, default_parser, sep)]: no code registered yet. *)
Definition PairParser (first_parser : SpaceParser)
  (default : option SpaceParser) (sep : string) : SpaceParser :=
  PairParser_with first_parser default ∅ sep.

(** *** [MessageParser] *)

Definition SPACE_PING : string := "ping".

(** [MINIMUM_DEADLINE = 0.002] *)
Definition MINIMUM_DEADLINE : pyfloat :=
  Eval vm_compute in
    match py_float "0.002" with Some x => x | None => S754_nan end.

Definition ping_message : SpaceData :=
  MessageData [EmptyData SPACE_PING] " " (Some MINIMUM_DEADLINE).

(** Re-wrapping of a parsed pair as a [MessageData] with the deadline of its
    type: [self._deadlines[message[0].value]]. *)
Definition wrap_message (deadlines : gmap Z (option pyfloat)) (sep : string)
  (message : SpaceData) : result SpaceData :=
  let* first := getitem message 0 in
  match dict_key first with
  | None => Raise KeyError
  | Some code =>
      match deadlines !! code with
      | None => Raise KeyError
      | Some deadline =>
          match message with
          | ListData fields _ => Return (MessageData fields sep deadline)
          | _ => Raise AttributeError
          end
      end
  end.

Definition MessageParser_from_binary (type_parser : SpaceParser)
  (default : option SpaceParser) (second : gmap Z (option SpaceParser))
  (deadlines : gmap Z (option pyfloat)) (sep : string) (binary : bytes)
  : result (SpaceData * bytes) :=
  if bytes_empty binary then Return (ping_message, [])
  else
    let* (message, rest) :=
      PairParser_from_binary type_parser default second sep binary in
    let* m := wrap_message deadlines sep message in
    Return (m, rest).

(** In the ping case the source returns the remainder [b''], a [bytes] object
    where a [str] is expected; every caller only tests it for emptiness. *)
Definition MessageParser_from_text (type_parser : SpaceParser)
  (default : option SpaceParser) (second : gmap Z (option SpaceParser))
  (deadlines : gmap Z (option pyfloat)) (sep : string) (text : string)
  : result (SpaceData * string) :=
  if String.eqb text SPACE_PING then Return (ping_message, EmptyString)
  else
    let* (message, rest) :=
      PairParser_from_text type_parser default second sep text in
    let* m := wrap_message deadlines sep message in
    Return (m, rest).

Definition MessageParser_with (type_parser : SpaceParser)
  (default : option SpaceParser) (second : gmap Z (option SpaceParser))
  (deadlines : gmap Z (option pyfloat)) (sep : string) : SpaceParser :=
  Parser (MessageParser_from_binary type_parser default second deadlines sep)
         (MessageParser_from_text type_parser default second deadlines sep)
         (PairAttrs type_parser default second (Some deadlines) sep).

(** [MessageParser(type_parser)]: no message type registered yet. *)
Definition MessageParser (type_parser : SpaceParser) : SpaceParser :=
  MessageParser_with type_parser None ∅ ∅ " ".

(** ** The frame codec of [SpaceProtocol] *)

Definition SYNC_SEQUENCE : bytes := [x1a; xce].
Definition COMMAND_BYTE : Z := 0xA0.
Definition REPLY_BYTE : Z := 0xB0.
Definition MAX_MESSAGE_SIZE : Z := 127.

(** [bytes((n,))]: [ValueError] unless [n] is in [range(256)]. *)
Definition bytes_of_int (n : Z) : result bytes :=
  if (0 <=? n) && (n <? 256) then Return [byte_of n] else Raise ValueError.

(** [SpaceProtocol._to_packet] *)
Definition _to_packet (address : Z) (message : SpaceData) : result bytes :=
  let packet := SYNC_SEQUENCE in
  let* b := bytes_of_int (Z.lor COMMAND_BYTE address) in
  let packet := packet ++ b in
  let* message_bytes := to_binary message in
  if MAX_MESSAGE_SIZE <? Z.of_nat (length message_bytes)
  then (let* _ := to_text message in Raise ParseError)
  else
    let* l := bytes_of_int (Z.of_nat (length message_bytes)) in
    let packet := packet ++ l ++ message_bytes in
    let crc := _crc16 (drop 2 packet) in
    let* c := struct_pack (2%nat, false) crc in
    Return (packet ++ c).

(** [SpaceProtocol._from_packet]: the pair [(message, status)], where
    [(None, None)] reports an incomplete or invalid packet. *)
Definition _from_packet (address : Z) (parser : SpaceParser) (packet : bytes)
  : result (option SpaceData * option Z) :=
  if (length packet <? 7)%nat
     || negb (bytes_eqb (take 2 packet) SYNC_SEQUENCE)
     || negb (byte_at 2 packet =? Z.lor REPLY_BYTE address)
  then Return (None, None)
  else
    let length_ := byte_at 4 packet in
    if (MAX_MESSAGE_SIZE <? length_)
       || negb (Z.of_nat (length packet) =? length_ + 7)
    then Return (None, None)
    else
      let n := Z.to_nat length_ in
      let crc := _crc16 (slice 2 (5 + n) packet) in
      let* c := struct_pack (2%nat, false) crc in
      if negb (bytes_eqb c (slice (5 + n) (7 + n) packet))
      then Return (None, None)
      else
        let status := byte_at 3 packet in
        let* (message, rest) := from_binary parser (slice 5 (5 + n) packet) in
        if bytes_empty rest then Return (Some message, Some status)
        else Raise AssertionError.

(** ** The transport of [SpaceProtocol] *)

(** The serial port: the packets written so far, and for each exchange still
    to come the outcomes of the successive [serial.read(1)] calls that fit
    before its deadline ([None]: no byte has arrived yet).  The wall clock is
    not modelled; it only decides how many reads fit. *)
Record Serial : Type := {
  written : list bytes;
  incoming : list (list (option byte))
}.

Record SpaceProtocol : Type := {
  address : Z;
  parser : SpaceParser;
  debug : bool;
  _status : option Z;
  serial : Serial
}.

Definition set_status (st : option Z) (self : SpaceProtocol) : SpaceProtocol :=
  {| address := address self; parser := parser self; debug := debug self;
     _status := st; serial := serial self |}.

Definition set_serial (p : Serial) (self : SpaceProtocol) : SpaceProtocol :=
  {| address := address self; parser := parser self; debug := debug self;
     _status := _status self; serial := p |}.

(** [SpaceProtocol.__init__] on an open port. *)
Definition SpaceProtocol_init (port : Serial) (address : Z)
  (message_parser : SpaceParser) (debug : bool) : result SpaceProtocol :=
  if negb ((0x00 <=? address) && (address <=? 0x0F))
  then raise_with_int address InitializationError
  else Return {| address := address; parser := message_parser; debug := debug;
                 _status := None; serial := port |}.

(** The receive loop of [send_message] over the reads that fit before the
    deadline: [reply] is the buffer accumulated so far.  The result is the
    decoded message with its status, or [None] when the deadline expires. *)
Fixpoint receive (address : Z) (parser : SpaceParser)
  (reads : list (option byte)) (reply : bytes)
  : result (option (SpaceData * option Z)) :=
  match reads with
  | [] => Return None
  | None :: reads' => receive address parser reads' reply
  | Some data :: reads' =>
      let reply := reply ++ [data] in
      let* (message, status) := _from_packet address parser reply in
      match message with
      | Some message => Return (Some (message, status))
      | None => receive address parser reads' reply
      end
  end.

(** The deadline [send_message] waits for: the argument, else the
    [deadline] attribute of the command (only a [MessageData] has one), else
    [MINIMUM_DEADLINE]. *)
Definition effective_deadline (command : SpaceData) (deadline : option pyfloat)
  : result pyfloat :=
  let* deadline :=
    match deadline with
    | Some d => Return (Some d)
    | None =>
        match command with
        | MessageData _ _ d => Return d
        | _ => Raise AttributeError
        end
    end in
  match deadline with
  | Some d => Return d
  | None => Return MINIMUM_DEADLINE
  end.

(** [SpaceProtocol.send_message]: the result and the session afterwards. *)
Definition send_message (self : SpaceProtocol) (command : SpaceData)
  (deadline : option pyfloat) : result (option SpaceData) * SpaceProtocol :=
  match effective_deadline command deadline with
  | Raise e => (Raise e, self)
  | Return _ =>
  match _to_packet (address self) command with
  | Raise e => (Raise e, self)
  | Return packet =>
      let port := serial self in
      let reads := match incoming port with [] => [] | r :: _ => r end in
      let self :=
        set_serial {| written := written port ++ [packet];
                      incoming := tail (incoming port) |} self in
      match receive (address self) (parser self) reads [] with
      | Raise e => (Raise e, self)
      | Return (Some (message, status)) =>
          (Return (Some message), set_status status self)
      | Return None => (Return None, self)
      end
  end
  end.

(** [SpaceProtocol.get_status] *)
Definition get_status (self : SpaceProtocol) : option Z := _status self.

(** ** The command catalog ([ace_common.py], [ace_max.py], [ace_radhard.py]) *)

(** [SpaceCommand] *)
Record SpaceCommand : Type := {
  command_code : Z;
  command_str : string;
  deadline : pyfloat;
  command_parser : option SpaceParser;
  reply_parser : option SpaceParser
}.

Definition reply_code (c : SpaceCommand) : Z := command_code c + 1.
Definition reply_str (c : SpaceCommand) : string :=
  String.append (command_str c) "_ack".

(** The successive [add] calls that fill a module-level identifier table. *)
Fixpoint add_all (t : IdentifierTable)
  (entries : list (Z * string * list string)) : result IdentifierTable :=
  match entries with
  | [] => Return t
  | (code, label, aliases) :: rest =>
      let* t' := IdentifierParser_add t code label aliases in
      add_all t' rest
  end.

(** The table a module defines; an exception in one of the [add] calls would
    abort the import of the module. *)
Definition table_of (entries : list (Z * string * list string))
  : IdentifierTable :=
  match add_all empty_table entries with
  | Return t => t
  | Raise _ => empty_table
  end.

Definition TRISTATE_entries : list (Z * string * list string) :=
  [(0, "off", ["disable"; "disabled"; "dis"; "idle"; "0"]);
   (1, "on", ["enable"; "enabled"; "en"; "active"; "1"]);
   (255, "n/a", ["?"; "unchanged"; "ignore"; "unknown"; "-1"])].

Definition VALVE_ID_entries : list (Z * string * list string) :=
  [(0, "latch0", []);
   (1, "latch1", []);
   (16, "nonlatch0", ["momentary0"; "non0"; "mom0"]);
   (17, "nonlatch1", ["momentary1"; "non1"; "mom1"]);
   (18, "nonlatch2", ["momentary2"; "non2"; "mom2"]);
   (19, "nonlatch3", ["momentary3"; "non3"; "mom3"])].

Definition VALVE_STATE_entries : list (Z * string * list string) :=
  [(0, "closed", ["close"; "deenergize"; "deenergized"]);
   (1, "open", ["opened"; "energize"; "energized"])].

Definition UART_ID_entries : list (Z * string * list string) :=
  [(0, "uart0", []);
   (1, "uart1", []);
   (2, "uart2", [])].

Definition TELEMETRY_ID_entries : list (Z * string * list string) :=
  [(1, "igniter_on", ["ig_en"]);
   (2, "lvps_voltage", ["lvps_v"]);
   (3, "lvps_duty", []);
   (4, "vbus_voltage", ["vbus_v"]);
   (5, "vbus_current", ["vbus_a"]);
   (6, "scrubber_sbe", []);
   (7, "scrubber_mbe", []);
   (8, "cpu_usage", []);
   (9, "cpu_delay", []);
   (10, "discharge_on", []);
   (11, "discharge_setpoint", []);
   (12, "discharge_period", []);
   (13, "discharge_voltage", ["discharge_v"]);
   (14, "discharge_cathode", []);
   (15, "discharge_current", ["discharge_a"]);
   (16, "thruster_state", []);
   (17, "thruster_attempts", []);
   (18, "discharge_current_mean", []);
   (19, "discharge_current_stddev", []);
   (20, "rtd1_discharge_q3", ["rtd1"; "rtd_1_temp"]);
   (21, "rtd2_discharge_q2", ["rtd2"; "rtd_2_temp"]);
   (22, "rtd3_discharge_q1", ["rtd3"; "rtd_3_temp"]);
   (23, "rtd4_discharge_transformer", ["rtd4"; "rtd_4_temp"]);
   (24, "thruster_temp", []);
   (25, "cpu_temp", []);
   (26, "thrust_duration", ["duration"]);
   (27, "flow_control_current", ["flow_c"; "pfcv"]);
   (30, "valve_latching_0_on", ["latch0"]);
   (31, "valve_latching_1_on", ["latch1"]);
   (32, "valve_nonlatching_0_on", ["nonlatch0"]);
   (33, "valve_nonlatching_1_on", ["nonlatch1"]);
   (34, "tank_pressure", ["tank_p"]);
   (35, "plenum_pressure", ["plenum_p"]);
   (36, "feed_target_pressure", ["feed_tar_p"]);
   (37, "feed_target_current", ["feed_tar_a"]);
   (38, "valve_nonlatching_2_on", ["nonlatch2"]);
   (39, "valve_nonlatching_3_on", ["nonlatch3"]);
   (40, "adc_ain0", []);
   (41, "adc_ain1", []);
   (42, "adc_ain2", []);
   (43, "adc_ain3", []);
   (44, "adc_ain4", []);
   (45, "adc_ain5", []);
   (46, "adc_ain6", []);
   (47, "adc_ain7", []);
   (50, "adc_amux00", []);
   (51, "adc_amux01", []);
   (52, "adc_amux02", []);
   (53, "adc_amux03", []);
   (54, "adc_amux04", []);
   (55, "adc_amux10", []);
   (56, "adc_amux11", []);
   (57, "adc_amux12", []);
   (58, "adc_amux13", []);
   (59, "adc_amux14", []);
   (60, "valve_latching_0_time", ["latch0_time"]);
   (61, "valve_latching_1_time", ["latch1_time"]);
   (62, "valve_nonlatching_0_time", ["nonlatch0_time"]);
   (63, "valve_nonlatching_1_time", ["nonlatch1_time"]);
   (64, "valve_nonlatching_2_time", ["nonlatch2_time"]);
   (65, "valve_nonlatching_3_time", ["nonlatch3_time"]);
   (70, "edu_load_current", ["load_a"]);
   (71, "edu_load_power", ["load_w"]);
   (72, "edu_load_temp", ["load_t"]);
   (73, "edu_fan_on", ["fan_on"]);
   (240, "zero", []);
   (241, "forty_two", []);
   (242, "time", [])].

Definition CHANNEL_ID_entries : list (Z * string * list string) :=
  [(0, "description", []);
   (1, "console_input", []);
   (2, "console_output", []);
   (3, "space_command", []);
   (4, "space_reply", [])].

Definition HEALTH_ID_entries : list (Z * string * list string) :=
  [(2, "lvps_voltage", ["lvps_v"]);
   (4, "vbus_voltage", ["vbus_v"]);
   (5, "vbus_current", ["vbus_a"]);
   (13, "discharge_voltage", ["discharge_v"]);
   (14, "discharge_cathode", []);
   (15, "discharge_current", ["discharge_a"]);
   (16, "discharge_overcurrent", []);
   (17, "thruster_attempts", []);
   (20, "rtd_1_temp", ["rtd1"]);
   (21, "rtd_2_temp", ["rtd2"]);
   (22, "rtd_3_temp", ["rtd3"]);
   (23, "rtd_4_temp", ["rtd4"]);
   (24, "thruster_temp", []);
   (25, "cpu_temp", []);
   (26, "thrust_duration", ["duration"]);
   (35, "plenum_pressure", []);
   (72, "edu_load_temp", ["load_t"]);
   (100, "feed_valve", []);
   (101, "feed_ignited", []);
   (102, "cpu_rebooted", ["boot"]);
   (103, "config_error", ["config"]);
   (255, "all", [])].

Definition CONFIG_ID_entries : list (Z * string * list string) :=
  [(1, "serial_num", ["serial"]);
   (2, "hw_variant", ["variant"]);
   (3, "space_address", ["address"]);
   (4, "part_number", ["part"; "part_num"]);
   (10, "edu_load_disable", []);
   (20, "flow_ignition_amps", []);
   (21, "feed_ignition_amps", []);
   (22, "feed_ignition_psi", []);
   (23, "feed_delta_psi", []);
   (24, "feed_stddev_amps", []);
   (30, "plenum_0psi_volts", []);
   (31, "plenum_ref_volts", []);
   (32, "plenum_ref_psi", []);
   (33, "tank_0psi_volts", []);
   (34, "tank_ref_volts", []);
   (35, "tank_ref_psi", []);
   (36, "vbus_offset_amps", []);
   (255, "all", [])].

Definition MAGCOIL_entries : list (Z * string * list string) :=
  [(0, "inner", ["in"; "0"]);
   (1, "outer", ["out"; "1"])].


Definition TRISTATE : SpaceParser := IdentifierParser (table_of TRISTATE_entries).
Definition VALVE_ID : SpaceParser := IdentifierParser (table_of VALVE_ID_entries).
Definition VALVE_STATE : SpaceParser :=
  IdentifierParser (table_of VALVE_STATE_entries).
Definition UART_ID : SpaceParser := IdentifierParser (table_of UART_ID_entries).
Definition TELEMETRY_ID : SpaceParser :=
  IdentifierParser (table_of TELEMETRY_ID_entries).
Definition CHANNEL_ID : SpaceParser :=
  IdentifierParser (table_of CHANNEL_ID_entries).
Definition HEALTH_ID : SpaceParser := IdentifierParser (table_of HEALTH_ID_entries).
Definition CONFIG_ID : SpaceParser := IdentifierParser (table_of CONFIG_ID_entries).
Definition MAGCOIL : SpaceParser := IdentifierParser (table_of MAGCOIL_entries).

(** A float literal of the source. *)
Definition float_lit (s : string) : pyfloat :=
  match py_float s with
  | Some x => x
  | None => S754_nan
  end.

(** Keyword defaults of the constructors: [sep=' '], [units=None],
    [max_length=None]; a [PairParser] defaults to [sep='=']. *)
Definition Float_ : SpaceParser := FloatParser None " ".
Definition String_ : SpaceParser := StringParser " ".
Definition Byte_ : SpaceParser := ByteParser " ".
Definition Int32_ : SpaceParser := IntegerParser 32 false " ".
Definition List_ (p : SpaceParser) : SpaceParser := ListParser p None " ".
Definition ListMax (p : SpaceParser) (n : nat) : SpaceParser :=
  ListParser p (Some n) " ".
Definition Pair_ (first second : SpaceParser) : SpaceParser :=
  PairParser first (Some second) "=".
Definition PairSp (first second : SpaceParser) : SpaceParser :=
  PairParser first (Some second) " ".

Definition TELEMETRY_FIELD : SpaceParser := Pair_ TELEMETRY_ID Float_.
Definition CHANNEL_ENABLE : SpaceParser := Pair_ CHANNEL_ID TRISTATE.

Definition CMD (code : Z) (name : string) (deadline : string)
  (command_parser reply_parser : option SpaceParser) : SpaceCommand :=
  {| command_code := code; command_str := name;
     deadline := float_lit deadline;
     command_parser := command_parser; reply_parser := reply_parser |}.

(** [ace_common.COMMANDS] *)
Definition COMMON_COMMANDS : list SpaceCommand :=
  [ CMD 0x10 "igniter" "0.002" (Some Float_) (Some Float_);
    CMD 0x12 "discharge" "0.002" (Some TRISTATE) (Some TRISTATE);
    CMD 0x16 "valve" "0.005"
      (Some (List_ (Pair_ VALVE_ID Float_)))
      (Some (List_ (Pair_ VALVE_ID VALVE_STATE)));
    CMD 0x18 "flow" "0.002" (Some (ListMax Float_ 1)) (Some Float_);
    CMD 0x1A "thrust" "0.002"
      (Some (PairSp TRISTATE (ListMax Float_ 4))) (Some TRISTATE);
    CMD 0x1C "feedpres" "0.002" (Some Float_) (Some Float_);
    CMD 0x1E "feedcur" "0.002" (Some Float_) (Some Float_);
    CMD 0x20 "tele" "0.005"
      (Some (List_ TELEMETRY_ID)) (Some (List_ TELEMETRY_FIELD));
    CMD 0x22 "telexl" "0.020"
      (Some (List_ TELEMETRY_ID)) (Some (List_ TELEMETRY_FIELD));
    CMD 0x24 "telefreq" "0.005"
      (Some (List_ TELEMETRY_FIELD)) (Some (List_ TELEMETRY_FIELD));
    CMD 0x26 "telechan" "0.005"
      (Some (List_ CHANNEL_ENABLE)) (Some (List_ CHANNEL_ENABLE));
    CMD 0x28 "telestart" "0.005"
      (Some (PairSp UART_ID Int32_)) (Some (PairSp UART_ID Int32_));
    CMD 0x2E "teleset" "0.020"
      (Some (List_ TELEMETRY_FIELD)) (Some (List_ TELEMETRY_FIELD));
    CMD 0x30 "henable" "0.020"
      (Some (List_ (Pair_ HEALTH_ID TRISTATE))) (Some (List_ HEALTH_ID));
    CMD 0x32 "htrip" "0.020"
      (Some (List_ HEALTH_ID)) (Some (List_ (Pair_ HEALTH_ID Float_)));
    CMD 0x34 "hreset" "0.005" (Some (List_ HEALTH_ID)) (Some (List_ HEALTH_ID));
    CMD 0x36 "hconfig" "0.005"
      (Some (PairSp HEALTH_ID (ListMax Float_ 3)))
      (Some (PairSp HEALTH_ID (ListMax Float_ 3)));
    CMD 0x40 "cvalue" "0.020"
      (Some (PairSp CONFIG_ID (ListMax Float_ 2)))
      (Some (PairSp CONFIG_ID (ListMax Float_ 3)));
    CMD 0x42 "cstring" "0.020"
      (Some (PairSp CONFIG_ID (ListMax String_ 2)))
      (Some (PairSp CONFIG_ID (ListMax String_ 3)));
    CMD 0x44 "cerase" "0.005" (Some CONFIG_ID) (Some (ListMax CONFIG_ID 1));
    CMD 0x02 "sysver" "0.020" None (Some String_);
    CMD 0x04 "echo" "0.020" (Some (List_ Byte_)) (Some (List_ Byte_));
    CMD 0x06 "delay" "0.100" (Some Float_) (Some Float_);
    CMD 0x08 "sysreset" "0.002" (Some Float_) (Some Float_);
    CMD 0x0A "syspeek" "0.020"
      (Some (PairSp Int32_ Byte_)) (Some (PairSp Int32_ (List_ Byte_)));
    CMD 0x0C "syspoke" "0.020"
      (Some (PairSp Int32_ (List_ Byte_))) (Some (PairSp Int32_ Byte_)) ].

(** The addition of [ace_max.py]. *)
Definition MAX_COMMANDS : list SpaceCommand :=
  [ CMD 0x14 "magcoil" "0.005"
      (Some (List_ (Pair_ MAGCOIL Float_)))
      (Some (List_ (Pair_ MAGCOIL Float_))) ].

(** [ace_max.py] extends the list of [ace_common] in place ([COMMANDS +=]),
    and [ace_radhard.COMMANDS] is that same list object: once [spacesuit.py]
    has imported both modules, either name denotes the extended list. *)
Definition COMMANDS : list SpaceCommand := COMMON_COMMANDS ++ MAX_COMMANDS.

(** *** Building the message parser ([get_protocol]) *)

(** [MessageParser.add(code, parser, deadline)].  The source tolerates a
    second registration of a code when it is given the very same parser
    object; the embedding has no object identity, so a second registration
    of a code is outside the model. *)
Definition MessageParser_add (mp : SpaceParser) (code : Z)
  (parser : option SpaceParser) (deadline : option pyfloat)
  : result SpaceParser :=
  match attrs mp with
  | PairAttrs first default second (Some deadlines) sep =>
      match second !! code with
      | Some _ => Raise Unmodelled
      | None =>
          Return (MessageParser_with first default (<[code := parser]> second)
                    (<[code := deadline]> deadlines) sep)
      end
  | _ => Raise AttributeError
  end.

Fixpoint add_message_types (t : IdentifierTable) (commands : list SpaceCommand)
  : result IdentifierTable :=
  match commands with
  | [] => Return t
  | c :: rest =>
      let* t := IdentifierParser_add t (command_code c) (command_str c) [] in
      let* t := IdentifierParser_add t (reply_code c) (reply_str c) [] in
      add_message_types t rest
  end.

Fixpoint add_message_parsers (mp : SpaceParser) (commands : list SpaceCommand)
  : result SpaceParser :=
  match commands with
  | [] => Return mp
  | c :: rest =>
      let* mp := MessageParser_add mp (command_code c) (command_parser c)
                   (Some (deadline c)) in
      let* mp := MessageParser_add mp (reply_code c) (reply_parser c) None in
      add_message_parsers mp rest
  end.

(** The message parser [get_protocol] builds from a command list. *)
Definition get_message_parser (commands : list SpaceCommand)
  : result SpaceParser :=
  let* message_type_parser := add_message_types empty_table commands in
  add_message_parsers (MessageParser (IdentifierParser message_type_parser))
                      commands.

(** The message parser of the tool for the catalog. *)
Definition message_parser : SpaceParser :=
  match get_message_parser COMMANDS with
  | Return mp => mp
  | Raise _ => MessageParser (IdentifierParser empty_table)
  end.

(** ** The logging session ([spacesuit.py]) *)

Definition LF : string := String (char_of 10) EmptyString.

(** [s.split('\n')] *)
Fixpoint split_lines (s : string) : list string :=
  match s with
  | EmptyString => [EmptyString]
  | String a s' =>
      if char_code a =? 10 then EmptyString :: split_lines s'
      else match split_lines s' with
           | l :: ls => String a l :: ls
           | [] => [String a EmptyString]
           end
  end.

(** The [value] attribute of a data object. *)
Inductive pyvalue : Type :=
| PNone
| PInt (n : Z)
| PFloat (x : pyfloat)
| PBytes (b : bytes).

Definition data_value (d : SpaceData) : pyvalue :=
  match d with
  | IntegerData v _ _ | ByteData v _ => PInt v
  | FloatData x _ => PFloat x
  | StringData b => PBytes b
  | _ => PNone
  end.

(** The [label] attribute, which only [ByteData] and [EmptyData] have. *)
Definition data_label (d : SpaceData) : result (option string) :=
  match d with
  | ByteData _ l => Return l
  | EmptyData l => Return (Some l)
  | _ => Raise AttributeError
  end.

(** What the tool sees of its environment besides the serial port: the files
    it can read (in binary and in text mode), the paths it cannot write to,
    the files it has written, the time stamps [timestamp()] will return and
    the [time.sleep] calls made. *)
Record World : Type := {
  files : gmap string bytes;
  text_files : gmap string string;
  unwritable : gset string;
  saved : list (string * string);
  clock : list string;
  slept : list pyfloat
}.

(** [LoggingSpaceProtocol]: the inherited [SpaceProtocol] and the attributes
    of the subclass.  [logfile] is the list of strings written to the log. *)
Record LoggingSpaceProtocol : Type := {
  base : SpaceProtocol;
  logfile : list string;
  macros : gmap string string;
  echo : bool;
  telemetry : gmap (option string) pyvalue;
  world : World
}.

Definition set_base (b : SpaceProtocol) (s : LoggingSpaceProtocol) :=
  {| base := b; logfile := logfile s; macros := macros s; echo := echo s;
     telemetry := telemetry s; world := world s |}.
Definition set_logfile (l : list string) (s : LoggingSpaceProtocol) :=
  {| base := base s; logfile := l; macros := macros s; echo := echo s;
     telemetry := telemetry s; world := world s |}.
Definition set_echo (e : bool) (s : LoggingSpaceProtocol) :=
  {| base := base s; logfile := logfile s; macros := macros s; echo := e;
     telemetry := telemetry s; world := world s |}.
Definition set_telemetry (t : gmap (option string) pyvalue)
  (s : LoggingSpaceProtocol) :=
  {| base := base s; logfile := logfile s; macros := macros s; echo := echo s;
     telemetry := t; world := world s |}.
Definition set_world (w : World) (s : LoggingSpaceProtocol) :=
  {| base := base s; logfile := logfile s; macros := macros s; echo := echo s;
     telemetry := telemetry s; world := w |}.

(** *** The monad of session methods: state and exceptions *)

Definition M (A : Type) : Type :=
  LoggingSpaceProtocol -> result A * LoggingSpaceProtocol.

Definition ret {A : Type} (a : A) : M A := fun s => (Return a, s).
Definition raise {A : Type} (e : exn) : M A := fun s => (Raise e, s).
Definition bind {A B : Type} (m : M A) (k : A -> M B) : M B :=
  fun s => match m s with
           | (Return a, s') => k a s'
           | (Raise e, s') => (Raise e, s')
           end.
Definition lift {A : Type} (r : result A) : M A := fun s => (r, s).
Definition gets {A : Type} (f : LoggingSpaceProtocol -> A) : M A :=
  fun s => (Return (f s), s).
Definition modify (f : LoggingSpaceProtocol -> LoggingSpaceProtocol) : M unit :=
  fun s => (Return tt, f s).

Notation "'let!' p ':=' m 'in' k" := (bind m (fun p => k))
  (at level 10, p pattern, m at level 100, k at level 200).

(** [try: body finally: cleanup], for a cleanup that only assigns. *)
Definition try_finally {A : Type} (body : M A)
  (cleanup : LoggingSpaceProtocol -> LoggingSpaceProtocol) : M A :=
  fun s => match body s with
           | (r, s') => (r, cleanup s')
           end.

(** [try: body except E: handler], where [handles] selects the class [E]. *)
Definition try_except {A : Type} (body : M A) (handles : exn -> bool)
  (handler : M A) : M A :=
  fun s => match body s with
           | (Raise e, s') => if handles e then handler s' else (Raise e, s')
           | r => r
           end.

Definition when (b : bool) (m : M unit) : M unit := if b then m else ret tt.

Fixpoint for_each {A : Type} (l : list A) (body : A -> M unit) : M unit :=
  match l with
  | [] => ret tt
  | x :: l' => let! _ := body x in for_each l' body
  end.

(** [self.logfile.write(text)] *)
Definition write_log (text : string) : M unit :=
  modify (fun s => set_logfile (logfile s ++ [text]) s).

(** [self.timestamp()]: the next time stamp of the environment. *)
Definition timestamp : M string :=
  fun s =>
    match clock (world s) with
    | [] => (Return "00000000T000000.000Z", s)
    | t :: rest =>
        (Return t,
         set_world {| files := files (world s);
                      text_files := text_files (world s);
                      unwritable := unwritable (world s);
                      saved := saved (world s);
                      clock := rest; slept := slept (world s) |} s)
    end.

(** [time.sleep(delay)] *)
Definition sleep (delay : pyfloat) : M unit :=
  match delay with
  | S754_nan => raise ValueError
  | S754_infinity false => raise OverflowError
  | S754_infinity true | S754_finite true _ _ => raise ValueError
  | _ =>
      modify (fun s =>
        set_world {| files := files (world s);
                     text_files := text_files (world s);
                     unwritable := unwritable (world s);
                     saved := saved (world s);
                     clock := clock (world s);
                     slept := slept (world s) ++ [delay] |} s)
  end.

(** [open(path, 'rb').read()] and [open(path, 'r').read()]; [None] stands
    for [FileNotFoundError]. *)
Definition read_binary (path : string) : M (option bytes) :=
  gets (fun s => files (world s) !! path).
Definition read_text (path : string) : M (option string) :=
  gets (fun s => text_files (world s) !! path).

(** [open(path, 'w').write(text)]; [false] stands for
    [FileNotFoundError]. *)
Definition write_text (path : string) (text : string) : M bool :=
  fun s =>
    if decide (path ∈ unwritable (world s)) then (Return false, s)
    else (Return true,
          set_world {| files := files (world s);
                       text_files := <[path := text]> (text_files (world s));
                       unwritable := unwritable (world s);
                       saved := saved (world s) ++ [(path, text)];
                       clock := clock (world s);
                       slept := slept (world s) |} s).

(** *** [status_label] *)

Definition STATUS_FLAGS : list (Z * string) :=
  [(0x80, "SYSTEM_FAULT"); (0x40, "OPERATIONAL_FAULT"); (0x20, "[reserved]");
   (0x10, "[reserved]"); (0x08, "[reserved]"); (0x04, "[reserved]");
   (0x02, "THRUSTING"); (0x01, "BUSY"); (0x00, "IDLE")].

(** [status_label]: the flags in decreasing order of their mask, which is
    the order of [STATUS_FLAGS] above. *)
Definition status_label (status : Z) : string :=
  let labels :=
    omap (fun '(mask, label) =>
            if negb (mask =? 0) && negb (Z.land mask status =? 0)
            then Some label else None) STATUS_FLAGS in
  match labels with
  | [] => "IDLE"
  | _ => join "," labels
  end.

(** [str(status)] for the value [get_status()] returns. *)
Definition str_status (status : option Z) : string :=
  match status with
  | Some n => py_str n
  | None => "None"
  end.

(** *** [LoggingSpaceProtocol.send_message] *)

(** The call [super().send_message(command, **kwargs)]. *)
Definition super_send_message (command : SpaceData) (deadline : option pyfloat)
  : M (option SpaceData) :=
  fun s =>
    match send_message (base s) command deadline with
    | (r, b) => (r, set_base b s)
    end.

(** The loop that stores the fields of a telemetry reply:
    [self.telemetry[field[0].label] = field[1].value]. *)
Definition store_field (field : SpaceData) : M unit :=
  let! f0 := lift (getitem field 0) in
  let! label := lift (data_label f0) in
  let! f1 := lift (getitem field 1) in
  modify (fun s => set_telemetry (<[label := data_value f1]> (telemetry s)) s).

Definition is_telemetry_reply (reply : SpaceData) : result bool :=
  let* n := data_len reply in
  if Nat.eqb n 2
  then
    let* r0 := getitem reply 0 in
    match dict_key r0 with
    | Some v => Return ((v =? 0x21) || (v =? 0x23))
    | None => Return false
    end
  else Return false.

Definition LoggingSpaceProtocol_send_message (command : SpaceData)
  (logged : bool) (deadline : option pyfloat) : M (option SpaceData) :=
  let! _ :=
    when logged
      (let! ts := timestamp in
       let! _ := write_log ("# " +:+ ts +:+ LF) in
       let! t := lift (to_text command) in
       write_log ("> " +:+ t +:+ LF)) in
  let! reply := super_send_message command deadline in
  let! output :=
    match reply with
    | Some reply =>
        let! status := gets (fun s => get_status (base s)) in
        let label :=
          match status with
          | Some n => Return (status_label n)
          | None => Raise TypeError
          end in
        let! label := lift label in
        let output := "# Status: " +:+ str_status status +:+ " (" +:+ label
                      +:+ ")" +:+ LF in
        let! t := lift (to_text reply) in
        let output := output +:+ "< " +:+ t +:+ LF +:+ LF in
        let! tele := lift (is_telemetry_reply reply) in
        let! _ :=
          when tele
            (let! r1 := lift (getitem reply 1) in
             match r1 with
             | ListData fields _ | MessageData fields _ _ =>
                 for_each fields store_field
             | _ => raise TypeError
             end) in
        ret output
    | None => ret ("# No reply received" +:+ LF +:+ LF)
    end in
  let! _ := when logged (write_log output) in
  ret reply.

(** [send_text] as inherited by the session: its call of [send_message] is
    the method of the subclass. *)
Definition send_text (command : string) (logged : bool)
  : M (option string) :=
  let! p := gets (fun s => parser (base s)) in
  let! (message, rest) := lift (from_text p command) in
  if negb (str_empty rest) then raise ParseError
  else
    let! reply := LoggingSpaceProtocol_send_message message logged None in
    match reply with
    | None => ret None
    | Some reply => let! t := lift (to_text reply) in ret (Some t)
    end.

(** *** [crc32] *)

Definition crc32_bit (polynomial : Z) (crc : Z) : Z :=
  if negb (Z.land crc 0x01 =? 0)
  then Z.lxor (Z.shiftr crc 1) polynomial
  else Z.shiftr crc 1.

Definition crc32_byte (polynomial : Z) (crc : Z) (b : byte) : Z :=
  Nat.iter 8 (crc32_bit polynomial) (Z.lxor crc (byte_val b)).

(** [LoggingSpaceProtocol.crc32] *)
Definition crc32_poly (data : bytes) (polynomial : Z) : Z :=
  Z.lxor (fold_left (crc32_byte polynomial) data 0xFFFFFFFF) 0xFFFFFFFF.

Definition crc32 (data : bytes) : Z := crc32_poly data 0x82F63B78.

(** [int.from_bytes(b, "little", signed=False)] *)
Definition int_from_bytes (b : bytes) : Z := le_value b.

(** *** The scripted macros *)

(** [data[offset:offset + PIECE_SIZE]] for the offsets of
    [range(0, len(data), PIECE_SIZE)]. *)
Definition PIECE_SIZE : nat := 64.

Fixpoint pieces (fuel : nat) (data : bytes) : list bytes :=
  match fuel with
  | O => []
  | S fuel' =>
      match data with
      | [] => []
      | _ => take PIECE_SIZE data :: pieces fuel' (drop PIECE_SIZE data)
      end
  end.

(** The type of the method [run_line(line, echo_input, logged)]. *)
Definition run_line_t : Type := string -> bool -> bool -> M (option string).

(** [run_script].  A [SpaceError] aborts the script and is not passed on. *)
Definition run_script_with (run_line : run_line_t) (script_data : string)
  (logged : bool) : M unit :=
  try_except
    (for_each (split_lines script_data)
       (fun line => let! _ := run_line line true logged in ret tt))
    is_space_error
    (ret tt).

(** The loop of [flash_binary] over the pieces of the image. *)
Fixpoint flash_pieces (run_line : run_line_t) (address : Z) (logged : bool)
  (offset : Z) (ps : list bytes) : M unit :=
  match ps with
  | [] => ret tt
  | piece :: rest =>
      let piece_str := join " " (map (fun x => py_str (byte_val x)) piece) in
      let command := "syspoke 0x" +:+ py_hex08 (address + offset) +:+ " "
                     +:+ piece_str in
      let! reply := run_line command true logged in
      let expected := "syspoke_ack " +:+ py_str (address + offset) +:+ " "
                      +:+ py_str (Z.of_nat (length piece)) in
      if negb (bool_decide (reply = Some expected)) then raise SpaceError
      else flash_pieces run_line address logged
             (offset + Z.of_nat PIECE_SIZE) rest
  end.

(** [flash_binary] *)
Definition flash_binary (run_line : run_line_t) (address : Z) (data : bytes)
  (progress : bool) (logged : bool) : M unit :=
  let! orig_echo := gets echo in
  let! _ := modify (set_echo false) in
  try_finally
    (flash_pieces run_line address logged 0 (pieces (length data) data))
    (set_echo orig_echo).

(** The regular expression of [load_config], matched from the start of the
    line: a lazy group (the label), a colon and a space, a lazy group (the live
    value), a space and an opening parenthesis, a lazy group (the default),
    optionally an arrow between spaces and a greedy group (the local value),
    and a closing parenthesis at the end of the line.  Each lazy group takes
    the shortest text for which the rest of the pattern matches; the optional
    part is tried before its omission. *)
Fixpoint strip_closing (s : string) : option string :=
  match s with
  | EmptyString => None
  | String a EmptyString =>
      if Ascii.eqb a ")" then Some EmptyString else None
  | String a s' =>
      match strip_closing s' with
      | Some t => Some (String a t)
      | None => None
      end
  end.

Fixpoint match_default (s : string) : option (string * option string) :=
  let here :=
    if startswith " -> " s
    then match strip_closing (str_drop 4 s) with
         | Some local => Some (EmptyString, Some local)
         | None => None
         end
    else None in
  match here with
  | Some r => Some r
  | None =>
      if String.eqb s ")" then Some (EmptyString, None)
      else match s with
           | String a s' =>
               match match_default s' with
               | Some (d, l) => Some (String a d, l)
               | None => None
               end
           | EmptyString => None
           end
  end.

Fixpoint match_live (s : string) : option (string * string * option string) :=
  let here :=
    if startswith " (" s then match_default (str_drop 2 s) else None in
  match here with
  | Some (d, l) => Some (EmptyString, d, l)
  | None =>
      match s with
      | String a s' =>
          match match_live s' with
          | Some (v, d, l) => Some (String a v, d, l)
          | None => None
          end
      | EmptyString => None
      end
  end.

Fixpoint match_config_line (s : string)
  : option (string * string * string * option string) :=
  let here :=
    if startswith ": " s then match_live (str_drop 2 s) else None in
  match here with
  | Some (v, d, l) => Some (EmptyString, v, d, l)
  | None =>
      match s with
      | String a s' =>
          match match_config_line s' with
          | Some (k, v, d, l) => Some (String a k, v, d, l)
          | None => None
          end
      | EmptyString => None
      end
  end.

(** [not reply] for a reply that is a message or [None]. *)
Definition no_reply (reply : option SpaceData) : bool :=
  match reply with
  | None => true
  | Some r => negb (truthy r)
  end.

(** [try: ... except IndexError: raise SpaceError(f"... {reply.to_text()}")] *)
Definition index_error_to_space_error {A : Type} (reply : SpaceData)
  (body : M A) : M A :=
  try_except body
    (fun e => match e with IndexError => true | _ => false end)
    (let! _ := lift (to_text reply) in raise SpaceError).

(** The body of the loop of [load_config]. *)
Definition load_config_line (run_line : run_line_t) (logged : bool)
  (line : string) : M unit :=
  if str_empty line || startswith "#" line then ret tt
  else
    match match_config_line line with
    | None => raise SpaceError
    | Some (g1, g2, g3, g4) =>
        let command :=
          if startswith (String DQUOTE EmptyString) g2 || startswith "'" g2
          then "cstring" else "cvalue" in
        let command := command +:+ " " +:+ g1 +:+ " " +:+ g2 in
        let default := g3 in
        let local_value :=
          match g4 with
          | Some l => if str_empty l then None else Some l
          | None => None
          end in
        let! command :=
          match local_value with
          | Some l => ret (command +:+ " " +:+ l)
          | None =>
              let! reply := run_line ("cerase " +:+ g1) true logged in
              match reply with
              | None => raise SpaceError
              | Some r =>
                  if str_empty r || String.eqb r "cerase_ack "
                  then raise SpaceError
                  else ret command
              end
          end in
        let! p := gets (fun s => parser (base s)) in
        let! (message, _) := lift (from_text p command) in
        let! reply := LoggingSpaceProtocol_send_message message logged None in
        match reply with
        | None => raise SpaceError
        | Some reply =>
            if negb (truthy reply) then raise SpaceError
            else
              let! _new_default :=
                index_error_to_space_error reply
                  (let! r1 := lift (getitem reply 1) in
                   let! r11 := lift (getitem r1 1) in
                   let! r111 := lift (getitem r11 1) in
                   lift (to_text r111)) in
              ret tt
        end
    end.

(** [load_config] *)
Definition load_config (run_line : run_line_t) (config : string)
  (logged : bool) : M unit :=
  let! orig_echo := gets echo in
  let! _ := modify (set_echo false) in
  try_finally
    (for_each (split_lines config) (load_config_line run_line logged))
    (set_echo orig_echo).

(** [sorted(config_fields.items())] *)
Definition item_le (x y : Z * string) : Prop := x.1 <= y.1.
#[global] Instance item_le_dec : RelDecision item_le.
Proof. intros x y. unfold item_le. apply _. Defined.

Definition sorted_items (m : gmap Z string) : list (Z * string) :=
  merge_sort item_le (map_to_list m).

(** The attribute reads of [save_config]:
    [self.parser.first_parser._label_to_code['cerase']] and
    [self.parser._second_parsers[cerase_code]._code_to_label]. *)
Definition config_fields_of (p : SpaceParser) : result (gmap Z string) :=
  match attrs p with
  | PairAttrs first _ second _ _ =>
      match attrs first with
      | IdentifierAttrs _ l2c =>
          match l2c !! "cerase" with
          | None => Raise KeyError
          | Some cerase_code =>
              match second !! cerase_code with
              | None => Raise KeyError
              | Some (Some q) =>
                  match attrs q with
                  | IdentifierAttrs c2l _ => Return c2l
                  | _ => Raise AttributeError
                  end
              | Some None => Raise AttributeError
              end
          end
      | _ => Raise AttributeError
      end
  | _ => Raise AttributeError
  end.

(** [params = reply[1][1]] *)
Definition reply_params (reply : SpaceData) : M SpaceData :=
  let! r1 := lift (getitem reply 1) in
  lift (getitem r1 1).

(** The [try] block in the loop of [save_config]: the parameters of the
    reply, asked again as a string when the numeric reply has none.  It
    yields the reply last received together with its parameters. *)
Definition fetch_params (logged : bool) (label : string) (reply : SpaceData)
  : M (SpaceData * SpaceData) :=
  let! params := index_error_to_space_error reply (reply_params reply) in
  if truthy params then ret (reply, params)
  else
    let! reply' :=
      index_error_to_space_error reply
        (let! p := gets (fun s => parser (base s)) in
         let! (command, _) := lift (from_text p ("cstring " +:+ label)) in
         let! r := LoggingSpaceProtocol_send_message command logged None in
         if no_reply r
         then (let! _ := lift (to_text command) in raise SpaceError)
         else match r with
              | Some r' => ret r'
              | None => raise SpaceError
              end) in
    let! params := index_error_to_space_error reply' (reply_params reply') in
    ret (reply', params).

(** The body of the loop of [save_config]: the line of the snapshot for one
    parameter, or [None] when the thruster does not answer for it. *)
Definition save_config_field (logged : bool) (label : string)
  : M (option string) :=
  let! p := gets (fun s => parser (base s)) in
  let! (command, _) := lift (from_text p ("cvalue " +:+ label)) in
  let! reply := LoggingSpaceProtocol_send_message command logged None in
  match reply with
  | None => ret None
  | Some reply =>
      if negb (truthy reply) then ret None
      else
        let! (reply, params) := fetch_params logged label reply in
        let! n := lift (data_len params) in
        if Nat.eqb n 2 then
          let! p0 := lift (getitem params 0) in
          let! t0 := lift (to_text p0) in
          let! p1 := lift (getitem params 1) in
          let! t1 := lift (to_text p1) in
          ret (Some (label +:+ ": " +:+ t0 +:+ " (" +:+ t1 +:+ ")"))
        else if Nat.eqb n 3 then
          let! p0 := lift (getitem params 0) in
          let! t0 := lift (to_text p0) in
          let! p1 := lift (getitem params 1) in
          let! t1 := lift (to_text p1) in
          let! p2 := lift (getitem params 2) in
          let! t2 := lift (to_text p2) in
          ret (Some (label +:+ ": " +:+ t0 +:+ " (" +:+ t1 +:+ " -> " +:+ t2
                     +:+ ")"))
        else (let! _ := lift (to_text reply) in raise SpaceError)
  end.

(** The loop of [save_config] over the sorted configuration fields. *)
Fixpoint save_config_fields (logged : bool) (fields : list (Z * string))
  (config : string) : M string :=
  match fields with
  | [] => ret config
  | (_, label) :: rest =>
      if String.eqb label "all" then save_config_fields logged rest config
      else
        let! line := save_config_field logged label in
        match line with
        | None => save_config_fields logged rest config
        | Some line => save_config_fields logged rest (config +:+ line +:+ LF)
        end
  end.

(** [save_config] *)
Definition save_config (run_line : run_line_t) (logged : bool) : M string :=
  let! orig_echo := gets echo in
  let! _ := modify (set_echo false) in
  try_finally
    (let! sysver := run_line "sysver" true logged in
     let! created := timestamp in
     let config :=
       "# SPACESUIT thruster configuration parameters snapshot" +:+ LF
       +:+ "# Created: " +:+ created +:+ LF
       +:+ "# " +:+ match sysver with Some v => v | None => "None" end
       +:+ LF in
     let! p := gets (fun s => parser (base s)) in
     let! config_fields := lift (config_fields_of p) in
     save_config_fields logged (sorted_items config_fields) config)
    (set_echo orig_echo).

(** *** [run_line] *)

(** The body of [run_line]; [run_line] stands for the method itself in the
    recursive calls ([self.run_line]). *)
Definition run_line_body (run_line : run_line_t) (line : string)
  (echo_input : bool) (logged : bool) : M (option string) :=
  let line := strip line in
  if str_empty line || startswith "#" line || startswith "<" line
  then ret None
  else
    let line := if startswith ">" line then strip (str_drop 1 line) else line in
    let! macro := gets (fun s => macros s !! line) in
    match macro with
    | Some body =>
        let! _ := when logged (write_log ("# MACRO: " +:+ line +:+ LF)) in
        let! _ := run_script_with run_line body logged in
        ret None
    | None =>
        if startswith "pause " line then
          match py_float (str_drop 6 line) with
          | None => raise ParseError
          | Some delay =>
              let! _ :=
                when logged
                  (let! ts := timestamp in
                   let! _ := write_log ("# " +:+ ts +:+ LF) in
                   write_log ("> pause " +:+ format_g delay +:+ LF +:+ LF)) in
              let! _ := sleep delay in
              ret None
          end
        else if startswith "flash " line then
          let! _ :=
            when logged
              (let! ts := timestamp in
               let! _ := write_log ("# " +:+ ts +:+ LF) in
               write_log ("# " +:+ line +:+ LF +:+ LF)) in
          let! data := read_binary (str_drop 6 line) in
          match data with
          | None => raise SpaceError
          | Some data =>
              let len := length data in
              if (len <? 64 * 1024)%nat || ((256 - 32) * 1024 <=? len)%nat
              then raise SpaceError
              else
                let length_ := int_from_bytes (slice 32 36 data) in
                let crc := int_from_bytes (drop (len - 4) data) in
                if negb (length_ =? Z.of_nat len - 4)
                   || negb (crc =? crc32 (take (len - 4) data))
                then raise SpaceError
                else
                  let address := 0x80008000 in
                  let! progress := gets echo in
                  let! _ := flash_binary run_line address data progress logged in
                  run_line "sysreset 0.1" true logged
          end
        else if startswith "flashboot " line then
          let! _ :=
            when logged
              (let! ts := timestamp in
               let! _ := write_log ("# " +:+ ts +:+ LF) in
               write_log ("# " +:+ line +:+ LF +:+ LF)) in
          let! data := read_binary (str_drop 10 line) in
          match data with
          | None => raise SpaceError
          | Some data =>
              let len := length data in
              if (len <? 8 * 1024)%nat || (32 * 1024 <=? len)%nat
              then raise SpaceError
              else
                let address := 0x80000000 in
                let! progress := gets echo in
                let! _ := flash_binary run_line address data progress logged in
                run_line "sysreset 0.1" true logged
          end
        else if startswith "cload " line then
          let! _ :=
            when logged
              (let! ts := timestamp in
               let! _ := write_log ("# " +:+ ts +:+ LF) in
               write_log ("# " +:+ line +:+ LF +:+ LF)) in
          let! config := read_text (str_drop 6 line) in
          match config with
          | None => raise SpaceError
          | Some config =>
              let! _ := load_config run_line config logged in
              ret None
          end
        else if startswith "csave " line then
          let! _ :=
            when logged
              (let! ts := timestamp in
               let! _ := write_log ("# " +:+ ts +:+ LF) in
               write_log ("# " +:+ line +:+ LF +:+ LF)) in
          let! config := save_config run_line logged in
          let! ok := write_text (str_drop 6 line) config in
          if ok then ret None else raise SpaceError
        else send_text line logged
    end.

(** [run_line], with the depth of the recursion bounded as the interpreter
    bounds it: a deeper nesting of macros raises [RecursionError]. *)
Fixpoint run_line (depth : nat) (line : string) (echo_input : bool)
  (logged : bool) : M (option string) :=
  match depth with
  | O => raise RecursionError
  | S depth' => run_line_body (run_line depth') line echo_input logged
  end.

(** [run_script] *)
Definition run_script (depth : nat) (script_data : string) (logged : bool)
  : M unit :=
  run_script_with (run_line depth) script_data logged.

(** ** Statements of the specification *)

(** *** The frame check sequence, in the words of the specification *)

(** CRC-16 with polynomial 0x1021, no reflection and no final xor, one
    message bit at a time, most significant bit of each byte first: the bit
    leaving the register is compared with the message bit, and the
    polynomial is added when they differ. *)
Definition crc16_feed (crc : Z) (bit : bool) : Z :=
  let shifted := Z.land (Z.shiftl crc 1) 0xFFFF in
  if xorb (Z.testbit crc 15) bit then Z.lxor shifted 0x1021 else shifted.

Definition msb_first (b : byte) : list bool :=
  map (fun i => Z.testbit (byte_val b) i) [7; 6; 5; 4; 3; 2; 1; 0].

Definition crc16_xmodem (initial : Z) (data : bytes) : Z :=
  fold_left crc16_feed (flat_map msb_first data) initial.

(** *** The conditions under which a buffer is a reply frame *)

(** The framing conditions of the decoder, in the order of the
    specification: sync prefix, direction nibble and address, length byte,
    total size, check sequence. *)
Definition frame_valid (address : Z) (p : bytes) : Prop :=
  take 2 p = [x1a; xce]
  /\ byte_val <$> p !! 2%nat = Some (Z.lor 0xB0 address)
  /\ exists len : Z,
       byte_val <$> p !! 4%nat = Some len
       /\ len <= 127
       /\ Z.of_nat (length p) = len + 7
       /\ slice (5 + Z.to_nat len) (7 + Z.to_nat len) p
          = [byte_of (Z.land (_crc16 (slice 2 (5 + Z.to_nat len) p)) 0xFF);
             byte_of (Z.shiftr (_crc16 (slice 2 (5 + Z.to_nat len) p)) 8)].

(** The body and the status byte of a frame. *)
Definition frame_body (p : bytes) : bytes :=
  slice 5 (5 + Z.to_nat (byte_at 4 p)) p.
Definition frame_status (p : bytes) : Z := byte_at 3 p.

(** *** The range of an integer of a given width *)

Definition int_min (bits : Z) (signed : bool) : Z :=
  if signed then - 2 ^ (bits - 1) else 0.
Definition int_max (bits : Z) (signed : bool) : Z :=
  if signed then 2 ^ (bits - 1) - 1 else 2 ^ bits - 1.


(** *** The echo flag during a macro *)


(** *** A session to evaluate examples on *)

Definition empty_world : World :=
  {| files := ∅; text_files := ∅; unwritable := ∅; saved := []; clock := [];
     slept := [] |}.

(** A session at address 5 on the catalog, with the echo on, no macro, an
    empty log and the given future of the serial port. *)
Definition session_at_5 (reads : list (list (option byte)))
  : LoggingSpaceProtocol :=
  {| base := {| address := 5; parser := message_parser; debug := false;
                _status := None;
                serial := {| written := []; incoming := reads |} |};
     logfile := []; macros := ∅; echo := true; telemetry := ∅;
     world := empty_world |}.

(** *** The checksum and the size limits of firmware images *)

(** CRC-32C in the words of the specification: reflected, polynomial
    0x82F63B78, initial value 0xFFFFFFFF, final xor 0xFFFFFFFF; one message
    bit at a time, least significant bit of each byte first. *)
Definition crc32c_feed (crc : Z) (bit : bool) : Z :=
  let shifted := Z.shiftr crc 1 in
  if xorb (Z.odd crc) bit then Z.lxor shifted 0x82F63B78 else shifted.

Definition lsb_first (b : byte) : list bool :=
  map (fun i => Z.testbit (byte_val b) i) [0; 1; 2; 3; 4; 5; 6; 7].

Definition crc32c (data : bytes) : Z :=
  Z.lxor (fold_left crc32c_feed (flat_map lsb_first data) 0xFFFFFFFF)
         0xFFFFFFFF.

(** An application image: between 64 KiB and 224 KiB, with the length of
    everything but the trailing checksum at offset 32 and the CRC-32C of
    everything but itself in the last four bytes, both little-endian. *)
Definition app_image_ok (data : bytes) : Prop :=
  (64 * 1024 <= length data)%nat
  /\ (length data < 224 * 1024)%nat
  /\ le_value (slice 32 36 data) = Z.of_nat (length data) - 4
  /\ le_value (drop (length data - 4) data)
     = crc32c (take (length data - 4) data).

(** A bootloader image: between 8 KiB and 32 KiB. *)
Definition boot_image_ok (data : bytes) : Prop :=
  (8 * 1024 <= length data)%nat /\ (length data < 32 * 1024)%nat.

(** No command has been sent: the serial port is as it was. *)
Definition nothing_sent (before after : LoggingSpaceProtocol) : Prop :=
  serial (base after) = serial (base before).

(** *** Round trips of the values of the catalog *)

(** [all(P(c) for c in s)] *)
Fixpoint str_forall (P : ascii -> bool) (s : string) : bool :=
  match s with
  | String a s' => P a && str_forall P s'
  | EmptyString => true
  end.

(** A float that its [%g] text reproduces, and one that is a binary32
    number. *)
Definition float_text_stable (x : pyfloat) : bool :=
  match py_float (format_g x) with
  | Some y => float_eqb x y
  | None => false
  end.

Definition float_binary_stable (x : pyfloat) : bool :=
  match pack_f x with
  | Return b =>
      match unpack_f b with
      | Return y => float_eqb x y
      | Raise _ => false
      end
  | Raise _ => false
  end.

(** A byte string that is the UTF-8 form of a text without both kinds of
    quote, and one without a NUL byte. *)
Definition string_text_stable (value : bytes) : bool :=
  match utf8_decode value with
  | Return t => negb (str_contains "'" t && str_contains DQUOTE t)
  | Raise _ => false
  end.

Definition string_binary_stable (value : bytes) : bool :=
  forallb (fun b => negb (byte_val b =? 0)) value.

(** The condition on every float and string field of a value. *)
Fixpoint text_stable (d : SpaceData) : bool :=
  match d with
  | FloatData x _ => float_text_stable x
  | StringData value => string_text_stable value
  | ListData fields _ | MessageData fields _ _ => forallb text_stable fields
  | _ => true
  end.

Fixpoint binary_stable (d : SpaceData) : bool :=
  match d with
  | FloatData x _ => float_binary_stable x
  | StringData value => string_binary_stable value
  | ListData fields _ | MessageData fields _ _ => forallb binary_stable fields
  | _ => true
  end.

(** The parsers the catalog is built from, as data: the constructor calls of
    [ace_common.py] with their keyword defaults. *)
Inductive Shape : Type :=
| SInteger (bits : Z) (signed : bool)
| SFloat
| SString
| SIdentifier (t : IdentifierTable)
| SList (inner : Shape) (max_length : option nat)
| SPair (first second : Shape) (sep : string).

Fixpoint parser_of (sh : Shape) : SpaceParser :=
  match sh with
  | SInteger bits signed => IntegerParser bits signed " "
  | SFloat => FloatParser None " "
  | SString => StringParser " "
  | SIdentifier t => IdentifierParser t
  | SList inner max_length => ListParser (parser_of inner) max_length " "
  | SPair first second sep =>
      PairParser (parser_of first) (Some (parser_of second)) sep
  end.

(** The values a parser of a given shape produces. *)
Fixpoint values (sh : Shape) (V : SpaceData) : Prop :=
  match sh with
  | SInteger bits signed =>
      exists v, V = IntegerData v bits signed
                /\ int_min bits signed <= v <= int_max bits signed
  | SFloat => exists x, V = FloatData x None
  | SString => exists value, V = StringData value
  | SIdentifier t =>
      exists code label, V = ByteData code (Some label)
                         /\ code_to_label t !! code = Some label
  | SList inner max_length =>
      exists fields, V = ListData fields " "
                     /\ Forall (values inner) fields
                     /\ match max_length with
                        | Some n => (length fields <= n)%nat
                        | None => True
                        end
  | SPair first second sep =>
      exists a b, V = ListData [a; b] sep /\ values first a /\ values second b
  end.

(** A label that can stand in a list and before the [=] of a pair. *)
Definition label_char (a : ascii) : bool :=
  negb (py_isspace a) && negb (Ascii.eqb a "=").

Definition label_ok (l : string) : bool :=
  negb (str_empty l) && str_forall label_char l.

(** Every code of the table is a byte and is found again under its label. *)
Definition table_ok (t : IdentifierTable) : bool :=
  forallb (fun '(code, label) =>
             (0 <=? code) && (code <=? 255) && label_ok label
             && match label_to_code t !! label with
                | Some c => c =? code
                | None => false
                end)
          (map_to_list (code_to_label t)).

Definition width_ok (bits : Z) : bool :=
  (bits =? 8) || (bits =? 16) || (bits =? 32) || (bits =? 64).

(** The ways the catalog nests its parsers: the first parser of a pair is an
    integer or an identifier; a scalar, or a pair of scalars joined by [=],
    is an element of a list; a command takes an element, a list of elements,
    or a pair joined by a space whose second part is a scalar or a list. *)
Definition is_key (sh : Shape) : bool :=
  match sh with
  | SInteger bits _ => width_ok bits
  | SIdentifier t => table_ok t
  | _ => false
  end.

Definition is_scalar (sh : Shape) : bool :=
  match sh with
  | SFloat | SString => true
  | _ => is_key sh
  end.

Definition is_element (sh : Shape) : bool :=
  match sh with
  | SPair first second sep =>
      is_key first && is_scalar second && String.eqb sep "="
  | _ => is_scalar sh
  end.

Definition is_list (sh : Shape) : bool :=
  match sh with
  | SList inner _ => is_element inner
  | _ => false
  end.

Definition is_payload (sh : Shape) : bool :=
  match sh with
  | SList _ _ => is_list sh
  | SPair first second sep =>
      is_element sh
      || (is_key first && String.eqb sep " "
          && (is_scalar second || is_list second))
  | _ => is_scalar sh
  end.

(** The request and reply parsers of the catalog, entry by entry. *)
Definition sid (entries : list (Z * string * list string)) : Shape :=
  SIdentifier (table_of entries).
Definition slist (inner : Shape) : Shape := SList inner None.
Definition smax (inner : Shape) (n : nat) : Shape := SList inner (Some n).
Definition spair (first second : Shape) : Shape := SPair first second "=".
Definition spair_sp (first second : Shape) : Shape := SPair first second " ".
Definition sbyte : Shape := SInteger 8 false.
Definition sint32 : Shape := SInteger 32 false.
Definition stelemetry_field : Shape := spair (sid TELEMETRY_ID_entries) SFloat.
Definition schannel_enable : Shape :=
  spair (sid CHANNEL_ID_entries) (sid TRISTATE_entries).

Definition COMMAND_SHAPES : list (option Shape * option Shape) :=
  [ (Some SFloat, Some SFloat);
    (Some (sid TRISTATE_entries), Some (sid TRISTATE_entries));
    (Some (slist (spair (sid VALVE_ID_entries) SFloat)),
     Some (slist (spair (sid VALVE_ID_entries) (sid VALVE_STATE_entries))));
    (Some (smax SFloat 1), Some SFloat);
    (Some (spair_sp (sid TRISTATE_entries) (smax SFloat 4)),
     Some (sid TRISTATE_entries));
    (Some SFloat, Some SFloat);
    (Some SFloat, Some SFloat);
    (Some (slist (sid TELEMETRY_ID_entries)), Some (slist stelemetry_field));
    (Some (slist (sid TELEMETRY_ID_entries)), Some (slist stelemetry_field));
    (Some (slist stelemetry_field), Some (slist stelemetry_field));
    (Some (slist schannel_enable), Some (slist schannel_enable));
    (Some (spair_sp (sid UART_ID_entries) sint32),
     Some (spair_sp (sid UART_ID_entries) sint32));
    (Some (slist stelemetry_field), Some (slist stelemetry_field));
    (Some (slist (spair (sid HEALTH_ID_entries) (sid TRISTATE_entries))),
     Some (slist (sid HEALTH_ID_entries)));
    (Some (slist (sid HEALTH_ID_entries)),
     Some (slist (spair (sid HEALTH_ID_entries) SFloat)));
    (Some (slist (sid HEALTH_ID_entries)), Some (slist (sid HEALTH_ID_entries)));
    (Some (spair_sp (sid HEALTH_ID_entries) (smax SFloat 3)),
     Some (spair_sp (sid HEALTH_ID_entries) (smax SFloat 3)));
    (Some (spair_sp (sid CONFIG_ID_entries) (smax SFloat 2)),
     Some (spair_sp (sid CONFIG_ID_entries) (smax SFloat 3)));
    (Some (spair_sp (sid CONFIG_ID_entries) (smax SString 2)),
     Some (spair_sp (sid CONFIG_ID_entries) (smax SString 3)));
    (Some (sid CONFIG_ID_entries), Some (smax (sid CONFIG_ID_entries) 1));
    (None, Some SString);
    (Some (slist sbyte), Some (slist sbyte));
    (Some SFloat, Some SFloat);
    (Some SFloat, Some SFloat);
    (Some (spair_sp sint32 sbyte), Some (spair_sp sint32 (slist sbyte)));
    (Some (spair_sp sint32 (slist sbyte)), Some (spair_sp sint32 sbyte));
    (Some (slist (spair (sid MAGCOIL_entries) SFloat)),
     Some (slist (spair (sid MAGCOIL_entries) SFloat))) ].

(** A request or reply parser of a registered command. *)
Definition catalog_parser (p : SpaceParser) : Prop :=
  exists c, c ∈ COMMANDS
            /\ (command_parser c = Some p \/ reply_parser c = Some p).

(** A value some input is parsed to. *)
Definition accepted (p : SpaceParser) (V : SpaceData) : Prop :=
  (exists text rest, from_text p text = Return (V, rest))
  \/ (exists binary rest, from_binary p binary = Return (V, rest)).

(** Texts without white space, and texts on one line. *)
Definition word_char (a : ascii) : bool := negb (py_isspace a).
Definition line_char (a : ascii) : bool := negb (char_code a =? 10).

(** The text of an integer: a sign and digits. *)
Definition number_char (a : ascii) : bool := is_digit a || Ascii.eqb a "-".

(** The characters of a [%g] text. *)
Definition float_char (a : ascii) : bool :=
  number_char a || str_contains a ".+einfa".

(** The text [repr] writes for one character. *)
Definition repr_char (quote a : ascii) : string :=
  repr_body quote (String a EmptyString).

Definition is_quote (q : ascii) : Prop := q = "'"%char \/ q = DQUOTE.

(** A text [t] that renders [V] and that the parser reads back, alone and
    in front of a space and further text on the same line. *)
Definition text_round (p : SpaceParser) (V : SpaceData) (t : string) : Prop :=
  to_text V = Return t /\ from_text p t = Return (V, EmptyString).

Definition text_element (p : SpaceParser) (V : SpaceData) (t : string)
  : Prop :=
  text_round p V t /\ t <> EmptyString /\ str_forall line_char t = true
  /\ forall rest, str_forall line_char rest = true ->
       from_text p (t +:+ String " " rest) = Return (V, rest).

(** A byte string [b] that renders [V] and that the parser reads back in
    front of any further bytes. *)
Definition binary_round (p : SpaceParser) (V : SpaceData) (b : bytes) : Prop :=
  to_binary V = Return b /\ from_binary p b = Return (V, []).

Definition binary_element (p : SpaceParser) (V : SpaceData) (b : bytes)
  : Prop :=
  to_binary V = Return b /\ b <> []
  /\ forall rest, from_binary p (b ++ rest) = Return (V, rest).

(** The texts and the bytes of the fields of a list, as [to_text] and
    [to_binary] compute them. *)
Fixpoint texts_of (l : list SpaceData) : result (list string) :=
  match l with
  | [] => Return []
  | x :: l' =>
      let* t := to_text x in
      let* r := texts_of l' in
      Return (t :: r)
  end.

Fixpoint binary_of (l : list SpaceData) : result bytes :=
  match l with
  | [] => Return []
  | x :: l' =>
      let* b := to_binary x in
      let* r := binary_of l' in
      Return (b ++ r)
  end.

(** Every integer parser inside a shape has one of the widths of
    [struct_format]. *)
Fixpoint widths_ok (sh : Shape) : bool :=
  match sh with
  | SInteger bits _ => width_ok bits
  | SList inner _ => widths_ok inner
  | SPair first second _ => widths_ok first && widths_ok second
  | _ => true
  end.

(** The state [IdentifierParser.add] maintains: every code with a label is a
    byte and is found again under its label, and every name leads to a code
    that has a label. *)
Definition table_inv (t : IdentifierTable) : Prop :=
  (forall code label,
     code_to_label t !! code = Some label ->
     0 <= code <= 255 /\ label_to_code t !! label = Some code)
  /\ (forall name code,
        label_to_code t !! name = Some code ->
        is_Some (code_to_label t !! code)).

(** A session method that writes nothing to the log file, however it
    ends. *)
Definition quiet {A : Type} (m : M A) : Prop :=
  forall s, logfile (snd (m s)) = logfile s.

(** A session method that only moves the session along a relation [R],
    however it ends. *)
Definition within (R : LoggingSpaceProtocol -> LoggingSpaceProtocol -> Prop)
  {A : Type} (m : M A) : Prop :=
  forall s, R s (snd (m s)).

(** What a run may change: the log file, the packets written to the port,
    the files saved and the delays slept only grow; the macros, the address
    and the parser stay. *)
Definition history (s s' : LoggingSpaceProtocol) : Prop :=
  logfile s `prefix_of` logfile s'
  /\ written (serial (base s)) `prefix_of` written (serial (base s'))
  /\ saved (world s) `prefix_of` saved (world s')
  /\ slept (world s) `prefix_of` slept (world s')
  /\ macros s' = macros s
  /\ address (base s') = address (base s)
  /\ parser (base s') = parser (base s).

(** The table of message types [get_protocol] builds for the catalog. *)
Definition message_types : IdentifierTable :=
  match add_message_types empty_table COMMANDS with
  | Return t => t
  | Raise _ => empty_table
  end.

(** The codes a command list registers, in order. *)
Definition message_codes (commands : list SpaceCommand) : list Z :=
  flat_map (fun c => [command_code c; reply_code c]) commands.

(** The messages a message parser with the given type table, second parsers
    and deadlines returns: the ping, a bare message type whose code has no
    second parser, or a type followed by a payload its second parser
    accepts. *)
Definition message_values (types : IdentifierTable)
  (second : gmap Z (option SpaceParser))
  (deadlines : gmap Z (option pyfloat)) (V : SpaceData) : Prop :=
  V = ping_message
  \/ exists code label d,
       code_to_label types !! code = Some label
       /\ deadlines !! code = Some d
       /\ ((second_parser second None (ByteData code (Some label)) = None
            /\ V = MessageData [ByteData code (Some label)] " " d)
           \/ exists p payload,
                second !! code = Some (Some p)
                /\ accepted p payload
                /\ V = MessageData [ByteData code (Some label); payload]
                                   " " d).

(** The facts about one status byte that are checked for all of them. *)
Definition status_check (status : Z) : bool :=
  Bool.eqb (String.eqb (status_label status) "IDLE") (status =? 0)
  && Bool.eqb (startswith "SYSTEM_FAULT" (status_label status))
              (Z.testbit status 7)
  && Bool.eqb (String.eqb (status_label status) "BUSY") (status =? 1)
  && negb (str_empty (status_label status)).

(** The second parsers and the deadlines [get_protocol] registers for a
    command list, on top of those already there. *)
Definition second_of (commands : list SpaceCommand)
  (second : gmap Z (option SpaceParser)) : gmap Z (option SpaceParser) :=
  fold_left (fun m c => <[reply_code c := reply_parser c]>
                          (<[command_code c := command_parser c]> m))
            commands second.

Definition deadlines_of (commands : list SpaceCommand)
  (deadlines : gmap Z (option pyfloat)) : gmap Z (option pyfloat) :=
  fold_left (fun m c => <[reply_code c := None]>
                          (<[command_code c := Some (deadline c)]> m))
            commands deadlines.

(** The digits [format(n, 'x')] writes. *)
Definition is_lower_hex (a : ascii) : bool :=
  let c := char_code a in
  ((48 <=? c) && (c <=? 57)) || ((97 <=? c) && (c <=? 102)).

(** [device_address] of [spacesuit.py]: the address given on the command
    line; [None] stands for [argparse.ArgumentTypeError], which replaces the
    [ValueError] of [int] and of the range check. *)
Definition device_address (text : string) : option Z :=
  match py_int text with
  | Some address =>
      if negb ((0 <=? address) && (address <=? 15)) then None
      else Some address
  | None => None
  end.

(** The effect of the loop [self.telemetry[field[0].label] = field[1].value]
    on the telemetry dictionary, for the labels and value objects of the
    fields in order. *)
Definition store_all (entries : list (option string * SpaceData))
  (t : gmap (option string) pyvalue) : gmap (option string) pyvalue :=
  fold_left (fun t '(label, value) => <[label := data_value value]> t)
            entries t.

(** The fields of a telemetry reply as the loop reads them: each one a pair
    of a byte with its label and a value object. *)
Definition telemetry_fields (fields : list SpaceData)
  (entries : list (option string * SpaceData)) : Prop :=
  Forall2 (fun f e => exists c sep,
             f = ListData [ByteData c (fst e); snd e] sep)
          fields entries.

(** A session method that leaves the telemetry dictionary alone. *)
Definition same_telemetry (s s' : LoggingSpaceProtocol) : Prop :=
  telemetry s' = telemetry s.

(** *** The macro file ([get_protocol]) *)

Definition TAB : string := String (char_of 9) EmptyString.

(** [line.startswith(' ') or line.startswith('\t')] *)
Definition indented (line : string) : bool :=
  startswith " " line || startswith TAB line.

(** One turn of the loop over the lines of [arguments.macro_file]: the
    state is [(current_key, macros)].  [current_key] starts as [None], and a
    key of the dictionary can therefore be [None] too. *)
Definition macro_line (state : option string * gmap (option string) string)
  (line : string) : option string * gmap (option string) string :=
  let '(current_key, macros) := state in
  if startswith "#" line then state
  else if indented line then
    match macros !! current_key with
    | Some body =>
        (current_key, <[current_key := body +:+ (LF +:+ strip line)]> macros)
    | None => (current_key, <[current_key := strip line]> macros)
    end
  else (Some (strip line), macros).

(** The dictionary [macros] of [get_protocol]: empty without a macro file,
    else filled from the lines the file yields. *)
Definition get_protocol_macros (macro_file : option (list string))
  : gmap (option string) string :=
  match macro_file with
  | Some lines => snd (fold_left macro_line lines (None, ∅))
  | None => ∅
  end.

(** What the dictionary holds for a key after the indented lines [lines]
    have been stored under it, from [before]. *)
Definition stored_after (before : option string) (lines : list string)
  : option string :=
  fold_left (fun body line =>
               match body with
               | Some b => Some (b +:+ (LF +:+ strip line))
               | None => Some (strip line)
               end) lines before.

(** The body of a macro made of the indented lines [lines]: none without a
    line, else the stripped lines joined by newlines. *)
Definition macro_body (lines : list string) : option string :=
  match lines with
  | [] => None
  | _ => Some (join LF (map strip lines))
  end.

(** The indented lines that follow the headers whose stripped text is
    [name], through the whole file. *)
Definition bodies_of (name : string) (blocks : list (string * list string))
  : list string :=
  concat (map snd (List.filter (fun b => String.eqb (strip (fst b)) name)
                               blocks)).

(** * Properties *)

Lemma rbind_Return {A B : Type} (m : result A) (k : A -> result B) (b : B) :
  rbind m k = Return b -> exists a, m = Return a /\ k a = Return b.
Proof. destruct m as [a|e]; simpl; intros H; [eauto | discriminate]. Qed.

Lemma byte_val_range (b : byte) : 0 <= byte_val b < 256.
Proof.
  unfold byte_val. pose proof (Byte.to_N_bounded b). lia.
Qed.

Lemma byte_of_val (b : byte) : byte_of (byte_val b) = b.
Proof.
  unfold byte_of. pose proof (byte_val_range b) as Hr.
  rewrite Z.mod_small by lia. unfold byte_val.
  rewrite N2Z.id, Byte.of_to_N. reflexivity.
Qed.

Lemma byte_val_of (z : Z) : 0 <= z < 256 -> byte_val (byte_of z) = z.
Proof.
  intros Hz. unfold byte_of. rewrite Z.mod_small by lia.
  destruct (Byte.of_N (Z.to_N z)) as [b|] eqn:E.
  - apply Byte.to_of_N in E. unfold byte_val. rewrite E. lia.
  - apply Byte.of_N_None_iff in E. lia.
Qed.

Lemma byte_val_inj (a b : byte) : byte_val a = byte_val b -> a = b.
Proof.
  intros H. rewrite <- (byte_of_val a), <- (byte_of_val b). now rewrite H.
Qed.

Example py_int_examples :
  py_int " 12 " = Some 12 /\ py_int "-5" = Some (-5) /\ py_int "1_000" = Some 1000
  /\ py_int EmptyString = None /\ py_int "0x10" = None /\ py_int "1__0" = None
  /\ py_int "- 5" = None /\ py_int "12a" = None
  /\ py_int_base 16 "0x10" = Some 16 /\ py_int_base 16 "-5" = Some (-5)
  /\ py_int_base 16 "0x_1F" = Some 31 /\ py_int_base 16 "fF" = Some 255
  /\ py_int_base 16 EmptyString = None /\ py_int_base 16 "0x" = None.
Proof. vm_compute. repeat split; reflexivity. Qed.

Example py_str_examples :
  py_str 0 = "0" /\ py_str 2147483648 = "2147483648" /\ py_str (-128) = "-128"
  /\ py_hex08 0x80008000 = "80008000" /\ py_hex08 255 = "000000ff"
  /\ strip "  > a b   " = "> a b" /\ split_once "=" "a=b=c" = Some ("a", "b=c")
  /\ join " " ["a"; EmptyString; "b"] = "a  b".
Proof. vm_compute. repeat split; reflexivity. Qed.

Example py_float_examples :
  option_map format_g (py_float "28.1") = Some "28.1"
  /\ option_map format_g (py_float "999999.5") = Some "1e+06"
  /\ option_map format_g (py_float "0.000123456789") = Some "0.000123457"
  /\ option_map format_g (py_float " -2.5E-5 ") = Some "-2.5e-05"
  /\ option_map format_g (py_float "1_0.5e1_0") = Some "1.05e+11"
  /\ py_float "1e" = None /\ py_float "." = None /\ py_float "1_" = None
  /\ option_map pack_f (py_float "28.1") = Some (Return [xcd; xcc; xe0; x41])
  /\ option_map pack_f (py_float "1.5") = Some (Return [x00; x00; xc0; x3f])
  /\ option_map pack_f (py_float "1e39") = Some (Raise OverflowError)
  /\ unpack_f [x00; x00; xc0; x3f] = Return (S754_finite false 6755399441055744 (-52))
  /\ unpack_f [x00; x00] = Raise StructError.
Proof. vm_compute. repeat split; reflexivity. Qed.

Example py_repr_examples :
  py_repr "abc" = "'abc'"
  /\ py_repr "it's" = String DQUOTE (String.append "it's" (String DQUOTE EmptyString))
  /\ py_repr (String "'" (String DQUOTE EmptyString))
     = String.append "'\'" (String DQUOTE "'")
  /\ unescape "a\x41\101\t\q" = Return (String "a" (String "A" (String "A"
       (String (char_of 9) "\q"))))
  /\ unescape "\'" = Return "'" /\ unescape "a\" = Raise ValueError.
Proof. vm_compute. repeat split; reflexivity. Qed.

(** ** The frame check sequence *)

Lemma land_lxor_distr (a b c : Z) :
  Z.land (Z.lxor a b) c = Z.lxor (Z.land a c) (Z.land b c).
Proof.
  apply Z.bits_inj'. intros n Hn.
  rewrite Z.land_spec, !Z.lxor_spec, !Z.land_spec.
  destruct (Z.testbit a n), (Z.testbit b n), (Z.testbit c n); reflexivity.
Qed.

(** One shift of the byte-wise register, seen from the bit-serial one: the
    message bits still to come are carried along in [x]. *)
Lemma crc_hqx_bit_pending (a x : Z) :
  crc_hqx_bit (Z.lxor a x)
  = Z.lxor (crc16_feed a (Z.testbit x 15)) (Z.land (Z.shiftl x 1) 0xFFFF).
Proof.
  unfold crc_hqx_bit, crc16_feed.
  rewrite Z.lxor_spec, Z.shiftl_lxor.
  destruct (xorb (Z.testbit a 15) (Z.testbit x 15)).
  - rewrite !land_lxor_distr.
    rewrite !Z.lxor_assoc. f_equal.
    rewrite (Z.lxor_comm (Z.land (Z.shiftl x 1) 65535)).
    change (Z.land 4129 65535) with 4129. reflexivity.
  - rewrite land_lxor_distr. reflexivity.
Qed.

Definition pending_shift (x : Z) : Z := Z.land (Z.shiftl x 1) 0xFFFF.

Lemma crc_hqx_iter_pending (n : nat) : forall a x : Z,
  Nat.iter n crc_hqx_bit (Z.lxor a x)
  = Z.lxor
      (fold_left crc16_feed
         (map (fun i => Z.testbit (Nat.iter i pending_shift x) 15) (seq 0 n)) a)
      (Nat.iter n pending_shift x).
Proof.
  induction n as [|n IH]; intros a x.
  - reflexivity.
  - rewrite Nat.iter_succ_r, crc_hqx_bit_pending.
    fold (pending_shift x). rewrite IH.
    rewrite <- Nat.iter_succ_r. f_equal.
    simpl seq. simpl map. simpl fold_left.
    f_equal. rewrite <- seq_shift, map_map.
    apply map_ext. intros i. now rewrite Nat.iter_succ_r.
Qed.

Lemma pending_byte (b : byte) :
  map (fun i => Z.testbit (Nat.iter i pending_shift (Z.shiftl (byte_val b) 8)) 15)
      (seq 0 8) = msb_first b
  /\ Nat.iter 8 pending_shift (Z.shiftl (byte_val b) 8) = 0.
Proof. destruct b; vm_compute; split; reflexivity. Qed.

Lemma crc_hqx_byte_feed (crc : Z) (b : byte) :
  crc_hqx_byte crc b = fold_left crc16_feed (msb_first b) crc.
Proof.
  unfold crc_hqx_byte. rewrite crc_hqx_iter_pending.
  destruct (pending_byte b) as [-> ->]. apply Z.lxor_0_r.
Qed.

(** The library routine is the bit-serial CRC of the specification. *)
Lemma crc_hqx_xmodem (data : bytes) : forall initial : Z,
  crc_hqx data initial = crc16_xmodem initial data.
Proof.
  unfold crc_hqx, crc16_xmodem.
  induction data as [|b data IH]; intros initial.
  - reflexivity.
  - change (flat_map msb_first (b :: data))
      with (msb_first b ++ flat_map msb_first data).
    rewrite fold_left_app, <- crc_hqx_byte_feed. apply IH.
Qed.

Lemma land_ffff_range (a : Z) : 0 <= Z.land a 0xFFFF < 65536.
Proof.
  change 0xFFFF with (Z.ones 16). rewrite Z.land_ones by lia.
  apply Z.mod_pos_bound. lia.
Qed.

Lemma lxor_range16 (a b : Z) :
  0 <= a < 65536 -> 0 <= b < 65536 -> 0 <= Z.lxor a b < 65536.
Proof.
  intros Ha Hb.
  assert (Hn : 0 <= Z.lxor a b) by (apply Z.lxor_nonneg; lia).
  split; [exact Hn|].
  destruct (Z.eq_dec (Z.lxor a b) 0) as [->|Hz]; [lia|].
  apply Z.log2_lt_pow2 with (b := 16); [lia|].
  pose proof (Z.log2_lxor a b ltac:(lia) ltac:(lia)) as Hl.
  assert (Z.log2 a < 16).
  { destruct (Z.eq_dec a 0) as [->|]; [simpl; lia|].
    apply Z.log2_lt_pow2; lia. }
  assert (Z.log2 b < 16).
  { destruct (Z.eq_dec b 0) as [->|]; [simpl; lia|].
    apply Z.log2_lt_pow2; lia. }
  lia.
Qed.

Lemma crc_hqx_bit_range (crc : Z) : 0 <= crc_hqx_bit crc < 65536.
Proof.
  unfold crc_hqx_bit. destruct (Z.testbit crc 15); apply land_ffff_range.
Qed.

Lemma crc_hqx_range (data : bytes) : forall value : Z,
  0 <= value < 65536 -> 0 <= crc_hqx data value < 65536.
Proof.
  unfold crc_hqx. induction data as [|b data IH]; intros value Hv; simpl.
  - exact Hv.
  - apply IH. unfold crc_hqx_byte. simpl Nat.iter. apply crc_hqx_bit_range.
Qed.

Lemma _crc16_range (data : bytes) : 0 <= _crc16 data < 65536.
Proof.
  unfold _crc16. apply lxor_range16.
  - apply crc_hqx_range. unfold CRC_INITIAL. lia.
  - unfold CRC_XOR. lia.
Qed.

(** The two bytes [struct.pack('<H', crc)] appends. *)
Lemma pack_crc (crc : Z) :
  0 <= crc < 65536 ->
  struct_pack (2%nat, false) crc
  = Return [byte_of (Z.land crc 0xFF); byte_of (Z.shiftr crc 8)].
Proof.
  intros Hc. unfold struct_pack.
  change (8 * Z.of_nat 2) with 16.
  assert (H1 : (0 <=? crc) && (crc <=? 2 ^ 16 - 1) = true).
  { apply andb_true_intro. split; [apply Z.leb_le|apply Z.leb_le]; lia. }
  rewrite H1. rewrite Z.mod_small by lia. simpl le_bytes.
  do 2 f_equal. f_equal.
  change 255 with (Z.ones 8). rewrite Z.land_ones by lia.
  unfold byte_of. rewrite Z.mod_mod by lia. reflexivity.
Qed.

Lemma command_byte_range (address : Z) :
  0 <= address <= 15 -> 0 <= Z.lor 0xA0 address < 256.
Proof.
  intros H.
  assert (Hc : address = 0 \/ address = 1 \/ address = 2 \/ address = 3
               \/ address = 4 \/ address = 5 \/ address = 6 \/ address = 7
               \/ address = 8 \/ address = 9 \/ address = 10 \/ address = 11
               \/ address = 12 \/ address = 13 \/ address = 14
               \/ address = 15) by lia.
  repeat (destruct Hc as [->|Hc]; [vm_compute; split; congruence|]).
  subst. vm_compute. split; congruence.
Qed.

(** C3 (counterexample): the encoded ping at address 5 is not the byte
    string [1A CE A5 00 5F 31] of the specification; its check sequence is
    [65 53]. *)
Lemma to_packet_ping_not_5f31 :
  _to_packet 5 ping_message <> Return [x1a; xce; xa5; x00; x5f; x31].
Proof. vm_compute. discriminate. Qed.

(** C3 (amended): the frame check sequence is the CRC-16 with polynomial
    0x1021, initial value 0xFFFF, no reflection and no final xor, xor-ed with
    0xACE1; an encoded command is the sync bytes, the byte [0xA0 | address],
    the length byte, the body and the check sequence of everything after the
    sync bytes, low byte first; the ping at address 5 is
    [1A CE A5 00 65 53]. *)
Theorem to_packet_crc :
  (forall d : bytes, _crc16 d = Z.lxor (crc16_xmodem 0xFFFF d) 0xACE1)
  /\ (forall (address : Z) (message : SpaceData) (body : bytes),
        0 <= address <= 15 ->
        to_binary message = Return body ->
        (length body <= 127)%nat ->
        let covered := byte_of (Z.lor 0xA0 address)
                       :: byte_of (Z.of_nat (length body)) :: body in
        _to_packet address message
        = Return ([x1a; xce] ++ covered
                  ++ [byte_of (Z.land (_crc16 covered) 0xFF);
                      byte_of (Z.shiftr (_crc16 covered) 8)]))
  /\ _to_packet 5 ping_message = Return [x1a; xce; xa5; x00; x65; x53].
Proof.
  split; [|split].
  - intros d. unfold _crc16, CRC_INITIAL, CRC_XOR.
    now rewrite crc_hqx_xmodem.
  - intros address message body Ha Hb Hl covered.
    unfold _to_packet. unfold bytes_of_int at 1.
    pose proof (command_byte_range address Ha) as Hr.
    unfold COMMAND_BYTE.
    assert (H1 : (0 <=? Z.lor 160 address) && (Z.lor 160 address <? 256) = true).
    { apply andb_true_intro. split; [apply Z.leb_le|apply Z.ltb_lt]; lia. }
    rewrite H1. cbn [rbind]. rewrite Hb. cbn [rbind].
    unfold MAX_MESSAGE_SIZE.
    assert (H2 : (127 <? Z.of_nat (length body)) = false)
      by (apply Z.ltb_ge; lia).
    rewrite H2. unfold bytes_of_int.
    assert (H3 : (0 <=? Z.of_nat (length body))
                 && (Z.of_nat (length body) <? 256) = true).
    { apply andb_true_intro. split; [apply Z.leb_le|apply Z.ltb_lt]; lia. }
    rewrite H3. cbn [rbind].
    change (drop 2 ((SYNC_SEQUENCE ++ [byte_of (Z.lor 160 address)])
                    ++ [byte_of (Z.of_nat (length body))] ++ body))
      with covered.
    rewrite pack_crc by apply _crc16_range. cbn [rbind].
    reflexivity.
  - vm_compute. reflexivity.
Qed.

Lemma to_packet_crc_witness :
  0 <= 5 <= 15
  /\ to_binary ping_message = Return []
  /\ _to_packet 5 ping_message
     = Return ([x1a; xce] ++ [byte_of (Z.lor 0xA0 5); byte_of 0]
               ++ [byte_of (Z.land (_crc16 [byte_of (Z.lor 0xA0 5); byte_of 0]) 0xFF);
                   byte_of (Z.shiftr (_crc16 [byte_of (Z.lor 0xA0 5); byte_of 0]) 8)]).
Proof.
  split; [lia|]. split; [reflexivity|].
  apply (proj1 (proj2 to_packet_crc) 5 ping_message []);
    [lia | reflexivity | simpl; lia].
Defined.

(** ** The frame decoder *)

Lemma byte_at_lookup (i : nat) (p : bytes) (v : Z) :
  byte_val <$> p !! i = Some v -> byte_at i p = v.
Proof.
  unfold byte_at. destruct (p !! i) as [x|]; simpl; congruence.
Qed.

Lemma lookup_byte_at (i : nat) (p : bytes) :
  (i < length p)%nat -> byte_val <$> p !! i = Some (byte_at i p).
Proof.
  intros H. unfold byte_at.
  destruct (p !! i) as [x|] eqn:E; [reflexivity|].
  apply lookup_ge_None in E. lia.
Qed.

Lemma bytes_eqb_true (a b : bytes) : bytes_eqb a b = true <-> a = b.
Proof. unfold bytes_eqb. destruct (decide (a = b)); split; congruence. Qed.

Lemma bytes_eqb_false (a b : bytes) : bytes_eqb a b = false <-> a <> b.
Proof. unfold bytes_eqb. destruct (decide (a = b)); split; congruence. Qed.

(** What the decoder does once the framing conditions hold. *)
Definition decode_body (parser : SpaceParser) (p : bytes)
  : result (option SpaceData * option Z) :=
  let* (message, rest) := from_binary parser (frame_body p) in
  if bytes_empty rest then Return (Some message, Some (frame_status p))
  else Raise AssertionError.

Lemma from_packet_valid (address : Z) (parser : SpaceParser) (p : bytes) :
  frame_valid address p ->
  _from_packet address parser p = decode_body parser p.
Proof.
  intros (Hsync & Haddr & len & Hlen & Hmax & Hsize & Hcrc).
  unfold _from_packet.
  assert (H1 : (length p <? 7)%nat = false).
  { apply Nat.ltb_ge.
    assert (0 <= len).
    { destruct (p !! 4%nat) as [x|]; simpl in Hlen; [|discriminate].
      injection Hlen as <-. apply byte_val_range. }
    lia. }
  unfold SYNC_SEQUENCE.
  rewrite H1, (proj2 (bytes_eqb_true _ _) Hsync).
  rewrite (byte_at_lookup _ _ _ Haddr). unfold REPLY_BYTE.
  rewrite Z.eqb_refl. cbn [negb orb].
  rewrite (byte_at_lookup _ _ _ Hlen). unfold MAX_MESSAGE_SIZE.
  rewrite (proj2 (Z.ltb_ge _ _) Hmax), Hsize, Z.eqb_refl. cbn [negb orb].
  rewrite pack_crc by apply _crc16_range. cbn [rbind].
  rewrite <- Hcrc, (proj2 (bytes_eqb_true _ _) eq_refl). cbn [negb].
  unfold decode_body, frame_body, frame_status.
  rewrite (byte_at_lookup _ _ _ Hlen). reflexivity.
Qed.

Lemma from_packet_invalid (address : Z) (parser : SpaceParser) (p : bytes) :
  ~ frame_valid address p ->
  _from_packet address parser p = Return (None, None).
Proof.
  intros Hn. unfold _from_packet.
  destruct (length p <? 7)%nat eqn:H1; [reflexivity|].
  destruct (bytes_eqb (take 2 p) SYNC_SEQUENCE) eqn:H2; [|reflexivity].
  destruct (byte_at 2 p =? Z.lor REPLY_BYTE address) eqn:H3; [|reflexivity].
  cbn [negb orb].
  destruct (MAX_MESSAGE_SIZE <? byte_at 4 p) eqn:H4; [reflexivity|].
  destruct (Z.of_nat (length p) =? byte_at 4 p + 7) eqn:H5; [|reflexivity].
  cbn [negb orb].
  rewrite pack_crc by apply _crc16_range. cbn [rbind].
  match goal with
  | |- context [negb (bytes_eqb ?a ?b)] => destruct (bytes_eqb a b) eqn:H6
  end; [|reflexivity].
  exfalso. apply Hn.
  apply Nat.ltb_ge in H1. apply bytes_eqb_true in H2, H6.
  apply Z.eqb_eq in H3, H5. apply Z.ltb_ge in H4.
  split; [exact H2|]. split.
  - rewrite lookup_byte_at by lia. now rewrite H3.
  - exists (byte_at 4 p). split; [apply lookup_byte_at; lia|].
    split; [exact H4|]. split; [exact H5|]. now rewrite <- H6.
Qed.

Lemma classic_frame (address : Z) (p : bytes) :
  frame_valid address p \/ ~ frame_valid address p.
Proof.
  unfold frame_valid.
  destruct (decide (take 2 p = [x1a; xce])) as [H1|H1];
    [|right; intros (H & _); contradiction].
  destruct (decide (byte_val <$> p !! 2%nat = Some (Z.lor 0xB0 address)))
    as [H2|H2]; [|right; intros (_ & H & _); contradiction].
  destruct (byte_val <$> p !! 4%nat) as [len|] eqn:E;
    [|right; intros (_ & _ & len & H & _); discriminate].
  destruct (decide (len <= 127)) as [H3|H3];
    [|right; intros (_ & _ & l & H & H' & _); injection H as <-; contradiction].
  destruct (decide (Z.of_nat (length p) = len + 7)) as [H4|H4];
    [|right; intros (_ & _ & l & H & _ & H' & _); injection H as <-;
      contradiction].
  destruct (decide
    (slice (5 + Z.to_nat len) (7 + Z.to_nat len) p
     = [byte_of (Z.land (_crc16 (slice 2 (5 + Z.to_nat len) p)) 0xFF);
        byte_of (Z.shiftr (_crc16 (slice 2 (5 + Z.to_nat len) p)) 8)]))
    as [H5|H5];
    [|right; intros (_ & _ & l & H & _ & _ & H'); injection H as <-;
      contradiction].
  left. split; [exact H1|]. split; [exact H2|]. exists len. auto.
Qed.

(** C1 (counterexample): two buffers with a correct frame around a body the
    message parser does not consume: neither satisfies the conditions of the
    claim, and for neither does the decoder return [(None, None)]; it raises
    an error instead.  The first body is an [igniter_ack] with one byte too
    many, the second an [igniter_ack] cut short. *)
Lemma from_packet_raises_on_bad_body :
  let p1 := [x1a; xce; xb5; x00; x06; x11; x00; x00; xc0; x3f; x00; xb2; x45] in
  let p2 := [x1a; xce; xb5; x00; x03; x11; x00; x00; xd3; xf5] in
  (~ (exists m, from_binary message_parser (frame_body p1) = Return (m, []))
   /\ _from_packet 5 message_parser p1 = Raise AssertionError
   /\ _from_packet 5 message_parser p1 <> Return (None, None))
  /\ (~ (exists m, from_binary message_parser (frame_body p2) = Return (m, []))
      /\ _from_packet 5 message_parser p2 = Raise StructError
      /\ _from_packet 5 message_parser p2 <> Return (None, None)).
Proof.
  split; (split; [intros [m Hm]; vm_compute in Hm; discriminate|]);
    (split; [vm_compute; reflexivity | vm_compute; discriminate]).
Qed.

(** C1 (amended): the decoder returns [(None, None)] exactly when one of the
    framing conditions fails (sync bytes, [0xB0 | address], length byte at
    most 127, total size [length + 7], check sequence).  When they all hold
    it hands the body to the message parser: it returns the message with the
    status byte exactly when the parser consumes the body with no remainder,
    passes on the error of the parser when it raises one, and fails its
    assertion when the parser leaves a remainder. *)
Theorem from_packet_spec (address : Z) (parser : SpaceParser) (p : bytes) :
  (_from_packet address parser p = Return (None, None)
   <-> ~ frame_valid address p)
  /\ (forall m st,
        _from_packet address parser p = Return (Some m, Some st)
        <-> frame_valid address p
            /\ from_binary parser (frame_body p) = Return (m, [])
            /\ st = frame_status p)
  /\ (frame_valid address p ->
      forall e, from_binary parser (frame_body p) = Raise e ->
                _from_packet address parser p = Raise e)
  /\ (frame_valid address p ->
      forall m rest, from_binary parser (frame_body p) = Return (m, rest) ->
                     rest <> [] ->
                     _from_packet address parser p = Raise AssertionError).
Proof.
  assert (Hdec : forall r, decode_body parser p <> Return (None, r)).
  { intros r. unfold decode_body.
    destruct (from_binary parser (frame_body p)) as [[m rest]|e];
      cbn [rbind]; [|discriminate].
    destruct (bytes_empty rest); discriminate. }
  split; [|split; [|split]].
  - split.
    + intros H Hv. rewrite (from_packet_valid _ _ _ Hv) in H.
      exact (Hdec _ H).
    + apply from_packet_invalid.
  - intros m st. split.
    + intros H.
      destruct (classic_frame address p) as [Hv|Hv].
      * split; [exact Hv|]. rewrite (from_packet_valid _ _ _ Hv) in H.
        unfold decode_body in H.
        destruct (from_binary parser (frame_body p)) as [[m' rest]|e];
          cbn [rbind] in H; [|discriminate].
        destruct rest; cbn [bytes_empty] in H; [|discriminate].
        injection H as -> <-. split; reflexivity.
      * rewrite (from_packet_invalid _ _ _ Hv) in H. discriminate.
    + intros (Hv & Hb & ->). rewrite (from_packet_valid _ _ _ Hv).
      unfold decode_body. rewrite Hb. reflexivity.
  - intros Hv e He. rewrite (from_packet_valid _ _ _ Hv).
    unfold decode_body. rewrite He. reflexivity.
  - intros Hv m rest Hb Hr. rewrite (from_packet_valid _ _ _ Hv).
    unfold decode_body. rewrite Hb. cbn [rbind].
    destruct rest; [congruence|reflexivity].
Qed.

Lemma from_packet_spec_witness :
  let p := [x1a; xce; xb5; x42; x03; x05; x01; x02; xe8; x2c] in
  let m := MessageData [ByteData 5 (Some "echo_ack");
                        ListData [IntegerData 1 8 false; IntegerData 2 8 false]
                                 " "] " " None in
  frame_valid 5 p
  /\ from_binary message_parser (frame_body p) = Return (m, [])
  /\ _from_packet 5 message_parser p = Return (Some m, Some 0x42).
Proof.
  intros p m.
  assert (Hv : frame_valid 5 p).
  { split; [reflexivity|]. split; [reflexivity|].
    exists 3. repeat split; try reflexivity. lia. }
  assert (Hb : from_binary message_parser (frame_body p) = Return (m, []))
    by (vm_compute; reflexivity).
  split; [exact Hv|]. split; [exact Hb|].
  apply (proj1 (proj2 (from_packet_spec 5 message_parser p))).
  split; [exact Hv|]. split; [exact Hb|]. reflexivity.
Defined.

(** A proper prefix of a frame fails the size condition. *)
Lemma frame_prefix_invalid (address : Z) (packet : bytes) (k : nat) :
  frame_valid address packet ->
  (k < length packet)%nat ->
  ~ frame_valid address (take k packet).
Proof.
  intros (_ & _ & len & Hlen & _ & Hsize & _) Hk
         (_ & _ & len' & Hlen' & _ & Hsize' & _).
  assert (Hk4 : (4 < k)%nat).
  { destruct (take k packet !! 4%nat) as [x|] eqn:E; [|discriminate].
    apply lookup_lt_Some in E. rewrite length_take in E. lia. }
  rewrite lookup_take_lt in Hlen' by exact Hk4.
  rewrite Hlen in Hlen'. injection Hlen' as <-.
  rewrite length_take in Hsize'. lia.
Qed.

(** A frame followed by further bytes of the stream fails the size
    condition too. *)
Lemma frame_extended_invalid (address : Z) (packet rest : bytes) (k : nat) :
  frame_valid address packet ->
  (length packet < k <= length (packet ++ rest))%nat ->
  ~ frame_valid address (take k (packet ++ rest)).
Proof.
  intros (_ & _ & len & Hlen & _ & Hsize & _) Hk
         (_ & _ & len' & Hlen' & _ & Hsize' & _).
  assert (H4 : (4 < length packet)%nat).
  { destruct (packet !! 4%nat) as [x|] eqn:E; [|discriminate].
    apply lookup_lt_Some in E. exact E. }
  rewrite lookup_take_lt in Hlen' by lia.
  rewrite lookup_app_l in Hlen' by exact H4.
  rewrite Hlen in Hlen'. injection Hlen' as <-.
  rewrite length_take in Hsize'. lia.
Qed.

(** C4: a well-formed reply packet, that is a frame whose body the parser
    reads without a remainder, decodes to the parsed message and the status
    byte.  In a stream where further bytes follow it, every proper prefix of
    the packet decodes to [(None, None)], the prefix that ends just before
    the first byte after the packet decodes to the same message and status
    as the packet alone, and every longer prefix decodes to [(None, None)]
    again. *)
Theorem from_packet_prefix_monotone (address : Z) (parser : SpaceParser)
  (packet rest : bytes) (m : SpaceData) (k : nat) :
  frame_valid address packet ->
  from_binary parser (frame_body packet) = Return (m, []) ->
  _from_packet address parser packet
  = Return (Some m, Some (frame_status packet))
  /\ ((k < length packet)%nat ->
      _from_packet address parser (take k (packet ++ rest))
      = Return (None, None))
  /\ _from_packet address parser (take (length packet) (packet ++ rest))
     = Return (Some m, Some (frame_status packet))
  /\ ((length packet < k <= length (packet ++ rest))%nat ->
      _from_packet address parser (take k (packet ++ rest))
      = Return (None, None)).
Proof.
  intros Hv Hb.
  assert (Hfull : _from_packet address parser packet
                  = Return (Some m, Some (frame_status packet))).
  { rewrite (from_packet_valid _ _ _ Hv). unfold decode_body.
    rewrite Hb. reflexivity. }
  split; [exact Hfull|]. split; [|split].
  - intros Hk. rewrite take_app_le by lia.
    apply from_packet_invalid. now apply frame_prefix_invalid.
  - rewrite take_app_length. exact Hfull.
  - intros Hk. apply from_packet_invalid.
    now apply frame_extended_invalid.
Qed.

Lemma from_packet_prefix_monotone_witness :
  let packet := [x1a; xce; xb5; x42; x03; x05; x01; x02; xe8; x2c] in
  let rest := [x1a; xce; xb5; x00; x00; x72; x75] in
  let m := MessageData [ByteData 5 (Some "echo_ack");
                        ListData [IntegerData 1 8 false; IntegerData 2 8 false]
                                 " "] " " None in
  _from_packet 5 message_parser packet = Return (Some m, Some 0x42)
  /\ _from_packet 5 message_parser (take 9 (packet ++ rest))
     = Return (None, None)
  /\ _from_packet 5 message_parser (take (length packet) (packet ++ rest))
     = Return (Some m, Some 0x42)
  /\ _from_packet 5 message_parser (take 11 (packet ++ rest))
     = Return (None, None).
Proof.
  intros packet rest m.
  assert (Hv : frame_valid 5 packet).
  { split; [reflexivity|]. split; [reflexivity|].
    exists 3. repeat split; try reflexivity. lia. }
  assert (Hb : from_binary message_parser (frame_body packet)
               = Return (m, []))
    by (vm_compute; reflexivity).
  assert (Hk : (9 < length packet)%nat) by (simpl; lia).
  assert (Hk' : (length packet < 11 <= length (packet ++ rest))%nat)
    by (simpl; lia).
  destruct (from_packet_prefix_monotone 5 message_parser packet rest m 9
              Hv Hb) as (H1 & H2 & H3 & _).
  destruct (from_packet_prefix_monotone 5 message_parser packet rest m 11
              Hv Hb) as (_ & _ & _ & H4).
  split; [exact H1|]. split; [exact (H2 Hk)|]. split; [exact H3|].
  exact (H4 Hk').
Defined.

(** ** The transport *)







(** ** Integers *)

(** The digit limit of the conversions between [int] and [str]. *)
Lemma count_digits_length (s : string) :
  0 <= count_digits s <= Z.of_nat (String.length s).
Proof.
  induction s as [|a s IH]; [cbn; lia|].
  cbn [count_digits String.length]. destruct (Ascii.eqb a "_"); lia.
Qed.

Lemma pos_digits_length (fuel : nat) : forall (n : Z) (acc : string),
  0 <= n -> (Z.to_nat (Z.log2 n) < fuel)%nat ->
  exists D : Z,
    Z.of_nat (String.length (pos_digits fuel n acc))
    = Z.of_nat (String.length acc) + D
    /\ 1 <= D /\ n < 10 ^ D /\ (D = 1 \/ 10 ^ (D - 1) <= n).
Proof.
  induction fuel as [|fuel IH]; intros n acc Hn Hf; [lia|].
  cbn [pos_digits]. destruct (n <? 10) eqn:E.
  - apply Z.ltb_lt in E. exists 1. cbn [String.length].
    repeat split; try lia.
  - apply Z.ltb_ge in E.
    assert (Hq : 0 <= n / 10) by (apply Z.div_pos; lia).
    assert (Hl : (Z.to_nat (Z.log2 (n / 10)) < fuel)%nat).
    { assert (Z.log2 (n / 10) < Z.log2 n).
      { assert (1 <= n / 10) by (apply Z.div_le_lower_bound; lia).
        assert (Hs := Z.log2_spec n ltac:(lia)).
        rewrite Z.pow_succ_r in Hs by apply Z.log2_nonneg.
        apply Z.log2_lt_pow2; [lia|].
        apply Z.div_lt_upper_bound; lia. }
      assert (0 <= Z.log2 (n / 10)) by apply Z.log2_nonneg. lia. }
    destruct (IH (n / 10) (String (char_of (48 + n mod 10)) acc) Hq Hl)
      as (D & Hlen & HD & Hlt & Hge).
    exists (D + 1). rewrite Hlen. cbn [String.length].
    assert (Hq1 : 1 <= n / 10) by (apply Z.div_le_lower_bound; lia).
    assert (Hm : 0 <= n mod 10 < 10) by (apply Z.mod_pos_bound; lia).
    pose proof (Z.div_mod n 10 ltac:(lia)) as Hdm.
    split; [lia|]. split; [lia|]. split.
    + rewrite Z.pow_add_r by lia. change (10 ^ 1) with 10. lia.
    + right. replace (D + 1 - 1) with (D - 1 + 1) by lia.
      rewrite Z.pow_add_r by lia. change (10 ^ 1) with 10.
      destruct Hge as [->|Hge]; [change (10 ^ (1 - 1)) with 1; lia|].
      remember (10 ^ (D - 1)) as P. lia.
Qed.

Lemma str_of_nonneg_length (n k : Z) :
  0 <= n -> 1 <= k ->
  (Z.of_nat (String.length (str_of_nonneg n)) <= k <-> n < 10 ^ k).
Proof.
  intros Hn Hk. unfold str_of_nonneg.
  destruct (pos_digits_length (S (Z.to_nat (Z.log2 n))) n EmptyString Hn)
    as (D & Hlen & HD & Hlt & Hge); [lia|].
  rewrite Hlen. cbn [String.length]. split.
  - intros H. apply Z.lt_le_trans with (10 ^ D); [exact Hlt|].
    apply Z.pow_le_mono_r; lia.
  - intros H. destruct Hge as [->|Hge]; [lia|].
    destruct (Z_le_dec D k) as [Hle|Hgt]; [lia|]. exfalso.
    assert (10 ^ k <= 10 ^ (D - 1)) by (apply Z.pow_le_mono_r; lia). lia.
Qed.

Lemma int_to_str_small (v : Z) :
  Z.abs v < 10 ^ MAX_STR_DIGITS -> int_to_str v = Return (py_str v).
Proof.
  intros H. unfold int_to_str.
  apply (str_of_nonneg_length (Z.abs v) MAX_STR_DIGITS) in H;
    [|lia|unfold MAX_STR_DIGITS; lia].
  apply Z.ltb_ge in H. now rewrite H.
Qed.

Lemma int_to_str_large (v : Z) :
  10 ^ MAX_STR_DIGITS <= Z.abs v -> int_to_str v = Raise ValueError.
Proof.
  intros H. unfold int_to_str.
  destruct (MAX_STR_DIGITS <?
            Z.of_nat (String.length (str_of_nonneg (Z.abs v)))) eqn:E;
    [reflexivity|].
  apply Z.ltb_ge in E.
  apply (str_of_nonneg_length (Z.abs v) MAX_STR_DIGITS) in E;
    [lia|lia|unfold MAX_STR_DIGITS; lia].
Qed.

(** The integers of the widths of [struct] are far below the limit. *)
Lemma word_below_limit (v : Z) :
  - 2 ^ 64 <= v <= 2 ^ 64 -> Z.abs v < 10 ^ MAX_STR_DIGITS.
Proof.
  intros H.
  assert (L : 2 ^ 64 < 10 ^ MAX_STR_DIGITS).
  { apply Z.lt_le_trans with (10 ^ 64).
    - apply Z.ltb_lt. vm_compute. reflexivity.
    - apply Z.pow_le_mono_r; unfold MAX_STR_DIGITS; lia. }
  lia.
Qed.

Lemma raise_with_int_small {A : Type} (v : Z) (e : exn) :
  Z.abs v < 10 ^ MAX_STR_DIGITS -> @raise_with_int A v e = Raise e.
Proof. intros H. unfold raise_with_int. now rewrite int_to_str_small. Qed.

Lemma raise_with_int_raises {A : Type} (v : Z) (e : exn) (a : A) :
  raise_with_int v e <> Return a.
Proof. unfold raise_with_int. destruct (int_to_str v); discriminate. Qed.





Lemma IntegerData_init_range (value bits : Z) (signed : bool) :
  0 < bits ->
  IntegerData_init value bits signed
  = if (int_min bits signed <=? value) && (value <=? int_max bits signed)
    then Return (IntegerData value bits signed)
    else raise_with_int value ParameterInvalid.
Proof.
  intros Hb. unfold IntegerData_init, int_min, int_max.
  rewrite !Z.shiftl_1_l.
  assert (H2 : 2 ^ bits = 2 * 2 ^ (bits - 1)).
  { rewrite <- Z.pow_succ_r by lia. f_equal. lia. }
  destruct signed.
  - replace (0 - 2 ^ (bits - 1)) with (- 2 ^ (bits - 1)) by lia.
    replace (2 ^ bits - 1 - 2 ^ (bits - 1)) with (2 ^ (bits - 1) - 1) by lia.
    reflexivity.
  - reflexivity.
Qed.



(** What [int] does not read as a number: a token padded with one of the
    separators 0x1C to 0x1F, and a decimal token of more than
    [MAX_STR_DIGITS] digits, leading zeros included.  Both end in
    [ParseError], the second even where the value would be out of range;
    with exactly [MAX_STR_DIGITS] digits the range check decides.  The
    white space 0x85 and 0xA0 is skipped, and a hexadecimal token has no
    limit. *)
Lemma integer_from_text_limits :
  py_int (String (char_of 28) "12") = None
  /\ py_int ("12" +:+ String (char_of 31) EmptyString) = None
  /\ py_int_base 16 (String (char_of 28) "ff") = None
  /\ py_float (String (char_of 28) "1.5") = None
  /\ py_int (String (char_of 133) "12" +:+ String (char_of 160) EmptyString)
     = Some 12
  /\ from_text (IntegerParser 8 false " ") (String (char_of 28) "12")
     = Raise ParseError
  /\ py_int (zero_pad 4299 "7") = Some 7
  /\ py_int (zero_pad 4300 "7") = None
  /\ py_int_base 16 (zero_pad 4300 "f") = Some 15
  /\ from_text (IntegerParser 8 false " ")
               (String "1" (zero_pad 4300 EmptyString))
     = Raise ParseError
  /\ from_text (IntegerParser 8 false " ")
               (String "1" (zero_pad 4299 EmptyString))
     = Raise ParameterInvalid.
Proof.
  do 10 (split; [vm_compute; reflexivity|]).
  set (token := String "1" (zero_pad 4299 EmptyString)).
  assert (H1 : split_sep " " token = Return (token, EmptyString))
    by (vm_compute; reflexivity).
  assert (H2 : startswith "0x" token || startswith "0X" token = false)
    by reflexivity.
  assert (H3 : py_int token = Some (10 ^ 4299)) by (vm_compute; reflexivity).
  assert (H4 : (int_min 8 false <=? 10 ^ 4299) && (10 ^ 4299 <=? int_max 8 false)
               = false) by (vm_compute; reflexivity).
  assert (H5 : Z.abs (10 ^ 4299) < 10 ^ MAX_STR_DIGITS)
    by (apply Z.ltb_lt; vm_compute; reflexivity).
  cbn [from_text IntegerParser]. unfold IntegerParser_from_text.
  rewrite H1. cbn [rbind]. rewrite H2, H3. cbn [rbind].
  rewrite IntegerData_init_range by lia. rewrite H4.
  now rewrite raise_with_int_small.
Qed.

(** ** Lists in binary form *)

Lemma unpack_f_short (data : bytes) :
  (length data < 4)%nat -> unpack_f data = Raise StructError.
Proof.
  intros H. unfold unpack_f.
  destruct (Nat.eqb_spec (length data) 4) as [E|E]; [lia|reflexivity].
Qed.

Lemma unpack_f_four (data : bytes) :
  length data = 4%nat -> exists x, unpack_f data = Return x.
Proof.
  intros H. unfold unpack_f. rewrite H. simpl Nat.eqb. eauto.
Qed.

(** Whole floats followed by a residue of one to three bytes: the loop of the
    list parser reaches the residue and [struct.unpack] rejects it. *)
Lemma list_loop_float_residue (units : option string) (residue : bytes)
  (n : nat) : forall (good : bytes) (fuel : nat) (fields : list SpaceData),
  length good = (4 * n)%nat ->
  (0 < length residue < 4)%nat ->
  (n < fuel)%nat ->
  list_loop bytes_empty (FloatParser_from_binary units) false fuel fields
            (good ++ residue)
  = Raise StructError.
Proof.
  induction n as [|n IH]; intros good fuel fields Hg Hr Hf.
  - destruct good; [|discriminate]. simpl app.
    destruct fuel as [|fuel]; [lia|].
    destruct residue as [|r residue]; [simpl in Hr; lia|].
    cbn [list_loop bytes_empty]. unfold FloatParser_from_binary.
    rewrite unpack_f_short; [reflexivity|].
    rewrite take_ge by lia. lia.
  - destruct fuel as [|fuel]; [lia|].
    destruct good as [|a [|b [|c [|d good]]]]; try (simpl in Hg; lia).
    cbn [list_loop bytes_empty app]. unfold FloatParser_from_binary at 1.
    cbn [take drop]. rewrite take_0, drop_0.
    destruct (unpack_f_four [a; b; c; d] eq_refl) as [x ->].
    cbn [rbind]. apply IH; [simpl in Hg; lia|exact Hr|lia].
Qed.

Lemma ListParser_float_residue (units : option string) (fsep sep : string)
  (good residue : bytes) (n : nat) :
  length good = (4 * n)%nat ->
  (0 < length residue < 4)%nat ->
  from_binary (ListParser (FloatParser units fsep) None sep) (good ++ residue)
  = Raise StructError.
Proof.
  intros Hg Hr. cbn [from_binary ListParser]. unfold ListParser_from_binary.
  cbn [from_binary FloatParser].
  rewrite (list_loop_float_residue units residue n good); try assumption.
  - reflexivity.
  - rewrite length_app. lia.
Qed.

(** C6: a list of floats whose binary input ends with a residue shorter than
    one element.  One float followed by one more byte makes the list parser
    fail with the library's [struct.error], which is not a [ParseError] and
    not a [SpaceError] at all; the same holds for a list of 32-bit integers
    and for the [flow] command of the catalog.  A string list, whose inner
    parser checks its input itself, does report [ParseError]. *)
Theorem list_residue_struct_error :
  from_binary (ListParser (FloatParser None " ") None " ")
              [x00; x00; xc0; x3f; x01]
  = Raise StructError
  /\ from_binary (ListParser (IntegerParser 32 false " ") None " ")
                 [x01; x00; x00; x00; x02]
     = Raise StructError
  /\ from_binary message_parser [x18; x00; x00; xc0]
     = Raise StructError
  /\ is_space_error StructError = false
  /\ from_binary (ListParser (StringParser " ") None " ") [x61; x00; x62]
     = Raise ParseError.
Proof. vm_compute. repeat split; reflexivity. Qed.

(** ** The echo flag *)

(** A session method that leaves the echo flag as it found it, however it
    ends. *)
Definition preserves_echo {A : Type} (m : M A) : Prop :=
  forall s, echo (snd (m s)) = echo s.



























(** Two methods that behave alike on every session whose echo is off. *)
Definition agree_echo_off {A : Type} (m m' : M A) : Prop :=
  forall s, echo s = false -> m s = m' s.




Lemma agree_try_except {A : Type} (body body' : M A) (handles : exn -> bool)
  (handler handler' : M A) :
  agree_echo_off body body' -> preserves_echo body' ->
  agree_echo_off handler handler' ->
  agree_echo_off (try_except body handles handler)
                 (try_except body' handles handler').
Proof.
  intros Hb Hp Hh s Hs. unfold try_except. rewrite (Hb s Hs).
  specialize (Hp s). destruct (body' s) as [[a|e] s']; simpl in Hp;
    [reflexivity|].
  destruct (handles e); [apply Hh; congruence|reflexivity].
Qed.



Section EchoOff.
Variable rl : run_line_t.
Hypothesis rl_preserves : forall line ei lg, preserves_echo (rl line ei lg).



End EchoOff.


(** ** The line classifier *)

Definition no_leading_space (s : string) : Prop :=
  match s with
  | String a _ => py_isspace a = false
  | EmptyString => True
  end.

Lemma lstrip_no_leading_space (s : string) : no_leading_space (lstrip s).
Proof.
  induction s as [|a s IH]; simpl; [exact I|].
  destruct (py_isspace a) eqn:E; [exact IH|exact E].
Qed.

Lemma lstrip_id (s : string) : no_leading_space s -> lstrip s = s.
Proof. destruct s as [|a s]; simpl; [reflexivity|]. now intros ->. Qed.

Lemma rstrip_no_leading_space (s : string) :
  no_leading_space s -> no_leading_space (rstrip s).
Proof.
  destruct s as [|a s]; simpl; [trivial|]. intros H.
  destruct (rstrip s); [rewrite H|]; exact H.
Qed.

Lemma rstrip_idempotent (s : string) : rstrip (rstrip s) = rstrip s.
Proof.
  induction s as [|a s IH]; [reflexivity|].
  cbn [rstrip]. destruct (rstrip s) as [|b r] eqn:E.
  - destruct (py_isspace a) eqn:Ea; [reflexivity|].
    cbn [rstrip]. now rewrite Ea.
  - cbn [rstrip]. cbn [rstrip] in IH. rewrite IH. reflexivity.
Qed.

Lemma strip_idempotent (s : string) : strip (strip s) = strip s.
Proof.
  unfold strip.
  rewrite (lstrip_id (rstrip (lstrip s))).
  - apply rstrip_idempotent.
  - apply rstrip_no_leading_space, lstrip_no_leading_space.
Qed.

Lemma startswith_char (c : ascii) (s : string) :
  startswith (String c EmptyString) s = true ->
  exists t, s = String c t.
Proof.
  destruct s as [|a s]; simpl; [discriminate|].
  rewrite andb_true_r. intros H. apply Ascii.eqb_eq in H. subst. eauto.
Qed.

(** Rule 1 of the classifier: the line is a comment or a recorded reply. *)
Definition ignored (l : string) : bool :=
  str_empty l || startswith "#" l || startswith "<" l.

(** C9 (counterexample): the line [> # comment] is not ignored: the text
    after the prefix is sent as a wire command, which here fails in the
    message parser because [#] is no command name; an ignored line returns
    [None] without an error. *)
Lemma quoted_comment_not_ignored :
  fst (run_line 1 "> # comment" true true (session_at_5 []))
  = Raise IdentifierUnknown
  /\ fst (run_line 1 "> # comment" true true (session_at_5 []))
     <> Return None
  /\ fst (run_line 1 "# comment" true true (session_at_5 [])) = Return None.
Proof.
  assert (H : fst (run_line 1 "> # comment" true true (session_at_5 []))
              = Raise IdentifierUnknown) by (vm_compute; reflexivity).
  split; [exact H|]. split; [rewrite H; discriminate|].
  vm_compute. reflexivity.
Qed.

(** C9 (amended): with [l] the line stripped of surrounding white space.
    Rule 1: when [l] is empty or starts with [#] or [<], the line is ignored:
    [run_line] returns [None] and changes nothing.  Rule 2: when [l] starts
    with [>], the prefix is dropped and the remainder [r] stripped; [r] is
    then classified by the rules that follow (macro, pause, flash, flashboot,
    cload, csave, wire command) and not by rules 1 and 2 again.  So when
    rules 1 and 2 do not apply to [r], the line runs as [r] does; and when
    [r] is empty or starts with [#], [<] or [>] and is no macro, [r] is sent
    as a wire command. *)
Theorem run_line_classifier (depth : nat) (line : string)
  (echo_input logged : bool) (s : LoggingSpaceProtocol) :
  let l := strip line in
  let r := strip (str_drop 1 l) in
  (ignored l = true ->
   run_line (S depth) line echo_input logged s = (Return None, s))
  /\ (startswith ">" l = true ->
      (ignored r = false -> startswith ">" r = false ->
       run_line (S depth) line echo_input logged s
       = run_line (S depth) r echo_input logged s)
      /\ (ignored r = true \/ startswith ">" r = true ->
          macros s !! r = None ->
          run_line (S depth) line echo_input logged s
          = send_text r logged s)).
Proof.
  intros l r.
  assert (El : strip line = l) by reflexivity.
  assert (Er : strip (str_drop 1 l) = r) by reflexivity.
  clearbody r. clearbody l.
  assert (Hsr : strip r = r) by (subst r; apply strip_idempotent).
  unfold ignored. split; [|intros Hgt; split].
  - intros Hi. cbn [run_line]. unfold run_line_body.
    rewrite El, Hi. reflexivity.
  - intros Hi Hr.
    assert (Hil : str_empty l || startswith "#" l || startswith "<" l = false).
    { destruct (startswith_char _ _ Hgt) as [t ->]. reflexivity. }
    cbn [run_line]. unfold run_line_body.
    rewrite El, Hsr, Hil, Hi, Hgt, Hr, Er. reflexivity.
  - intros Hi Hm.
    assert (Hil : str_empty l || startswith "#" l || startswith "<" l = false).
    { destruct (startswith_char _ _ Hgt) as [t ->]. reflexivity. }
    cbn [run_line]. unfold run_line_body.
    rewrite El, Hil, Hgt, Er.
    unfold bind at 1, gets at 1. rewrite Hm.
    assert (Hc : r = EmptyString \/ exists c t', r = String c t'
                   /\ (c = "#" \/ c = "<" \/ c = ">")%char).
    { destruct r as [|c t']; [now left|right].
      exists c, t'. split; [reflexivity|].
      cbn [str_empty startswith orb] in Hi.
      rewrite !andb_true_r in Hi.
      destruct Hi as [Hi|Hi].
      - apply orb_true_iff in Hi. destruct Hi as [Hi|Hi];
          apply Ascii.eqb_eq in Hi; auto.
      - apply Ascii.eqb_eq in Hi; auto. }
    destruct Hc as [ -> | (c & t' & -> & [ -> | [ -> | -> ] ]) ];
      reflexivity.
Qed.

Lemma run_line_classifier_witness :
  startswith ">" (strip "> # comment") = true
  /\ ignored (strip (str_drop 1 (strip "> # comment"))) = true
  /\ macros (session_at_5 []) !! strip (str_drop 1 (strip "> # comment"))
     = None
  /\ run_line 1 "> # comment" true true (session_at_5 [])
     = send_text "# comment" true (session_at_5 []).
Proof.
  assert (H1 : startswith ">" (strip "> # comment") = true) by reflexivity.
  assert (H2 : ignored (strip (str_drop 1 (strip "> # comment"))) = true)
    by reflexivity.
  assert (H3 : macros (session_at_5 [])
               !! strip (str_drop 1 (strip "> # comment")) = None)
    by reflexivity.
  repeat (split; [assumption|]).
  destruct (run_line_classifier 0 "> # comment" true true (session_at_5 []))
    as [_ H].
  destruct (H H1) as [_ H'].
  exact (H' (or_introl H2) H3).
Defined.

(** ** Firmware images *)

Lemma odd_lxor (a b : Z) : Z.odd (Z.lxor a b) = xorb (Z.odd a) (Z.odd b).
Proof. rewrite <- !Z.bit0_odd. apply Z.lxor_spec. Qed.

Lemma land_1_odd (a : Z) : (Z.land a 1 =? 0) = negb (Z.odd a).
Proof.
  change 1 with (Z.ones 1). rewrite Z.land_ones by lia.
  change (2 ^ 1) with 2. rewrite Zmod_odd.
  destruct (Z.odd a); reflexivity.
Qed.

Lemma crc32_bit_pending (a x : Z) :
  crc32_bit 0x82F63B78 (Z.lxor a x)
  = Z.lxor (crc32c_feed a (Z.odd x)) (Z.shiftr x 1).
Proof.
  unfold crc32_bit, crc32c_feed.
  rewrite land_1_odd, negb_involutive, odd_lxor, Z.shiftr_lxor.
  destruct (xorb (Z.odd a) (Z.odd x)).
  - rewrite !Z.lxor_assoc. f_equal. apply Z.lxor_comm.
  - reflexivity.
Qed.

Definition pending_shift32 (x : Z) : Z := Z.shiftr x 1.

Lemma crc32_iter_pending (n : nat) : forall a x : Z,
  Nat.iter n (crc32_bit 0x82F63B78) (Z.lxor a x)
  = Z.lxor
      (fold_left crc32c_feed
         (map (fun i => Z.odd (Nat.iter i pending_shift32 x)) (seq 0 n)) a)
      (Nat.iter n pending_shift32 x).
Proof.
  induction n as [|n IH]; intros a x.
  - reflexivity.
  - rewrite Nat.iter_succ_r, crc32_bit_pending.
    fold (pending_shift32 x). rewrite IH.
    rewrite <- Nat.iter_succ_r. f_equal.
    simpl seq. simpl map. simpl fold_left.
    f_equal. rewrite <- seq_shift, map_map.
    apply map_ext. intros i. now rewrite Nat.iter_succ_r.
Qed.

Lemma pending_byte32 (b : byte) :
  map (fun i => Z.odd (Nat.iter i pending_shift32 (byte_val b))) (seq 0 8)
  = lsb_first b
  /\ Nat.iter 8 pending_shift32 (byte_val b) = 0.
Proof. destruct b; vm_compute; split; reflexivity. Qed.

Lemma crc32_byte_feed (crc : Z) (b : byte) :
  crc32_byte 0x82F63B78 crc b = fold_left crc32c_feed (lsb_first b) crc.
Proof.
  unfold crc32_byte. rewrite crc32_iter_pending.
  destruct (pending_byte32 b) as [-> ->]. apply Z.lxor_0_r.
Qed.

(** The checksum routine of the tool is CRC-32C. *)
Lemma crc32_is_crc32c (data : bytes) : crc32 data = crc32c data.
Proof.
  unfold crc32, crc32_poly, crc32c. f_equal.
  generalize 0xFFFFFFFF.
  induction data as [|b data IH]; intros crc.
  - reflexivity.
  - change (flat_map lsb_first (b :: data))
      with (lsb_first b ++ flat_map lsb_first data).
    rewrite fold_left_app, <- crc32_byte_feed. apply IH.
Qed.

Example crc32c_check_value :
  crc32 [x31; x32; x33; x34; x35; x36; x37; x38; x39] = 0xE3069283.
Proof. vm_compute. reflexivity. Qed.

(** The time stamp and the two lines written to the log before a macro
    runs: they touch neither the session of the port nor the files. *)
Lemma log_header (logged : bool) (first : string -> string) (second : string)
  (s : LoggingSpaceProtocol) :
  exists s',
    when logged
      (let! ts := timestamp in
       let! _ := write_log (first ts) in
       write_log second) s = (Return tt, s')
    /\ base s' = base s
    /\ files (world s') = files (world s).
Proof.
  destruct logged; cbn [when].
  - unfold bind, timestamp, write_log, modify.
    destruct (clock (world s)); eexists; split; reflexivity || (split; reflexivity).
  - exists s. split; [reflexivity|split; reflexivity].
Qed.

Lemma app_image_checks (data : bytes) :
  app_image_ok data
  <-> ((length data <? 64 * 1024)%nat
       || ((256 - 32) * 1024 <=? length data)%nat = false
      /\ negb (int_from_bytes (slice 32 36 data) =? Z.of_nat (length data) - 4)
         || negb (int_from_bytes (drop (length data - 4) data)
                  =? crc32 (take (length data - 4) data)) = false).
Proof.
  unfold app_image_ok, int_from_bytes. rewrite crc32_is_crc32c.
  rewrite !orb_false_iff, !negb_false_iff, !Z.eqb_eq.
  rewrite Nat.ltb_ge, Nat.leb_gt.
  change ((256 - 32) * 1024)%nat with (224 * 1024)%nat.
  tauto.
Qed.

Lemma boot_image_checks (data : bytes) :
  boot_image_ok data
  <-> (length data <? 8 * 1024)%nat || (32 * 1024 <=? length data)%nat = false.
Proof.
  unfold boot_image_ok. rewrite orb_false_iff, Nat.ltb_ge, Nat.leb_gt. tauto.
Qed.

Lemma bind_run {A B : Type} (m : M A) (k : A -> M B) (s s' : LoggingSpaceProtocol)
  (a : A) :
  m s = (Return a, s') -> bind m k s = k a s'.
Proof. intros H. unfold bind. now rewrite H. Qed.

Lemma flash_rejects (depth : nat) (line path : string)
  (echo_input logged : bool) (s : LoggingSpaceProtocol) (data : bytes) :
  strip line = "flash " +:+ path ->
  macros s !! ("flash " +:+ path) = None ->
  files (world s) !! path = Some data ->
  ~ app_image_ok data ->
  exists s', run_line (S depth) line echo_input logged s = (Raise SpaceError, s')
             /\ base s' = base s.
Proof.
  intros Hl Hm Hf Hbad.
  cbn [run_line]. unfold run_line_body. rewrite Hl.
  cbv beta iota fix delta [String.append] in Hm |- *.
  cbn [startswith str_empty Ascii.eqb Bool.eqb andb orb negb str_drop].
  rewrite (bind_run _ _ s s None) by (unfold gets; now rewrite Hm).
  destruct (log_header logged (fun ts => "# " +:+ ts +:+ LF)
              ("# " +:+ "flash " +:+ path +:+ LF +:+ LF) s)
    as (s' & Hlog & Hbase & Hfiles).
  cbv beta iota fix delta [String.append] in Hlog.
  rewrite (bind_run _ _ s s' tt) by exact Hlog.
  rewrite (bind_run _ _ s' s' (Some data))
    by (unfold read_binary, gets; now rewrite Hfiles, Hf).
  exists s'. split; [|exact Hbase].
  destruct ((length data <? 64 * 1024)%nat
            || ((256 - 32) * 1024 <=? length data)%nat) eqn:E1;
    [reflexivity|].
  destruct (negb (int_from_bytes (slice 32 36 data)
                  =? Z.of_nat (length data) - 4)
            || negb (int_from_bytes (drop (length data - 4) data)
                     =? crc32 (take (length data - 4) data))) eqn:E2;
    [reflexivity|].
  exfalso. apply Hbad. apply app_image_checks. split; assumption.
Qed.

Lemma flashboot_rejects (depth : nat) (line path : string)
  (echo_input logged : bool) (s : LoggingSpaceProtocol) (data : bytes) :
  strip line = "flashboot " +:+ path ->
  macros s !! ("flashboot " +:+ path) = None ->
  files (world s) !! path = Some data ->
  ~ boot_image_ok data ->
  exists s', run_line (S depth) line echo_input logged s = (Raise SpaceError, s')
             /\ base s' = base s.
Proof.
  intros Hl Hm Hf Hbad.
  cbn [run_line]. unfold run_line_body. rewrite Hl.
  cbv beta iota fix delta [String.append] in Hm |- *.
  cbn [startswith str_empty Ascii.eqb Bool.eqb andb orb negb str_drop].
  rewrite (bind_run _ _ s s None) by (unfold gets; now rewrite Hm).
  destruct (log_header logged (fun ts => "# " +:+ ts +:+ LF)
              ("# " +:+ "flashboot " +:+ path +:+ LF +:+ LF) s)
    as (s' & Hlog & Hbase & Hfiles).
  cbv beta iota fix delta [String.append] in Hlog.
  rewrite (bind_run _ _ s s' tt) by exact Hlog.
  rewrite (bind_run _ _ s' s' (Some data))
    by (unfold read_binary, gets; now rewrite Hfiles, Hf).
  exists s'. split; [|exact Hbase].
  destruct ((length data <? 8 * 1024)%nat || (32 * 1024 <=? length data)%nat)
    eqn:E1; [reflexivity|].
  exfalso. apply Hbad. apply boot_image_checks. exact E1.
Qed.

(** C8: the flash macros validate the image before they send anything.  For
    [flash], an image that is not between 64 KiB and 224 KiB, or whose length
    field at offset 32 or trailing CRC-32C (both 32-bit little-endian) does
    not match, raises [SpaceError] while the serial port is untouched; for
    [flashboot], so does an image that is not between 8 KiB and 32 KiB.  The
    checksum routine is CRC-32C (reflected, polynomial 0x82F63B78, initial
    value and final xor 0xFFFFFFFF). *)
Theorem flash_validates_image (depth : nat) (line path : string)
  (echo_input logged : bool) (s : LoggingSpaceProtocol) (data : bytes) :
  files (world s) !! path = Some data ->
  let out := run_line (S depth) line echo_input logged s in
  (strip line = "flash " +:+ path ->
   macros s !! ("flash " +:+ path) = None ->
   ~ app_image_ok data ->
   fst out = Raise SpaceError /\ nothing_sent s (snd out))
  /\ (strip line = "flashboot " +:+ path ->
      macros s !! ("flashboot " +:+ path) = None ->
      ~ boot_image_ok data ->
      fst out = Raise SpaceError /\ nothing_sent s (snd out))
  /\ (forall d : bytes, crc32 d = crc32c d).
Proof.
  intros Hf out. split; [|split].
  - intros Hl Hm Hbad.
    destruct (flash_rejects depth line path echo_input logged s data
                Hl Hm Hf Hbad) as (s' & Hr & Hb).
    subst out. rewrite Hr. unfold nothing_sent. cbn [fst snd].
    now rewrite Hb.
  - intros Hl Hm Hbad.
    destruct (flashboot_rejects depth line path echo_input logged s data
                Hl Hm Hf Hbad) as (s' & Hr & Hb).
    subst out. rewrite Hr. unfold nothing_sent. cbn [fst snd].
    now rewrite Hb.
  - apply crc32_is_crc32c.
Qed.

Lemma flash_validates_image_witness :
  let s := set_world {| files := {[ "fw.bin" := [x00; x01] ]};
                        text_files := ∅; unwritable := ∅; saved := [];
                        clock := []; slept := [] |} (session_at_5 []) in
  files (world s) !! "fw.bin" = Some [x00; x01]
  /\ strip "flash fw.bin" = "flash " +:+ "fw.bin"
  /\ macros s !! ("flash " +:+ "fw.bin") = None
  /\ ~ app_image_ok [x00; x01]
  /\ fst (run_line 1 "flash fw.bin" true true s) = Raise SpaceError
  /\ nothing_sent s (snd (run_line 1 "flash fw.bin" true true s)).
Proof.
  intros s.
  assert (H1 : files (world s) !! "fw.bin" = Some [x00; x01])
    by (vm_compute; reflexivity).
  assert (H2 : strip "flash fw.bin" = "flash " +:+ "fw.bin") by reflexivity.
  assert (H3 : macros s !! ("flash " +:+ "fw.bin") = None)
    by (vm_compute; reflexivity).
  assert (H4 : ~ app_image_ok [x00; x01]).
  { intros (H & _). simpl length in H. lia. }
  repeat (split; [assumption|]).
  destruct (flash_validates_image 0 "flash fw.bin" "fw.bin" true true s
              [x00; x01] H1) as [H _].
  exact (H H2 H3 H4).
Defined.

Lemma COMMAND_SHAPES_spec :
  map (fun c => (command_parser c, reply_parser c)) COMMANDS
  = map (fun '(a, b) => (parser_of <$> a, parser_of <$> b)) COMMAND_SHAPES.
Proof. reflexivity. Qed.

Lemma COMMAND_SHAPES_ok :
  forallb (fun '(a, b) => from_option is_payload true a
                          && from_option is_payload true b)
          COMMAND_SHAPES = true.
Proof. vm_compute. reflexivity. Qed.

(** ** Round trips *)

(** *** Text helpers *)

Lemma append_assoc (a b c : string) : (a +:+ b) +:+ c = a +:+ (b +:+ c).
Proof.
  induction a as [|x a IH]; [reflexivity|].
  cbv beta iota fix delta [String.append]. fold String.append.
  f_equal. exact IH.
Qed.

Lemma append_cons (x : ascii) (a b : string) :
  String x a +:+ b = String x (a +:+ b).
Proof. reflexivity. Qed.

Lemma append_nil_l (b : string) : EmptyString +:+ b = b.
Proof. reflexivity. Qed.

Lemma append_nil_r (a : string) : a +:+ EmptyString = a.
Proof.
  induction a as [|x a IH]; [reflexivity|].
  rewrite append_cons. now rewrite IH.
Qed.

Lemma str_contains_append (c : ascii) (a b : string) :
  str_contains c (a +:+ b) = str_contains c a || str_contains c b.
Proof.
  induction a as [|x a IH]; [reflexivity|].
  rewrite append_cons. cbn [str_contains]. rewrite IH. apply orb_assoc.
Qed.

Lemma split_once_char (c : ascii) (t rest : string) :
  str_contains c t = false ->
  split_once (String c EmptyString) (t +:+ String c rest) = Some (t, rest).
Proof.
  induction t as [|x t IH]; intros H.
  - rewrite append_nil_l. cbn [split_once startswith].
    rewrite Ascii.eqb_refl. reflexivity.
  - cbn [str_contains] in H. apply orb_false_iff in H. destruct H as [Hx Ht].
    rewrite append_cons. cbn [split_once startswith]. rewrite Hx.
    cbn [andb]. now rewrite (IH Ht).
Qed.

Lemma split_once_char_none (c : ascii) (t : string) :
  str_contains c t = false ->
  split_once (String c EmptyString) t = None.
Proof.
  induction t as [|x t IH]; intros H; [reflexivity|].
  cbn [str_contains] in H. apply orb_false_iff in H. destruct H as [Hx Ht].
  cbn [split_once startswith]. rewrite Hx. cbn [andb]. now rewrite (IH Ht).
Qed.

Lemma split_sep_char (c : ascii) (t rest : string) :
  str_contains c t = false ->
  split_sep (String c EmptyString) (t +:+ String c rest) = Return (t, rest).
Proof.
  intros H. unfold split_sep. cbn [String.eqb].
  now rewrite split_once_char.
Qed.

Lemma split_sep_char_none (c : ascii) (t : string) :
  str_contains c t = false ->
  split_sep (String c EmptyString) t = Return (t, EmptyString).
Proof.
  intros H. unfold split_sep. cbn [String.eqb].
  now rewrite split_once_char_none.
Qed.

Lemma str_forall_append (P : ascii -> bool) (a b : string) :
  str_forall P (a +:+ b) = str_forall P a && str_forall P b.
Proof.
  induction a as [|x a IH]; [reflexivity|].
  rewrite append_cons. cbn [str_forall]. rewrite IH. apply andb_assoc.
Qed.

Lemma str_forall_impl (P Q : ascii -> bool) (s : string) :
  (forall a, P a = true -> Q a = true) ->
  str_forall P s = true -> str_forall Q s = true.
Proof.
  intros HPQ. induction s as [|x s IH]; [reflexivity|].
  cbn [str_forall]. intros H. apply andb_true_iff in H. destruct H as [Hx Hs].
  rewrite (HPQ _ Hx), (IH Hs). reflexivity.
Qed.

Lemma str_forall_contains (P : ascii -> bool) (c : ascii) (s : string) :
  P c = false -> str_forall P s = true -> str_contains c s = false.
Proof.
  intros Hc. induction s as [|x s IH]; [reflexivity|].
  cbn [str_forall str_contains]. intros H.
  apply andb_true_iff in H. destruct H as [Hx Hs].
  rewrite (IH Hs), orb_false_r.
  destruct (Ascii.eqb_spec c x) as [->|Hne]; [congruence|reflexivity].
Qed.

Lemma word_line (s : string) :
  str_forall word_char s = true -> str_forall line_char s = true.
Proof.
  apply str_forall_impl. intros a. unfold word_char, line_char, py_isspace.
  destruct (char_code a =? 10) eqn:E; [|reflexivity].
  apply Z.eqb_eq in E. rewrite E. discriminate.
Qed.

Lemma label_word (s : string) :
  str_forall label_char s = true -> str_forall word_char s = true.
Proof.
  apply str_forall_impl. intros a. unfold label_char.
  intros H. apply andb_true_iff in H. apply H.
Qed.

Lemma word_no_space (s : string) :
  str_forall word_char s = true -> str_contains " " s = false.
Proof. apply str_forall_contains. reflexivity. Qed.

Lemma label_no_equals (s : string) :
  str_forall label_char s = true -> str_contains "=" s = false.
Proof. apply str_forall_contains. reflexivity. Qed.

Lemma lstrip_word (s : string) : str_forall word_char s = true -> lstrip s = s.
Proof.
  destruct s as [|a s]; [reflexivity|]. cbn [str_forall lstrip].
  intros H. apply andb_true_iff in H. destruct H as [Ha _].
  unfold word_char in Ha. apply negb_true_iff in Ha. now rewrite Ha.
Qed.

Lemma rstrip_word (s : string) : str_forall word_char s = true -> rstrip s = s.
Proof.
  induction s as [|a s IH]; [reflexivity|]. cbn [str_forall rstrip].
  intros H. apply andb_true_iff in H. destruct H as [Ha Hs].
  rewrite (IH Hs). unfold word_char in Ha. apply negb_true_iff in Ha.
  destruct s; [now rewrite Ha|reflexivity].
Qed.

Lemma strip_word (s : string) : str_forall word_char s = true -> strip s = s.
Proof.
  intros H. unfold strip. rewrite (lstrip_word s H). now apply rstrip_word.
Qed.

Lemma split_word (t rest : string) :
  str_forall word_char t = true ->
  split_sep " " (t +:+ String " " rest) = Return (t, rest).
Proof. intros H. apply split_sep_char. now apply word_no_space. Qed.

Lemma split_word_end (t : string) :
  str_forall word_char t = true ->
  split_sep " " t = Return (t, EmptyString).
Proof. intros H. apply split_sep_char_none. now apply word_no_space. Qed.

(** *** Decimal digits *)

Lemma digit_of_value (k : Z) :
  0 <= k < 10 ->
  is_digit (char_of (48 + k)) = true
  /\ digit_value (char_of (48 + k)) = Some k
  /\ Ascii.eqb (char_of (48 + k)) "_" = false.
Proof.
  intros H.
  assert (E : k = 0 \/ k = 1 \/ k = 2 \/ k = 3 \/ k = 4 \/ k = 5 \/ k = 6
              \/ k = 7 \/ k = 8 \/ k = 9) by lia.
  repeat destruct E as [->|E]; try subst k; repeat split; reflexivity.
Qed.

Lemma pos_digits_scan (fuel : nat) : forall (n : Z) (acc : string),
  0 <= n -> (Z.to_nat (Z.log2 n) < fuel)%nat ->
  exists (d : ascii) (ds : string) (k : Z),
    pos_digits fuel n acc = String d (ds +:+ acc)
    /\ is_digit d = true /\ str_forall is_digit ds = true /\ 0 <= k
    /\ forall prev a rest,
         scan_digits 10 prev a (String d (ds +:+ rest))
         = scan_digits 10 (Some true) (a * 10 ^ k + n) rest.
Proof.
  induction fuel as [|fuel IH]; intros n acc Hn Hf; [lia|].
  cbn [pos_digits].
  assert (Hm : 0 <= n mod 10 < 10) by (apply Z.mod_pos_bound; lia).
  destruct (digit_of_value _ Hm) as (Hd & Hv & Hu).
  destruct (n <? 10) eqn:E.
  - apply Z.ltb_lt in E. rewrite Z.mod_small in * by lia.
    exists (char_of (48 + n)), EmptyString, 1. repeat split; try easy.
    intros prev a rest. rewrite append_nil_l. cbn [scan_digits].
    rewrite Hu, Hv.
    assert (L : (n <? 10) = true) by (apply Z.ltb_lt; lia). rewrite L.
    f_equal. lia.
  - apply Z.ltb_ge in E.
    assert (Hq : 0 <= n / 10) by (apply Z.div_pos; lia).
    assert (Hl : (Z.to_nat (Z.log2 (n / 10)) < fuel)%nat).
    { assert (Z.log2 (n / 10) < Z.log2 n).
      { assert (1 <= n / 10) by (apply Z.div_le_lower_bound; lia).
        assert (Hs := Z.log2_spec n ltac:(lia)).
        rewrite Z.pow_succ_r in Hs by apply Z.log2_nonneg.
        apply Z.log2_lt_pow2; [lia|].
        apply Z.div_lt_upper_bound; lia. }
      assert (0 <= Z.log2 (n / 10)) by apply Z.log2_nonneg. lia. }
    destruct (IH (n / 10) (String (char_of (48 + n mod 10)) acc) Hq Hl)
      as (d & ds & k & Heq & Hdd & Hds & Hk & Hscan).
    exists d, (ds +:+ String (char_of (48 + n mod 10)) EmptyString), (k + 1).
    repeat split.
    + rewrite Heq. f_equal. rewrite append_assoc. reflexivity.
    + exact Hdd.
    + rewrite str_forall_append, Hds. cbn [str_forall]. now rewrite Hd.
    + lia.
    + intros prev a rest. rewrite append_assoc, append_cons, append_nil_l.
      rewrite Hscan. cbn [scan_digits]. rewrite Hu, Hv.
      assert (L : (n mod 10 <? 10) = true) by (apply Z.ltb_lt; lia).
      rewrite L. f_equal. rewrite Z.pow_add_r by lia.
      rewrite (Z.div_mod n 10) at 3 by lia. ring.
Qed.

Lemma digit_label (a : ascii) : is_digit a = true -> label_char a = true.
Proof.
  destruct a as [b0 b1 b2 b3 b4 b5 b6 b7].
  destruct b0, b1, b2, b3, b4, b5, b6, b7; try discriminate; reflexivity.
Qed.

Lemma digits_label (s : string) :
  str_forall is_digit s = true -> str_forall label_char s = true.
Proof. apply str_forall_impl, digit_label. Qed.

Lemma str_of_nonneg_spec (n : Z) :
  0 <= n ->
  exists (d : ascii) (ds : string),
    str_of_nonneg n = String d ds
    /\ is_digit d = true /\ str_forall is_digit ds = true
    /\ scan_digits 10 None 0 (String d ds) = Some n.
Proof.
  intros Hn. unfold str_of_nonneg.
  destruct (pos_digits_scan (S (Z.to_nat (Z.log2 n))) n EmptyString Hn)
    as (d & ds & k & Heq & Hd & Hds & Hk & Hscan); [lia|].
  exists d, ds. rewrite append_nil_r in Heq. repeat split; try assumption.
  specialize (Hscan None 0 EmptyString). rewrite append_nil_r in Hscan.
  rewrite Hscan. reflexivity.
Qed.

(** The white space of [int] and [float] is white space of [str.strip]. *)
Lemma number_space_isspace (a : ascii) :
  number_space a = true -> py_isspace a = true.
Proof.
  destruct a as [b0 b1 b2 b3 b4 b5 b6 b7].
  destruct b0, b1, b2, b3, b4, b5, b6, b7; try discriminate; reflexivity.
Qed.

Lemma word_not_number_space (a : ascii) :
  word_char a = true -> number_space a = false.
Proof.
  unfold word_char. intros H. apply negb_true_iff in H.
  destruct (number_space a) eqn:E; [|reflexivity].
  now rewrite (number_space_isspace a E) in H.
Qed.

Lemma number_lstrip_word (s : string) :
  str_forall word_char s = true -> number_lstrip s = s.
Proof.
  destruct s as [|a s]; [reflexivity|]. cbn [str_forall number_lstrip].
  intros H. apply andb_true_iff in H. destruct H as [Ha _].
  now rewrite (word_not_number_space a Ha).
Qed.

Lemma number_rstrip_word (s : string) :
  str_forall word_char s = true -> number_rstrip s = s.
Proof.
  induction s as [|a s IH]; [reflexivity|]. cbn [str_forall number_rstrip].
  intros H. apply andb_true_iff in H. destruct H as [Ha Hs].
  rewrite (IH Hs). destruct s; [|reflexivity].
  now rewrite (word_not_number_space a Ha).
Qed.

Lemma number_strip_word (s : string) :
  str_forall word_char s = true -> number_strip s = s.
Proof.
  intros H. unfold number_strip. rewrite (number_lstrip_word s H).
  now apply number_rstrip_word.
Qed.

Lemma py_int_digits (d : ascii) (ds : string) :
  is_digit d = true -> str_forall is_digit ds = true ->
  Z.of_nat (String.length (String d ds)) <= MAX_STR_DIGITS ->
  py_int (String d ds) = scan_digits 10 None 0 (String d ds).
Proof.
  intros Hd Hds Hlen. unfold py_int, py_int_base.
  rewrite number_strip_word.
  2:{ apply label_word. cbn [str_forall].
      now rewrite (digit_label _ Hd), (digits_label _ Hds). }
  change ((10 =? 16) && _) with false. cbv iota.
  assert (Hc : (MAX_STR_DIGITS <? count_digits (String d ds)) = false).
  { apply Z.ltb_ge. pose proof (count_digits_length (String d ds)). lia. }
  destruct d as [b0 b1 b2 b3 b4 b5 b6 b7].
  destruct b0, b1, b2, b3, b4, b5, b6, b7; try discriminate Hd;
    rewrite Hc;
    match goal with |- context [scan_digits ?b ?p ?a ?s] =>
      destruct (scan_digits b p a s); reflexivity end.
Qed.

Lemma py_int_minus (s : string) :
  str_forall word_char s = true ->
  Z.of_nat (String.length s) <= MAX_STR_DIGITS ->
  py_int (String "-" s)
  = match scan_digits 10 None 0 s with
    | Some v => Some (- v)
    | None => None
    end.
Proof.
  intros Hs Hlen. unfold py_int, py_int_base.
  rewrite number_strip_word by (cbn [str_forall]; rewrite Hs; reflexivity).
  change ((10 =? 16) && _) with false. cbv iota.
  assert (Hc : (MAX_STR_DIGITS <? count_digits s) = false).
  { apply Z.ltb_ge. pose proof (count_digits_length s). lia. }
  rewrite Hc. reflexivity.
Qed.

Lemma py_int_py_str (v : Z) :
  Z.abs v < 10 ^ MAX_STR_DIGITS -> py_int (py_str v) = Some v.
Proof.
  intros Hlim.
  apply (str_of_nonneg_length (Z.abs v) MAX_STR_DIGITS) in Hlim;
    [|lia|unfold MAX_STR_DIGITS; lia].
  unfold py_str. destruct (v <? 0) eqn:E.
  - apply Z.ltb_lt in E. rewrite Z.abs_neq in Hlim by lia.
    destruct (str_of_nonneg_spec (- v)) as (d & ds & Heq & Hd & Hds & Hscan);
      [lia|].
    rewrite Heq in *. rewrite py_int_minus, Hscan.
    + f_equal. lia.
    + apply label_word. cbn [str_forall].
      now rewrite (digit_label _ Hd), (digits_label _ Hds).
    + exact Hlim.
  - apply Z.ltb_ge in E. rewrite Z.abs_eq in Hlim by lia.
    destruct (str_of_nonneg_spec v E) as (d & ds & Heq & Hd & Hds & Hscan).
    rewrite Heq in *. rewrite py_int_digits by assumption. exact Hscan.
Qed.

Lemma py_str_number (v : Z) :
  exists (a : ascii) (s : string),
    py_str v = String a s /\ str_forall number_char (String a s) = true.
Proof.
  assert (D : forall s, str_forall is_digit s = true ->
                        str_forall number_char s = true).
  { intros s. apply str_forall_impl. intros a H. unfold number_char.
    now rewrite H. }
  unfold py_str. destruct (v <? 0) eqn:E.
  - apply Z.ltb_lt in E.
    destruct (str_of_nonneg_spec (- v)) as (d & ds & Heq & Hd & Hds & _);
      [lia|].
    eexists _, _. split; [reflexivity|]. rewrite Heq.
    cbn [str_forall]. unfold number_char at 2. rewrite Hd, (D _ Hds).
    reflexivity.
  - apply Z.ltb_ge in E.
    destruct (str_of_nonneg_spec v E) as (d & ds & Heq & Hd & Hds & _).
    exists d, ds. split; [exact Heq|].
    cbn [str_forall]. unfold number_char at 1. now rewrite Hd, (D _ Hds).
Qed.

Lemma number_label (s : string) :
  str_forall number_char s = true -> str_forall label_char s = true.
Proof.
  apply str_forall_impl. intros a. unfold number_char. intros H.
  apply orb_true_iff in H. destruct H as [H|H].
  - now apply digit_label.
  - apply Ascii.eqb_eq in H. subst. reflexivity.
Qed.

Lemma number_not_hex (s : string) :
  str_forall number_char s = true ->
  startswith "0x" s || startswith "0X" s = false.
Proof.
  destruct s as [|a [|b s]]; try reflexivity.
  - cbn [startswith]. now rewrite !andb_false_r.
  - cbn [str_forall startswith]. intros H.
    apply andb_true_iff in H. destruct H as [_ H].
    apply andb_true_iff in H. destruct H as [Hb _].
    rewrite !andb_true_r.
    destruct (Ascii.eqb_spec "x" b) as [<-|_]; [discriminate|].
    destruct (Ascii.eqb_spec "X" b) as [<-|_]; [discriminate|].
    now rewrite !andb_false_r.
Qed.

(** *** Integers *)

Lemma length_le_bytes (n : nat) : forall v, length (le_bytes n v) = n.
Proof. induction n as [|n IH]; intros v; [reflexivity|]. cbn. now rewrite IH. Qed.

Lemma le_value_le_bytes (n : nat) : forall v,
  0 <= v < 2 ^ (8 * Z.of_nat n) -> le_value (le_bytes n v) = v.
Proof.
  induction n as [|n IH]; intros v Hv.
  - cbn in *. lia.
  - cbn [le_bytes le_value].
    replace (8 * Z.of_nat (S n)) with (8 + 8 * Z.of_nat n) in Hv by lia.
    rewrite Z.pow_add_r in Hv by lia. change (2 ^ 8) with 256 in Hv.
    change 255 with (Z.ones 8). rewrite Z.land_ones by lia.
    change (2 ^ 8) with 256.
    rewrite byte_val_of by (apply Z.mod_pos_bound; lia).
    rewrite Z.shiftr_div_pow2 by lia. change (2 ^ 8) with 256.
    rewrite IH.
    + rewrite (Z.div_mod v 256) at 3 by lia. lia.
    + split; [apply Z.div_pos; lia|].
      apply Z.div_lt_upper_bound; lia.
Qed.

Lemma struct_round (n : nat) (signed : bool) (v : Z) :
  (0 < n)%nat ->
  int_min (8 * Z.of_nat n) signed <= v <= int_max (8 * Z.of_nat n) signed ->
  exists b, struct_pack (n, signed) v = Return b
            /\ length b = n
            /\ struct_unpack (n, signed) b = Return v.
Proof.
  intros Hn Hv. unfold struct_pack, struct_unpack, int_min, int_max in *.
  set (w := 8 * Z.of_nat n) in *.
  assert (Hw : 0 < w) by lia.
  assert (H2 : 2 ^ w = 2 * 2 ^ (w - 1)).
  { rewrite <- Z.pow_succ_r by lia. f_equal. lia. }
  assert (Hp : 0 < 2 ^ (w - 1)) by (apply Z.pow_pos_nonneg; lia).
  exists (le_bytes n (v mod 2 ^ w)).
  assert (Hr : ((if signed then - 2 ^ (w - 1) else 0) <=? v)
               && (v <=? (if signed then 2 ^ (w - 1) - 1 else 2 ^ w - 1))
               = true).
  { apply andb_true_iff. split; apply Z.leb_le; lia. }
  rewrite Hr, length_le_bytes, Nat.eqb_refl.
  repeat split.
  rewrite le_value_le_bytes by (apply Z.mod_pos_bound; lia).
  f_equal. destruct signed; cbn [andb].
  - destruct (Z.le_gt_cases 0 v) as [Hpos|Hneg].
    + rewrite Z.mod_small by lia.
      destruct (2 ^ (w - 1) <=? v) eqn:E; [apply Z.leb_le in E; lia|].
      reflexivity.
    + replace (v mod 2 ^ w) with (v + 2 ^ w).
      2:{ apply Z.mod_unique with (q := -1); lia. }
      destruct (2 ^ (w - 1) <=? v + 2 ^ w) eqn:E; [lia|].
      apply Z.leb_gt in E. lia.
  - apply Z.mod_small. lia.
Qed.

Lemma struct_format_width (bits : Z) (signed : bool) :
  width_ok bits = true ->
  exists n, struct_format bits signed = Return (n, signed)
            /\ (0 < n)%nat /\ bits = 8 * Z.of_nat n
            /\ Z.to_nat ((bits + 7) / 8) = n.
Proof.
  unfold width_ok, struct_format. intros H.
  destruct (bits =? 8) eqn:E8; [apply Z.eqb_eq in E8; subst; exists 1%nat; repeat split; lia|].
  destruct (bits =? 16) eqn:E16; [apply Z.eqb_eq in E16; subst; exists 2%nat; repeat split; lia|].
  destruct (bits =? 32) eqn:E32; [apply Z.eqb_eq in E32; subst; exists 4%nat; repeat split; lia|].
  destruct (bits =? 64) eqn:E64; [apply Z.eqb_eq in E64; subst; exists 8%nat; repeat split; lia|].
  discriminate.
Qed.

Lemma width_pos (bits : Z) : width_ok bits = true -> 0 < bits.
Proof.
  intros H. destruct (struct_format_width bits false H) as (n & _ & ? & ? & _).
  lia.
Qed.

Lemma init_in_range (v bits : Z) (signed : bool) :
  0 < bits -> int_min bits signed <= v <= int_max bits signed ->
  IntegerData_init v bits signed = Return (IntegerData v bits signed).
Proof.
  intros Hb Hv. rewrite IntegerData_init_range by exact Hb.
  assert (H : (int_min bits signed <=? v) && (v <=? int_max bits signed) = true).
  { apply andb_true_iff. split; apply Z.leb_le; lia. }
  now rewrite H.
Qed.

Lemma init_returns (v bits : Z) (signed : bool) (d : SpaceData) :
  0 < bits -> IntegerData_init v bits signed = Return d ->
  d = IntegerData v bits signed
  /\ int_min bits signed <= v <= int_max bits signed.
Proof.
  intros Hb. rewrite IntegerData_init_range by exact Hb.
  destruct ((int_min bits signed <=? v) && (v <=? int_max bits signed)) eqn:E;
    [|intros H; now apply raise_with_int_raises in H].
  intros [= <-]. apply andb_true_iff in E. destruct E as [E1 E2].
  apply Z.leb_le in E1, E2. auto.
Qed.

Lemma integer_from_text_str (bits : Z) (signed : bool) (v : Z)
  (text rest : string) :
  0 < bits -> int_min bits signed <= v <= int_max bits signed ->
  Z.abs v < 10 ^ MAX_STR_DIGITS ->
  split_sep " " text = Return (py_str v, rest) ->
  IntegerParser_from_text bits signed " " text
  = Return (IntegerData v bits signed, rest).
Proof.
  intros Hb Hv Hlim Hs. unfold IntegerParser_from_text. rewrite Hs.
  cbv beta iota delta [rbind].
  destruct (py_str_number v) as (a & s & Heq & Hnum).
  rewrite Heq in *. rewrite (number_not_hex _ Hnum). rewrite <- Heq.
  rewrite py_int_py_str by exact Hlim.
  rewrite init_in_range by assumption. reflexivity.
Qed.

(** A value in the range of a width of [struct] is below the digit limit. *)
Lemma range_below_limit (bits : Z) (signed : bool) (v : Z) :
  width_ok bits = true -> int_min bits signed <= v <= int_max bits signed ->
  Z.abs v < 10 ^ MAX_STR_DIGITS.
Proof.
  intros Hw Hv. apply word_below_limit.
  assert (H : bits = 8 \/ bits = 16 \/ bits = 32 \/ bits = 64).
  { unfold width_ok in Hw. repeat (apply orb_true_iff in Hw as [Hw|Hw]);
      apply Z.eqb_eq in Hw; auto. }
  unfold int_min, int_max in Hv.
  destruct H as [-> | [-> | [-> | ->] ] ]; destruct signed;
    cbn in Hv |- *; lia.
Qed.

Lemma integer_to_text (bits : Z) (signed : bool) (v : Z) :
  Z.abs v < 10 ^ MAX_STR_DIGITS ->
  to_text (IntegerData v bits signed) = Return (py_str v).
Proof. intros H. cbn [to_text]. now apply int_to_str_small. Qed.

Lemma integer_binary (bits : Z) (signed : bool) (v : Z) :
  width_ok bits = true -> int_min bits signed <= v <= int_max bits signed ->
  exists b, to_binary (IntegerData v bits signed) = Return b
            /\ b <> []
            /\ forall rest,
                 IntegerParser_from_binary bits signed (b ++ rest)
                 = Return (IntegerData v bits signed, rest).
Proof.
  intros Hw Hv.
  destruct (struct_format_width bits signed Hw) as (n & Hf & Hn & Hb & Hl).
  rewrite Hb in Hv.
  destruct (struct_round n signed v Hn Hv) as (b & Hp & Hlen & Hu).
  exists b. cbn [to_binary]. rewrite Hf. cbv beta iota delta [rbind].
  split; [exact Hp|]. split.
  { intros ->. cbn in Hlen. lia. }
  intros rest. unfold IntegerParser_from_binary. rewrite Hl, Hf.
  cbv beta iota delta [rbind].
  rewrite take_app_length' by (symmetry; exact Hlen).
  rewrite drop_app_length' by (symmetry; exact Hlen).
  rewrite Hu. rewrite init_in_range; [reflexivity|lia|].
  rewrite Hb. exact Hv.
Qed.

(** *** Identifiers *)

Lemma table_ok_spec (t : IdentifierTable) (code : Z) (label : string) :
  table_ok t = true ->
  code_to_label t !! code = Some label ->
  0 <= code <= 255 /\ label <> EmptyString
  /\ str_forall label_char label = true
  /\ label_to_code t !! label = Some code.
Proof.
  unfold table_ok. intros Hok Hl.
  rewrite forallb_forall in Hok.
  specialize (Hok (code, label)). cbv beta iota in Hok.
  assert (Hin : In (code, label) (map_to_list (code_to_label t))).
  { apply list_elem_of_In, elem_of_map_to_list. exact Hl. }
  specialize (Hok Hin).
  apply andb_true_iff in Hok. destruct Hok as [Hok H4].
  apply andb_true_iff in Hok. destruct Hok as [Hok H3].
  apply andb_true_iff in Hok. destruct Hok as [H1 H2].
  apply Z.leb_le in H1, H2.
  unfold label_ok in H3. apply andb_true_iff in H3. destruct H3 as [H3 H3'].
  split; [lia|]. split; [intros ->; discriminate|]. split; [exact H3'|].
  destruct (label_to_code t !! label) as [c|]; [|discriminate].
  apply Z.eqb_eq in H4. now subst.
Qed.

Lemma byte_init (code : Z) (label : option string) :
  0 <= code <= 255 -> ByteData_init code label = Return (ByteData code label).
Proof.
  intros Hc. unfold ByteData_init.
  rewrite init_in_range; [reflexivity|lia|]. unfold int_min, int_max.
  change (2 ^ 8) with 256. lia.
Qed.

Lemma byte_init_returns (code : Z) (label : option string) (d : SpaceData) :
  ByteData_init code label = Return d -> d = ByteData code label.
Proof.
  unfold ByteData_init. destruct (IntegerData_init code 8 false); [|discriminate].
  now intros [= <-].
Qed.

Lemma identifier_from_text_label (t : IdentifierTable) (code : Z)
  (label text rest : string) :
  table_ok t = true ->
  code_to_label t !! code = Some label ->
  split_sep " " text = Return (label, rest) ->
  IdentifierParser_from_text t text = Return (ByteData code (Some label), rest).
Proof.
  intros Hok Hl Hs.
  destruct (table_ok_spec t code label Hok Hl) as (Hc & _ & _ & Hlc).
  unfold IdentifierParser_from_text. rewrite Hs.
  cbv beta iota delta [rbind]. rewrite Hlc, Hl.
  now rewrite byte_init.
Qed.

Lemma byte_binary (code : Z) (label : option string) :
  0 <= code <= 255 ->
  to_binary (ByteData code label) = Return [byte_of code].
Proof.
  intros Hc. cbn [to_binary]. change (struct_format 8 false)
    with (@Return (nat * bool) (1%nat, false)).
  cbv beta iota delta [rbind]. unfold struct_pack.
  change (8 * Z.of_nat 1) with 8. change (2 ^ 8) with 256.
  assert (H : (0 <=? code) && (code <=? 256 - 1) = true).
  { apply andb_true_iff. split; apply Z.leb_le; lia. }
  rewrite H. cbn [le_bytes]. rewrite Z.mod_small by lia.
  change 255 with (Z.ones 8). rewrite Z.land_ones by lia.
  change (2 ^ 8) with 256. rewrite Z.mod_small by lia. reflexivity.
Qed.

Lemma identifier_from_binary_code (t : IdentifierTable) (code : Z)
  (label : string) (rest : bytes) :
  0 <= code <= 255 ->
  code_to_label t !! code = Some label ->
  IdentifierParser_from_binary t (byte_of code :: rest)
  = Return (ByteData code (Some label), rest).
Proof.
  intros Hc Hl. unfold IdentifierParser_from_binary.
  rewrite byte_val_of by lia. rewrite Hl.
  now rewrite byte_init.
Qed.

(** *** Floats *)

Lemma float_word (s : string) :
  str_forall float_char s = true -> str_forall word_char s = true.
Proof.
  apply str_forall_impl. intros a.
  destruct a as [b0 b1 b2 b3 b4 b5 b6 b7].
  destruct b0, b1, b2, b3, b4, b5, b6, b7; try discriminate; reflexivity.
Qed.

Lemma number_float (s : string) :
  str_forall number_char s = true -> str_forall float_char s = true.
Proof.
  apply str_forall_impl. intros a H. unfold float_char. now rewrite H.
Qed.

Lemma py_str_float (v : Z) : str_forall float_char (py_str v) = true.
Proof.
  destruct (py_str_number v) as (a & s & -> & H). now apply number_float.
Qed.

Lemma str_forall_zero_pad (P : ascii -> bool) (n : nat) (s : string) :
  P "0"%char = true -> str_forall P s = true ->
  str_forall P (zero_pad n s) = true.
Proof.
  intros H0 Hs. induction n as [|n IH]; [exact Hs|].
  cbn [zero_pad str_forall]. now rewrite H0, IH.
Qed.

Lemma str_forall_take (P : ascii -> bool) (n : nat) : forall s,
  str_forall P s = true -> str_forall P (str_take n s) = true.
Proof.
  induction n as [|n IH]; intros [|a s]; try reflexivity.
  cbn [str_take str_forall]. intros H. apply andb_true_iff in H.
  destruct H as [Ha Hs]. now rewrite Ha, IH.
Qed.

Lemma str_forall_drop (P : ascii -> bool) (n : nat) : forall s,
  str_forall P s = true -> str_forall P (str_drop n s) = true.
Proof.
  induction n as [|n IH]; intros [|a s]; try reflexivity; try easy.
  cbn [str_drop str_forall]. intros H. apply andb_true_iff in H.
  destruct H as [Ha Hs]. now apply IH.
Qed.

Lemma str_forall_rstrip_zeros (P : ascii -> bool) (s : string) :
  str_forall P s = true -> str_forall P (rstrip_zeros s) = true.
Proof.
  induction s as [|a s IH]; [reflexivity|].
  cbn [rstrip_zeros str_forall]. intros H. apply andb_true_iff in H.
  destruct H as [Ha Hs]. specialize (IH Hs).
  destruct (rstrip_zeros s) as [|b r].
  - destruct (Ascii.eqb a "0"); [reflexivity|]. cbn [str_forall].
    now rewrite Ha.
  - change (str_forall P (String a (String b r)))
      with (P a && str_forall P (String b r)). now rewrite Ha, IH.
Qed.

Lemma str_forall_with_fraction (P : ascii -> bool) (ip frac : string) :
  P "."%char = true -> str_forall P ip = true -> str_forall P frac = true ->
  str_forall P (with_fraction ip frac) = true.
Proof.
  intros Hdot Hip Hf. unfold with_fraction.
  pose proof (str_forall_rstrip_zeros P frac Hf) as Hr.
  destruct (rstrip_zeros frac) as [|b r]; [exact Hip|].
  change (String.append ip (String "." (String b r)))
    with (ip +:+ String "." (String b r)).
  rewrite str_forall_append, Hip.
  change (str_forall P (String "." (String b r)))
    with (P "."%char && str_forall P (String b r)).
  now rewrite Hdot, Hr.
Qed.

Lemma format_g_finite_chars (neg : bool) (n d : Z) :
  str_forall float_char (format_g_finite neg n d) = true.
Proof.
  unfold format_g_finite. destruct (sig6 n d) as [digits x].
  pose proof (py_str_float digits) as Hd.
  assert (Hbody : forall body, str_forall float_char body = true ->
            str_forall float_char (if neg then String "-" body else body)
            = true).
  { intros body Hb. destruct neg; [|exact Hb]. cbn [str_forall].
    now rewrite Hb. }
  apply Hbody.
  assert (Hdot : float_char "."%char = true) by reflexivity.
  assert (H0 : float_char "0"%char = true) by reflexivity.
  destruct ((-4 <=? x) && (x <? 6)).
  - destruct (x <? 0).
    + apply str_forall_with_fraction; [exact Hdot|reflexivity|].
      now apply str_forall_zero_pad.
    + apply str_forall_with_fraction; [exact Hdot| |].
      * now apply str_forall_take.
      * now apply str_forall_drop.
  - change (String.append ?a ?b) with (a +:+ b).
    rewrite str_forall_append.
    rewrite str_forall_with_fraction; [|exact Hdot| |].
    + pose proof (py_str_float (Z.abs x)) as He.
      change (true && ?b) with b.
      destruct (x <? 0), (Z.abs x <? 10);
        repeat match goal with
               | |- str_forall float_char (String ?a ?r) = true =>
                   change (float_char a && str_forall float_char r = true);
                   apply andb_true_iff; split; [reflexivity|]
               end; exact He.
    + now apply str_forall_take.
    + now apply str_forall_drop.
Qed.

Lemma format_g_chars (x : pyfloat) : str_forall float_char (format_g x) = true.
Proof.
  destruct x as [s|s| |s m e]; cbn [format_g].
  - now destruct s.
  - now destruct s.
  - reflexivity.
  - destruct (0 <=? e); apply format_g_finite_chars.
Qed.

Lemma float_eqb_eq (x y : pyfloat) : float_eqb x y = true -> x = y.
Proof.
  destruct x as [a|a| |a m e], y as [b|b| |b m' e']; cbn; try discriminate.
  - intros H. apply Bool.eqb_prop in H. now subst.
  - intros H. apply Bool.eqb_prop in H. now subst.
  - reflexivity.
  - intros H. apply andb_true_iff in H. destruct H as [H H3].
    apply andb_true_iff in H. destruct H as [H1 H2].
    apply Bool.eqb_prop in H1. apply Pos.eqb_eq in H2. apply Z.eqb_eq in H3.
    now subst.
Qed.

Lemma float_text (x : pyfloat) :
  float_text_stable x = true ->
  py_float (format_g x) = Some x
  /\ format_g x <> EmptyString
  /\ str_forall word_char (format_g x) = true.
Proof.
  unfold float_text_stable. intros H.
  destruct (py_float (format_g x)) as [y|] eqn:E; [|discriminate].
  apply float_eqb_eq in H. subst y. split; [reflexivity|]. split.
  - intros Hnil. rewrite Hnil in E. discriminate E.
  - apply float_word, format_g_chars.
Qed.

Lemma float_from_text_str (x : pyfloat) (text rest : string) :
  float_text_stable x = true ->
  split_sep " " text = Return (format_g x, rest) ->
  FloatParser_from_text None " " text = Return (FloatData x None, rest).
Proof.
  intros Hx Hs. destruct (float_text x Hx) as (Hp & _ & _).
  unfold FloatParser_from_text. rewrite Hs.
  cbv beta iota delta [rbind]. now rewrite Hp.
Qed.

Lemma pack_f_length (x : pyfloat) (b : bytes) :
  pack_f x = Return b -> length b = 4%nat.
Proof.
  assert (L : forall y, @Return bytes (le_bytes 4 y) = Return b ->
                        length b = 4%nat).
  { intros y [= <-]. reflexivity. }
  unfold pack_f. destruct x as [s|s| |s m e]; try apply L.
  generalize (binary_normalize 24 128 (if s then Z.neg m else Z.pos m) e s).
  intros [s'|s'| |s' m' e']; try apply L. discriminate.
Qed.

Lemma float_binary (x : pyfloat) :
  float_binary_stable x = true ->
  exists b, to_binary (FloatData x None) = Return b
            /\ b <> []
            /\ forall rest, FloatParser_from_binary None (b ++ rest)
                            = Return (FloatData x None, rest).
Proof.
  unfold float_binary_stable. intros H.
  destruct (pack_f x) as [b|] eqn:Ep; [|discriminate].
  destruct (unpack_f b) as [y|] eqn:Eu; [|discriminate].
  apply float_eqb_eq in H. subst y.
  pose proof (pack_f_length x b Ep) as Hlen.
  exists b. cbn [to_binary]. split; [exact Ep|]. split.
  { intros ->. discriminate. }
  intros rest. unfold FloatParser_from_binary.
  rewrite take_app_length' by (symmetry; exact Hlen).
  rewrite drop_app_length' by (symmetry; exact Hlen).
  rewrite Eu. reflexivity.
Qed.

(** *** Strings *)

Lemma char_code_of (c : Z) : 0 <= c < 256 -> char_code (char_of c) = c.
Proof.
  intros H. unfold char_code, char_of.
  rewrite N_ascii_embedding by lia. lia.
Qed.

Lemma utf8_one_byte (x : byte) :
  (byte_val x <? 0x80) = true ->
  (char_code (char_of (byte_val x)) <? 0x80) = true
  /\ byte_of (char_code (char_of (byte_val x))) = x.
Proof.
  intros H. pose proof (byte_val_range x) as R.
  rewrite char_code_of by lia. split; [exact H|apply byte_of_val].
Qed.

Lemma utf8_two_bytes (x y : byte) :
  (byte_val x =? 0xC2) || (byte_val x =? 0xC3) = true ->
  (0x80 <=? byte_val y) && (byte_val y <=? 0xBF) = true ->
  let c := char_code (char_of (Z.lor (Z.shiftl (Z.land (byte_val x) 0x1F) 6)
                                     (Z.land (byte_val y) 0x3F))) in
  (c <? 0x80) = false
  /\ byte_of (Z.lor 0xC0 (Z.shiftr c 6)) = x
  /\ byte_of (Z.lor 0x80 (Z.land c 0x3F)) = y.
Proof.
  intros Hx Hy.
  destruct x; try discriminate Hx; destruct y; try discriminate Hy;
    vm_compute; repeat split.
Qed.

Lemma utf8_round (n : nat) : forall (b : bytes) (t : string),
  (length b <= n)%nat -> utf8_decode b = Return t -> utf8_encode t = b.
Proof.
  induction n as [|n IH]; intros b t Hn H.
  - destruct b; [|cbn in Hn; lia]. injection H as <-. reflexivity.
  - destruct b as [|x b]; [injection H as <-; reflexivity|].
    cbn [utf8_decode] in H. cbv zeta in H.
    destruct (byte_val x <? 128) eqn:E1.
    + destruct (utf8_decode b) as [r|] eqn:Er; [|discriminate].
      injection H as <-. cbn [utf8_encode]. cbv zeta.
      destruct (utf8_one_byte x E1) as [-> ->].
      f_equal. apply IH; [cbn in Hn; lia|exact Er].
    + destruct ((byte_val x =? 194) || (byte_val x =? 195)) eqn:E2.
      * destruct b as [|y b]; [discriminate|].
        destruct ((128 <=? byte_val y) && (byte_val y <=? 191)) eqn:E3;
          [|discriminate].
        destruct (utf8_decode b) as [r|] eqn:Er; [|discriminate].
        injection H as <-. cbn [utf8_encode]. cbv zeta.
        destruct (utf8_two_bytes x y E2 E3) as (-> & -> & ->).
        do 2 f_equal. apply IH; [cbn in Hn; lia|exact Er].
      * destruct ((196 <=? byte_val x) && (byte_val x <=? 244)); discriminate.
Qed.

Lemma utf8_encode_decode (b : bytes) (t : string) :
  utf8_decode b = Return t -> utf8_encode t = b.
Proof. apply (utf8_round (length b)). lia. Qed.

Lemma repr_body_cons (q a : ascii) (s : string) :
  repr_body q (String a s) = repr_char q a +:+ repr_body q s.
Proof.
  unfold repr_char. cbn [repr_body]. cbv zeta.
  destruct (Ascii.eqb a q || Ascii.eqb a "\"); [reflexivity|].
  destruct (char_code a =? 9); [reflexivity|].
  destruct (char_code a =? 10); [reflexivity|].
  destruct (char_code a =? 13); [reflexivity|].
  destruct (py_isprintable (char_code a)); [reflexivity|].
  unfold hex2. reflexivity.
Qed.

Lemma repr_char_line (q a : ascii) :
  is_quote q -> str_forall line_char (repr_char q a) = true.
Proof.
  intros [->| ->]; destruct a as [b0 b1 b2 b3 b4 b5 b6 b7];
    destruct b0, b1, b2, b3, b4, b5, b6, b7; reflexivity.
Qed.

Lemma repr_char_quote (q a : ascii) :
  is_quote q -> Ascii.eqb q a = false ->
  str_contains q (repr_char q a) = false.
Proof.
  intros [->| ->]; destruct a as [b0 b1 b2 b3 b4 b5 b6 b7];
    destruct b0, b1, b2, b3, b4, b5, b6, b7; intros H;
    try discriminate H; reflexivity.
Qed.

Lemma unescape_repr_char (q a : ascii) (r s : string) :
  is_quote q -> unescape r = Return s ->
  unescape (repr_char q a +:+ r) = Return (String a s).
Proof.
  intros [->| ->] H; destruct a as [b0 b1 b2 b3 b4 b5 b6 b7];
    destruct b0, b1, b2, b3, b4, b5, b6, b7;
    cbv - [unescape]; cbn; rewrite H; reflexivity.
Qed.

Lemma unescape_repr_body (q : ascii) (s : string) :
  is_quote q -> unescape (repr_body q s) = Return s.
Proof.
  intros Hq. induction s as [|a s IH]; [reflexivity|].
  rewrite repr_body_cons. now apply unescape_repr_char.
Qed.

Lemma repr_body_line (q : ascii) (s : string) :
  is_quote q -> str_forall line_char (repr_body q s) = true.
Proof.
  intros Hq. induction s as [|a s IH]; [reflexivity|].
  rewrite repr_body_cons, str_forall_append, IH.
  now rewrite repr_char_line.
Qed.

Lemma repr_body_quote (q : ascii) (s : string) :
  is_quote q -> str_contains q s = false ->
  str_contains q (repr_body q s) = false.
Proof.
  intros Hq. induction s as [|a s IH]; [reflexivity|].
  cbn [str_contains]. intros H. apply orb_false_iff in H.
  destruct H as [Ha Hs].
  rewrite repr_body_cons, str_contains_append, (IH Hs).
  now rewrite repr_char_quote.
Qed.

(** The quote [repr] chooses, when the text does not hold both kinds. *)
Lemma py_repr_quote (s : string) :
  negb (str_contains "'" s && str_contains DQUOTE s) = true ->
  exists q, is_quote q /\ str_contains q s = false
            /\ py_repr s = String q (repr_body q s +:+ String q EmptyString).
Proof.
  unfold py_repr. intros H.
  destruct (str_contains "'" s) eqn:E1, (str_contains DQUOTE s) eqn:E2;
    try discriminate H; cbn [andb negb].
  - exists DQUOTE. split; [now right|]. now split.
  - exists "'"%char. split; [now left|]. now split.
  - exists "'"%char. split; [now left|]. now split.
Qed.

Lemma until_newline_line (s : string) :
  str_forall line_char s = true -> until_newline s = s.
Proof.
  induction s as [|a s IH]; [reflexivity|].
  cbn [str_forall until_newline]. intros H. apply andb_true_iff in H.
  destruct H as [Ha Hs]. unfold line_char in Ha. apply negb_true_iff in Ha.
  now rewrite Ha, IH.
Qed.

Lemma string_text (value : bytes) :
  string_text_stable value = true ->
  exists t, to_text (StringData value) = Return t
            /\ t <> EmptyString
            /\ str_forall line_char t = true
            /\ StringParser_from_text " " t
               = Return (StringData value, EmptyString)
            /\ forall rest, str_forall line_char rest = true ->
                 StringParser_from_text " " (t +:+ String " " rest)
                 = Return (StringData value, rest).
Proof.
  unfold string_text_stable. intros H.
  destruct (utf8_decode value) as [s|] eqn:Ed; [|discriminate].
  destruct (py_repr_quote s H) as (q & Hq & Hc & Hr).
  pose proof (utf8_encode_decode value s Ed) as He.
  pose proof (repr_body_quote q s Hq Hc) as Hb.
  assert (Hqq : Ascii.eqb q "'" || Ascii.eqb q DQUOTE = true).
  { destruct Hq as [->| ->]; reflexivity. }
  assert (Hl : line_char q = true) by (destruct Hq as [->| ->]; reflexivity).
  exists (py_repr s). cbn [to_text]. rewrite Ed.
  split; [reflexivity|]. rewrite Hr.
  split; [discriminate|]. split.
  { cbn [str_forall]. rewrite Hl, str_forall_append, repr_body_line by exact Hq.
    cbn [str_forall]. now rewrite Hl. }
  split.
  - unfold StringParser_from_text. rewrite Hqq.
    rewrite split_once_char by exact Hb.
    rewrite unescape_repr_body by exact Hq.
    cbv beta iota delta [rbind]. cbn [until_newline]. now rewrite He.
  - intros rest Hrest. unfold StringParser_from_text.
    rewrite append_cons, Hqq, append_assoc, append_cons, append_nil_l.
    rewrite split_once_char by exact Hb.
    rewrite unescape_repr_body by exact Hq.
    cbv beta iota delta [rbind].
    rewrite until_newline_line by (cbn [str_forall]; now rewrite Hrest).
    cbn [startswith Ascii.eqb Bool.eqb andb String.length str_drop].
    now rewrite He.
Qed.

Lemma byte_val_zero (b : byte) : (byte_val b =? 0) = true <-> b = x00.
Proof.
  rewrite Z.eqb_eq. split.
  - intros H. apply byte_val_inj. rewrite H. reflexivity.
  - now intros ->.
Qed.

Lemma list_find_nul (value rest : bytes) :
  string_binary_stable value = true ->
  list_find (fun b => b = x00) (value ++ x00 :: rest)
  = Some (length value, x00).
Proof.
  unfold string_binary_stable. induction value as [|x value IH]; intros H.
  - reflexivity.
  - cbn [forallb] in H. apply andb_true_iff in H. destruct H as [Hx Hv].
    cbn [app list_find]. destruct (decide (x = x00)) as [->|Hne].
    + discriminate Hx.
    + rewrite (IH Hv). reflexivity.
Qed.

Lemma string_binary (value : bytes) :
  string_binary_stable value = true ->
  exists b, to_binary (StringData value) = Return b
            /\ b <> []
            /\ forall rest, StringParser_from_binary (b ++ rest)
                            = Return (StringData value, rest).
Proof.
  intros H. exists (value ++ [x00]). split; [reflexivity|]. split.
  { intros E. apply app_eq_nil in E. destruct E as [_ E]. discriminate. }
  intros rest. unfold StringParser_from_binary.
  rewrite <- app_assoc. cbn [app]. rewrite list_find_nul by exact H.
  rewrite take_app_length. f_equal. f_equal.
  replace (S (length value)) with (length value + 1)%nat by lia.
  rewrite <- drop_drop, drop_app_length. reflexivity.
Qed.

(** *** Scalars *)

Lemma binary_element_round (p : SpaceParser) (V : SpaceData) (b : bytes) :
  binary_element p V b -> binary_round p V b.
Proof.
  intros (Hb & _ & Hp). split; [exact Hb|].
  specialize (Hp []). now rewrite app_nil_r in Hp.
Qed.

Lemma key_text (sh : Shape) (V : SpaceData) :
  is_key sh = true -> values sh V ->
  exists t, text_element (parser_of sh) V t
            /\ str_forall label_char t = true.
Proof.
  destruct sh as [bits signed| | |t| |]; try discriminate; cbn [is_key values].
  - intros Hw (v & -> & Hv). pose proof (width_pos bits Hw) as Hb.
    destruct (py_str_number v) as (a & s & Heq & Hnum).
    rewrite <- Heq in Hnum.
    pose proof (number_label _ Hnum) as Hlab.
    pose proof (label_word _ Hlab) as Hword.
    pose proof (range_below_limit bits signed v Hw Hv) as Hlim.
    exists (py_str v). split; [|exact Hlab].
    split; [split; [now apply integer_to_text|]|].
    + apply integer_from_text_str; try assumption.
      apply split_word_end. exact Hword.
    + split; [rewrite Heq; discriminate|].
      split; [now apply word_line|].
      intros rest _. apply integer_from_text_str; try assumption.
      apply split_word. exact Hword.
  - intros Hok (code & label & -> & Hl).
    destruct (table_ok_spec t code label Hok Hl) as (Hc & Hne & Hlab & Hlc).
    pose proof (label_word _ Hlab) as Hword.
    exists label. split; [|exact Hlab].
    split; [split; [reflexivity|]|].
    + apply identifier_from_text_label; try assumption.
      now apply split_word_end.
    + split; [exact Hne|]. split; [now apply word_line|].
      intros rest _. apply identifier_from_text_label; try assumption.
      now apply split_word.
Qed.

Lemma scalar_text (sh : Shape) (V : SpaceData) :
  is_scalar sh = true -> values sh V -> text_stable V = true ->
  exists t, text_element (parser_of sh) V t.
Proof.
  destruct sh as [bits signed| | |t| |]; try discriminate.
  - intros Hk Hv _. destruct (key_text _ V Hk Hv) as (t & Ht & _). eauto.
  - intros _ (x & ->) Hx. cbn [text_stable] in Hx.
    destruct (float_text x Hx) as (Hp & Hne & Hword).
    exists (format_g x). split; [split; [reflexivity|]|].
    + apply float_from_text_str; [exact Hx|]. now apply split_word_end.
    + split; [exact Hne|]. split; [now apply word_line|].
      intros rest _. apply float_from_text_str; [exact Hx|].
      now apply split_word.
  - intros _ (value & ->) Hs. cbn [text_stable] in Hs.
    destruct (string_text value Hs) as (t & Ht & Hne & Hl & H1 & H2).
    exists t. split; [split; assumption|]. split; [exact Hne|].
    split; [exact Hl|exact H2].
  - intros Hk Hv _. destruct (key_text _ V Hk Hv) as (t' & Ht & _). eauto.
Qed.

Lemma key_binary (sh : Shape) (V : SpaceData) :
  is_key sh = true -> values sh V ->
  exists b, binary_element (parser_of sh) V b.
Proof.
  destruct sh as [bits signed| | |t| |]; try discriminate; cbn [is_key values].
  - intros Hw (v & -> & Hv).
    destruct (integer_binary bits signed v Hw Hv) as (b & H1 & H2 & H3).
    exists b. repeat split; assumption.
  - intros Hok (code & label & -> & Hl).
    destruct (table_ok_spec t code label Hok Hl) as (Hc & _).
    exists [byte_of code]. split; [now apply byte_binary|].
    split; [discriminate|]. intros rest.
    now apply identifier_from_binary_code.
Qed.

Lemma scalar_binary (sh : Shape) (V : SpaceData) :
  is_scalar sh = true -> values sh V -> binary_stable V = true ->
  exists b, binary_element (parser_of sh) V b.
Proof.
  destruct sh as [bits signed| | |t| |]; try discriminate.
  - intros Hk Hv _. now apply key_binary.
  - intros _ (x & ->) Hx. cbn [binary_stable] in Hx.
    destruct (float_binary x Hx) as (b & H1 & H2 & H3).
    exists b. repeat split; assumption.
  - intros _ (value & ->) Hs. cbn [binary_stable] in Hs.
    destruct (string_binary value Hs) as (b & H1 & H2 & H3).
    exists b. repeat split; assumption.
  - intros Hk Hv _. now apply key_binary.
Qed.

(** *** Lists and pairs *)

Lemma to_text_ListData (fields : list SpaceData) (sep : string) :
  to_text (ListData fields sep)
  = let* ts := texts_of fields in Return (join sep ts).
Proof.
  reflexivity.
Qed.

Lemma to_binary_ListData (fields : list SpaceData) (sep : string) :
  to_binary (ListData fields sep) = binary_of fields.
Proof.
  reflexivity.
Qed.

Lemma texts_of_Forall2 (P : SpaceData -> string -> Prop)
  (fields : list SpaceData) (ts : list string) :
  (forall V t, P V t -> to_text V = Return t) ->
  Forall2 P fields ts -> texts_of fields = Return ts.
Proof.
  intros HP H. induction H as [|V t fields ts Hx _ IH]; [reflexivity|].
  cbn [texts_of]. rewrite (HP _ _ Hx), IH. reflexivity.
Qed.

Lemma binary_of_Forall2 (P : SpaceData -> bytes -> Prop)
  (fields : list SpaceData) (bs : list bytes) :
  (forall V b, P V b -> to_binary V = Return b) ->
  Forall2 P fields bs -> binary_of fields = Return (concat bs).
Proof.
  intros HP H. induction H as [|V b fields bs Hx _ IH]; [reflexivity|].
  cbn [binary_of]. rewrite (HP _ _ Hx), IH. reflexivity.
Qed.

Lemma join_cons (sep t : string) (u : string) (ts : list string) :
  join sep (t :: u :: ts) = t +:+ sep +:+ join sep (u :: ts).
Proof. reflexivity. Qed.

Lemma str_length_append (a b : string) :
  String.length (a +:+ b) = (String.length a + String.length b)%nat.
Proof.
  induction a as [|x a IH]; [reflexivity|].
  rewrite append_cons. cbn [String.length]. now rewrite IH.
Qed.

Lemma list_loop_text (step : string -> result (SpaceData * string))
  (bounded : bool) (fields : list SpaceData) (ts : list string) :
  Forall2 (fun V t =>
             t <> EmptyString /\ str_forall line_char t = true
             /\ step t = Return (V, EmptyString)
             /\ forall rest, str_forall line_char rest = true ->
                  step (t +:+ String " " rest) = Return (V, rest))
          fields ts ->
  str_forall line_char (join " " ts) = true
  /\ (length fields <= String.length (join " " ts))%nat
  /\ forall fuel acc, (length fields <= fuel)%nat ->
       list_loop str_empty step bounded fuel acc (join " " ts)
       = Return (acc ++ fields, EmptyString).
Proof.
  intros H. induction H as [|V t fields ts (Hne & Hl & H1 & H2) HF IH].
  - split; [reflexivity|]. split; [cbn; lia|]. intros fuel acc _.
    rewrite app_nil_r. destruct fuel; reflexivity.
  - destruct IH as (IHl & IHn & IH).
    destruct ts as [|u ts].
    + apply Forall2_nil_inv_r in HF. subst fields.
      change (join " " [t]) with t.
      split; [exact Hl|]. split.
      { destruct t; [congruence|]. cbn. lia. }
      intros fuel acc Hf. destruct fuel as [|fuel]; [cbn in Hf; lia|].
      destruct t as [|a t]; [congruence|].
      cbn [list_loop str_empty]. rewrite H1.
      cbv beta iota delta [rbind]. destruct fuel; reflexivity.
    + rewrite join_cons.
      change (t +:+ " " +:+ join " " (u :: ts))
        with (t +:+ String " " (join " " (u :: ts))).
      split.
      { rewrite str_forall_append, Hl. cbn [str_forall]. now rewrite IHl. }
      split.
      { rewrite str_length_append. cbn [String.length length] in *.
        destruct t; [congruence|]. cbn [String.length]. lia. }
      intros fuel acc Hf. destruct fuel as [|fuel]; [cbn in Hf; lia|].
      destruct t as [|a t]; [congruence|].
      rewrite append_cons. cbn [list_loop str_empty].
      rewrite <- append_cons. rewrite (H2 _ IHl).
      cbv beta iota delta [rbind].
      rewrite IH by (cbn in Hf; lia).
      now rewrite <- app_assoc.
Qed.

Lemma list_loop_binary (step : bytes -> result (SpaceData * bytes))
  (bounded : bool) (fields : list SpaceData) (bs : list bytes) :
  Forall2 (fun V b => b <> []
                      /\ forall rest, step (b ++ rest) = Return (V, rest))
          fields bs ->
  (length fields <= length (concat bs))%nat
  /\ forall fuel acc, (length fields <= fuel)%nat ->
       list_loop bytes_empty step bounded fuel acc (concat bs)
       = Return (acc ++ fields, []).
Proof.
  intros H. induction H as [|V b fields bs (Hne & H1) HF IH].
  - split; [cbn; lia|]. intros fuel acc _.
    rewrite app_nil_r. destruct fuel; reflexivity.
  - destruct IH as (IHn & IH). cbn [concat]. split.
    { rewrite length_app. destruct b; [congruence|]. cbn. lia. }
    intros fuel acc Hf. destruct fuel as [|fuel]; [cbn in Hf; lia|].
    destruct b as [|x b]; [congruence|].
    rewrite <- app_comm_cons. cbn [list_loop bytes_empty].
    rewrite app_comm_cons, H1. cbv beta iota delta [rbind].
    rewrite IH by (cbn in Hf; lia).
    now rewrite <- app_assoc.
Qed.

Lemma second_parser_default (p : SpaceParser) (first : SpaceData) :
  second_parser ∅ (Some p) first = Some p.
Proof.
  unfold second_parser. destruct (dict_key first); [|reflexivity].
  now rewrite lookup_empty.
Qed.

Lemma pair_from_text (pf ps : SpaceParser) (c : ascii) (a b : SpaceData)
  (ta tail rest : string) :
  str_contains c ta = false ->
  from_text pf ta = Return (a, EmptyString) ->
  from_text ps tail = Return (b, rest) ->
  from_text (PairParser pf (Some ps) (String c EmptyString))
            (ta +:+ String c tail)
  = Return (ListData [a; b] (String c EmptyString), rest).
Proof.
  intros Hc Ha Hb. cbn [from_text PairParser PairParser_with].
  unfold PairParser_from_text. rewrite split_sep_char by exact Hc.
  cbv beta iota delta [rbind]. rewrite Ha. cbn [str_empty negb].
  rewrite second_parser_default. cbv beta iota. rewrite Hb. reflexivity.
Qed.

Lemma pair_from_binary (pf ps : SpaceParser) (sep : string) (a b : SpaceData)
  (ba tail rest : bytes) :
  from_binary pf (ba ++ tail) = Return (a, tail) ->
  from_binary ps tail = Return (b, rest) ->
  from_binary (PairParser pf (Some ps) sep) (ba ++ tail)
  = Return (ListData [a; b] sep, rest).
Proof.
  intros Ha Hb. cbn [from_binary PairParser PairParser_with].
  unfold PairParser_from_binary. rewrite Ha.
  cbv beta iota delta [rbind].
  rewrite second_parser_default. cbv beta iota. rewrite Hb. reflexivity.
Qed.

Lemma pair_to_text (a b : SpaceData) (ta tb : string) (c : ascii) :
  to_text a = Return ta -> to_text b = Return tb ->
  to_text (ListData [a; b] (String c EmptyString))
  = Return (ta +:+ String c tb).
Proof.
  intros Ha Hb. rewrite to_text_ListData. cbn [texts_of].
  rewrite Ha, Hb. reflexivity.
Qed.

Lemma pair_to_binary (a b : SpaceData) (ba bb : bytes) (sep : string) :
  to_binary a = Return ba -> to_binary b = Return bb ->
  to_binary (ListData [a; b] sep) = Return (ba ++ bb).
Proof.
  intros Ha Hb. rewrite to_binary_ListData. cbn [binary_of].
  rewrite Ha, Hb. cbv beta iota delta [rbind]. now rewrite app_nil_r.
Qed.

Lemma element_text (sh : Shape) (V : SpaceData) :
  is_element sh = true -> values sh V -> text_stable V = true ->
  exists t, text_element (parser_of sh) V t.
Proof.
  destruct sh as [bits signed| | |t|inner max|first second sep];
    try (now apply scalar_text); try discriminate.
  cbn [is_element values text_stable]. intros Hsh (a & b & -> & Ha & Hb) Hst.
  apply andb_true_iff in Hsh. destruct Hsh as [Hsh Hsep].
  apply andb_true_iff in Hsh. destruct Hsh as [Hk Hs].
  apply String.eqb_eq in Hsep. subst sep.
  cbn [text_stable forallb] in Hst.
  apply andb_true_iff in Hst. destruct Hst as [_ Hst].
  apply andb_true_iff in Hst. destruct Hst as [Hsb _].
  destruct (key_text first a Hk Ha)
    as (ta & ((Hta & Hpa) & Hnea & Hla & _) & Hlab).
  destruct (scalar_text second b Hs Hb Hsb)
    as (tb & ((Htb & Hpb) & Hneb & Hlb & Hrb)).
  pose proof (label_no_equals _ Hlab) as Hc.
  exists (ta +:+ String "=" tb). cbn [parser_of].
  split; [split|].
  - now apply pair_to_text.
  - now apply pair_from_text.
  - split; [destruct ta; [congruence|discriminate]|]. split.
    + rewrite str_forall_append, Hla. cbn [str_forall]. now rewrite Hlb.
    + intros rest Hrest. rewrite append_assoc, append_cons.
      apply pair_from_text; [exact Hc|exact Hpa|]. now apply Hrb.
Qed.

Lemma element_binary (sh : Shape) (V : SpaceData) :
  is_element sh = true -> values sh V -> binary_stable V = true ->
  exists b, binary_element (parser_of sh) V b.
Proof.
  destruct sh as [bits signed| | |t|inner max|first second sep];
    try (now apply scalar_binary); try discriminate.
  cbn [is_element values]. intros Hsh (a & b & -> & Ha & Hb) Hst.
  apply andb_true_iff in Hsh. destruct Hsh as [Hsh _].
  apply andb_true_iff in Hsh. destruct Hsh as [Hk Hs].
  cbn [binary_stable forallb] in Hst.
  apply andb_true_iff in Hst. destruct Hst as [_ Hst].
  apply andb_true_iff in Hst. destruct Hst as [Hsb _].
  destruct (key_binary first a Hk Ha) as (ba & Hta & Hnea & Hpa).
  destruct (scalar_binary second b Hs Hb Hsb) as (bb & Htb & Hneb & Hpb).
  exists (ba ++ bb). cbn [parser_of]. split; [|split].
  - now apply pair_to_binary.
  - destruct ba; [congruence|discriminate].
  - intros rest. rewrite <- app_assoc. now apply pair_from_binary.
Qed.

Lemma elements_text (inner : Shape) (fields : list SpaceData) :
  is_element inner = true ->
  Forall (values inner) fields -> forallb text_stable fields = true ->
  exists ts, Forall2 (text_element (parser_of inner)) fields ts.
Proof.
  intros Hi Hv. induction Hv as [|V fields HV _ IH]; intros Hst.
  - exists []. constructor.
  - cbn [forallb] in Hst. apply andb_true_iff in Hst.
    destruct Hst as [HsV Hs]. destruct (IH Hs) as (ts & Hts).
    destruct (element_text inner V Hi HV HsV) as (t & Ht).
    exists (t :: ts). now constructor.
Qed.

Lemma elements_binary (inner : Shape) (fields : list SpaceData) :
  is_element inner = true ->
  Forall (values inner) fields -> forallb binary_stable fields = true ->
  exists bs, Forall2 (binary_element (parser_of inner)) fields bs.
Proof.
  intros Hi Hv. induction Hv as [|V fields HV _ IH]; intros Hst.
  - exists []. constructor.
  - cbn [forallb] in Hst. apply andb_true_iff in Hst.
    destruct Hst as [HsV Hs]. destruct (IH Hs) as (bs & Hbs).
    destruct (element_binary inner V Hi HV HsV) as (b & Hb).
    exists (b :: bs). now constructor.
Qed.

Lemma list_text (sh : Shape) (V : SpaceData) :
  is_list sh = true -> values sh V -> text_stable V = true ->
  exists t, text_round (parser_of sh) V t.
Proof.
  destruct sh as [| | | |inner max|]; try discriminate.
  cbn [is_list values text_stable]. intros Hi (fields & -> & Hv & Hmax) Hst.
  cbn [text_stable] in Hst.
  destruct (elements_text inner fields Hi Hv Hst) as (ts & Hts).
  exists (join " " ts). split.
  - rewrite to_text_ListData.
    rewrite (texts_of_Forall2 (text_element (parser_of inner)) fields ts);
      [reflexivity| |exact Hts].
    intros V t Ht. apply Ht.
  - cbn [parser_of from_text ListParser]. unfold ListParser_from_text.
    assert (Hloop : forall bounded,
      (length fields <= String.length (join " " ts))%nat
      /\ forall fuel acc, (length fields <= fuel)%nat ->
           list_loop str_empty (from_text (parser_of inner)) bounded fuel acc
                     (join " " ts)
           = Return (acc ++ fields, EmptyString)).
    { intros bounded. apply list_loop_text.
      eapply Forall2_impl; [exact Hts|].
      intros V t ((_ & Hp) & Hne & Hl & Hr). auto. }
    destruct max as [n|].
    + destruct (Hloop true) as (_ & Hl). rewrite Hl by exact Hmax.
      reflexivity.
    + destruct (Hloop false) as (Hlen & Hl). rewrite Hl by exact Hlen.
      reflexivity.
Qed.

Lemma list_binary (sh : Shape) (V : SpaceData) :
  is_list sh = true -> values sh V -> binary_stable V = true ->
  exists b, binary_round (parser_of sh) V b.
Proof.
  destruct sh as [| | | |inner max|]; try discriminate.
  cbn [is_list values]. intros Hi (fields & -> & Hv & Hmax) Hst.
  cbn [binary_stable] in Hst.
  destruct (elements_binary inner fields Hi Hv Hst) as (bs & Hbs).
  exists (concat bs). split.
  - rewrite to_binary_ListData.
    apply (binary_of_Forall2 (binary_element (parser_of inner))); [|exact Hbs].
    intros V b Hb. apply Hb.
  - cbn [parser_of from_binary ListParser]. unfold ListParser_from_binary.
    assert (Hloop : forall bounded,
      (length fields <= length (concat bs))%nat
      /\ forall fuel acc, (length fields <= fuel)%nat ->
           list_loop bytes_empty (from_binary (parser_of inner)) bounded fuel
                     acc (concat bs)
           = Return (acc ++ fields, [])).
    { intros bounded. apply list_loop_binary.
      eapply Forall2_impl; [exact Hbs|].
      intros V b (_ & Hne & Hr). auto. }
    destruct max as [n|].
    + destruct (Hloop true) as (_ & Hl). rewrite Hl by exact Hmax.
      reflexivity.
    + destruct (Hloop false) as (Hlen & Hl). rewrite Hl by exact Hlen.
      reflexivity.
Qed.

Lemma element_text_round (sh : Shape) (V : SpaceData) :
  is_element sh = true -> values sh V -> text_stable V = true ->
  exists t, text_round (parser_of sh) V t.
Proof.
  intros H1 H2 H3. destruct (element_text sh V H1 H2 H3) as (t & Ht & _).
  eauto.
Qed.

Lemma element_binary_round (sh : Shape) (V : SpaceData) :
  is_element sh = true -> values sh V -> binary_stable V = true ->
  exists b, binary_round (parser_of sh) V b.
Proof.
  intros H1 H2 H3. destruct (element_binary sh V H1 H2 H3) as (b & Hb).
  exists b. now apply binary_element_round.
Qed.

Lemma scalar_element (sh : Shape) : is_scalar sh = true -> is_element sh = true.
Proof. destruct sh; try discriminate; auto. Qed.

Lemma payload_text (sh : Shape) (V : SpaceData) :
  is_payload sh = true -> values sh V -> text_stable V = true ->
  exists t, text_round (parser_of sh) V t.
Proof.
  destruct sh as [bits signed| | |t|inner max|first second sep];
    try (intros H; apply element_text_round, scalar_element, H).
  - apply list_text.
  - cbn [is_payload]. intros Hsh. apply orb_true_iff in Hsh.
    destruct Hsh as [Hel|Hsh]; [now apply element_text_round|].
    apply andb_true_iff in Hsh. destruct Hsh as [Hsh Hsnd].
    apply andb_true_iff in Hsh. destruct Hsh as [Hk Hsep].
    apply String.eqb_eq in Hsep. subst sep.
    cbn [values]. intros (a & b & -> & Ha & Hb) Hst.
    cbn [text_stable forallb] in Hst.
    apply andb_true_iff in Hst. destruct Hst as [_ Hst].
    apply andb_true_iff in Hst. destruct Hst as [Hsb _].
    destruct (key_text first a Hk Ha)
      as (ta & ((Hta & Hpa) & Hnea & Hla & _) & Hlab).
    pose proof (word_no_space _ (label_word _ Hlab)) as Hc.
    assert (Hsecond : exists tb, text_round (parser_of second) b tb).
    { apply orb_true_iff in Hsnd. destruct Hsnd as [Hs|Hl].
      - apply element_text_round;
          [apply scalar_element; exact Hs|exact Hb|exact Hsb].
      - now apply list_text. }
    destruct Hsecond as (tb & Htb & Hpb).
    exists (ta +:+ String " " tb). cbn [parser_of]. split.
    + now apply pair_to_text.
    + now apply pair_from_text.
Qed.

Lemma payload_binary (sh : Shape) (V : SpaceData) :
  is_payload sh = true -> values sh V -> binary_stable V = true ->
  exists b, binary_round (parser_of sh) V b.
Proof.
  destruct sh as [bits signed| | |t|inner max|first second sep];
    try (intros H; apply element_binary_round, scalar_element, H).
  - apply list_binary.
  - cbn [is_payload]. intros Hsh. apply orb_true_iff in Hsh.
    destruct Hsh as [Hel|Hsh]; [now apply element_binary_round|].
    apply andb_true_iff in Hsh. destruct Hsh as [Hsh Hsnd].
    apply andb_true_iff in Hsh. destruct Hsh as [Hk _].
    cbn [values]. intros (a & b & -> & Ha & Hb) Hst.
    cbn [binary_stable forallb] in Hst.
    apply andb_true_iff in Hst. destruct Hst as [_ Hst].
    apply andb_true_iff in Hst. destruct Hst as [Hsb _].
    destruct (key_binary first a Hk Ha) as (ba & Hta & Hnea & Hpa).
    assert (Hsecond : exists bb, binary_round (parser_of second) b bb).
    { apply orb_true_iff in Hsnd. destruct Hsnd as [Hs|Hl].
      - apply element_binary_round;
          [apply scalar_element; exact Hs|exact Hb|exact Hsb].
      - now apply list_binary. }
    destruct Hsecond as (bb & Htb & Hpb).
    exists (ba ++ bb). cbn [parser_of]. split.
    + now apply pair_to_binary.
    + apply pair_from_binary; [apply Hpa|exact Hpb].
Qed.

(** *** What the parsers return *)

Lemma list_loop_values {I : Type} (P : SpaceData -> Prop)
  (is_empty : I -> bool) (step : I -> result (SpaceData * I))
  (bounded : bool) :
  (forall i V i', step i = Return (V, i') -> P V) ->
  forall fuel acc input fields rest,
    Forall P acc ->
    list_loop is_empty step bounded fuel acc input = Return (fields, rest) ->
    Forall P fields
    /\ (bounded = true -> (length fields <= length acc + fuel)%nat)
    /\ (bounded = false -> is_empty rest = true).
Proof.
  intros Hstep. induction fuel as [|fuel IH]; intros acc input fields rest Hacc H.
  - cbn [list_loop] in H. destruct (is_empty input) eqn:He.
    + injection H as <- <-. split; [exact Hacc|]. split; [lia|auto].
    + destruct bounded; [|discriminate].
      injection H as <- <-. split; [exact Hacc|]. split; [lia|discriminate].
  - cbn [list_loop] in H. destruct (is_empty input) eqn:He.
    + injection H as <- <-. split; [exact Hacc|]. split; [lia|auto].
    + destruct (step input) as [[V input']|] eqn:Es; [|discriminate].
      cbn [rbind] in H.
      destruct (IH _ _ _ _ (proj2 (Forall_app P acc [V])
                              (conj Hacc (Forall_cons_2 _ _ _ (Hstep _ _ _ Es) (Forall_nil_2 _))))
                  H)
        as (H1 & H2 & H3).
      split; [exact H1|]. split; [|exact H3].
      intros Hb. specialize (H2 Hb). rewrite length_app in H2. cbn in H2. lia.
Qed.

Lemma parser_values (sh : Shape) :
  widths_ok sh = true ->
  (forall text V rest,
     from_text (parser_of sh) text = Return (V, rest) -> values sh V)
  /\ (forall binary V rest,
        from_binary (parser_of sh) binary = Return (V, rest) -> values sh V).
Proof.
  induction sh as [bits signed| | |t|inner IH max|first IH1 second IH2 sep];
    cbn [widths_ok]; intros Hw.
  - pose proof (width_pos bits Hw) as Hb. split.
    + intros text V rest H. cbn [parser_of from_text IntegerParser] in H.
      unfold IntegerParser_from_text in H.
      destruct (split_sep " " text) as [[parse rest']|]; [|discriminate].
      cbn [rbind] in H.
      match type of H with rbind ?m _ = _ =>
        destruct m as [value|] eqn:Ev; [|discriminate] end.
      cbn [rbind] in H.
      destruct (IntegerData_init value bits signed) as [d|] eqn:Ei;
        [|discriminate].
      injection H as <- <-. destruct (init_returns _ _ _ _ Hb Ei) as [-> Hr].
      exists value. auto.
    + intros binary V rest H. cbn [parser_of from_binary IntegerParser] in H.
      unfold IntegerParser_from_binary in H.
      destruct (struct_format bits signed) as [fmt|]; [|discriminate].
      cbn [rbind] in H.
      destruct (struct_unpack fmt _) as [value|]; [|discriminate].
      cbn [rbind] in H.
      destruct (IntegerData_init value bits signed) as [d|] eqn:Ei;
        [|discriminate].
      injection H as <- <-. destruct (init_returns _ _ _ _ Hb Ei) as [-> Hr].
      exists value. auto.
  - split.
    + intros text V rest H. cbn [parser_of from_text FloatParser] in H.
      unfold FloatParser_from_text in H.
      destruct (split_sep " " text) as [[parse rest']|]; [|discriminate].
      cbn [rbind] in H. destruct (py_float parse); [|discriminate].
      injection H as <- <-. cbn. eauto.
    + intros binary V rest H. cbn [parser_of from_binary FloatParser] in H.
      unfold FloatParser_from_binary in H.
      destruct (unpack_f _); [|discriminate].
      injection H as <- <-. cbn. eauto.
  - split.
    + intros text V rest H. cbn [parser_of from_text StringParser] in H.
      unfold StringParser_from_text in H.
      destruct text as [|q t]; [discriminate|].
      destruct (Ascii.eqb q "'" || Ascii.eqb q DQUOTE); [|discriminate].
      destruct (split_once _ t) as [[body after]|]; [|discriminate].
      match type of H with rbind ?m _ = _ =>
        destruct m as [value|]; [|discriminate] end.
      cbn [rbind] in H.
      match type of H with rbind ?m _ = _ =>
        destruct m as [r|]; [|discriminate] end.
      injection H as <- <-. cbn. eauto.
    + intros binary V rest H. cbn [parser_of from_binary StringParser] in H.
      unfold StringParser_from_binary in H.
      destruct (list_find _ binary) as [[i x]|]; [|discriminate].
      injection H as <- <-. cbn. eauto.
  - split.
    + intros text V rest H. cbn [parser_of from_text IdentifierParser] in H.
      unfold IdentifierParser_from_text in H.
      destruct (split_sep " " text) as [[label rest']|]; [|discriminate].
      cbn [rbind] in H.
      destruct (label_to_code t !! label) as [code|]; [|discriminate].
      destruct (code_to_label t !! code) as [label'|] eqn:El; [|discriminate].
      destruct (ByteData_init code (Some label')) as [d|] eqn:Ei;
        [|discriminate].
      injection H as <- <-. apply byte_init_returns in Ei. subst d.
      cbn. eauto.
    + intros binary V rest H. cbn [parser_of from_binary IdentifierParser] in H.
      unfold IdentifierParser_from_binary in H.
      destruct binary as [|b rest']; [discriminate|].
      destruct (code_to_label t !! byte_val b) as [label'|] eqn:El;
        [|discriminate].
      destruct (ByteData_init _ (Some label')) as [d|] eqn:Ei; [|discriminate].
      injection H as <- <-. apply byte_init_returns in Ei. subst d.
      cbn. eauto.
  - destruct (IH Hw) as [IHt IHb]. split.
    + intros text V rest H. cbn [parser_of from_text ListParser] in H.
      unfold ListParser_from_text in H.
      match type of H with rbind ?m _ = _ =>
        destruct m as [[fields text']|] eqn:El; [|discriminate] end.
      injection H as <- <-. cbn [values]. exists fields.
      split; [reflexivity|].
      destruct max as [n|].
      * destruct (list_loop_values (values inner) _ _ _ IHt _ _ _ _ _
                    (Forall_nil_2 _) El) as (H1 & H2 & _).
        split; [exact H1|]. apply (H2 eq_refl).
      * destruct (list_loop_values (values inner) _ _ _ IHt _ _ _ _ _
                    (Forall_nil_2 _) El) as (H1 & _).
        split; [exact H1|exact I].
    + intros binary V rest H. cbn [parser_of from_binary ListParser] in H.
      unfold ListParser_from_binary in H.
      match type of H with rbind ?m _ = _ =>
        destruct m as [[fields binary']|] eqn:El; [|discriminate] end.
      injection H as <- <-. cbn [values]. exists fields.
      split; [reflexivity|].
      destruct max as [n|].
      * destruct (list_loop_values (values inner) _ _ _ IHb _ _ _ _ _
                    (Forall_nil_2 _) El) as (H1 & H2 & _).
        split; [exact H1|]. apply (H2 eq_refl).
      * destruct (list_loop_values (values inner) _ _ _ IHb _ _ _ _ _
                    (Forall_nil_2 _) El) as (H1 & _).
        split; [exact H1|exact I].
  - apply andb_true_iff in Hw. destruct Hw as [Hw1 Hw2].
    destruct (IH1 Hw1) as [IH1t IH1b]. destruct (IH2 Hw2) as [IH2t IH2b].
    split.
    + intros text V rest H.
      cbn [parser_of from_text PairParser PairParser_with] in H.
      unfold PairParser_from_text in H.
      destruct (split_sep sep text) as [[t1 t2]|]; [|discriminate].
      cbn [rbind] in H.
      destruct (from_text (parser_of first) t1) as [[a r]|] eqn:Ea;
        [|discriminate].
      cbn [rbind] in H. destruct (negb (str_empty r)); [discriminate|].
      rewrite second_parser_default in H.
      destruct (from_text (parser_of second) t2) as [[b r']|] eqn:Eb;
        [|discriminate].
      injection H as <- <-. cbn [values]. exists a, b. eauto.
    + intros binary V rest H.
      cbn [parser_of from_binary PairParser PairParser_with] in H.
      unfold PairParser_from_binary in H.
      destruct (from_binary (parser_of first) binary) as [[a r]|] eqn:Ea;
        [|discriminate].
      cbn [rbind] in H. rewrite second_parser_default in H.
      destruct (from_binary (parser_of second) r) as [[b r']|] eqn:Eb;
        [|discriminate].
      injection H as <- <-. cbn [values]. exists a, b. eauto.
Qed.

Lemma key_widths (sh : Shape) : is_key sh = true -> widths_ok sh = true.
Proof. destruct sh; try discriminate; auto. Qed.

Lemma scalar_widths (sh : Shape) : is_scalar sh = true -> widths_ok sh = true.
Proof. destruct sh; try discriminate; auto. Qed.

Lemma element_widths (sh : Shape) : is_element sh = true -> widths_ok sh = true.
Proof.
  destruct sh as [| | | | |first second sep]; try discriminate; auto.
  cbn [is_element widths_ok]. intros H.
  apply andb_true_iff in H. destruct H as [H _].
  apply andb_true_iff in H. destruct H as [H1 H2].
  now rewrite (key_widths _ H1), (scalar_widths _ H2).
Qed.

Lemma list_widths (sh : Shape) : is_list sh = true -> widths_ok sh = true.
Proof.
  destruct sh as [| | | |inner max|]; try discriminate.
  cbn [is_list widths_ok]. apply element_widths.
Qed.

Lemma payload_widths (sh : Shape) : is_payload sh = true -> widths_ok sh = true.
Proof.
  destruct sh as [| | | |inner max|first second sep]; auto.
  - apply list_widths.
  - cbn [is_payload]. intros H. apply orb_true_iff in H.
    destruct H as [H|H]; [now apply element_widths|].
    apply andb_true_iff in H. destruct H as [H H2].
    apply andb_true_iff in H. destruct H as [H1 _].
    cbn [widths_ok]. rewrite (key_widths _ H1).
    apply orb_true_iff in H2. destruct H2 as [H2|H2].
    + now apply scalar_widths.
    + now apply list_widths.
Qed.

(** *** The parsers of the catalog *)

Lemma catalog_shape (p : SpaceParser) :
  catalog_parser p -> exists sh, p = parser_of sh /\ is_payload sh = true.
Proof.
  intros (c & Hin & Hp).
  assert (Hpair : In (command_parser c, reply_parser c)
                    (map (fun c => (command_parser c, reply_parser c)) COMMANDS)).
  { apply (in_map (fun c => (command_parser c, reply_parser c))).
    now apply list_elem_of_In. }
  rewrite COMMAND_SHAPES_spec in Hpair. apply in_map_iff in Hpair.
  destruct Hpair as ([a b] & Heq & Hab).
  pose proof COMMAND_SHAPES_ok as Hok. rewrite forallb_forall in Hok.
  specialize (Hok _ Hab). cbv beta iota in Hok.
  apply andb_true_iff in Hok. destruct Hok as [Ha Hb].
  injection Heq as Hc Hr.
  destruct Hp as [Hp|Hp].
  - rewrite Hp in Hc. destruct a as [sh|]; [|discriminate].
    injection Hc as <-. eauto.
  - rewrite Hp in Hr. destruct b as [sh|]; [|discriminate].
    injection Hr as <-. eauto.
Qed.

Lemma accepted_values (sh : Shape) (V : SpaceData) :
  is_payload sh = true -> accepted (parser_of sh) V -> values sh V.
Proof.
  intros Hsh Hacc.
  destruct (parser_values sh (payload_widths sh Hsh)) as [Ht Hb].
  destruct Hacc as [(text & rest & H)|(binary & rest & H)]; eauto.
Qed.

(** X1: every value a request or reply parser of the catalog accepts, whose
    float fields are reproduced by their [%g] text and whose string fields
    are UTF-8 texts (of code points below 256) without both kinds of quote,
    is rendered by [to_text] to a text that the same parser reads back to
    the same value, with nothing left over. *)
Theorem catalog_text_round_trip (p : SpaceParser) (V : SpaceData) :
  catalog_parser p -> accepted p V -> text_stable V = true ->
  exists t, to_text V = Return t /\ from_text p t = Return (V, EmptyString).
Proof.
  intros Hp Hacc Hst. destruct (catalog_shape p Hp) as (sh & -> & Hsh).
  apply (payload_text sh V Hsh); [|exact Hst].
  now apply accepted_values.
Qed.

Lemma catalog_text_round_trip_witness :
  let p := List_ TELEMETRY_FIELD in
  let V := ListData
             [ListData [ByteData 13 (Some "discharge_voltage");
                        FloatData (float_lit "28.5") None] "=";
              ListData [ByteData 4 (Some "vbus_voltage");
                        FloatData (float_lit "-0.25") None] "="] " " in
  catalog_parser p /\ accepted p V /\ text_stable V = true
  /\ exists t, to_text V = Return t /\ from_text p t = Return (V, EmptyString).
Proof.
  intros p V.
  assert (Hp : catalog_parser p).
  { exists (CMD 0x20 "tele" "0.005"
              (Some (List_ TELEMETRY_ID)) (Some (List_ TELEMETRY_FIELD))).
    split; [|right; reflexivity].
    unfold COMMANDS, COMMON_COMMANDS. apply list_elem_of_In.
    do 7 right. left. reflexivity. }
  assert (Hacc : accepted p V).
  { left. exists "discharge_v=28.5 vbus_v=-0.25", EmptyString.
    vm_compute. reflexivity. }
  assert (Hst : text_stable V = true) by (vm_compute; reflexivity).
  split; [exact Hp|]. split; [exact Hacc|]. split; [exact Hst|].
  exact (catalog_text_round_trip p V Hp Hacc Hst).
Defined.

(** X2: every value a request or reply parser of the catalog accepts, whose
    float fields are binary32 numbers and whose string fields hold no NUL
    byte, is rendered by [to_binary] to bytes that the same parser reads
    back to the same value, with nothing left over. *)
Theorem catalog_binary_round_trip (p : SpaceParser) (V : SpaceData) :
  catalog_parser p -> accepted p V -> binary_stable V = true ->
  exists b, to_binary V = Return b /\ from_binary p b = Return (V, []).
Proof.
  intros Hp Hacc Hst. destruct (catalog_shape p Hp) as (sh & -> & Hsh).
  apply (payload_binary sh V Hsh); [|exact Hst].
  now apply accepted_values.
Qed.

Lemma catalog_binary_round_trip_witness :
  let p := PairSp CONFIG_ID (ListMax String_ 3) in
  let V := ListData [ByteData 1 (Some "serial_num");
                     ListData [StringData [x41; x42]; StringData []] " "]
                    " " in
  catalog_parser p /\ accepted p V /\ binary_stable V = true
  /\ exists b, to_binary V = Return b /\ from_binary p b = Return (V, []).
Proof.
  intros p V.
  assert (Hp : catalog_parser p).
  { exists (CMD 0x42 "cstring" "0.020"
              (Some (PairSp CONFIG_ID (ListMax String_ 2)))
              (Some (PairSp CONFIG_ID (ListMax String_ 3)))).
    split; [|right; reflexivity].
    unfold COMMANDS, COMMON_COMMANDS. apply list_elem_of_In.
    do 18 right. left. reflexivity. }
  assert (Hacc : accepted p V).
  { right. exists [x01; x41; x42; x00; x00], []. vm_compute. reflexivity. }
  assert (Hst : binary_stable V = true) by (vm_compute; reflexivity).
  split; [exact Hp|]. split; [exact Hacc|]. split; [exact Hst|].
  exact (catalog_binary_round_trip p V Hp Hacc Hst).
Defined.

(** *** Strings that do not survive *)

Lemma unescape_repr_char_error (q a : ascii) (r : string) :
  is_quote q -> unescape r = Raise ValueError ->
  unescape (repr_char q a +:+ r) = Raise ValueError.
Proof.
  intros [->| ->] H; destruct a as [b0 b1 b2 b3 b4 b5 b6 b7];
    destruct b0, b1, b2, b3, b4, b5, b6, b7;
    cbv - [unescape]; cbn; rewrite H; reflexivity.
Qed.

Lemma unescape_dangling (q : ascii) (s : string) :
  is_quote q -> unescape (repr_body q s +:+ "\") = Raise ValueError.
Proof.
  intros Hq. induction s as [|a s IH]; [reflexivity|].
  rewrite repr_body_cons, append_assoc.
  now apply unescape_repr_char_error.
Qed.

Lemma split_once_prefix (c : ascii) (pre x : string) :
  str_contains c pre = false ->
  split_once (String c EmptyString) (pre +:+ x)
  = match split_once (String c EmptyString) x with
    | Some (before, after) => Some (pre +:+ before, after)
    | None => None
    end.
Proof.
  induction pre as [|a pre IH]; intros H.
  - rewrite append_nil_l. destruct (split_once _ x) as [[? ?]|]; reflexivity.
  - cbn [str_contains] in H. apply orb_false_iff in H. destruct H as [Ha Hp].
    rewrite append_cons. cbn [split_once startswith]. rewrite Ha.
    cbn [andb]. rewrite (IH Hp).
    destruct (split_once _ x) as [[? ?]|]; reflexivity.
Qed.

Lemma split_once_escaped_quote (s tail : string) :
  str_contains "'" s = true ->
  exists s1 after,
    split_once "'" (repr_body "'" s +:+ tail)
    = Some (repr_body "'" s1 +:+ "\", after).
Proof.
  induction s as [|a s IH]; [discriminate|].
  cbn [str_contains]. intros H.
  destruct (Ascii.eqb_spec "'" a) as [<-|Hne].
  - exists EmptyString. eexists. reflexivity.
  - cbn [orb] in H. destruct (IH H) as (s1 & after & Hs).
    exists (String a s1), after.
    rewrite !repr_body_cons, !append_assoc.
    rewrite split_once_prefix, Hs; [reflexivity|].
    apply repr_char_quote; [now left|].
    now apply Ascii.eqb_neq.
Qed.

(** X3: a string that holds both a single and a double quote does not
    survive the text form: [to_text] writes it between single quotes with
    the inner single quotes escaped, and [StringParser.from_text], whose
    pattern stops at the first single quote, rejects that text with
    [ParseError], whatever separator is used and whatever follows. *)
Theorem string_quotes_break_text (value : bytes) (s : string) :
  utf8_decode value = Return s ->
  str_contains "'" s = true -> str_contains DQUOTE s = true ->
  exists t, to_text (StringData value) = Return t
            /\ forall sep rest,
                 from_text (StringParser sep) (t +:+ rest) = Raise ParseError.
Proof.
  intros Hd H1 H2. exists (py_repr s). cbn [to_text]. rewrite Hd.
  split; [reflexivity|]. intros sep rest.
  unfold py_repr. rewrite H1, H2. cbn [andb negb].
  cbn [from_text StringParser]. unfold StringParser_from_text.
  rewrite append_cons. cbn [Ascii.eqb Bool.eqb orb].
  rewrite append_assoc.
  destruct (split_once_escaped_quote s (String "'" EmptyString +:+ rest) H1)
    as (s1 & after & ->).
  rewrite unescape_dangling by (now left). reflexivity.
Qed.

Lemma string_quotes_break_text_witness :
  utf8_decode [x27; x22] = Return (String "'" (String DQUOTE EmptyString))
  /\ exists t, to_text (StringData [x27; x22]) = Return t
               /\ forall sep rest,
                    from_text (StringParser sep) (t +:+ rest)
                    = Raise ParseError.
Proof.
  split; [reflexivity|].
  apply (string_quotes_break_text [x27; x22]
           (String "'" (String DQUOTE EmptyString))); reflexivity.
Defined.

Lemma binary_stable_nul (value : bytes) :
  string_binary_stable value = true <-> x00 ∉ value.
Proof.
  unfold string_binary_stable. induction value as [|x value IH].
  - split; [intros _; apply not_elem_of_nil|reflexivity].
  - cbn [forallb]. rewrite andb_true_iff, IH, not_elem_of_cons.
    rewrite negb_true_iff. split.
    + intros [Hx Hv]. split; [|exact Hv]. intros <-. discriminate Hx.
    + intros [Hx Hv]. split; [|exact Hv].
      destruct (byte_val x =? 0) eqn:E; [|reflexivity].
      apply byte_val_zero in E. congruence.
Qed.

Lemma list_find_no_nul (value : bytes) :
  x00 ∉ value -> list_find (fun b => b = x00) value = None.
Proof.
  intros H. apply list_find_None. apply Forall_forall.
  intros x Hx ->. contradiction.
Qed.

(** X4: [StringParser.from_binary] cuts its input at the first NUL byte: the
    bytes before it are the string and the bytes after it are left over; an
    input without a NUL byte is rejected with [ParseError].  So a string
    that holds a NUL byte does not survive the binary form: reading back
    what [to_binary] wrote for it returns the part before that byte. *)
Theorem string_from_binary_first_nul :
  (forall value rest : bytes,
     x00 ∉ value ->
     from_binary (StringParser " ") (value ++ x00 :: rest)
     = Return (StringData value, rest))
  /\ (forall binary : bytes,
        x00 ∉ binary ->
        from_binary (StringParser " ") binary = Raise ParseError)
  /\ (forall value tail : bytes,
        x00 ∉ value ->
        exists b, to_binary (StringData (value ++ x00 :: tail)) = Return b
                  /\ from_binary (StringParser " ") b
                     = Return (StringData value, tail ++ [x00])).
Proof.
  assert (H1 : forall value rest : bytes,
             x00 ∉ value ->
             StringParser_from_binary (value ++ x00 :: rest)
             = Return (StringData value, rest)).
  { intros value rest Hv. unfold StringParser_from_binary.
    rewrite list_find_nul by (now apply binary_stable_nul).
    rewrite take_app_length. f_equal. f_equal.
    replace (S (length value)) with (length value + 1)%nat by lia.
    rewrite <- drop_drop, drop_app_length. reflexivity. }
  split; [exact H1|]. split.
  - intros binary Hb. cbn [from_binary StringParser].
    unfold StringParser_from_binary. now rewrite list_find_no_nul.
  - intros value tail Hv. eexists. split; [reflexivity|].
    cbn [from_binary StringParser]. rewrite <- app_assoc. cbn [app].
    now rewrite H1.
Qed.

Lemma string_from_binary_first_nul_witness :
  (x00 ∉ [x41; x42])
  /\ from_binary (StringParser " ") ([x41; x42] ++ x00 :: [x43])
     = Return (StringData [x41; x42], [x43]).
Proof.
  assert (H : x00 ∉ [x41; x42]).
  { intros H. apply list_elem_of_In in H. cbn in H.
    destruct H as [H|[H|[]]]; discriminate H. }
  split; [exact H|].
  destruct string_from_binary_first_nul as (H1 & _ & _).
  exact (H1 [x41; x42] [x43] H).
Defined.

(** *** Integers, with any separator *)

Lemma number_contains (c : ascii) (s : string) :
  number_char c = false -> str_forall number_char s = true ->
  str_contains c s = false.
Proof. apply str_forall_contains. Qed.

(** X5: the decimal text [to_text] writes for an integer of any positive
    width is read back by [IntegerParser.from_text] to the same integer,
    both when it is the whole input and when it stands before a one-character
    separator (any character but a digit or a minus sign) and further text,
    which is then returned as the remainder.  This holds for the values
    whose decimal text has at most [MAX_STR_DIGITS] digits, that is below
    [10 ^ MAX_STR_DIGITS] in absolute value; for a larger value [to_text]
    writes nothing and raises [ValueError]. *)
Theorem integer_text_round_trip (bits : Z) (signed : bool) (v : Z)
  (c : ascii) :
  0 < bits -> int_min bits signed <= v <= int_max bits signed ->
  number_char c = false ->
  let sep := String c EmptyString in
  (Z.abs v < 10 ^ MAX_STR_DIGITS ->
   exists t, to_text (IntegerData v bits signed) = Return t
             /\ from_text (IntegerParser bits signed sep) t
                = Return (IntegerData v bits signed, EmptyString)
             /\ forall rest,
                  from_text (IntegerParser bits signed sep)
                            (t +:+ sep +:+ rest)
                  = Return (IntegerData v bits signed, rest))
  /\ (10 ^ MAX_STR_DIGITS <= Z.abs v ->
      to_text (IntegerData v bits signed) = Raise ValueError).
Proof.
  intros Hb Hv Hc sep. split.
  - intros Hlim. exists (py_str v). split; [now apply integer_to_text|].
    destruct (py_str_number v) as (a & s & Heq & Hnum).
    rewrite <- Heq in Hnum.
    pose proof (number_contains c _ Hc Hnum) as Hno.
    assert (Hparse : forall text rest,
              split_sep sep text = Return (py_str v, rest) ->
              IntegerParser_from_text bits signed sep text
              = Return (IntegerData v bits signed, rest)).
    { intros text rest Hs. unfold IntegerParser_from_text. rewrite Hs.
      cbv beta iota delta [rbind].
      rewrite (number_not_hex _ Hnum), py_int_py_str by exact Hlim.
      now rewrite init_in_range. }
    split.
    + apply Hparse. now apply split_sep_char_none.
    + intros rest. apply Hparse. now apply split_sep_char.
  - intros Hbig. cbn [to_text]. now apply int_to_str_large.
Qed.

Lemma integer_text_round_trip_witness :
  0 < 16 /\ int_min 16 true <= -300 <= int_max 16 true
  /\ exists t, to_text (IntegerData (-300) 16 true) = Return t
               /\ from_text (IntegerParser 16 true ",") t
                  = Return (IntegerData (-300) 16 true, EmptyString)
               /\ forall rest,
                    from_text (IntegerParser 16 true ",") (t +:+ "," +:+ rest)
                    = Return (IntegerData (-300) 16 true, rest).
Proof.
  assert (H1 : 0 < 16) by lia.
  assert (H2 : int_min 16 true <= -300 <= int_max 16 true)
    by (unfold int_min, int_max; cbn; lia).
  assert (H3 : Z.abs (-300) < 10 ^ MAX_STR_DIGITS)
    by (apply word_below_limit; cbn; lia).
  split; [exact H1|]. split; [exact H2|].
  destruct (integer_text_round_trip 16 true (-300) "," H1 H2 eq_refl)
    as [H _].
  exact (H H3).
Defined.

(** X6: for the widths 8, 16, 32 and 64, [to_binary] writes an integer in
    range as exactly [bits / 8] bytes, and [IntegerParser.from_binary] reads
    the same integer back from these bytes and leaves whatever follows them
    as the remainder. *)
Theorem integer_binary_round_trip (bits : Z) (signed : bool) (v : Z)
  (sep : string) :
  width_ok bits = true -> int_min bits signed <= v <= int_max bits signed ->
  exists b, to_binary (IntegerData v bits signed) = Return b
            /\ 8 * Z.of_nat (length b) = bits
            /\ forall rest,
                 from_binary (IntegerParser bits signed sep) (b ++ rest)
                 = Return (IntegerData v bits signed, rest).
Proof.
  intros Hw Hv.
  destruct (struct_format_width bits signed Hw) as (n & Hf & Hn & Hb & Hl).
  assert (Hv' : int_min (8 * Z.of_nat n) signed <= v
                <= int_max (8 * Z.of_nat n) signed) by (now rewrite <- Hb).
  destruct (struct_round n signed v Hn Hv') as (b & Hp & Hlen & Hu).
  exists b. cbn [to_binary]. rewrite Hf. cbv beta iota delta [rbind].
  split; [exact Hp|]. split; [lia|].
  intros rest. cbn [from_binary IntegerParser].
  unfold IntegerParser_from_binary. rewrite Hl, Hf.
  cbv beta iota delta [rbind].
  rewrite take_app_length' by (symmetry; exact Hlen).
  rewrite drop_app_length' by (symmetry; exact Hlen).
  rewrite Hu. rewrite init_in_range; [reflexivity|lia|exact Hv].
Qed.

Lemma integer_binary_round_trip_witness :
  width_ok 32 = true /\ int_min 32 true <= -2 <= int_max 32 true
  /\ exists b, to_binary (IntegerData (-2) 32 true) = Return b
               /\ 8 * Z.of_nat (length b) = 32
               /\ forall rest,
                    from_binary (IntegerParser 32 true " ") (b ++ rest)
                    = Return (IntegerData (-2) 32 true, rest).
Proof.
  assert (H2 : int_min 32 true <= -2 <= int_max 32 true)
    by (unfold int_min, int_max; cbn; lia).
  split; [reflexivity|]. split; [exact H2|].
  exact (integer_binary_round_trip 32 true (-2) " " eq_refl H2).
Defined.

(** *** Identifier tables *)

Lemma add_aliases_spec (code : Z) (aliases : list string) :
  forall l2c l2c',
    add_aliases l2c code aliases = Return l2c' ->
    (forall name, name ∈ aliases -> l2c' !! name = Some code)
    /\ (forall name, name ∉ aliases -> l2c' !! name = l2c !! name)
    /\ (forall name c, l2c !! name = Some c -> l2c' !! name = Some c).
Proof.
  induction aliases as [|alias rest IH]; intros l2c l2c' H.
  - injection H as <-. split; [intros name Hn; inversion Hn|]. auto.
  - cbn [add_aliases] in H.
    assert (Hrec : add_aliases (<[alias := code]> l2c) code rest = Return l2c'
                   /\ forall c, l2c !! alias = Some c -> c = code).
    { destruct (l2c !! alias) as [c|] eqn:E.
      - destruct (code =? c) eqn:Ec; [|discriminate H].
        apply Z.eqb_eq in Ec. split; [exact H|]. intros c' [= <-]. auto.
      - split; [exact H|]. discriminate. }
    destruct Hrec as [Hrec Hsame].
    destruct (IH _ _ Hrec) as (H1 & H2 & H3).
    assert (Ha : l2c' !! alias = Some code)
      by (apply H3; apply lookup_insert_eq).
    split; [|split].
    + intros name Hn. apply elem_of_cons in Hn.
      destruct Hn as [->|Hn]; [exact Ha|now apply H1].
    + intros name Hn. apply not_elem_of_cons in Hn. destruct Hn as [Hne Hn].
      rewrite (H2 _ Hn). now apply lookup_insert_ne.
    + intros name c Hc. destruct (decide (name = alias)) as [->|Hne].
      * rewrite (Hsame _ Hc). exact Ha.
      * apply H3. rewrite lookup_insert_ne by congruence. exact Hc.
Qed.

Lemma add_aliases_returns (code : Z) (aliases : list string) :
  forall l2c,
    (exists l2c', add_aliases l2c code aliases = Return l2c')
    <-> forall name c, name ∈ aliases -> l2c !! name = Some c -> c = code.
Proof.
  induction aliases as [|alias rest IH]; intros l2c.
  - split; [intros _ name c Hn; inversion Hn|]. intros _. now eexists.
  - cbn [add_aliases]. split.
    + intros (l2c' & H) name c Hn Hc.
      assert (Hrec : add_aliases (<[alias := code]> l2c) code rest = Return l2c'
                     /\ forall c, l2c !! alias = Some c -> c = code).
      { destruct (l2c !! alias) as [c0|] eqn:E.
        - destruct (code =? c0) eqn:Ec; [|discriminate H].
          apply Z.eqb_eq in Ec. split; [exact H|]. intros c' [= <-]. auto.
        - split; [exact H|]. discriminate. }
      destruct Hrec as [Hrec Hsame].
      apply elem_of_cons in Hn. destruct Hn as [->|Hn]; [now apply Hsame|].
      destruct (decide (name = alias)) as [->|Hne]; [now apply Hsame|].
      apply (proj1 (IH _) (ex_intro _ _ Hrec) name c Hn).
      rewrite lookup_insert_ne by congruence. exact Hc.
    + intros Hall.
      assert (Hrest : exists l2c',
                add_aliases (<[alias := code]> l2c) code rest = Return l2c').
      { apply IH. intros name c Hn Hc.
        destruct (decide (name = alias)) as [->|Hne].
        - rewrite lookup_insert_eq in Hc. congruence.
        - rewrite lookup_insert_ne in Hc by congruence.
          apply (Hall name c); [|exact Hc]. now apply elem_of_cons; right. }
      destruct (l2c !! alias) as [c|] eqn:E; [|exact Hrest].
      rewrite (Hall alias c (list_elem_of_here _ _) E).
      now rewrite Z.eqb_refl.
Qed.

(** X7: [IdentifierParser.add] succeeds exactly when the code is a byte, the
    code has no other label yet, and none of the names it registers (the
    label, the decimal text of the code and the aliases) already stands for
    another code; otherwise it raises and the table is not returned. *)
Theorem identifier_add_returns (t : IdentifierTable) (code : Z)
  (label : string) (aliases : list string) :
  (exists t', IdentifierParser_add t code label aliases = Return t')
  <-> 0 <= code <= 255
      /\ (forall l, code_to_label t !! code = Some l -> l = label)
      /\ (forall name c, name ∈ label :: py_str code :: aliases ->
                         label_to_code t !! name = Some c -> c = code).
Proof.
  unfold IdentifierParser_add. split.
  - intros (t' & H).
    destruct ((0 <=? code) && (code <=? 255)) eqn:Er;
    [|cbn [negb] in H; now apply raise_with_int_raises in H].
    apply andb_true_iff in Er. destruct Er as [E1 E2].
    apply Z.leb_le in E1, E2. cbn [negb] in H.
    split; [lia|].
    assert (Hl : forall l, code_to_label t !! code = Some l -> l = label).
    { intros l Hl. rewrite Hl in H.
      destruct (String.eqb_spec label l) as [->|Hne]; [reflexivity|].
      discriminate H. }
    split; [exact Hl|].
    apply add_aliases_returns.
    destruct (add_aliases _ code _) as [l2c'|] eqn:Ea; [now eexists|].
    destruct (code_to_label t !! code) as [l|];
      [destruct (negb (String.eqb label l))|]; discriminate H.
  - intros (Hr & Hl & Hn).
    assert (Er : (0 <=? code) && (code <=? 255) = true).
    { apply andb_true_iff. split; apply Z.leb_le; lia. }
    rewrite Er. cbn [negb].
    apply add_aliases_returns in Hn. destruct Hn as (l2c' & ->).
    destruct (code_to_label t !! code) as [l|] eqn:E.
    + rewrite (Hl l eq_refl), String.eqb_refl. now eexists.
    + now eexists.
Qed.

Lemma add_inversion (t t' : IdentifierTable) (code : Z) (label : string)
  (aliases : list string) :
  IdentifierParser_add t code label aliases = Return t' ->
  0 <= code <= 255
  /\ (forall l, code_to_label t !! code = Some l -> l = label)
  /\ code_to_label t' = <[code := label]> (code_to_label t)
  /\ add_aliases (label_to_code t) code (label :: py_str code :: aliases)
     = Return (label_to_code t').
Proof.
  unfold IdentifierParser_add. intros H.
  destruct ((0 <=? code) && (code <=? 255)) eqn:Er;
    [|cbn [negb] in H; now apply raise_with_int_raises in H].
  apply andb_true_iff in Er. destruct Er as [E1 E2].
  apply Z.leb_le in E1, E2. cbn [negb] in H.
  split; [lia|].
  assert (Hl : forall l, code_to_label t !! code = Some l -> l = label).
  { intros l Hl. rewrite Hl in H.
    destruct (String.eqb_spec label l) as [->|Hne]; [reflexivity|].
    discriminate H. }
  split; [exact Hl|].
  destruct (add_aliases _ code _) as [l2c'|] eqn:Ea.
  - destruct (code_to_label t !! code) as [l|];
      [destruct (negb (String.eqb label l)); [discriminate H|]|];
      injection H as <-; split; reflexivity.
  - destruct (code_to_label t !! code) as [l|];
      [destruct (negb (String.eqb label l))|]; discriminate H.
Qed.

(** X8: a successful [IdentifierParser.add] gives the code its label, makes
    the label, the decimal text of the code and every alias stand for the
    code, and changes no name that was registered before; it keeps the
    table consistent: every labelled code is a byte that is found again
    under its label, and every name leads to a labelled code. *)
Theorem identifier_add_keeps (t t' : IdentifierTable) (code : Z)
  (label : string) (aliases : list string) :
  IdentifierParser_add t code label aliases = Return t' ->
  code_to_label t' !! code = Some label
  /\ (forall name, name ∈ label :: py_str code :: aliases ->
                   label_to_code t' !! name = Some code)
  /\ (forall name c, label_to_code t !! name = Some c ->
                     label_to_code t' !! name = Some c)
  /\ (forall c, c <> code -> code_to_label t' !! c = code_to_label t !! c)
  /\ (table_inv t -> table_inv t').
Proof.
  intros H. destruct (add_inversion _ _ _ _ _ H) as (Hr & Hl & Hc & Ha).
  destruct (add_aliases_spec _ _ _ _ Ha) as (H1 & H2 & H3).
  split; [rewrite Hc; apply lookup_insert_eq|].
  split; [exact H1|]. split; [exact H3|]. split.
  { intros c Hne. rewrite Hc. apply lookup_insert_ne. congruence. }
  intros (I1 & I2). split.
  - intros c l Hcl. rewrite Hc in Hcl.
    destruct (decide (c = code)) as [->|Hne].
    + rewrite lookup_insert_eq in Hcl. injection Hcl as <-.
      split; [exact Hr|]. apply H1. apply list_elem_of_here.
    + rewrite lookup_insert_ne in Hcl by congruence.
      destruct (I1 _ _ Hcl) as [Hb Hback]. split; [exact Hb|].
      now apply H3.
  - intros name c Hn.
    destruct (decide (name ∈ label :: py_str code :: aliases)) as [Hin|Hout].
    + rewrite (H1 _ Hin) in Hn. injection Hn as <-.
      rewrite Hc, lookup_insert_eq. now eexists.
    + rewrite (H2 _ Hout) in Hn. destruct (I2 _ _ Hn) as [l Hl'].
      rewrite Hc. destruct (decide (c = code)) as [->|Hne].
      * rewrite lookup_insert_eq. now eexists.
      * rewrite lookup_insert_ne by congruence. rewrite Hl'.
        now eexists.
Qed.

Lemma identifier_add_keeps_witness :
  let t := table_of TRISTATE_entries in
  exists t',
    IdentifierParser_add t 2 "auto" ["automatic"] = Return t'
    /\ code_to_label t' !! 2 = Some "auto"
    /\ label_to_code t' !! "automatic" = Some 2
    /\ label_to_code t' !! "enable" = Some 1.
Proof.
  intros t.
  destruct (IdentifierParser_add t 2 "auto" ["automatic"]) as [t'|] eqn:E;
    [|vm_compute in E; discriminate E].
  exists t'. split; [reflexivity|].
  destruct (identifier_add_keeps t t' 2 "auto" ["automatic"] E)
    as (H1 & H2 & H3 & _ & _).
  split; [exact H1|]. split.
  - apply H2. apply list_elem_of_In. cbn. auto.
  - apply H3. vm_compute. reflexivity.
Defined.

Lemma identifier_add_returns_witness :
  exists t', IdentifierParser_add (table_of TRISTATE_entries) 2 "auto" []
             = Return t'.
Proof.
  apply (proj2 (identifier_add_returns (table_of TRISTATE_entries) 2 "auto" [])).
  split; [lia|]. split.
  - intros l H. vm_compute in H. discriminate H.
  - intros name c Hn Hc. apply list_elem_of_In in Hn. cbn in Hn.
    destruct Hn as [<-|[<-|[]]]; vm_compute in Hc; discriminate Hc.
Defined.

Lemma empty_table_inv : table_inv empty_table.
Proof.
  split.
  - intros code label H. cbn in H. now rewrite lookup_empty in H.
  - intros name code H. cbn in H. now rewrite lookup_empty in H.
Qed.

Lemma add_all_inv (entries : list (Z * string * list string)) :
  forall t t', table_inv t -> add_all t entries = Return t' -> table_inv t'.
Proof.
  induction entries as [|[[code label] aliases] rest IH]; intros t t' Hi H.
  - now injection H as <-.
  - cbn [add_all] in H.
    destruct (IdentifierParser_add t code label aliases) as [t1|] eqn:E;
      [|discriminate H].
    cbn [rbind] in H. apply (IH t1 t'); [|exact H].
    now apply (identifier_add_keeps _ _ _ _ _ E).
Qed.

Lemma table_of_inv (entries : list (Z * string * list string)) :
  table_inv (table_of entries).
Proof.
  unfold table_of. destruct (add_all empty_table entries) as [t|] eqn:E.
  - apply (add_all_inv entries empty_table t empty_table_inv E).
  - apply empty_table_inv.
Qed.

(** X9: in a table built by [add] calls, every registered name without a
    space (a label, an alias or the decimal text of a code) is read by
    [from_text] as the code it stands for, carrying the label of the code;
    [to_text] then writes that label, not the alias, and the label itself
    stands for the same code.  In binary form the code is one byte that
    [from_binary] reads back to the same value. *)
Theorem identifier_alias_canonical (entries : list (Z * string * list string))
  (name : string) (code : Z) :
  let t := table_of entries in
  label_to_code t !! name = Some code ->
  str_contains " " name = false ->
  exists label,
    let V := ByteData code (Some label) in
    from_text (IdentifierParser t) name = Return (V, EmptyString)
    /\ to_text V = Return label
    /\ label_to_code t !! label = Some code
    /\ to_binary V = Return [byte_of code]
    /\ forall rest, from_binary (IdentifierParser t) (byte_of code :: rest)
                    = Return (V, rest).
Proof.
  intros t Hn Hs. destruct (table_of_inv entries) as [I1 I2]. fold t in I1, I2.
  destruct (I2 _ _ Hn) as [label Hl]. destruct (I1 _ _ Hl) as [Hr Hback].
  exists label. cbv zeta. split; [|split; [reflexivity|split; [exact Hback|]]].
  - cbn [from_text IdentifierParser]. unfold IdentifierParser_from_text.
    rewrite split_sep_char_none by exact Hs.
    cbv beta iota delta [rbind]. rewrite Hn, Hl. now rewrite byte_init.
  - split; [now apply byte_binary|]. intros rest.
    now apply identifier_from_binary_code.
Qed.

Lemma identifier_alias_canonical_witness :
  let t := table_of TRISTATE_entries in
  label_to_code t !! "enabled" = Some 1
  /\ exists label,
       from_text (IdentifierParser t) "enabled"
       = Return (ByteData 1 (Some label), EmptyString)
       /\ to_text (ByteData 1 (Some label)) = Return label.
Proof.
  intros t.
  assert (H : label_to_code t !! "enabled" = Some 1)
    by (vm_compute; reflexivity).
  split; [exact H|].
  destruct (identifier_alias_canonical TRISTATE_entries "enabled" 1 H eq_refl)
    as (label & H1 & H2 & _).
  exists label. split; [exact H1|exact H2].
Defined.

(** *** Lists *)

Lemma list_loop_terminates {I : Type} (size : I -> nat)
  (is_empty : I -> bool) (step : I -> result (SpaceData * I))
  (bounded : bool) :
  (forall i, size i = 0%nat -> is_empty i = true) ->
  (forall i V i', step i = Return (V, i') -> (size i' < size i)%nat) ->
  (forall i, step i <> Raise Diverges) ->
  forall fuel acc input,
    (size input <= fuel)%nat ->
    list_loop is_empty step bounded fuel acc input <> Raise Diverges.
Proof.
  intros Hempty Hsize Hstep. induction fuel as [|fuel IH]; intros acc input Hf.
  - cbn [list_loop]. rewrite Hempty by lia. discriminate.
  - cbn [list_loop]. destruct (is_empty input); [discriminate|].
    destruct (step input) as [[V input']|e] eqn:Es; cbn [rbind].
    + apply IH. specialize (Hsize _ _ _ Es). lia.
    + intros [= ->]. now apply (Hstep input).
Qed.

(** X10: whatever the inner parser, a [ListParser] with a [max_length]
    returns at most that many fields, and one without [max_length] returns
    only when it has consumed its whole input: the remainder is then empty.
    This holds for the binary and for the text form.  The loop of the
    source ends: when every successful call of the inner parser shortens
    the input, the list parser does not run forever. *)
Theorem list_parser_bounds (parser : SpaceParser) (max_length : option nat)
  (sep : string) :
  (forall binary V rest,
     from_binary (ListParser parser max_length sep) binary = Return (V, rest) ->
     exists fields, V = ListData fields sep
                    /\ match max_length with
                       | Some n => (length fields <= n)%nat
                       | None => rest = []
                       end)
  /\ (forall text V rest,
        from_text (ListParser parser max_length sep) text = Return (V, rest) ->
        exists fields, V = ListData fields sep
                       /\ match max_length with
                          | Some n => (length fields <= n)%nat
                          | None => rest = EmptyString
                          end)
  /\ ((forall input V rest, from_binary parser input = Return (V, rest) ->
                            (length rest < length input)%nat) ->
      (forall input, from_binary parser input <> Raise Diverges) ->
      forall binary,
        from_binary (ListParser parser None sep) binary <> Raise Diverges).
Proof.
  split; [|split].
  - intros binary V rest H. cbn [from_binary ListParser] in H.
    unfold ListParser_from_binary in H.
    match type of H with rbind ?m _ = _ =>
      destruct m as [[fields binary']|] eqn:El; [|discriminate] end.
    injection H as <- <-. exists fields. split; [reflexivity|].
    destruct max_length as [n|].
    + destruct (list_loop_values (fun _ => True) _ _ _ (fun _ _ _ _ => I)
                  _ _ _ _ _ (Forall_nil_2 _) El) as (_ & H2 & _).
      apply (H2 eq_refl).
    + destruct (list_loop_values (fun _ => True) _ _ _ (fun _ _ _ _ => I)
                  _ _ _ _ _ (Forall_nil_2 _) El) as (_ & _ & H3).
      specialize (H3 eq_refl). now destruct binary'.
  - intros text V rest H. cbn [from_text ListParser] in H.
    unfold ListParser_from_text in H.
    match type of H with rbind ?m _ = _ =>
      destruct m as [[fields text']|] eqn:El; [|discriminate] end.
    injection H as <- <-. exists fields. split; [reflexivity|].
    destruct max_length as [n|].
    + destruct (list_loop_values (fun _ => True) _ _ _ (fun _ _ _ _ => I)
                  _ _ _ _ _ (Forall_nil_2 _) El) as (_ & H2 & _).
      apply (H2 eq_refl).
    + destruct (list_loop_values (fun _ => True) _ _ _ (fun _ _ _ _ => I)
                  _ _ _ _ _ (Forall_nil_2 _) El) as (_ & _ & H3).
      specialize (H3 eq_refl). now destruct text'.
  - intros Hsize Hstep binary. cbn [from_binary ListParser].
    unfold ListParser_from_binary.
    assert (Hempty : forall i : bytes,
              length i = 0%nat -> bytes_empty i = true).
    { intros [|x i]; [reflexivity|discriminate]. }
    pose proof (list_loop_terminates (@length byte) bytes_empty
                  (from_binary parser) false Hempty Hsize Hstep
                  (length binary) [] binary (le_n _)) as Hl.
    destruct (list_loop _ _ _ _ _ _) as [[fields rest]|e];
      cbn [rbind]; [discriminate|].
    intros [= ->]. now apply Hl.
Qed.

Lemma list_parser_bounds_witness :
  from_binary (ListParser Byte_ (Some 2%nat) " ") [x01; x02; x03]
  = Return (ListData [IntegerData 1 8 false; IntegerData 2 8 false] " ",
            [x03])
  /\ exists fields,
       ListData [IntegerData 1 8 false; IntegerData 2 8 false] " "
       = ListData fields " " /\ (length fields <= 2)%nat.
Proof.
  assert (H : from_binary (ListParser Byte_ (Some 2%nat) " ") [x01; x02; x03]
              = Return (ListData [IntegerData 1 8 false; IntegerData 2 8 false]
                                 " ", [x03])) by reflexivity.
  split; [exact H|].
  destruct (list_parser_bounds Byte_ (Some 2%nat) " ") as (H1 & _ & _).
  exact (H1 _ _ _ H).
Defined.

(** *** Frames on the wire *)

Lemma to_packet_inversion (address : Z) (message : SpaceData) (p : bytes) :
  _to_packet address message = Return p ->
  0 <= Z.lor 0xA0 address < 256
  /\ exists body crc,
       to_binary message = Return body
       /\ (length body <= 127)%nat
       /\ length crc = 2%nat
       /\ p = [x1a; xce; byte_of (Z.lor 0xA0 address);
               byte_of (Z.of_nat (length body))] ++ body ++ crc.
Proof.
  unfold _to_packet, bytes_of_int at 1, COMMAND_BYTE. intros H.
  destruct ((0 <=? Z.lor 160 address) && (Z.lor 160 address <? 256)) eqn:Er;
    [|discriminate H].
  apply andb_true_iff in Er. destruct Er as [E1 E2].
  apply Z.leb_le in E1. apply Z.ltb_lt in E2. split; [lia|].
  cbn [rbind] in H.
  destruct (to_binary message) as [body|]; [|discriminate H].
  cbn [rbind] in H. unfold MAX_MESSAGE_SIZE in H.
  destruct (127 <? Z.of_nat (length body)) eqn:El.
  { destruct (to_text message); discriminate H. }
  apply Z.ltb_ge in El. unfold bytes_of_int in H.
  destruct ((0 <=? Z.of_nat (length body)) && (Z.of_nat (length body) <? 256));
    [|discriminate H].
  cbn [rbind] in H.
  rewrite pack_crc in H by apply _crc16_range. cbn [rbind] in H.
  injection H as <-. exists body. eexists.
  split; [reflexivity|]. split; [lia|]. split; [|reflexivity]. reflexivity.
Qed.

Lemma direction_differs (address : Z) :
  0 <= address <= 15 -> Z.lor 0xA0 address <> Z.lor 0xB0 address.
Proof.
  intros H.
  assert (Hc : address = 0 \/ address = 1 \/ address = 2 \/ address = 3
               \/ address = 4 \/ address = 5 \/ address = 6 \/ address = 7
               \/ address = 8 \/ address = 9 \/ address = 10 \/ address = 11
               \/ address = 12 \/ address = 13 \/ address = 14
               \/ address = 15) by lia.
  repeat (destruct Hc as [->|Hc]; [vm_compute; congruence|]).
  subst. vm_compute. congruence.
Qed.

(** X11: for the addresses [SpaceProtocol.__init__] admits (0 to 15), the
    decoder never takes a packet built by the encoder for a reply: every
    packet [_to_packet] returns carries the command direction [0xA0], which
    [_from_packet] of the same session rejects with [(None, None)], whatever
    the message and the parser. *)
Theorem to_packet_not_decoded (address : Z) (parser : SpaceParser)
  (message : SpaceData) (p : bytes) :
  0 <= address <= 15 ->
  _to_packet address message = Return p ->
  _from_packet address parser p = Return (None, None).
Proof.
  intros Ha Hp. apply from_packet_invalid.
  destruct (to_packet_inversion _ _ _ Hp) as (Hr & body & crc & _ & _ & _ & ->).
  intros (_ & Hdir & _). cbn in Hdir. injection Hdir as Hdir.
  rewrite byte_val_of in Hdir by exact Hr.
  now apply (direction_differs address Ha).
Qed.

Lemma to_packet_not_decoded_witness :
  0 <= 5 <= 15
  /\ _to_packet 5 ping_message = Return [x1a; xce; xa5; x00; x65; x53]
  /\ _from_packet 5 message_parser [x1a; xce; xa5; x00; x65; x53]
     = Return (None, None).
Proof.
  assert (Ha : 0 <= 5 <= 15) by lia.
  assert (Hp : _to_packet 5 ping_message
               = Return [x1a; xce; xa5; x00; x65; x53])
    by (vm_compute; reflexivity).
  split; [exact Ha|]. split; [exact Hp|].
  exact (to_packet_not_decoded 5 message_parser ping_message _ Ha Hp).
Defined.






(** X13: a message whose binary form is longer than 127 bytes is not sent:
    [_to_packet] raises [ParseError] (after rendering the message as text
    for the error), and [send_message] passes the error on without writing
    to the port or changing the session. *)
Theorem send_oversize (self : SpaceProtocol) (command : SpaceData)
  (deadline : option pyfloat) (d : pyfloat) (body : bytes) (t : string) :
  0 <= address self <= 15 ->
  effective_deadline command deadline = Return d ->
  to_binary command = Return body ->
  (127 < length body)%nat ->
  to_text command = Return t ->
  _to_packet (address self) command = Raise ParseError
  /\ send_message self command deadline = (Raise ParseError, self).
Proof.
  intros Ha Hd Hb Hl Ht.
  assert (Hp : _to_packet (address self) command = Raise ParseError).
  { unfold _to_packet, bytes_of_int at 1, COMMAND_BYTE.
    pose proof (command_byte_range _ Ha) as Hr.
    assert (H1 : (0 <=? Z.lor 160 (address self))
                 && (Z.lor 160 (address self) <? 256) = true).
    { apply andb_true_iff. split; [apply Z.leb_le|apply Z.ltb_lt]; lia. }
    rewrite H1. cbn [rbind]. rewrite Hb. cbn [rbind].
    unfold MAX_MESSAGE_SIZE.
    assert (H2 : (127 <? Z.of_nat (length body)) = true)
      by (apply Z.ltb_lt; lia).
    rewrite H2, Ht. reflexivity. }
  split; [exact Hp|]. unfold send_message. now rewrite Hd, Hp.
Qed.

Lemma send_oversize_witness :
  let self := {| address := 5; parser := message_parser; debug := false;
                 _status := None;
                 serial := {| written := []; incoming := [] |} |} in
  let command := MessageData [ByteData 4 (Some "echo");
                              ListData (repeat (IntegerData 7 8 false) 127) " "]
                             " " None in
  send_message self command (Some MINIMUM_DEADLINE) = (Raise ParseError, self).
Proof.
  intros self command.
  assert (Ha : 0 <= address self <= 15) by (cbn; lia).
  assert (Hd : effective_deadline command (Some MINIMUM_DEADLINE)
               = Return MINIMUM_DEADLINE) by reflexivity.
  assert (Hb : to_binary command = Return (x04 :: repeat x07 127))
    by (vm_compute; reflexivity).
  assert (Hl : (127 < length (x04 :: repeat x07 127))%nat)
    by (cbn [length]; rewrite repeat_length; lia).
  assert (Ht : to_text command
               = Return (join " " ("echo" :: [join " " (repeat "7" 127)])))
    by (vm_compute; reflexivity).
  exact (proj2 (send_oversize self command (Some MINIMUM_DEADLINE)
                  MINIMUM_DEADLINE _ _ Ha Hd Hb Hl Ht)).
Defined.

(** *** The pieces of a firmware image *)

Lemma pieces_fuel (fuel : nat) : forall data : bytes,
  (length data <= fuel)%nat ->
  concat (pieces fuel data) = data
  /\ Forall (fun p => (0 < length p <= PIECE_SIZE)%nat) (pieces fuel data)
  /\ forall k, (PIECE_SIZE * k < length data)%nat ->
       pieces fuel data !! k
       = Some (take PIECE_SIZE (drop (PIECE_SIZE * k) data)).
Proof.
  induction fuel as [|fuel IH]; intros data Hf.
  - destruct data; [|cbn in Hf; lia]. cbn. split; [reflexivity|].
    split; [constructor|]. intros k Hk. lia.
  - destruct data as [|x data].
    + cbn. split; [reflexivity|]. split; [constructor|]. intros k Hk. lia.
    + cbn [pieces].
      assert (Hd : (length (drop PIECE_SIZE (x :: data)) <= fuel)%nat).
      { rewrite length_drop. unfold PIECE_SIZE. cbn [length] in *. lia. }
      destruct (IH _ Hd) as (H1 & H2 & H3).
      split; [|split].
      * cbn [concat]. rewrite H1. apply take_drop.
      * constructor; [|exact H2]. rewrite length_take.
        unfold PIECE_SIZE. cbn [length]. lia.
      * intros [|k] Hk.
        -- rewrite Nat.mul_0_r, drop_0. reflexivity.
        -- cbn [lookup list_lookup]. rewrite H3.
           ++ rewrite drop_drop. do 3 f_equal. lia.
           ++ rewrite length_drop. lia.
Qed.

(** X14: [flash_binary] cuts an image into the slices
    [data[offset:offset + 64]] for the offsets 0, 64, 128, ...: slice [k] is
    the 64 bytes (fewer at the end) that start at offset [64 * k], every
    slice holds between 1 and 64 bytes, and the slices put together are the
    image again, so every byte is sent exactly once. *)
Theorem pieces_cover (data : bytes) :
  let ps := pieces (length data) data in
  concat ps = data
  /\ Forall (fun p => (0 < length p <= 64)%nat) ps
  /\ forall k, (64 * k < length data)%nat ->
       ps !! k = Some (take 64 (drop (64 * k) data)).
Proof. apply (pieces_fuel (length data) data). lia. Qed.

(** *** Status labels *)

Lemma status_checks :
  forallb status_check (map Z.of_nat (seq 0 256)) = true.
Proof. vm_compute. reflexivity. Qed.

(** X15: for a status byte, [status_label] is never empty; it is [IDLE]
    exactly for the status 0 and [BUSY] exactly for the status 1, and it
    starts with [SYSTEM_FAULT] exactly when bit 7 of the status is set (the
    flags are listed from the highest mask down). *)
Theorem status_label_flags (status : Z) :
  0 <= status <= 255 ->
  status_label status <> EmptyString
  /\ (status_label status = "IDLE" <-> status = 0)
  /\ (status_label status = "BUSY" <-> status = 1)
  /\ (startswith "SYSTEM_FAULT" (status_label status) = true
      <-> Z.testbit status 7 = true).
Proof.
  intros Hs. pose proof status_checks as H. rewrite forallb_forall in H.
  specialize (H status).
  assert (Hin : In status (map Z.of_nat (seq 0 256))).
  { apply in_map_iff. exists (Z.to_nat status). split; [lia|].
    apply in_seq. lia. }
  specialize (H Hin). unfold status_check in H.
  apply andb_true_iff in H. destruct H as [H H4].
  apply andb_true_iff in H. destruct H as [H H3].
  apply andb_true_iff in H. destruct H as [H1 H2].
  apply Bool.eqb_prop in H1, H2, H3.
  split; [|split; [|split]].
  - intros E. rewrite E in H4. discriminate H4.
  - rewrite <- String.eqb_eq, H1. apply Z.eqb_eq.
  - rewrite <- String.eqb_eq, H3. apply Z.eqb_eq.
  - now rewrite H2.
Qed.

Lemma status_label_flags_witness :
  0 <= 0x82 <= 255
  /\ startswith "SYSTEM_FAULT" (status_label 0x82) = true
  /\ status_label 0x82 <> "IDLE".
Proof.
  assert (H : 0 <= 0x82 <= 255) by lia.
  destruct (status_label_flags 0x82 H) as (_ & H1 & _ & H2).
  split; [exact H|]. split.
  - apply H2. reflexivity.
  - intros E. apply H1 in E. discriminate E.
Defined.

(** *** The lines of a configuration snapshot *)

Lemma startswith_space (p s : string) (a : ascii) :
  word_char a = true -> startswith (String " " p) (String a s) = false.
Proof.
  intros Ha. cbn [startswith].
  destruct (Ascii.eqb_spec " " a) as [<-|_]; [discriminate Ha|reflexivity].
Qed.

Lemma strip_closing_append (t : string) : strip_closing (t +:+ ")") = Some t.
Proof.
  induction t as [|a t IH]; [reflexivity|].
  rewrite append_cons. cbn [strip_closing]. rewrite IH.
  destruct t; reflexivity.
Qed.

Lemma eqb_close (a b : ascii) (t x : string) :
  String.eqb (String a (t +:+ String b x)) ")" = false.
Proof.
  cbn [String.eqb]. destruct (Ascii.eqb a ")"); [|reflexivity].
  destruct t; reflexivity.
Qed.

Lemma match_default_close (t : string) :
  str_forall word_char t = true ->
  match_default (t +:+ ")") = Some (t, None).
Proof.
  induction t as [|a t IH]; [reflexivity|].
  cbn [str_forall]. intros H. apply andb_true_iff in H. destruct H as [Ha Ht].
  rewrite append_cons. cbn [match_default].
  rewrite (startswith_space _ _ _ Ha), (IH Ht).
  change (String.eqb (String a (t +:+ ")")) ")")
    with (String.eqb (String a (t +:+ String ")" EmptyString)) ")").
  now rewrite eqb_close.
Qed.

Lemma match_default_arrow (t local : string) :
  str_forall word_char t = true ->
  match_default (t +:+ " -> " +:+ local +:+ ")") = Some (t, Some local).
Proof.
  induction t as [|a t IH].
  - intros _. rewrite append_nil_l.
    change (" -> " +:+ local +:+ ")")
      with (String " " (String "-" (String ">" (String " " (local +:+ ")"))))).
    cbn [match_default startswith Ascii.eqb Bool.eqb andb str_drop].
    now rewrite strip_closing_append.
  - cbn [str_forall]. intros H. apply andb_true_iff in H.
    destruct H as [Ha Ht].
    rewrite append_cons. cbn [match_default].
    rewrite (startswith_space _ _ _ Ha), (IH Ht).
    change (" -> " +:+ local +:+ ")")
      with (String " " ("-> " +:+ local +:+ ")")).
    now rewrite eqb_close.
Qed.

Lemma match_live_spec (t rest d : string) (l : option string) :
  str_forall word_char t = true ->
  match_default rest = Some (d, l) ->
  match_live (t +:+ " (" +:+ rest) = Some (t, d, l).
Proof.
  intros Ht Hr. induction t as [|a t IH].
  - rewrite append_nil_l.
    change (" (" +:+ rest) with (String " " (String "(" rest)).
    cbn [match_live startswith Ascii.eqb Bool.eqb andb str_drop].
    now rewrite Hr.
  - cbn [str_forall] in Ht. apply andb_true_iff in Ht.
    destruct Ht as [Ha Ht].
    rewrite append_cons. cbn [match_live].
    rewrite (startswith_space _ _ _ Ha), (IH Ht). reflexivity.
Qed.

Lemma startswith_colon_space (a : ascii) (t rest : string) :
  str_forall word_char t = true ->
  startswith ": " (String a (t +:+ ": " +:+ rest)) = false.
Proof.
  intros Ht. cbn [startswith].
  destruct (Ascii.eqb ":" a); [|reflexivity]. cbn [andb].
  destruct t as [|b t].
  - reflexivity.
  - cbn [str_forall] in Ht. apply andb_true_iff in Ht. destruct Ht as [Hb _].
    rewrite append_cons.
    destruct (Ascii.eqb_spec " " b) as [<-|_]; [discriminate Hb|reflexivity].
Qed.

Lemma match_config_line_spec (label rest v d : string) (l : option string) :
  str_forall word_char label = true ->
  match_live rest = Some (v, d, l) ->
  match_config_line (label +:+ ": " +:+ rest) = Some (label, v, d, l).
Proof.
  intros Ht Hr. induction label as [|a t IH].
  - rewrite append_nil_l.
    change (": " +:+ rest) with (String ":" (String " " rest)).
    cbn [match_config_line startswith Ascii.eqb Bool.eqb andb str_drop].
    now rewrite Hr.
  - cbn [str_forall] in Ht. apply andb_true_iff in Ht.
    destruct Ht as [Ha Ht].
    rewrite append_cons. cbn [match_config_line].
    rewrite (startswith_colon_space _ _ _ Ht), (IH Ht). reflexivity.
Qed.

(** X16: the lines [save_config] writes are read back by the pattern of
    [load_config].  For a label, a live value and a default without white
    space, the line [label: value (default)] is split into exactly these
    three parts with no local value, and the line
    [label: value (default -> local)] into these parts and the local value,
    for any local value on one line. *)
Theorem config_line_round_trip (label value default : string) :
  str_forall word_char label = true ->
  str_forall word_char value = true ->
  str_forall word_char default = true ->
  match_config_line (label +:+ ": " +:+ value +:+ " (" +:+ default +:+ ")")
  = Some (label, value, default, None)
  /\ forall local,
       str_forall line_char local = true ->
       match_config_line (label +:+ ": " +:+ value +:+ " (" +:+ default
                          +:+ " -> " +:+ local +:+ ")")
       = Some (label, value, default, Some local).
Proof.
  intros Hl Hv Hd. split.
  - apply match_config_line_spec; [exact Hl|].
    apply match_live_spec; [exact Hv|]. now apply match_default_close.
  - intros local _. apply match_config_line_spec; [exact Hl|].
    apply match_live_spec; [exact Hv|]. now apply match_default_arrow.
Qed.

Lemma config_line_round_trip_witness :
  match_config_line "flow_ignition_amps: 1.5 (2 -> 1.25)"
  = Some ("flow_ignition_amps", "1.5", "2", Some "1.25").
Proof.
  destruct (config_line_round_trip "flow_ignition_amps" "1.5" "2"
              eq_refl eq_refl eq_refl) as [_ H].
  exact (H "1.25" eq_refl).
Defined.

(** *** The log file *)

Lemma quiet_ret {A : Type} (a : A) : quiet (ret a).
Proof. intros s. reflexivity. Qed.

Lemma quiet_raise {A : Type} (e : exn) : quiet (@raise A e).
Proof. intros s. reflexivity. Qed.

Lemma quiet_lift {A : Type} (r : result A) : quiet (lift r).
Proof. intros s. reflexivity. Qed.

Lemma quiet_gets {A : Type} (f : LoggingSpaceProtocol -> A) : quiet (gets f).
Proof. intros s. reflexivity. Qed.

Lemma quiet_bind {A B : Type} (m : M A) (k : A -> M B) :
  quiet m -> (forall a, quiet (k a)) -> quiet (bind m k).
Proof.
  intros Hm Hk s. unfold bind. specialize (Hm s).
  destruct (m s) as [[a|e] s']; simpl in *.
  - now rewrite Hk.
  - exact Hm.
Qed.

Lemma quiet_try_except {A : Type} (body : M A) (handles : exn -> bool)
  (handler : M A) :
  quiet body -> quiet handler -> quiet (try_except body handles handler).
Proof.
  intros Hb Hh s. unfold try_except. specialize (Hb s).
  destruct (body s) as [[a|e] s']; simpl in *; [exact Hb|].
  destruct (handles e); simpl; [now rewrite Hh|exact Hb].
Qed.

Lemma quiet_try_finally {A : Type} (body : M A) (orig : bool) :
  quiet body -> quiet (try_finally body (set_echo orig)).
Proof.
  intros Hb s. unfold try_finally. specialize (Hb s).
  destruct (body s) as [r s']. exact Hb.
Qed.

Lemma quiet_unlogged (m : M unit) : quiet (when false m).
Proof. apply quiet_ret. Qed.

Lemma quiet_when (b : bool) (m : M unit) : quiet m -> quiet (when b m).
Proof. intros H. destruct b; [exact H|apply quiet_ret]. Qed.

Lemma quiet_for_each {A : Type} (l : list A) (body : A -> M unit) :
  (forall x, quiet (body x)) -> quiet (for_each l body).
Proof.
  intros H. induction l as [|x l IH]; cbn [for_each].
  - apply quiet_ret.
  - apply quiet_bind; [apply H|intros _; exact IH].
Qed.

Lemma quiet_modify (f : LoggingSpaceProtocol -> LoggingSpaceProtocol) :
  (forall s, logfile (f s) = logfile s) -> quiet (modify f).
Proof. intros H s. apply H. Qed.

Lemma quiet_timestamp : quiet timestamp.
Proof. intros s. unfold timestamp. destruct (clock (world s)); reflexivity. Qed.

Lemma quiet_sleep (delay : pyfloat) : quiet (sleep delay).
Proof. intros s. destruct delay as [| [|] | | [|] ? ?]; reflexivity. Qed.

Lemma quiet_write_text (path text : string) : quiet (write_text path text).
Proof.
  intros s. unfold write_text.
  destruct (decide (path ∈ unwritable (world s))); reflexivity.
Qed.

Lemma quiet_super_send_message (command : SpaceData)
  (deadline : option pyfloat) :
  quiet (super_send_message command deadline).
Proof.
  intros s. unfold super_send_message.
  destruct (send_message (base s) command deadline); reflexivity.
Qed.

Ltac quiet_step :=
  first
    [ apply quiet_ret | apply quiet_raise | apply quiet_lift
    | apply quiet_gets | apply quiet_unlogged
    | apply quiet_timestamp | apply quiet_sleep
    | apply quiet_write_text | apply quiet_super_send_message
    | assumption
    | apply quiet_bind; [|intros ?]
    | apply quiet_when
    | apply quiet_try_except
    | apply quiet_try_finally
    | apply quiet_for_each; intros ?
    | apply quiet_modify; intros ?; reflexivity
    | match goal with
      | |- quiet (match ?x with _ => _ end) => destruct x
      | |- quiet (if ?x then _ else _) => destruct x
      end ].

Ltac quiet_tac := repeat quiet_step.

Lemma quiet_store_field (field : SpaceData) : quiet (store_field field).
Proof. unfold store_field. quiet_tac. Qed.

Lemma quiet_send_message (command : SpaceData) (deadline : option pyfloat) :
  quiet (LoggingSpaceProtocol_send_message command false deadline).
Proof.
  unfold LoggingSpaceProtocol_send_message. quiet_tac;
    apply quiet_store_field.
Qed.

Lemma quiet_send_text (command : string) : quiet (send_text command false).
Proof. unfold send_text. quiet_tac; apply quiet_send_message. Qed.

Section Unlogged.
Variable rl : run_line_t.
Hypothesis rl_quiet : forall line ei, quiet (rl line ei false).

Lemma quiet_run_script_with (script : string) :
  quiet (run_script_with rl script false).
Proof. unfold run_script_with. quiet_tac. apply rl_quiet. Qed.

Lemma quiet_flash_pieces (address : Z) (ps : list bytes) :
  forall offset, quiet (flash_pieces rl address false offset ps).
Proof.
  induction ps as [|piece rest IH]; intros offset; cbn [flash_pieces].
  - apply quiet_ret.
  - apply quiet_bind; [apply rl_quiet|intros reply].
    destruct (negb _); [apply quiet_raise|apply IH].
Qed.

Lemma quiet_flash_binary (address : Z) (data : bytes) (progress : bool) :
  quiet (flash_binary rl address data progress false).
Proof.
  unfold flash_binary.
  repeat first [apply quiet_flash_pieces | quiet_step].
Qed.

Lemma quiet_load_config_line (line : string) :
  quiet (load_config_line rl false line).
Proof.
  unfold load_config_line, index_error_to_space_error.
  repeat first [apply rl_quiet | apply quiet_send_message | quiet_step].
Qed.

Lemma quiet_load_config (config : string) :
  quiet (load_config rl config false).
Proof.
  unfold load_config.
  repeat first [apply quiet_load_config_line | quiet_step].
Qed.

Lemma quiet_fetch_params (label : string) (reply : SpaceData) :
  quiet (fetch_params false label reply).
Proof.
  unfold fetch_params, index_error_to_space_error, reply_params.
  repeat first [apply quiet_send_message | quiet_step].
Qed.

Lemma quiet_save_config_field (label : string) :
  quiet (save_config_field false label).
Proof.
  unfold save_config_field.
  repeat first [apply quiet_send_message | apply quiet_fetch_params
               | quiet_step].
Qed.

Lemma quiet_save_config_fields (fields : list (Z * string)) :
  forall config, quiet (save_config_fields false fields config).
Proof.
  induction fields as [|[code label] rest IH]; intros config;
    cbn [save_config_fields].
  - apply quiet_ret.
  - destruct (String.eqb label "all"); [apply IH|].
    apply quiet_bind; [apply quiet_save_config_field|].
    intros [line|]; apply IH.
Qed.

Lemma quiet_save_config : quiet (save_config rl false).
Proof.
  unfold save_config.
  repeat first [apply rl_quiet | apply quiet_save_config_fields | quiet_step].
Qed.

Lemma quiet_run_line_body (line : string) (echo_input : bool) :
  quiet (run_line_body rl line echo_input false).
Proof.
  unfold run_line_body.
  repeat first
    [ apply rl_quiet | apply quiet_run_script_with
    | apply quiet_flash_binary | apply quiet_load_config
    | apply quiet_save_config | apply quiet_send_text
    | quiet_step ].
Qed.

End Unlogged.

(** X17: with [logged=False], [run_line] writes nothing to the log file,
    whatever the line is and however it ends: neither the line itself, nor
    the commands a macro, a flash, a configuration load or a configuration
    save issue on its behalf, since every nested call passes the flag on. *)
Theorem run_line_unlogged (depth : nat) :
  forall (line : string) (echo_input : bool) (s : LoggingSpaceProtocol),
    logfile (snd (run_line depth line echo_input false s)) = logfile s.
Proof.
  induction depth as [|depth IH]; intros line echo_input; cbn [run_line].
  - apply quiet_raise.
  - apply quiet_run_line_body. exact IH.
Qed.

(** *** What a run leaves in place *)

Section Within.
Variable R : LoggingSpaceProtocol -> LoggingSpaceProtocol -> Prop.
Hypothesis R_refl : forall s, R s s.
Hypothesis R_trans : forall a b c, R a b -> R b c -> R a c.
Hypothesis R_echo : forall e s, R s (set_echo e s).
Hypothesis R_telemetry : forall t s, R s (set_telemetry t s).
Hypothesis R_log : forall text, within R (write_log text).
Hypothesis R_send : forall command deadline,
  within R (super_send_message command deadline).
Hypothesis R_timestamp : within R timestamp.
Hypothesis R_sleep : forall delay, within R (sleep delay).
Hypothesis R_write_text : forall path text, within R (write_text path text).

Lemma within_ret {A : Type} (a : A) : within R (ret a).
Proof. intros s. apply R_refl. Qed.

Lemma within_raise {A : Type} (e : exn) : within R (@raise A e).
Proof. intros s. apply R_refl. Qed.

Lemma within_lift {A : Type} (r : result A) : within R (lift r).
Proof. intros s. apply R_refl. Qed.

Lemma within_gets {A : Type} (f : LoggingSpaceProtocol -> A) :
  within R (gets f).
Proof. intros s. apply R_refl. Qed.

Lemma within_bind {A B : Type} (m : M A) (k : A -> M B) :
  within R m -> (forall a, within R (k a)) -> within R (bind m k).
Proof.
  intros Hm Hk s. unfold bind. specialize (Hm s).
  destruct (m s) as [[a|e] s']; simpl in *.
  - apply (R_trans _ _ _ Hm). apply Hk.
  - exact Hm.
Qed.

Lemma within_try_except {A : Type} (body : M A) (handles : exn -> bool)
  (handler : M A) :
  within R body -> within R handler ->
  within R (try_except body handles handler).
Proof.
  intros Hb Hh s. unfold try_except. specialize (Hb s).
  destruct (body s) as [[a|e] s']; simpl in *; [exact Hb|].
  destruct (handles e); simpl; [|exact Hb].
  apply (R_trans _ _ _ Hb). apply Hh.
Qed.

Lemma within_try_finally {A : Type} (body : M A) (orig : bool) :
  within R body -> within R (try_finally body (set_echo orig)).
Proof.
  intros Hb s. unfold try_finally. specialize (Hb s).
  destruct (body s) as [r s']. simpl in *.
  apply (R_trans _ _ _ Hb). apply R_echo.
Qed.

Lemma within_when (b : bool) (m : M unit) :
  within R m -> within R (when b m).
Proof. intros H. destruct b; [exact H|apply within_ret]. Qed.

Lemma within_for_each {A : Type} (l : list A) (body : A -> M unit) :
  (forall x, within R (body x)) -> within R (for_each l body).
Proof.
  intros H. induction l as [|x l IH]; cbn [for_each].
  - apply within_ret.
  - apply within_bind; [apply H|intros _; exact IH].
Qed.

Lemma within_set_echo (e : bool) : within R (modify (set_echo e)).
Proof. intros s. apply R_echo. Qed.

Lemma within_set_telemetry
  (f : LoggingSpaceProtocol -> gmap (option string) pyvalue) :
  within R (modify (fun s => set_telemetry (f s) s)).
Proof. intros s. apply R_telemetry. Qed.

Ltac within_step :=
  first
    [ apply within_ret | apply within_raise | apply within_lift
    | apply within_gets | apply R_log | apply R_send
    | apply R_timestamp | apply R_sleep | apply R_write_text
    | apply within_set_echo | apply within_set_telemetry
    | assumption
    | apply within_bind; [|intros ?]
    | apply within_when
    | apply within_try_except
    | apply within_try_finally
    | apply within_for_each; intros ?
    | match goal with
      | |- within R (match ?x with _ => _ end) => destruct x
      | |- within R (if ?x then _ else _) => destruct x
      end ].

Lemma within_store_field (field : SpaceData) : within R (store_field field).
Proof. unfold store_field. repeat within_step. Qed.

Lemma within_send_message (command : SpaceData) (logged : bool)
  (deadline : option pyfloat) :
  within R (LoggingSpaceProtocol_send_message command logged deadline).
Proof.
  unfold LoggingSpaceProtocol_send_message.
  repeat first [apply within_store_field | within_step].
Qed.

Lemma within_send_text (command : string) (logged : bool) :
  within R (send_text command logged).
Proof.
  unfold send_text. repeat first [apply within_send_message | within_step].
Qed.

Variable rl : run_line_t.
Hypothesis rl_within : forall line ei lg, within R (rl line ei lg).

Lemma within_run_script_with (script : string) (logged : bool) :
  within R (run_script_with rl script logged).
Proof. unfold run_script_with. repeat first [apply rl_within | within_step]. Qed.

Lemma within_flash_pieces (address : Z) (logged : bool) (ps : list bytes) :
  forall offset, within R (flash_pieces rl address logged offset ps).
Proof.
  induction ps as [|piece rest IH]; intros offset; cbn [flash_pieces].
  - apply within_ret.
  - apply within_bind; [apply rl_within|intros reply].
    destruct (negb _); [apply within_raise|apply IH].
Qed.

Lemma within_flash_binary (address : Z) (data : bytes)
  (progress logged : bool) :
  within R (flash_binary rl address data progress logged).
Proof.
  unfold flash_binary.
  repeat first [apply within_flash_pieces | within_step].
Qed.

Lemma within_load_config_line (logged : bool) (line : string) :
  within R (load_config_line rl logged line).
Proof.
  unfold load_config_line, index_error_to_space_error.
  repeat first [apply rl_within | apply within_send_message | within_step].
Qed.

Lemma within_load_config (config : string) (logged : bool) :
  within R (load_config rl config logged).
Proof.
  unfold load_config.
  repeat first [apply within_load_config_line | within_step].
Qed.

Lemma within_fetch_params (logged : bool) (label : string)
  (reply : SpaceData) :
  within R (fetch_params logged label reply).
Proof.
  unfold fetch_params, index_error_to_space_error, reply_params.
  repeat first [apply within_send_message | within_step].
Qed.

Lemma within_save_config_field (logged : bool) (label : string) :
  within R (save_config_field logged label).
Proof.
  unfold save_config_field.
  repeat first [apply within_send_message | apply within_fetch_params
               | within_step].
Qed.

Lemma within_save_config_fields (logged : bool)
  (fields : list (Z * string)) :
  forall config, within R (save_config_fields logged fields config).
Proof.
  induction fields as [|[code label] rest IH]; intros config;
    cbn [save_config_fields].
  - apply within_ret.
  - destruct (String.eqb label "all"); [apply IH|].
    apply within_bind; [apply within_save_config_field|].
    intros [line|]; apply IH.
Qed.

Lemma within_save_config (logged : bool) : within R (save_config rl logged).
Proof.
  unfold save_config.
  repeat first [apply rl_within | apply within_save_config_fields
               | within_step].
Qed.

Lemma within_run_line_body (line : string) (echo_input logged : bool) :
  within R (run_line_body rl line echo_input logged).
Proof.
  unfold run_line_body.
  repeat first
    [ apply rl_within | apply within_run_script_with
    | apply within_flash_binary | apply within_load_config
    | apply within_save_config | apply within_send_text
    | within_step ].
Qed.

End Within.

Lemma history_refl (s : LoggingSpaceProtocol) : history s s.
Proof. unfold history. repeat split; reflexivity. Qed.

Lemma history_trans (a b c : LoggingSpaceProtocol) :
  history a b -> history b c -> history a c.
Proof.
  unfold history.
  intros (A1 & A2 & A3 & A4 & A5 & A6 & A7) (B1 & B2 & B3 & B4 & B5 & B6 & B7).
  repeat split; try (etransitivity; eassumption); congruence.
Qed.

Lemma history_send_message (self : SpaceProtocol) (command : SpaceData)
  (deadline : option pyfloat) :
  let self' := snd (send_message self command deadline) in
  written (serial self) `prefix_of` written (serial self')
  /\ address self' = address self /\ parser self' = parser self.
Proof.
  unfold send_message.
  destruct (effective_deadline command deadline); [|now repeat split].
  destruct (_to_packet (address self) command) as [packet|];
    [|now repeat split].
  cbn [address parser set_serial].
  destruct (receive _ _ _ _) as [[[m st]|]|];
    cbn; repeat split; apply prefix_app_r; reflexivity.
Qed.

Lemma history_run_line (depth : nat) :
  forall line echo_input logged,
    within history (run_line depth line echo_input logged).
Proof.
  assert (Hsend : forall command deadline,
            within history (super_send_message command deadline)).
  { intros command deadline s. unfold super_send_message.
    pose proof (history_send_message (base s) command deadline) as H.
    destruct (send_message (base s) command deadline) as [r b].
    cbn in *. destruct H as (H1 & H2 & H3).
    unfold history. cbn. repeat split; try reflexivity; assumption. }
  assert (Hlog : forall text, within history (write_log text)).
  { intros text s. unfold history. cbn. repeat split; try reflexivity.
    now apply prefix_app_r. }
  assert (Hts : within history timestamp).
  { intros s. unfold timestamp. destruct (clock (world s));
      [apply history_refl|]. unfold history. cbn.
    repeat split; reflexivity. }
  assert (Hsleep : forall delay, within history (sleep delay)).
  { intros delay s. unfold history.
    destruct delay as [| [|] | | [|] ? ?]; cbn; repeat split;
      try reflexivity; now apply prefix_app_r. }
  assert (Hwrite : forall path text, within history (write_text path text)).
  { intros path text s. unfold write_text, history.
    destruct (decide (path ∈ unwritable (world s))); cbn; repeat split;
      try reflexivity; now apply prefix_app_r. }
  assert (Hecho : forall e s, history s (set_echo e s)).
  { intros e s. unfold history. cbn. repeat split; reflexivity. }
  assert (Htel : forall t s, history s (set_telemetry t s)).
  { intros t s. unfold history. cbn. repeat split; reflexivity. }
  induction depth as [|depth IH]; intros line echo_input logged;
    cbn [run_line].
  - intros s. apply history_refl.
  - apply (within_run_line_body history history_refl history_trans
             Hecho Htel Hlog Hsend Hts Hsleep Hwrite (run_line depth) IH).
Qed.

(** X18: however a line ends, [run_line] never rewrites what is already
    there: the log file, the packets written to the port, the files saved
    and the delays slept are extended, never shortened or altered, and the
    macro table, the device address and the message parser of the session
    are left as they were.  This holds through macros, flashes and
    configuration loads and saves. *)
Theorem run_line_history (depth : nat) (line : string)
  (echo_input logged : bool) (s : LoggingSpaceProtocol) :
  let s' := snd (run_line depth line echo_input logged s) in
  logfile s `prefix_of` logfile s'
  /\ written (serial (base s)) `prefix_of` written (serial (base s'))
  /\ saved (world s) `prefix_of` saved (world s')
  /\ slept (world s) `prefix_of` slept (world s')
  /\ macros s' = macros s
  /\ address (base s') = address (base s)
  /\ parser (base s') = parser (base s).
Proof. apply (history_run_line depth line echo_input logged s). Qed.

(** *** The message parser of the catalog *)

Lemma message_types_built :
  add_message_types empty_table COMMANDS = Return message_types.
Proof.
  unfold message_types.
  destruct (add_message_types empty_table COMMANDS) eqn:E; [reflexivity|].
  vm_compute in E. discriminate E.
Qed.

Lemma message_types_ok :
  table_ok message_types = true
  /\ forallb (fun '(code, label) => negb (String.eqb label SPACE_PING))
             (map_to_list (code_to_label message_types)) = true.
Proof. split; vm_compute; reflexivity. Qed.

Lemma message_codes_distinct : NoDup (message_codes COMMANDS).
Proof.
  assert (H : bool_decide (NoDup (message_codes COMMANDS)) = true)
    by (vm_compute; reflexivity).
  exact (bool_decide_eq_true_1 _ H).
Qed.

Lemma add_message_parsers_spec (commands : list SpaceCommand) :
  forall (first : SpaceParser) (default : option SpaceParser)
         (second : gmap Z (option SpaceParser))
         (deadlines : gmap Z (option pyfloat)) (sep : string),
    NoDup (message_codes commands) ->
    (forall code, code ∈ message_codes commands -> second !! code = None) ->
    exists second' deadlines',
      add_message_parsers (MessageParser_with first default second deadlines sep)
                          commands
      = Return (MessageParser_with first default second' deadlines' sep)
      /\ forall code p,
           second' !! code = Some (Some p) ->
           second !! code = Some (Some p)
           \/ exists c, c ∈ commands
                        /\ (command_parser c = Some p \/ reply_parser c = Some p).
Proof.
  induction commands as [|c rest IH];
    intros first default second deadlines sep Hnd Hfresh.
  - exists second, deadlines. split; [reflexivity|]. auto.
  - cbn [message_codes flat_map app] in Hnd, Hfresh.
    fold (message_codes rest) in Hnd, Hfresh.
    apply NoDup_cons in Hnd. destruct Hnd as [Hc Hnd].
    apply NoDup_cons in Hnd. destruct Hnd as [Hr Hnd].
    cbn [add_message_parsers]. unfold MessageParser_add at 1.
    cbn [attrs MessageParser_with].
    rewrite (Hfresh (command_code c)) by apply list_elem_of_here.
    cbn [rbind]. unfold MessageParser_add. cbn [attrs MessageParser_with].
    rewrite lookup_insert_ne by (intros E; apply Hc; rewrite E; apply list_elem_of_here).
    rewrite (Hfresh (reply_code c))
      by (apply list_elem_of_further, list_elem_of_here).
    cbn [rbind].
    destruct (IH first default
                (<[reply_code c := reply_parser c]>
                   (<[command_code c := command_parser c]> second))
                (<[reply_code c := None]>
                   (<[command_code c := Some (deadline c)]> deadlines))
                sep Hnd) as (second' & deadlines' & Hadd & Hsec).
    { intros code Hin.
      rewrite lookup_insert_ne by (intros E; apply Hr; now rewrite E).
      rewrite lookup_insert_ne
        by (intros E; apply Hc; rewrite E; now apply list_elem_of_further).
      apply Hfresh. now do 2 apply list_elem_of_further. }
    exists second', deadlines'. split; [exact Hadd|].
    intros code p Hp. destruct (Hsec code p Hp) as [Hold|(c' & Hin & Hc')].
    + destruct (decide (code = reply_code c)) as [->|Hne1].
      { rewrite lookup_insert_eq in Hold. injection Hold as Hold.
        right. exists c. split; [apply list_elem_of_here|]. now right. }
      rewrite lookup_insert_ne in Hold by congruence.
      destruct (decide (code = command_code c)) as [->|Hne2].
      { rewrite lookup_insert_eq in Hold. injection Hold as Hold.
        right. exists c. split; [apply list_elem_of_here|]. now left. }
      rewrite lookup_insert_ne in Hold by congruence. now left.
    + right. exists c'. split; [now apply list_elem_of_further|exact Hc'].
Qed.

Lemma message_parser_structure :
  exists second deadlines,
    message_parser
    = MessageParser_with (IdentifierParser message_types) None second
                         deadlines " "
    /\ forall code p, second !! code = Some (Some p) -> catalog_parser p.
Proof.
  unfold message_parser, get_message_parser.
  rewrite message_types_built. cbn [rbind]. unfold MessageParser.
  destruct (add_message_parsers_spec COMMANDS
              (IdentifierParser message_types) None ∅ ∅ " "
              message_codes_distinct)
    as (second & deadlines & -> & Hsec).
  { intros code _. apply lookup_empty. }
  exists second, deadlines. split; [reflexivity|].
  intros code p Hp. destruct (Hsec code p Hp) as [Hold|Hc].
  - now rewrite lookup_empty in Hold.
  - exact Hc.
Qed.

Lemma wrap_message_list (deadlines : gmap Z (option pyfloat))
  (code : Z) (label : option string) (rest : list SpaceData) (sep sep' : string)
  (m : SpaceData) :
  wrap_message deadlines sep (ListData (ByteData code label :: rest) sep')
  = Return m ->
  exists d, deadlines !! code = Some d
            /\ m = MessageData (ByteData code label :: rest) sep d.
Proof.
  unfold wrap_message. cbn [getitem lookup list_lookup rbind dict_key].
  destruct (deadlines !! code) as [d|]; [|discriminate].
  intros [= <-]. eauto.
Qed.

Lemma message_parser_values (types : IdentifierTable)
  (second : gmap Z (option SpaceParser))
  (deadlines : gmap Z (option pyfloat)) (V : SpaceData) :
  accepted (MessageParser_with (IdentifierParser types) None second
                               deadlines " ") V ->
  message_values types second deadlines V.
Proof.
  destruct (parser_values (SIdentifier types) eq_refl) as [Hvt Hvb].
  cbn [parser_of values] in Hvt, Hvb.
  intros [(text & rest & H)|(binary & rest & H)].
  - cbn [from_text MessageParser_with] in H.
    unfold MessageParser_from_text in H.
    destruct (String.eqb text SPACE_PING).
    { injection H as <- _. now left. }
    unfold PairParser_from_text in H.
    destruct (split_sep " " text) as [[t1 t2]|]; [|discriminate].
    cbn [rbind] in H.
    destruct (from_text (IdentifierParser types) t1) as [[first r]|] eqn:Ef;
      [|discriminate].
    cbn [rbind] in H. destruct (negb (str_empty r)); [discriminate|].
    destruct (Hvt _ _ _ Ef) as (code & label & -> & Hl).
    right. exists code, label.
    destruct (second_parser second None (ByteData code (Some label)))
      as [p|] eqn:Es.
    + destruct (from_text p t2) as [[payload r']|] eqn:Ep; [|discriminate].
      cbn [rbind] in H.
      destruct (wrap_message deadlines " " _) as [m|] eqn:Ew; [|discriminate].
      injection H as <- <-.
      destruct (wrap_message_list _ _ _ _ _ _ _ Ew) as (d & Hd & ->).
      exists d. split; [exact Hl|]. split; [exact Hd|]. right.
      exists p, payload. split; [|split; [|reflexivity]].
      * unfold second_parser in Es. cbn [dict_key] in Es.
        destruct (second !! code) as [q|]; [now subst|discriminate].
      * left. eauto.
    + destruct (str_empty t2);
        [|unfold unknown_identifier, raise_with_int in H;
          destruct (int_to_str code); discriminate H].
      cbn [rbind] in H.
      destruct (wrap_message deadlines " " _) as [m|] eqn:Ew; [|discriminate].
      injection H as <- <-.
      destruct (wrap_message_list _ _ _ _ _ _ _ Ew) as (d & Hd & ->).
      exists d. split; [exact Hl|]. split; [exact Hd|]. left. now split.
  - cbn [from_binary MessageParser_with] in H.
    unfold MessageParser_from_binary in H.
    destruct (bytes_empty binary).
    { injection H as <- _. now left. }
    unfold PairParser_from_binary in H.
    destruct (from_binary (IdentifierParser types) binary) as [[first r]|]
      eqn:Ef; [|discriminate].
    cbn [rbind] in H.
    destruct (Hvb _ _ _ Ef) as (code & label & -> & Hl).
    right. exists code, label.
    destruct (second_parser second None (ByteData code (Some label)))
      as [p|] eqn:Es.
    + destruct (from_binary p r) as [[payload r']|] eqn:Ep; [|discriminate].
      cbn [rbind] in H.
      destruct (wrap_message deadlines " " _) as [m|] eqn:Ew; [|discriminate].
      injection H as <- <-.
      destruct (wrap_message_list _ _ _ _ _ _ _ Ew) as (d & Hd & ->).
      exists d. split; [exact Hl|]. split; [exact Hd|]. right.
      exists p, payload. split; [|split; [|reflexivity]].
      * unfold second_parser in Es. cbn [dict_key] in Es.
        destruct (second !! code) as [q|]; [now subst|discriminate].
      * right. eauto.
    + destruct (bytes_empty r);
        [|unfold unknown_identifier, raise_with_int in H;
          destruct (int_to_str code); discriminate H].
      cbn [rbind] in H.
      destruct (wrap_message deadlines " " _) as [m|] eqn:Ew; [|discriminate].
      injection H as <- <-.
      destruct (wrap_message_list _ _ _ _ _ _ _ Ew) as (d & Hd & ->).
      exists d. split; [exact Hl|]. split; [exact Hd|]. left. now split.
Qed.

Lemma wrap_message_found (deadlines : gmap Z (option pyfloat))
  (code : Z) (label : option string) (rest : list SpaceData) (sep sep' : string)
  (d : option pyfloat) :
  deadlines !! code = Some d ->
  wrap_message deadlines sep (ListData (ByteData code label :: rest) sep')
  = Return (MessageData (ByteData code label :: rest) sep d).
Proof.
  intros Hd. unfold wrap_message.
  cbn [getitem lookup list_lookup rbind dict_key]. now rewrite Hd.
Qed.

Lemma not_ping_label (types : IdentifierTable) (code : Z) (label : string) :
  forallb (fun '(code, label) => negb (String.eqb label SPACE_PING))
          (map_to_list (code_to_label types)) = true ->
  code_to_label types !! code = Some label ->
  String.eqb label SPACE_PING = false.
Proof.
  intros Hall Hl. rewrite forallb_forall in Hall.
  specialize (Hall (code, label)). cbv beta iota in Hall.
  apply negb_true_iff, Hall, list_elem_of_In, elem_of_map_to_list, Hl.
Qed.

Lemma not_ping_spaced (a b : string) :
  String.eqb (a +:+ String " " b) SPACE_PING = false.
Proof.
  destruct (String.eqb_spec (a +:+ String " " b) SPACE_PING) as [E|];
    [|reflexivity].
  assert (H : str_contains " " (a +:+ String " " b) = true).
  { rewrite str_contains_append. cbn [str_contains Ascii.eqb Bool.eqb].
    apply orb_true_r. }
  rewrite E in H. discriminate H.
Qed.

Section MessageRoundTrip.
Variable types : IdentifierTable.
Variable second : gmap Z (option SpaceParser).
Variable deadlines : gmap Z (option pyfloat).
Hypothesis types_ok : table_ok types = true.
Hypothesis types_not_ping :
  forallb (fun '(code, label) => negb (String.eqb label SPACE_PING))
          (map_to_list (code_to_label types)) = true.
Hypothesis second_catalog :
  forall code p, second !! code = Some (Some p) -> catalog_parser p.

Lemma message_text_round (V : SpaceData) :
  message_values types second deadlines V -> text_stable V = true ->
  exists t, to_text V = Return t
            /\ from_text (MessageParser_with (IdentifierParser types) None
                                             second deadlines " ") t
               = Return (V, EmptyString).
Proof.
  intros [->|(code & label & d & Hl & Hd & HV)] Hst.
  - exists SPACE_PING. split; reflexivity.
  - destruct (table_ok_spec types code label types_ok Hl)
      as (Hc & Hne & Hlab & Hlc).
    pose proof (label_word _ Hlab) as Hword.
    pose proof (not_ping_label types code label types_not_ping Hl) as Hnp.
    destruct HV as [[Hs ->]|(p & payload & Hp & Hacc & ->)].
    + exists label. split; [reflexivity|].
      cbn [from_text MessageParser_with]. unfold MessageParser_from_text.
      rewrite Hnp. unfold PairParser_from_text.
      rewrite (split_word_end _ Hword). cbn [rbind].
      change (from_text (IdentifierParser types) label)
        with (IdentifierParser_from_text types label).
      rewrite (identifier_from_text_label types code label label EmptyString
                 types_ok Hl (split_word_end _ Hword)).
      cbn [rbind str_empty negb]. rewrite Hs. cbn [str_empty rbind].
      now rewrite (wrap_message_found _ _ _ _ _ _ d Hd).
    + cbn [text_stable forallb] in Hst.
      apply andb_true_iff in Hst. destruct Hst as [_ Hst].
      apply andb_true_iff in Hst. destruct Hst as [Hsp _].
      destruct (catalog_shape p (second_catalog _ _ Hp)) as (sh & -> & Hsh).
      destruct (payload_text sh payload Hsh (accepted_values _ _ Hsh Hacc) Hsp)
        as (pt & Hpt & Hpp).
      exists (label +:+ String " " pt). split.
      { change (to_text (MessageData [ByteData code (Some label); payload]
                                     " " d))
          with (let* ts := texts_of [ByteData code (Some label); payload]
                in Return (join " " ts)).
        cbn [texts_of to_text]. cbn [rbind]. rewrite Hpt. reflexivity. }
      cbn [from_text MessageParser_with]. unfold MessageParser_from_text.
      rewrite not_ping_spaced. unfold PairParser_from_text.
      rewrite (split_word _ pt Hword). cbn [rbind].
      change (from_text (IdentifierParser types) label)
        with (IdentifierParser_from_text types label).
      rewrite (identifier_from_text_label types code label label EmptyString
                 types_ok Hl (split_word_end _ Hword)).
      cbn [rbind str_empty negb].
      unfold second_parser. cbn [dict_key]. rewrite Hp, Hpp. cbn [rbind].
      now rewrite (wrap_message_found _ _ _ _ _ _ d Hd).
Qed.

Lemma message_binary_round (V : SpaceData) :
  message_values types second deadlines V -> binary_stable V = true ->
  exists b, to_binary V = Return b
            /\ from_binary (MessageParser_with (IdentifierParser types) None
                                               second deadlines " ") b
               = Return (V, []).
Proof.
  intros [->|(code & label & d & Hl & Hd & HV)] Hst.
  - exists []. split; reflexivity.
  - destruct (table_ok_spec types code label types_ok Hl)
      as (Hc & Hne & Hlab & Hlc).
    destruct HV as [[Hs ->]|(p & payload & Hp & Hacc & ->)].
    + exists [byte_of code]. split.
      { change (to_binary (MessageData [ByteData code (Some label)] " " d))
          with (binary_of [ByteData code (Some label)]).
        cbn [binary_of]. rewrite byte_binary by exact Hc. reflexivity. }
      cbn [from_binary MessageParser_with].
      unfold MessageParser_from_binary. cbn [bytes_empty].
      unfold PairParser_from_binary.
      change (from_binary (IdentifierParser types))
        with (IdentifierParser_from_binary types).
      rewrite (identifier_from_binary_code types code label _ Hc Hl).
      cbn [rbind]. rewrite Hs. cbn [bytes_empty rbind].
      now rewrite (wrap_message_found _ _ _ _ _ _ d Hd).
    + cbn [binary_stable forallb] in Hst.
      apply andb_true_iff in Hst. destruct Hst as [_ Hst].
      apply andb_true_iff in Hst. destruct Hst as [Hsp _].
      destruct (catalog_shape p (second_catalog _ _ Hp)) as (sh & -> & Hsh).
      destruct (payload_binary sh payload Hsh (accepted_values _ _ Hsh Hacc)
                  Hsp) as (pb & Hpb & Hpp).
      exists (byte_of code :: pb). split.
      { change (to_binary (MessageData [ByteData code (Some label); payload]
                                       " " d))
          with (binary_of [ByteData code (Some label); payload]).
        cbn [binary_of]. rewrite byte_binary by exact Hc.
        cbn [rbind]. rewrite Hpb. cbn [rbind]. now rewrite app_nil_r. }
      cbn [from_binary MessageParser_with].
      unfold MessageParser_from_binary. cbn [bytes_empty].
      unfold PairParser_from_binary.
      change (from_binary (IdentifierParser types))
        with (IdentifierParser_from_binary types).
      rewrite (identifier_from_binary_code types code label _ Hc Hl).
      cbn [rbind]. unfold second_parser. cbn [dict_key].
      rewrite Hp, Hpp. cbn [rbind].
      now rewrite (wrap_message_found _ _ _ _ _ _ d Hd).
Qed.

End MessageRoundTrip.

(** X19: every message the tool accepts (from a command line or from the
    body of a frame) is rendered by [to_text] to a line that the message
    parser reads back to the same message, type, payload and deadline, with
    nothing left over, provided its float fields are reproduced by their
    [%g] text and its string fields are UTF-8 texts without both kinds of
    quote.  An alias typed on the command line comes back as the label. *)
Theorem wire_text_round_trip (V : SpaceData) :
  accepted message_parser V -> text_stable V = true ->
  exists t, to_text V = Return t
            /\ from_text message_parser t = Return (V, EmptyString).
Proof.
  destruct message_parser_structure as (second & deadlines & -> & Hsec).
  destruct message_types_ok as [Hok Hping].
  intros Hacc Hst.
  apply (message_text_round message_types second deadlines Hok Hping Hsec);
    [|exact Hst].
  now apply message_parser_values.
Qed.

(** X20: every message the tool accepts is rendered by [to_binary] to a
    body (the type byte followed by the payload, or nothing for a ping)
    that the message parser reads back to the same message with nothing
    left over, provided its float fields are binary32 numbers and its
    string fields hold no NUL byte. *)
Theorem wire_binary_round_trip (V : SpaceData) :
  accepted message_parser V -> binary_stable V = true ->
  exists b, to_binary V = Return b
            /\ from_binary message_parser b = Return (V, []).
Proof.
  destruct message_parser_structure as (second & deadlines & -> & Hsec).
  destruct message_types_ok as [Hok Hping].
  intros Hacc Hst.
  apply (message_binary_round message_types second deadlines Hok Hsec);
    [|exact Hst].
  now apply message_parser_values.
Qed.

Lemma wire_text_round_trip_witness :
  let V := MessageData
             [ByteData 0x20 (Some "tele");
              ListData [ByteData 13 (Some "discharge_voltage");
                        ByteData 4 (Some "vbus_voltage")] " "]
             " " (Some (float_lit "0.005")) in
  accepted message_parser V /\ text_stable V = true
  /\ exists t, to_text V = Return t
               /\ from_text message_parser t = Return (V, EmptyString).
Proof.
  intros V.
  assert (Hacc : accepted message_parser V).
  { left. exists "tele discharge_v vbus_v", EmptyString.
    vm_compute. reflexivity. }
  assert (Hst : text_stable V = true) by reflexivity.
  split; [exact Hacc|]. split; [exact Hst|].
  exact (wire_text_round_trip V Hacc Hst).
Defined.

Lemma wire_binary_round_trip_witness :
  let V := MessageData
             [ByteData 0x05 (Some "echo_ack");
              ListData [IntegerData 1 8 false; IntegerData 2 8 false] " "]
             " " None in
  accepted message_parser V /\ binary_stable V = true
  /\ exists b, to_binary V = Return b
               /\ from_binary message_parser b = Return (V, []).
Proof.
  intros V.
  assert (Hacc : accepted message_parser V).
  { right. exists [x05; x01; x02], []. vm_compute. reflexivity. }
  assert (Hst : binary_stable V = true) by reflexivity.
  split; [exact Hacc|]. split; [exact Hst|].
  exact (wire_binary_round_trip V Hacc Hst).
Defined.


(** *** The command lines of [flash_binary] *)

Lemma add_message_parsers_fold (commands : list SpaceCommand) :
  forall (first : SpaceParser) (default : option SpaceParser)
         (second : gmap Z (option SpaceParser))
         (deadlines : gmap Z (option pyfloat)) (sep : string),
    NoDup (message_codes commands) ->
    (forall code, code ∈ message_codes commands -> second !! code = None) ->
    add_message_parsers (MessageParser_with first default second deadlines sep)
                        commands
    = Return (MessageParser_with first default (second_of commands second)
                                 (deadlines_of commands deadlines) sep).
Proof.
  induction commands as [|c rest IH];
    intros first default second deadlines sep Hnd Hfresh.
  - reflexivity.
  - cbn [message_codes flat_map app] in Hnd, Hfresh.
    fold (message_codes rest) in Hnd, Hfresh.
    apply NoDup_cons in Hnd. destruct Hnd as [Hc Hnd].
    apply NoDup_cons in Hnd. destruct Hnd as [Hr Hnd].
    cbn [add_message_parsers]. unfold MessageParser_add at 1.
    cbn [attrs MessageParser_with].
    rewrite (Hfresh (command_code c)) by apply list_elem_of_here.
    cbn [rbind]. unfold MessageParser_add. cbn [attrs MessageParser_with].
    rewrite lookup_insert_ne
      by (intros E; apply Hc; rewrite E; apply list_elem_of_here).
    rewrite (Hfresh (reply_code c))
      by (apply list_elem_of_further, list_elem_of_here).
    cbn [rbind]. rewrite IH; [reflexivity|exact Hnd|].
    intros code Hin.
    rewrite lookup_insert_ne by (intros E; apply Hr; now rewrite E).
    rewrite lookup_insert_ne
      by (intros E; apply Hc; rewrite E; now apply list_elem_of_further).
    apply Hfresh. now do 2 apply list_elem_of_further.
Qed.

Lemma message_parser_eq :
  message_parser
  = MessageParser_with (IdentifierParser message_types) None
                       (second_of COMMANDS ∅) (deadlines_of COMMANDS ∅) " ".
Proof.
  unfold message_parser, get_message_parser.
  rewrite message_types_built. cbn [rbind]. unfold MessageParser.
  rewrite add_message_parsers_fold; [reflexivity|apply message_codes_distinct|].
  intros code _. apply lookup_empty.
Qed.

Lemma syspoke_registered :
  code_to_label message_types !! 0x0C = Some "syspoke"
  /\ second_of COMMANDS ∅ !! 0x0C = Some (Some (PairSp Int32_ (List_ Byte_)))
  /\ deadlines_of COMMANDS ∅ !! 0x0C = Some (Some (float_lit "0.020")).
Proof. repeat split; vm_compute; reflexivity. Qed.


Lemma hex_of_value (k : Z) :
  0 <= k < 16 ->
  is_lower_hex (hex_char k) = true
  /\ digit_value (hex_char k) = Some k
  /\ Ascii.eqb (hex_char k) "_" = false.
Proof.
  intros H.
  assert (E : k = 0 \/ k = 1 \/ k = 2 \/ k = 3 \/ k = 4 \/ k = 5 \/ k = 6
              \/ k = 7 \/ k = 8 \/ k = 9 \/ k = 10 \/ k = 11 \/ k = 12
              \/ k = 13 \/ k = 14 \/ k = 15) by lia.
  repeat destruct E as [->|E]; try subst k; repeat split; reflexivity.
Qed.

Lemma lower_hex_word (a : ascii) : is_lower_hex a = true -> word_char a = true.
Proof.
  destruct a as [b0 b1 b2 b3 b4 b5 b6 b7].
  destruct b0, b1, b2, b3, b4, b5, b6, b7; try discriminate; reflexivity.
Qed.

Lemma lower_hex_digit (a : ascii) :
  is_lower_hex a = true ->
  Ascii.eqb a "_" = false
  /\ exists v, digit_value a = Some v /\ 0 <= v < 16.
Proof.
  destruct a as [b0 b1 b2 b3 b4 b5 b6 b7].
  destruct b0, b1, b2, b3, b4, b5, b6, b7; try discriminate; intros _;
    (split; [reflexivity|]); eexists; (split; [vm_compute; reflexivity|]);
    lia.
Qed.

Lemma hex_digits_scan (fuel : nat) : forall (n : Z) (acc : string),
  0 <= n -> (Z.to_nat (Z.log2 n) < fuel)%nat ->
  exists (d : ascii) (ds : string) (k : Z),
    hex_digits fuel n acc = String d (ds +:+ acc)
    /\ is_lower_hex d = true /\ str_forall is_lower_hex ds = true /\ 0 <= k
    /\ forall prev a rest,
         scan_digits 16 prev a (String d (ds +:+ rest))
         = scan_digits 16 (Some true) (a * 16 ^ k + n) rest.
Proof.
  induction fuel as [|fuel IH]; intros n acc Hn Hf; [lia|].
  cbn [hex_digits].
  assert (Hm : 0 <= n mod 16 < 16) by (apply Z.mod_pos_bound; lia).
  destruct (hex_of_value _ Hm) as (Hd & Hv & Hu).
  destruct (n <? 16) eqn:E.
  - apply Z.ltb_lt in E. rewrite Z.mod_small in * by lia.
    exists (hex_char n), EmptyString, 1. repeat split; try easy.
    intros prev a rest. rewrite append_nil_l. cbn [scan_digits].
    rewrite Hu, Hv.
    assert (L : (n <? 16) = true) by (apply Z.ltb_lt; lia). rewrite L.
    f_equal. lia.
  - apply Z.ltb_ge in E.
    assert (Hq : 0 <= n / 16) by (apply Z.div_pos; lia).
    assert (Hl : (Z.to_nat (Z.log2 (n / 16)) < fuel)%nat).
    { assert (Z.log2 (n / 16) < Z.log2 n).
      { assert (1 <= n / 16) by (apply Z.div_le_lower_bound; lia).
        assert (Hs := Z.log2_spec n ltac:(lia)).
        rewrite Z.pow_succ_r in Hs by apply Z.log2_nonneg.
        apply Z.log2_lt_pow2; [lia|].
        apply Z.div_lt_upper_bound; lia. }
      assert (0 <= Z.log2 (n / 16)) by apply Z.log2_nonneg. lia. }
    destruct (IH (n / 16) (String (hex_char (n mod 16)) acc) Hq Hl)
      as (d & ds & k & Heq & Hdd & Hds & Hk & Hscan).
    exists d, (ds +:+ String (hex_char (n mod 16)) EmptyString), (k + 1).
    repeat split.
    + rewrite Heq. f_equal. rewrite append_assoc. reflexivity.
    + exact Hdd.
    + rewrite str_forall_append, Hds. cbn [str_forall]. now rewrite Hd.
    + lia.
    + intros prev a rest. rewrite append_assoc, append_cons, append_nil_l.
      rewrite Hscan. cbn [scan_digits]. rewrite Hu, Hv.
      assert (L : (n mod 16 <? 16) = true) by (apply Z.ltb_lt; lia).
      rewrite L. f_equal. rewrite Z.pow_add_r by lia.
      rewrite (Z.div_mod n 16) at 3 by lia. ring.
Qed.

Lemma scan_zero_pad (m : nat) (d : ascii) (ds : string) :
  is_lower_hex d = true ->
  forall prev,
    scan_digits 16 prev 0 (zero_pad m (String d ds))
    = scan_digits 16 None 0 (String d ds).
Proof.
  intros Hd. destruct (lower_hex_digit d Hd) as (Hu & v & Hv & Hr).
  induction m as [|m IH]; intros prev.
  - cbn [zero_pad scan_digits]. rewrite Hu, Hv. reflexivity.
  - cbn [zero_pad]. cbn [scan_digits Ascii.eqb Bool.eqb].
    change (digit_value "0") with (Some 0). cbn [Z.ltb Z.compare].
    apply IH.
Qed.

Lemma zero_pad_lower_hex (m : nat) (s : string) :
  str_forall is_lower_hex s = true ->
  str_forall is_lower_hex (zero_pad m s) = true.
Proof. apply str_forall_zero_pad. reflexivity. Qed.

Lemma lower_hex_not_prefixed (s : string) :
  str_forall is_lower_hex s = true ->
  startswith "0x" s || startswith "0X" s = false.
Proof.
  destruct s as [|a [|b s]]; try reflexivity.
  - cbn [startswith]. now rewrite !andb_false_r.
  - cbn [str_forall startswith]. intros H.
    apply andb_true_iff in H. destruct H as [_ H].
    apply andb_true_iff in H. destruct H as [Hb _].
    rewrite !andb_true_r.
    destruct (Ascii.eqb_spec "x" b) as [<-|_]; [discriminate|].
    destruct (Ascii.eqb_spec "X" b) as [<-|_]; [discriminate|].
    now rewrite !andb_false_r.
Qed.

Lemma py_int_base_lower_hex (d : ascii) (ds : string) :
  is_lower_hex d = true -> str_forall is_lower_hex ds = true ->
  py_int_base 16 (String d ds) = scan_digits 16 None 0 (String d ds).
Proof.
  intros Hd Hds.
  assert (Hall : str_forall is_lower_hex (String d ds) = true).
  { cbn [str_forall]. now rewrite Hd, Hds. }
  unfold py_int_base.
  rewrite number_strip_word
    by (apply (str_forall_impl is_lower_hex); [apply lower_hex_word|exact Hall]).
  assert (Hsign : (match String d ds with
                   | String "-" s' => (true, s')
                   | String "+" s' => (false, s')
                   | _ => (false, String d ds)
                   end) = (false, String d ds)).
  { clear Hall Hds. destruct d as [b0 b1 b2 b3 b4 b5 b6 b7].
    destruct b0, b1, b2, b3, b4, b5, b6, b7; try discriminate Hd;
      reflexivity. }
  rewrite Hsign. rewrite (lower_hex_not_prefixed _ Hall), andb_false_r.
  change ((16 =? 10) && _) with false.
  destruct (scan_digits 16 None 0 (String d ds)); reflexivity.
Qed.

Lemma py_hex08_parse (n : Z) :
  0 <= n ->
  py_int_base 16 (py_hex08 n) = Some n
  /\ str_forall word_char (py_hex08 n) = true.
Proof.
  intros Hn. unfold py_hex08.
  destruct (hex_digits_scan (S (Z.to_nat (Z.log2 n))) n EmptyString Hn)
    as (d & ds & k & Heq & Hd & Hds & Hk & Hscan); [lia|].
  rewrite append_nil_r in Heq. rewrite Heq.
  set (m := (8 - String.length (String d ds))%nat).
  assert (Hall : str_forall is_lower_hex (String d ds) = true).
  { cbn [str_forall]. now rewrite Hd, Hds. }
  pose proof (zero_pad_lower_hex m _ Hall) as Hpad.
  split.
  - destruct (zero_pad m (String d ds)) as [|d' ds'] eqn:Ez.
    { destruct m; discriminate Ez. }
    cbn [str_forall] in Hpad. apply andb_true_iff in Hpad.
    destruct Hpad as [Hd' Hds'].
    rewrite py_int_base_lower_hex by assumption.
    rewrite <- Ez, scan_zero_pad by exact Hd.
    specialize (Hscan None 0 EmptyString). rewrite append_nil_r in Hscan.
    rewrite Hscan. reflexivity.
  - apply (str_forall_impl is_lower_hex); [apply lower_hex_word|exact Hpad].
Qed.


Lemma int32_from_hex (a : Z) (text rest : string) :
  0 <= a < 2 ^ 32 ->
  split_sep " " text = Return ("0x" +:+ py_hex08 a, rest) ->
  IntegerParser_from_text 32 false " " text
  = Return (IntegerData a 32 false, rest).
Proof.
  intros Ha Hs. unfold IntegerParser_from_text. rewrite Hs.
  cbv beta iota delta [rbind].
  change ("0x" +:+ py_hex08 a) with (String "0" (String "x" (py_hex08 a))).
  cbn [startswith Ascii.eqb Bool.eqb andb orb str_drop].
  rewrite (proj1 (py_hex08_parse a (proj1 Ha))). cbn [andb].
  rewrite init_in_range; [reflexivity|lia|].
  unfold int_min, int_max. lia.
Qed.

Lemma byte_texts (piece : bytes) :
  Forall2 (fun V t =>
             t <> EmptyString /\ str_forall line_char t = true
             /\ from_text Byte_ t = Return (V, EmptyString)
             /\ forall rest, str_forall line_char rest = true ->
                  from_text Byte_ (t +:+ String " " rest) = Return (V, rest))
          (map (fun x => IntegerData (byte_val x) 8 false) piece)
          (map (fun x => py_str (byte_val x)) piece).
Proof.
  induction piece as [|x piece IH]; cbn [map]; constructor; [|exact IH].
  assert (Hv : values (SInteger 8 false) (IntegerData (byte_val x) 8 false)).
  { exists (byte_val x). split; [reflexivity|].
    pose proof (byte_val_range x). unfold int_min, int_max.
    change (2 ^ 8) with 256. lia. }
  destruct (key_text (SInteger 8 false) _ eq_refl Hv)
    as (t & ((Ht & Hp) & Hne & Hl & Hr) & _).
  rewrite integer_to_text in Ht.
  2:{ apply word_below_limit. pose proof (byte_val_range x). lia. }
  injection Ht as <-.
  repeat split; assumption.
Qed.

Lemma byte_list_from_text (piece : bytes) :
  from_text (List_ Byte_) (join " " (map (fun x => py_str (byte_val x)) piece))
  = Return (ListData (map (fun x => IntegerData (byte_val x) 8 false) piece)
                     " ", EmptyString).
Proof.
  destruct (list_loop_text (from_text Byte_) false _ _ (byte_texts piece))
    as (_ & Hlen & Hloop).
  cbn [from_text List_ ListParser]. unfold ListParser_from_text.
  rewrite Hloop by exact Hlen. reflexivity.
Qed.

Lemma byte_list_to_binary (piece : bytes) :
  binary_of (map (fun x => IntegerData (byte_val x) 8 false) piece)
  = Return piece.
Proof.
  induction piece as [|x piece IH]; [reflexivity|].
  cbn [map binary_of]. rewrite IH.
  assert (H : to_binary (IntegerData (byte_val x) 8 false) = Return [x]).
  { rewrite <- (byte_of_val x) at 2.
    apply (byte_binary (byte_val x) None).
    pose proof (byte_val_range x). lia. }
  rewrite H. reflexivity.
Qed.

(** X21: the command line [flash_binary] builds for a piece of an image,
    [syspoke 0x<address + offset as 8 hex digits> b1 b2 ...], is read by the
    message parser of the tool as the [syspoke] message with exactly that
    address and exactly the bytes of the piece, and the body this message
    is encoded to is the type byte [0x0C], the address as four bytes, least
    significant first, and the piece itself. *)
Theorem flash_command_parses (addr : Z) (piece : bytes) :
  0 <= addr < 2 ^ 32 ->
  let command := "syspoke 0x" +:+ py_hex08 addr +:+ " "
                 +:+ join " " (map (fun x => py_str (byte_val x)) piece) in
  let message :=
    MessageData
      [ByteData 0x0C (Some "syspoke");
       ListData [IntegerData addr 32 false;
                 ListData (map (fun x => IntegerData (byte_val x) 8 false)
                               piece) " "] " "]
      " " (Some (float_lit "0.020")) in
  from_text message_parser command = Return (message, EmptyString)
  /\ to_binary message = Return (x0c :: le_bytes 4 addr ++ piece).
Proof.
  intros Ha command message.
  destruct syspoke_registered as (Hl & Hs & Hd).
  destruct message_types_ok as [Hok _].
  destruct (py_hex08_parse addr (proj1 Ha)) as [_ Hword].
  split.
  - rewrite message_parser_eq. cbn [from_text MessageParser_with].
    unfold MessageParser_from_text, command.
    change ("syspoke 0x" +:+ ?x) with ("syspoke" +:+ String " " ("0x" +:+ x)).
    rewrite not_ping_spaced. unfold PairParser_from_text.
    rewrite split_word by reflexivity. cbn [rbind].
    change (from_text (IdentifierParser message_types) "syspoke")
      with (IdentifierParser_from_text message_types "syspoke").
    rewrite (identifier_from_text_label message_types 0x0C "syspoke" "syspoke"
               EmptyString Hok Hl eq_refl).
    cbn [rbind str_empty negb]. unfold second_parser. cbn [dict_key].
    rewrite Hs.
    change (("0x" +:+ py_hex08 addr +:+ " " +:+ ?x))
      with (("0x" +:+ py_hex08 addr) +:+ String " " x)
      || rewrite <- append_assoc.
    change (PairSp Int32_ (List_ Byte_))
      with (PairParser Int32_ (Some (List_ Byte_)) " ").
    rewrite (pair_from_text Int32_ (List_ Byte_) " "
               (IntegerData addr 32 false)
               (ListData (map (fun x => IntegerData (byte_val x) 8 false)
                              piece) " ")
               ("0x" +:+ py_hex08 addr) _ EmptyString).
    + cbn [rbind]. now rewrite (wrap_message_found _ _ _ _ _ _ _ Hd).
    + apply word_no_space.
      change ("0x" +:+ py_hex08 addr)
        with (String "0" (String "x" (py_hex08 addr))).
      cbn [str_forall]. now rewrite Hword.
    + apply int32_from_hex; [exact Ha|]. apply split_word_end.
      change ("0x" +:+ py_hex08 addr)
        with (String "0" (String "x" (py_hex08 addr))).
      cbn [str_forall]. now rewrite Hword.
    + apply byte_list_from_text.
  - assert (Hi : to_binary (IntegerData addr 32 false)
                = Return (le_bytes 4 addr)).
    { cbn [to_binary]. change (struct_format 32 false)
        with (@Return (nat * bool) (4%nat, false)). cbn [rbind].
      unfold struct_pack. change (8 * Z.of_nat 4) with 32.
      assert (Hr : (0 <=? addr) && (addr <=? 2 ^ 32 - 1) = true).
      { apply andb_true_iff. split; apply Z.leb_le; lia. }
      now rewrite Hr, Z.mod_small by lia. }
    change (to_binary message)
      with (binary_of
              [ByteData 0x0C (Some "syspoke");
               ListData [IntegerData addr 32 false;
                         ListData (map (fun x => IntegerData (byte_val x) 8
                                                             false) piece)
                                  " "] " "]).
    cbn [binary_of]. rewrite byte_binary by lia. cbn [rbind].
    rewrite to_binary_ListData. cbn [binary_of]. rewrite Hi. cbn [rbind].
    rewrite to_binary_ListData, byte_list_to_binary. cbn [rbind].
    rewrite !app_nil_r. reflexivity.
Qed.

Lemma flash_command_parses_witness :
  0 <= 0x80008040 < 2 ^ 32
  /\ from_text message_parser "syspoke 0x80008040 1 2 255"
     = Return
         (MessageData
            [ByteData 0x0C (Some "syspoke");
             ListData [IntegerData 0x80008040 32 false;
                       ListData [IntegerData 1 8 false; IntegerData 2 8 false;
                                 IntegerData 255 8 false] " "] " "]
            " " (Some (float_lit "0.020")), EmptyString).
Proof.
  assert (Ha : 0 <= 0x80008040 < 2 ^ 32) by lia.
  split; [exact Ha|].
  exact (proj1 (flash_command_parses 0x80008040 [x01; x02; xff] Ha)).
Defined.


Lemma syspoke_ack_registered :
  code_to_label message_types !! 0x0D = Some "syspoke_ack"
  /\ second_of COMMANDS ∅ !! 0x0D = Some (Some (PairSp Int32_ Byte_))
  /\ deadlines_of COMMANDS ∅ !! 0x0D = Some None.
Proof. repeat split; vm_compute; reflexivity. Qed.

Lemma integer_from_binary_bytes (bits : Z) (signed : bool) (v : Z)
  (sep : string) (b rest : bytes) :
  width_ok bits = true -> int_min bits signed <= v <= int_max bits signed ->
  to_binary (IntegerData v bits signed) = Return b ->
  from_binary (IntegerParser bits signed sep) (b ++ rest)
  = Return (IntegerData v bits signed, rest).
Proof.
  intros Hw Hv Hb.
  destruct (integer_binary bits signed v Hw Hv) as (b' & Hb' & _ & Hp).
  rewrite Hb in Hb'. injection Hb' as <-. apply Hp.
Qed.

(** X22: the acknowledgement of a [syspoke], the body [0x0D], the address
    as four bytes, least significant first, and the number of bytes
    written, is read by the message parser as a [syspoke_ack] message whose
    text is exactly the reply [flash_binary] expects for the piece:
    [syspoke_ack <address in decimal> <length>]. *)
Theorem flash_ack_expected (addr len : Z) :
  0 <= addr < 2 ^ 32 -> 0 <= len <= 255 ->
  let ack :=
    MessageData
      [ByteData 0x0D (Some "syspoke_ack");
       ListData [IntegerData addr 32 false; IntegerData len 8 false] " "]
      " " None in
  from_binary message_parser (x0d :: le_bytes 4 addr ++ [byte_of len])
  = Return (ack, [])
  /\ to_text ack
     = Return ("syspoke_ack " +:+ py_str addr +:+ " " +:+ py_str len).
Proof.
  intros Ha Hlen ack.
  destruct syspoke_ack_registered as (Hl & Hs & Hd).
  split.
  2:{ unfold ack. cbn [to_text rbind].
      rewrite (int_to_str_small addr), (int_to_str_small len)
        by (apply word_below_limit; lia).
      reflexivity. }
  assert (Hi : to_binary (IntegerData addr 32 false)
               = Return (le_bytes 4 addr)).
  { cbn [to_binary]. change (struct_format 32 false)
      with (@Return (nat * bool) (4%nat, false)). cbn [rbind].
    unfold struct_pack. change (8 * Z.of_nat 4) with 32.
    assert (Hr : (0 <=? addr) && (addr <=? 2 ^ 32 - 1) = true).
    { apply andb_true_iff. split; apply Z.leb_le; lia. }
    now rewrite Hr, Z.mod_small by lia. }
  assert (Hn : to_binary (IntegerData len 8 false) = Return [byte_of len])
    by (apply (byte_binary len None); lia).
  rewrite message_parser_eq. cbn [from_binary MessageParser_with].
  unfold MessageParser_from_binary. cbn [bytes_empty].
  unfold PairParser_from_binary.
  change (from_binary (IdentifierParser message_types))
    with (IdentifierParser_from_binary message_types).
  change x0d with (byte_of 0x0D).
  rewrite (identifier_from_binary_code message_types 0x0D "syspoke_ack" _
             ltac:(lia) Hl).
  cbn [rbind]. unfold second_parser. cbn [dict_key]. rewrite Hs.
  change (PairSp Int32_ Byte_) with (PairParser Int32_ (Some Byte_) " ").
  rewrite (pair_from_binary Int32_ Byte_ " " (IntegerData addr 32 false)
             (IntegerData len 8 false) (le_bytes 4 addr) [byte_of len] []).
  - cbn [rbind]. now rewrite (wrap_message_found _ _ _ _ _ _ _ Hd).
  - apply integer_from_binary_bytes; [reflexivity| |exact Hi].
    unfold int_min, int_max. lia.
  - rewrite <- (app_nil_r [byte_of len]).
    apply integer_from_binary_bytes; [reflexivity| |exact Hn].
    unfold int_min, int_max. change (2 ^ 8) with 256. lia.
Qed.

Lemma flash_ack_expected_witness :
  0 <= 0x80008000 < 2 ^ 32 /\ 0 <= 64 <= 255
  /\ to_text
       (MessageData
          [ByteData 0x0D (Some "syspoke_ack");
           ListData [IntegerData 0x80008000 32 false;
                     IntegerData 64 8 false] " "] " " None)
     = Return ("syspoke_ack " +:+ py_str 0x80008000 +:+ " " +:+ py_str 64).
Proof.
  assert (Ha : 0 <= 0x80008000 < 2 ^ 32) by lia.
  assert (Hl : 0 <= 64 <= 255) by lia.
  split; [exact Ha|]. split; [exact Hl|].
  exact (proj2 (flash_ack_expected 0x80008000 64 Ha Hl)).
Defined.


(** *** The device address *)

(** X23: [device_address] accepts exactly the texts [int] reads as a number
    from 0 to 15.  Every address it returns is admitted by
    [SpaceProtocol.__init__], and leaves the direction nibble of the
    address byte intact ([0xA0 | a = 0xA0 + a], [0xB0 | a = 0xB0 + a]);
    the decimal text of an address from 0 to 15 is read back as that
    address. *)
Theorem device_address_admitted (text : string) (a : Z) :
  device_address text = Some a ->
  py_int text = Some a /\ 0 <= a <= 15
  /\ (forall port parser debug,
        SpaceProtocol_init port a parser debug
        = Return {| address := a; parser := parser; debug := debug;
                    _status := None; serial := port |})
  /\ Z.lor 0xA0 a = 0xA0 + a /\ Z.lor 0xB0 a = 0xB0 + a
  /\ device_address (py_str a) = Some a.
Proof.
  unfold device_address. intros H.
  destruct (py_int text) as [a'|]; [|discriminate H].
  destruct ((0 <=? a') && (a' <=? 15)) eqn:Er; [|discriminate H].
  injection H as <-. split; [reflexivity|].
  pose proof Er as Er'.
  apply andb_true_iff in Er. destruct Er as [E1 E2].
  apply Z.leb_le in E1, E2. split; [lia|]. split.
  { intros port parser debug. unfold SpaceProtocol_init.
    change 0x00 with 0. change 0x0F with 15. now rewrite Er'. }
  assert (Hc : a' = 0 \/ a' = 1 \/ a' = 2 \/ a' = 3 \/ a' = 4 \/ a' = 5
               \/ a' = 6 \/ a' = 7 \/ a' = 8 \/ a' = 9 \/ a' = 10 \/ a' = 11
               \/ a' = 12 \/ a' = 13 \/ a' = 14 \/ a' = 15) by lia.
  split; [|split].
  - repeat (destruct Hc as [->|Hc]; [reflexivity|]). subst. reflexivity.
  - repeat (destruct Hc as [->|Hc]; [reflexivity|]). subst. reflexivity.
  - rewrite py_int_py_str by (apply word_below_limit; lia).
    now rewrite Er'.
Qed.

Lemma device_address_admitted_witness :
  device_address " 0_7 " = Some 7
  /\ py_int " 0_7 " = Some 7 /\ device_address (py_str 7) = Some 7.
Proof.
  assert (H : device_address " 0_7 " = Some 7) by reflexivity.
  destruct (device_address_admitted " 0_7 " 7 H) as (H1 & _ & _ & _ & _ & H2).
  split; [exact H|]. split; [exact H1|exact H2].
Defined.

(** *** Scripts *)

Lemma split_lines_line (l rest : string) :
  str_forall line_char l = true ->
  split_lines (l +:+ LF +:+ rest) = l :: split_lines rest.
Proof.
  induction l as [|a l IH]; [reflexivity|].
  cbn [str_forall]. intros H. apply andb_true_iff in H. destruct H as [Ha Hl].
  rewrite append_cons. cbn [split_lines]. rewrite (IH Hl).
  unfold line_char in Ha. apply negb_true_iff in Ha. now rewrite Ha.
Qed.

(** X24: [run_script] runs the lines of a script in order, each on the
    session the previous one left.  A line that raises a [SpaceError] (or a
    subclass) ends the script there: the lines after it are not run and
    the error is not passed on.  Any exception [run_script] does pass on is
    therefore not a [SpaceError]. *)
Theorem run_script_aborts (rl : run_line_t) (logged : bool) :
  (forall l rest s r s1,
     str_forall line_char l = true ->
     rl l true logged s = (Return r, s1) ->
     run_script_with rl (l +:+ LF +:+ rest) logged s
     = run_script_with rl rest logged s1)
  /\ (forall l rest s e s1,
        str_forall line_char l = true ->
        rl l true logged s = (Raise e, s1) ->
        is_space_error e = true ->
        run_script_with rl (l +:+ LF +:+ rest) logged s = (Return tt, s1))
  /\ (forall script s e s',
        run_script_with rl script logged s = (Raise e, s') ->
        is_space_error e = false).
Proof.
  split; [|split].
  - intros l rest s r s1 Hl Hr. unfold run_script_with, try_except.
    rewrite (split_lines_line _ _ Hl). cbn [for_each].
    unfold bind at 1. unfold bind at 1. rewrite Hr. reflexivity.
  - intros l rest s e s1 Hl Hr He. unfold run_script_with, try_except.
    rewrite (split_lines_line _ _ Hl). cbn [for_each].
    unfold bind at 1. unfold bind at 1. rewrite Hr, He. reflexivity.
  - intros script s e s' H. unfold run_script_with, try_except in H.
    destruct (for_each _ _ s) as [[u|e'] s1]; [discriminate H|].
    destruct (is_space_error e') eqn:He; [discriminate H|].
    now injection H as <- _.
Qed.

Lemma run_script_aborts_witness :
  let s := {| base := {| address := 5; parser := Parser (fun _ => Raise ParseError)
                                          (fun _ => Raise ParseError) NoAttrs;
                         debug := false;
                         _status := None;
                         serial := {| written := []; incoming := [] |} |};
              logfile := []; macros := ∅; echo := true; telemetry := ∅;
              world := empty_world |} in
  run_script 3 ("bogus" +:+ LF +:+ "1.5") false s = (Return tt, s).
Proof.
  intros s.
  assert (Hr : run_line 3 "bogus" true false s = (Raise ParseError, s))
    by (vm_compute; reflexivity).
  destruct (run_script_aborts (run_line 3) false) as (_ & H & _).
  exact (H "bogus" "1.5" s ParseError s eq_refl Hr eq_refl).
Defined.

(** *** The telemetry dictionary *)

Lemma store_fields (fields : list SpaceData)
  (entries : list (option string * SpaceData)) :
  telemetry_fields fields entries ->
  forall s,
    fst (for_each fields store_field s) = Return tt
    /\ telemetry (snd (for_each fields store_field s))
       = store_all entries (telemetry s).
Proof.
  induction 1 as [|f [label value] fields entries (c & sep & ->) _ IH];
    intros s.
  - split; reflexivity.
  - cbn [for_each fst snd].
    assert (E : bind (store_field (ListData [ByteData c label; value] sep))
                     (fun _ => for_each fields store_field) s
                = for_each fields store_field
                    (set_telemetry (<[label := data_value value]>
                                      (telemetry s)) s)) by reflexivity.
    rewrite E. destruct (IH (set_telemetry
                               (<[label := data_value value]>
                                  (telemetry s)) s)) as [H1 H2].
    split; [exact H1|]. rewrite H2. reflexivity.
Qed.

Lemma store_all_other (entries : list (option string * SpaceData))
  (t : gmap (option string) pyvalue) (label : option string) :
  label ∉ entries.*1 -> store_all entries t !! label = t !! label.
Proof.
  revert t. induction entries as [|[l v] entries IH]; intros t Hn.
  - reflexivity.
  - cbn [store_all fold_left]. fold (store_all entries).
    rewrite fmap_cons in Hn. cbn [fst] in Hn.
    apply not_elem_of_cons in Hn as [Hne Hn].
    rewrite (IH _ Hn). now rewrite lookup_insert_ne by congruence.
Qed.

Lemma store_all_last (pre post : list (option string * SpaceData))
  (t : gmap (option string) pyvalue) (label : option string)
  (value : SpaceData) :
  label ∉ post.*1 ->
  store_all (pre ++ (label, value) :: post) t !! label
  = Some (data_value value).
Proof.
  intros Hn. unfold store_all. rewrite fold_left_app. cbn [fold_left].
  fold (store_all post). rewrite (store_all_other _ _ _ Hn).
  now rewrite lookup_insert_eq.
Qed.

Lemma same_telemetry_refl (s : LoggingSpaceProtocol) : same_telemetry s s.
Proof. reflexivity. Qed.

Lemma same_telemetry_trans (a b c : LoggingSpaceProtocol) :
  same_telemetry a b -> same_telemetry b c -> same_telemetry a c.
Proof. unfold same_telemetry. congruence. Qed.

Lemma same_telemetry_log (text : string) :
  within same_telemetry (write_log text).
Proof. intros s. reflexivity. Qed.

Lemma same_telemetry_timestamp : within same_telemetry timestamp.
Proof. intros s. unfold timestamp. destruct (clock (world s)); reflexivity. Qed.

Lemma same_telemetry_send (command : SpaceData) (deadline : option pyfloat) :
  within same_telemetry (super_send_message command deadline).
Proof.
  intros s. unfold super_send_message.
  destruct (send_message (base s) command deadline). reflexivity.
Qed.

Lemma within_lift_bind (R : LoggingSpaceProtocol -> LoggingSpaceProtocol -> Prop)
  {A B : Type} (a : A) (k : A -> M B) :
  within R (k a) -> within R (bind (lift (Return a)) k).
Proof. intros H s. exact (H s). Qed.

Ltac same_step :=
  first
    [ apply (within_ret same_telemetry same_telemetry_refl)
    | apply (within_raise same_telemetry same_telemetry_refl)
    | apply (within_lift same_telemetry same_telemetry_refl)
    | apply (within_gets same_telemetry same_telemetry_refl)
    | apply same_telemetry_log | apply same_telemetry_timestamp
    | apply same_telemetry_send
    | apply (within_bind same_telemetry same_telemetry_trans); [|intros ?]
    | apply (within_when same_telemetry same_telemetry_refl)
    | match goal with
      | |- within same_telemetry (match ?x with _ => _ end) => destruct x
      end ].

(** The end of [send_message]: the output is logged and the reply
    returned. *)
Lemma logged_tail_result (block : M string) (logged : bool)
  (reply : option SpaceData) (s : LoggingSpaceProtocol) :
  match bind block (fun output =>
          bind (when logged (write_log output)) (fun _ => ret reply)) s with
  | (Return r, _) => r = reply
  | (Raise _, _) => True
  end.
Proof.
  unfold bind. destruct (block s) as [[output|e] s1]; [|exact I].
  destruct logged; reflexivity.
Qed.

Lemma logged_tail_same (block : M string) (logged : bool)
  (reply : option SpaceData) :
  within same_telemetry block ->
  within same_telemetry
    (bind block (fun output =>
       bind (when logged (write_log output)) (fun _ => ret reply))).
Proof. intros H. repeat same_step. exact H. Qed.

Lemma send_message_telemetry (command : SpaceData) (logged : bool)
  (deadline : option pyfloat) (s : LoggingSpaceProtocol) :
  match LoggingSpaceProtocol_send_message command logged deadline s with
  | (Return None, s') => telemetry s' = telemetry s
  | (Return (Some reply), s') =>
      is_telemetry_reply reply = Return false -> telemetry s' = telemetry s
  | (Raise _, _) => True
  end.
Proof.
  unfold LoggingSpaceProtocol_send_message.
  match goal with
  | |- context [bind ?m ?k s] =>
      assert (Hpre : within same_telemetry m) by (repeat same_step);
      change (bind m k s)
        with (match m s with
              | (Return a, s') => k a s'
              | (Raise e, s') => (Raise e, s')
              end);
      specialize (Hpre s); destruct (m s) as [[u|e] s1]; [|exact I]
  end.
  cbn [snd] in Hpre. cbv beta iota.
  match goal with
  | |- context [bind ?m ?k s1] =>
      assert (Hsend : within same_telemetry m) by (repeat same_step);
      change (bind m k s1)
        with (match m s1 with
              | (Return a, s') => k a s'
              | (Raise e, s') => (Raise e, s')
              end);
      specialize (Hsend s1); destruct (m s1) as [[reply|e] s2]; [|exact I]
  end.
  cbn [snd] in Hsend. cbv beta iota.
  assert (H12 : telemetry s2 = telemetry s)
    by (unfold same_telemetry in *; congruence).
  destruct reply as [reply|].
  - destruct (is_telemetry_reply reply) as [[|]|] eqn:E.
    + match goal with
      | |- context [bind ?block ?k s2] =>
          pose proof (logged_tail_result block logged (Some reply) s2) as Hres;
          destruct (bind block k s2) as [[r|e'] s3]; [|exact I]
      end.
      cbv beta iota in Hres. subst r. cbv beta iota.
      intros Hfalse. rewrite E in Hfalse. discriminate Hfalse.
    + match goal with
      | |- context [bind ?block ?k s2] =>
          pose proof (logged_tail_result block logged (Some reply) s2) as Hres;
          assert (Hw : within same_telemetry block)
            by (cbv zeta;
                repeat first
                  [ match goal with
                    | |- within _ (bind (lift (Return false)) _) =>
                        apply within_lift_bind; cbv beta
                    end
                  | same_step ]);
          specialize (logged_tail_same block logged (Some reply) Hw s2)
            as Hsame;
          destruct (bind block k s2) as [[r|e'] s3]; [|exact I]
      end.
      cbv beta iota in Hres. subst r. cbv beta iota. intros _.
      cbn [snd] in Hsame. unfold same_telemetry in Hsame. congruence.
    + match goal with
      | |- context [bind ?block ?k s2] =>
          pose proof (logged_tail_result block logged (Some reply) s2) as Hres;
          destruct (bind block k s2) as [[r|e'] s3]; [|exact I]
      end.
      cbv beta iota in Hres. subst r. cbv beta iota.
      intros Hfalse. rewrite E in Hfalse. discriminate Hfalse.
  - match goal with
    | |- context [bind ?block ?k s2] =>
        pose proof (logged_tail_result block logged None s2) as Hres;
        assert (Hw : within same_telemetry block) by (repeat same_step);
        specialize (logged_tail_same block logged None Hw s2) as Hsame;
        destruct (bind block k s2) as [[r|e'] s3]; [|exact I]
    end.
    cbv beta iota in Hres. subst r. cbv beta iota. cbn [snd] in Hsame.
    unfold same_telemetry in Hsame. congruence.
Qed.

(** The end of [send_message] after the block that builds the output: it
    raises what the block raises, and otherwise returns the reply, with the
    telemetry the block left. *)
Lemma logged_tail (block : M string) (logged : bool)
  (reply : option SpaceData) (s : LoggingSpaceProtocol) :
  match block s with
  | (Return _, s1) =>
      exists s',
        bind block (fun output =>
          bind (when logged (write_log output)) (fun _ => ret reply)) s
        = (Return reply, s')
        /\ telemetry s' = telemetry s1
  | (Raise e, s1) =>
      bind block (fun output =>
        bind (when logged (write_log output)) (fun _ => ret reply)) s
      = (Raise e, s1)
  end.
Proof.
  unfold bind. destruct (block s) as [[output|e] s1]; [|reflexivity].
  destruct logged; eexists; split; reflexivity.
Qed.

Lemma send_message_stores (command : SpaceData) (logged : bool)
  (deadline : option pyfloat) (s : LoggingSpaceProtocol) :
  match LoggingSpaceProtocol_send_message command logged deadline s with
  | (Return (Some reply), s') =>
      forall r1 fields entries,
        is_telemetry_reply reply = Return true ->
        getitem reply 1 = Return r1 ->
        (exists sep, r1 = ListData fields sep)
        \/ (exists sep d, r1 = MessageData fields sep d) ->
        telemetry_fields fields entries ->
        telemetry s' = store_all entries (telemetry s)
  | _ => True
  end.
Proof.
  unfold LoggingSpaceProtocol_send_message.
  match goal with
  | |- context [bind ?m ?k s] =>
      assert (Hpre : within same_telemetry m) by (repeat same_step);
      change (bind m k s)
        with (match m s with
              | (Return a, s') => k a s'
              | (Raise e, s') => (Raise e, s')
              end);
      specialize (Hpre s); destruct (m s) as [[u|e] s1]; [|exact I]
  end.
  cbn [snd] in Hpre. cbv beta iota.
  match goal with
  | |- context [bind ?m ?k s1] =>
      assert (Hsend : within same_telemetry m) by (repeat same_step);
      change (bind m k s1)
        with (match m s1 with
              | (Return a, s') => k a s'
              | (Raise e, s') => (Raise e, s')
              end);
      specialize (Hsend s1); destruct (m s1) as [[reply|e] s2]; [|exact I]
  end.
  cbn [snd] in Hsend. cbv beta iota.
  assert (H12 : telemetry s2 = telemetry s)
    by (unfold same_telemetry in *; congruence).
  destruct reply as [reply|].
  - match goal with
    | |- context [bind ?block ?k s2] =>
        pose proof (logged_tail block logged (Some reply) s2) as Htail;
        assert (Hblock :
          match block s2 with
          | (Return _, s3) =>
              forall r1 fields entries,
                is_telemetry_reply reply = Return true ->
                getitem reply 1 = Return r1 ->
                (exists sep, r1 = ListData fields sep)
                \/ (exists sep d, r1 = MessageData fields sep d) ->
                telemetry_fields fields entries ->
                telemetry s3 = store_all entries (telemetry s2)
          | (Raise _, _) => True
          end);
        [ | destruct (block s2) as [[output|e] s3];
            [ destruct Htail as (s' & -> & Ht) | rewrite Htail; exact I ] ]
    end.
    + unfold bind, gets, lift, when, ret, raise.
      destruct (get_status (base s2)); [|exact I].
      destruct (to_text reply); [|exact I].
      destruct (is_telemetry_reply reply) as [[|]|]; try exact I.
      * destruct (getitem reply 1) as [r1|]; [|exact I].
        destruct r1 as [| | | | |fields0 sep0|fields0 sep0 d0]; try exact I.
        all: destruct (for_each fields0 store_field s2) as [[[]|e] s3] eqn:F;
          [|exact I];
          intros r1 fields entries _ Hg Hr Hf;
          injection Hg as <-;
          assert (fields0 = fields)
            by (destruct Hr as [[sep Hr]|(sep & d & Hr)]; congruence);
          subst fields0;
          destruct (store_fields fields entries Hf s2) as [_ H2];
          rewrite F in H2; exact H2.
      * intros r1 fields entries Ht. discriminate Ht.
    + intros r1 fields entries H1 H2 H3 H4.
      rewrite Ht, (Hblock r1 fields entries H1 H2 H3 H4), H12. reflexivity.
  - match goal with
    | |- context [bind ?block ?k s2] =>
        pose proof (logged_tail block logged None s2) as Htail;
        destruct (block s2) as [[output|e] s3];
        [ destruct Htail as (s' & -> & Ht) | rewrite Htail ]; exact I
    end.
Qed.


(** X25: [send_message] of the session touches the telemetry dictionary
    only for a telemetry reply.  When no reply arrives before the deadline,
    or the reply is not a two-item message whose first item has the value
    0x21 or 0x23, the dictionary afterwards is the one before, logged or
    not. *)
Theorem telemetry_kept (command : SpaceData) (logged : bool)
  (deadline : option pyfloat) (s : LoggingSpaceProtocol) :
  let run := LoggingSpaceProtocol_send_message command logged deadline s in
  fst run = Return None
  \/ (exists reply, fst run = Return (Some reply)
                    /\ is_telemetry_reply reply = Return false) ->
  telemetry (snd run) = telemetry s.
Proof.
  intros run H. subst run.
  pose proof (send_message_telemetry command logged deadline s) as Hs.
  destruct (LoggingSpaceProtocol_send_message command logged deadline s)
    as [[[reply|]|e] s']; cbn [fst snd] in *.
  - destruct H as [H|(reply' & H & Hf)]; [discriminate H|].
    injection H as <-. exact (Hs Hf).
  - exact Hs.
  - destruct H as [H|(reply' & H & _)]; discriminate H.
Qed.

Lemma telemetry_kept_witness :
  let s := {| base := {| address := 5; parser := message_parser;
                         debug := false; _status := None;
                         serial := {| written := [];
                                      incoming := [[Some x1a; Some xce;
                                                    Some xb5; Some x40;
                                                    Some x02; Some x05;
                                                    Some x07; Some x6a;
                                                    Some x3f]] |} |};
              logfile := []; macros := ∅; echo := true;
              telemetry := {[ Some "zero" := PInt 0 ]};
              world := empty_world |} in
  let command := MessageData [ByteData 4 (Some "echo");
                              ListData [IntegerData 7 8 false] " "]
                             " " None in
  telemetry (snd (LoggingSpaceProtocol_send_message command false None s))
  = telemetry s.
Proof.
  intros s command.
  set (reply := MessageData [ByteData 5 (Some "echo_ack");
                             ListData [IntegerData 7 8 false] " "]
                            " " None).
  assert (Hr : fst (LoggingSpaceProtocol_send_message command false None s)
               = Return (Some reply)) by (vm_compute; reflexivity).
  assert (Hf : is_telemetry_reply reply = Return false) by reflexivity.
  exact (telemetry_kept command false None s
           (or_intror (ex_intro _ reply (conj Hr Hf)))).
Defined.

(** X26: after a telemetry reply (two items, the first with the value 0x21
    or 0x23) whose second item lists fields, each a pair of a labelled
    byte and a value object, [send_message] of the session has stored every
    field: the dictionary is the one before with each label set to the
    value of its field, in the order of the reply.  So a label that no
    field carries keeps its entry, and a label carried more than once ends
    with the value of its last field. *)
Theorem telemetry_stored (command : SpaceData) (logged : bool)
  (deadline : option pyfloat) (s : LoggingSpaceProtocol)
  (reply r1 : SpaceData) (fields : list SpaceData)
  (entries : list (option string * SpaceData)) :
  let run := LoggingSpaceProtocol_send_message command logged deadline s in
  fst run = Return (Some reply) ->
  is_telemetry_reply reply = Return true ->
  getitem reply 1 = Return r1 ->
  (exists sep, r1 = ListData fields sep)
  \/ (exists sep d, r1 = MessageData fields sep d) ->
  telemetry_fields fields entries ->
  telemetry (snd run) = store_all entries (telemetry s)
  /\ (forall label,
        label ∉ entries.*1 ->
        telemetry (snd run) !! label = telemetry s !! label)
  /\ (forall pre post label value,
        entries = pre ++ (label, value) :: post ->
        label ∉ post.*1 ->
        telemetry (snd run) !! label = Some (data_value value)).
Proof.
  intros run Hr Ht Hg Hl Hf. subst run.
  pose proof (send_message_stores command logged deadline s) as Hs.
  destruct (LoggingSpaceProtocol_send_message command logged deadline s)
    as [[[reply'|]|e] s']; cbn [fst snd] in *; try discriminate Hr.
  injection Hr as ->.
  rewrite (Hs r1 fields entries Ht Hg Hl Hf).
  split; [reflexivity|]. split.
  - intros label Hn. now apply store_all_other.
  - intros pre post label value -> Hn. now apply store_all_last.
Qed.

Lemma telemetry_stored_witness :
  let s := {| base := {| address := 5; parser := message_parser;
                         debug := false; _status := None;
                         serial := {| written := [];
                                      incoming := [[Some x1a; Some xce;
                                                    Some xb5; Some x40;
                                                    Some x0b; Some x21;
                                                    Some xf0; Some x00;
                                                    Some x00; Some x00;
                                                    Some x00; Some xf1;
                                                    Some x00; Some x00;
                                                    Some x28; Some x42;
                                                    Some xa6; Some xf0]] |} |};
              logfile := []; macros := ∅; echo := true;
              telemetry := {[ Some "time" := PInt 0 ]};
              world := empty_world |} in
  let command := MessageData [ByteData 0x20 (Some "tele");
                              ListData [ByteData 0xF0 (Some "zero");
                                        ByteData 0xF1 (Some "forty_two")] " "]
                             " " None in
  let zero := FloatData (S754_zero false) None in
  let forty_two := FloatData (S754_finite false 5910974510923776 (-47)) None in
  telemetry (snd (LoggingSpaceProtocol_send_message command false
                    (Some MINIMUM_DEADLINE) s))
  = <[Some "forty_two" := data_value forty_two]>
      (<[Some "zero" := data_value zero]> (telemetry s)).
Proof.
  intros s command zero forty_two.
  set (fields := [ListData [ByteData 240 (Some "zero"); zero] "=";
                  ListData [ByteData 241 (Some "forty_two"); forty_two] "="]).
  set (reply := MessageData [ByteData 33 (Some "tele_ack");
                             ListData fields " "] " " None).
  assert (Hr : fst (LoggingSpaceProtocol_send_message command false
                      (Some MINIMUM_DEADLINE) s)
               = Return (Some reply)) by (vm_compute; reflexivity).
  assert (Ht : is_telemetry_reply reply = Return true) by reflexivity.
  assert (Hg : getitem reply 1 = Return (ListData fields " "))
    by reflexivity.
  assert (Hf : telemetry_fields fields
                 [(Some "zero", zero); (Some "forty_two", forty_two)]).
  { repeat constructor.
    - exists 240, "=". reflexivity.
    - exists 241, "=". reflexivity. }
  destruct (telemetry_stored command false (Some MINIMUM_DEADLINE) s reply
              (ListData fields " ") fields
              [(Some "zero", zero); (Some "forty_two", forty_two)]
              Hr Ht Hg (or_introl (ex_intro _ " " eq_refl)) Hf) as [H _].
  exact H.
Defined.


(** *** The macro file *)

Lemma indented_not_comment (line : string) :
  indented line = true -> startswith "#" line = false.
Proof.
  unfold indented, TAB. destruct line as [|a line]; [discriminate|].
  cbn [startswith]. rewrite !andb_true_r. intros H.
  apply orb_true_iff in H.
  destruct H as [H|H]; apply Ascii.eqb_eq in H; subst a; reflexivity.
Qed.

Lemma macro_comments_skipped (lines : list string)
  (state : option string * gmap (option string) string) :
  fold_left macro_line lines state
  = fold_left macro_line
      (List.filter (fun l => negb (startswith "#" l)) lines) state.
Proof.
  revert state. induction lines as [|l lines IH]; intros state.
  - reflexivity.
  - cbn [fold_left List.filter].
    destruct (startswith "#" l) eqn:E; cbn [negb fold_left].
    + rewrite <- IH. f_equal. destruct state as [key m].
      unfold macro_line. now rewrite E.
    + apply IH.
Qed.

Lemma stored_after_some (b : string) (lines : list string) :
  stored_after (Some b) lines
  = match lines with
    | [] => Some b
    | _ => Some (b +:+ (LF +:+ join LF (map strip lines)))
    end.
Proof.
  unfold stored_after. revert b.
  induction lines as [|x lines IH]; intros b; [reflexivity|].
  cbn [fold_left map]. rewrite IH. destruct lines as [|y lines].
  - reflexivity.
  - cbn [map]. rewrite join_cons. now rewrite !append_assoc.
Qed.

Lemma macro_body_stored (lines : list string) :
  stored_after None lines = macro_body lines.
Proof.
  destruct lines as [|l lines]; [reflexivity|].
  change (stored_after None (l :: lines))
    with (stored_after (Some (strip l)) lines).
  rewrite stored_after_some. destruct lines; reflexivity.
Qed.

Lemma stored_after_app (before : option string) (a b : list string) :
  stored_after (stored_after before a) b = stored_after before (a ++ b).
Proof. unfold stored_after. now rewrite fold_left_app. Qed.

Lemma macro_indented_lines (lines : list string) (key : option string)
  (m : gmap (option string) string) :
  Forall (fun l => indented l = true) lines ->
  exists m',
    fold_left macro_line lines (key, m) = (key, m')
    /\ m' !! key = stored_after (m !! key) lines
    /\ (forall k, k <> key -> m' !! k = m !! k).
Proof.
  intros H. revert m. induction H as [|l lines Hl _ IH]; intros m.
  - exists m. repeat split.
  - cbn [fold_left]. unfold macro_line at 2.
    rewrite (indented_not_comment l Hl), Hl.
    destruct (m !! key) as [body|] eqn:E.
    + destruct (IH (<[key := body +:+ (LF +:+ strip l)]> m))
        as (m' & Hf & Hk & Ho).
      exists m'. split; [exact Hf|]. split.
      * rewrite Hk, lookup_insert_eq. reflexivity.
      * intros k Hne. rewrite (Ho k Hne). now apply lookup_insert_ne.
    + destruct (IH (<[key := strip l]> m)) as (m' & Hf & Hk & Ho).
      exists m'. split; [exact Hf|]. split.
      * rewrite Hk, lookup_insert_eq. reflexivity.
      * intros k Hne. rewrite (Ho k Hne). now apply lookup_insert_ne.
Qed.

Lemma macro_blocks (blocks : list (string * list string))
  (key : option string) (m : gmap (option string) string) :
  Forall (fun b => startswith "#" (fst b) = false
                   /\ indented (fst b) = false
                   /\ Forall (fun l => indented l = true) (snd b)) blocks ->
  let m' := snd (fold_left macro_line
                   (concat (map (fun b => fst b :: snd b) blocks)) (key, m)) in
  m' !! None = m !! None
  /\ forall name,
       m' !! Some name = stored_after (m !! Some name) (bodies_of name blocks).
Proof.
  intros H. revert key m.
  induction H as [|[h ls] blocks (Hc & Hi & Hls) _ IH]; intros key m.
  - split; [reflexivity|]. intros name. reflexivity.
  - cbn [fst snd] in *.
    destruct (macro_indented_lines ls (Some (strip h)) m Hls)
      as (m1 & Hm1 & Hk & Ho).
    assert (E : fold_left macro_line
                  (concat (map (fun b => fst b :: snd b) ((h, ls) :: blocks)))
                  (key, m)
                = fold_left macro_line
                    (concat (map (fun b => fst b :: snd b) blocks))
                    (Some (strip h), m1)).
    { cbn [map concat fst snd]. rewrite <- app_comm_cons.
      cbn [fold_left]. unfold macro_line at 2. rewrite Hc, Hi.
      rewrite fold_left_app. now rewrite Hm1. }
    cbv zeta. rewrite E.
    pose proof (IH (Some (strip h)) m1) as IH'. cbv zeta in IH'.
    destruct IH' as [HN HS].
    split.
    + rewrite HN. now apply Ho.
    + intros name. rewrite HS. unfold bodies_of. cbn [List.filter fst].
      destruct (String.eqb (strip h) name) eqn:Eq.
      * apply String.eqb_eq in Eq. subst name.
        cbn [map concat snd]. rewrite Hk. apply stored_after_app.
      * apply String.eqb_neq in Eq. rewrite Ho by congruence. reflexivity.
Qed.


Lemma filter_not_comment (lines : list string) (l : string) :
  In l (List.filter (fun l => negb (startswith "#" l)) lines) ->
  startswith "#" l = false.
Proof.
  intros H. apply filter_In in H. destruct H as [_ H].
  now apply negb_true_iff in H.
Qed.

(** X27: the macro dictionary [get_protocol] builds is determined by the
    lines of the macro file that do not start with [#], wherever the
    comment lines stand.  Cut these lines into the indented lines before
    the first header and the blocks of a header (a line that starts with
    neither a space nor a tab) with the indented lines after it: the
    indented lines before any header are stored under the key [None]; a
    name is a key exactly when some header that strips to it is followed
    by an indented line, and its body is then the stripped indented lines
    of all headers with that name, in file order, joined by newlines, so
    that a name given twice has its bodies appended, not replaced. *)
Theorem macro_file_contents (lines orphans : list string)
  (blocks : list (string * list string)) :
  List.filter (fun l => negb (startswith "#" l)) lines
  = orphans ++ concat (map (fun b => fst b :: snd b) blocks) ->
  Forall (fun l => indented l = true) orphans ->
  Forall (fun b => indented (fst b) = false
                   /\ Forall (fun l => indented l = true) (snd b)) blocks ->
  let macros := get_protocol_macros (Some lines) in
  macros !! None = macro_body orphans
  /\ forall name, macros !! Some name = macro_body (bodies_of name blocks).
Proof.
  intros Hlines Ho Hb macros. subst macros. unfold get_protocol_macros.
  rewrite macro_comments_skipped, Hlines, fold_left_app.
  destruct (macro_indented_lines orphans None ∅ Ho) as (m0 & -> & Hk & Hother).
  assert (Hb' : Forall (fun b => startswith "#" (fst b) = false
                                 /\ indented (fst b) = false
                                 /\ Forall (fun l => indented l = true) (snd b))
                       blocks).
  { apply List.Forall_forall. intros b Hin.
    rewrite List.Forall_forall in Hb. destruct (Hb b Hin) as [H1 H2].
    split; [|split; assumption].
    apply (filter_not_comment lines). rewrite Hlines.
    apply in_or_app. right. apply in_concat.
    exists (fst b :: snd b). split; [|now left].
    apply (in_map (fun b => fst b :: snd b)). exact Hin. }
  pose proof (macro_blocks blocks None m0 Hb') as H. cbv zeta in H.
  destruct H as [HN HS]. split.
  - rewrite HN, Hk, lookup_empty. apply macro_body_stored.
  - intros name. rewrite HS, (Hother (Some name)) by discriminate.
    rewrite lookup_empty. apply macro_body_stored.
Qed.

Lemma macro_file_contents_witness :
  let lines := ["# macros" +:+ LF; "  stray" +:+ LF;
                "init" +:+ LF; TAB +:+ "ping" +:+ LF; "# note" +:+ LF;
                "  echo 1 " +:+ LF;
                LF; "  lost" +:+ LF;
                "init " +:+ LF; " ping" +:+ LF;
                "idle" +:+ LF] in
  let macros := get_protocol_macros (Some lines) in
  macros !! None = Some "stray"
  /\ macros !! Some "init"
     = Some ("ping" +:+ LF +:+ "echo 1" +:+ LF +:+ "ping")
  /\ macros !! Some EmptyString = Some "lost"
  /\ macros !! Some "idle" = None.
Proof.
  intros lines macros.
  set (orphans := ["  stray" +:+ LF]).
  set (blocks := [("init" +:+ LF, [TAB +:+ "ping" +:+ LF;
                                   "  echo 1 " +:+ LF]);
                  (LF, ["  lost" +:+ LF]);
                  ("init " +:+ LF, [" ping" +:+ LF]);
                  ("idle" +:+ LF, [])]).
  assert (Hl : List.filter (fun l => negb (startswith "#" l)) lines
               = orphans ++ concat (map (fun b => fst b :: snd b) blocks))
    by reflexivity.
  assert (Ho : Forall (fun l => indented l = true) orphans)
    by (repeat constructor).
  assert (Hb : Forall (fun b => indented (fst b) = false
                                /\ Forall (fun l => indented l = true) (snd b))
                      blocks)
    by (repeat constructor).
  destruct (macro_file_contents lines orphans blocks Hl Ho Hb) as [HN HS].
  split; [exact HN|]. split; [exact (HS "init")|].
  split; [exact (HS EmptyString)|exact (HS "idle")].
Defined.

(** *** From the macro file to [run_script] *)

Lemma rstrip_all_space (t : string) :
  str_forall py_isspace t = true -> rstrip t = EmptyString.
Proof.
  induction t as [|a t IH]; [reflexivity|]. cbn [str_forall rstrip].
  intros H. apply andb_true_iff in H. destruct H as [Ha Ht].
  now rewrite (IH Ht), Ha.
Qed.

Lemma lstrip_all_space (t : string) :
  str_forall py_isspace t = true -> lstrip t = EmptyString.
Proof.
  induction t as [|a t IH]; [reflexivity|]. cbn [str_forall lstrip].
  intros H. apply andb_true_iff in H. destruct H as [Ha Ht].
  now rewrite Ha, (IH Ht).
Qed.

Lemma rstrip_trailing_space (s t : string) :
  str_forall py_isspace t = true -> rstrip (s +:+ t) = rstrip s.
Proof.
  intros Ht. induction s as [|a s IH].
  - rewrite append_nil_l. now apply rstrip_all_space.
  - rewrite append_cons. cbn [rstrip]. now rewrite IH.
Qed.

Lemma strip_trailing_space (s t : string) :
  str_forall py_isspace t = true -> strip (s +:+ t) = strip s.
Proof.
  intros Ht. unfold strip. induction s as [|a s IH].
  - rewrite append_nil_l. now rewrite (lstrip_all_space t Ht).
  - rewrite append_cons. cbn [lstrip]. destruct (py_isspace a).
    + exact IH.
    + rewrite <- append_cons. now apply rstrip_trailing_space.
Qed.

Lemma str_forall_lstrip (P : ascii -> bool) (s : string) :
  str_forall P s = true -> str_forall P (lstrip s) = true.
Proof.
  induction s as [|a s IH]; [reflexivity|]. cbn [lstrip].
  destruct (py_isspace a); [|easy]. cbn [str_forall]. intros H.
  apply andb_true_iff in H. now apply IH.
Qed.

Lemma str_forall_rstrip (P : ascii -> bool) (s : string) :
  str_forall P s = true -> str_forall P (rstrip s) = true.
Proof.
  induction s as [|a s IH]; [reflexivity|]. cbn [str_forall rstrip].
  intros H. apply andb_true_iff in H. destruct H as [Ha Hs].
  specialize (IH Hs). destruct (rstrip s) as [|b r].
  - destruct (py_isspace a); [reflexivity|]. cbn [str_forall].
    now rewrite Ha.
  - cbn [str_forall] in *. now rewrite Ha, IH.
Qed.

Lemma str_forall_strip (P : ascii -> bool) (s : string) :
  str_forall P s = true -> str_forall P (strip s) = true.
Proof.
  intros H. unfold strip. now apply str_forall_rstrip, str_forall_lstrip.
Qed.

Lemma split_lines_one (l : string) :
  str_forall line_char l = true -> split_lines l = [l].
Proof.
  induction l as [|a l IH]; [reflexivity|]. cbn [str_forall split_lines].
  intros H. apply andb_true_iff in H. destruct H as [Ha Hl].
  rewrite (IH Hl). unfold line_char in Ha. apply negb_true_iff in Ha.
  now rewrite Ha.
Qed.

Lemma split_lines_join (l : string) (ls : list string) :
  Forall (fun l => str_forall line_char l = true) (l :: ls) ->
  split_lines (join LF (l :: ls)) = l :: ls.
Proof.
  revert l. induction ls as [|l' ls IH]; intros l H.
  - apply split_lines_one. now inversion H.
  - rewrite join_cons. inversion H as [|? ? Hl Hls]; subst.
    rewrite (split_lines_line _ _ Hl). now rewrite (IH l' Hls).
Qed.

(** X28: what the macro file gives, [run_script] takes apart again.  When
    the indented lines after the headers named [name] are the texts
    [texts], each followed by its newline as the file yields them, the
    macro [name] exists and [run_script], which splits the body at the
    newlines, runs exactly the stripped texts, one [run_line] each, in the
    order of the file; stripping them again, as [run_line] does, changes
    nothing. *)
Theorem macro_lines_run (lines orphans : list string)
  (blocks : list (string * list string)) (name : string)
  (texts : list string) :
  List.filter (fun l => negb (startswith "#" l)) lines
  = orphans ++ concat (map (fun b => fst b :: snd b) blocks) ->
  Forall (fun l => indented l = true) orphans ->
  Forall (fun b => indented (fst b) = false
                   /\ Forall (fun l => indented l = true) (snd b)) blocks ->
  bodies_of name blocks = map (fun t => t +:+ LF) texts ->
  texts <> [] ->
  Forall (fun t => str_forall line_char t = true) texts ->
  exists body,
    get_protocol_macros (Some lines) !! Some name = Some body
    /\ split_lines body = map strip texts
    /\ map strip (split_lines body) = split_lines body
    /\ forall rl logged,
         run_script_with rl body logged
         = try_except
             (for_each (map strip texts)
                (fun line => let! _ := rl line true logged in ret tt))
             is_space_error (ret tt).
Proof.
  intros Hlines Ho Hb Hbodies Hne Hfree.
  destruct (macro_file_contents lines orphans blocks Hlines Ho Hb) as [_ HS].
  assert (Hs : map strip (map (fun t => t +:+ LF) texts) = map strip texts).
  { rewrite map_map. apply map_ext. intros t.
    now apply strip_trailing_space. }
  assert (Hsplit : split_lines (join LF (map strip texts)) = map strip texts).
  { destruct texts as [|t texts]; [congruence|]. cbn [map].
    apply split_lines_join.
    change (Forall (fun l => str_forall line_char l = true)
                   (map strip (t :: texts))).
    apply List.Forall_forall. intros l Hin. apply in_map_iff in Hin.
    destruct Hin as (t' & <- & Hin). apply str_forall_strip.
    rewrite List.Forall_forall in Hfree. now apply Hfree. }
  exists (join LF (map strip texts)). split; [|split; [|split]].
  - rewrite HS, Hbodies. unfold macro_body. rewrite Hs.
    destruct texts; [congruence|reflexivity].
  - exact Hsplit.
  - rewrite Hsplit, map_map. apply map_ext. intros t. apply strip_idempotent.
  - intros rl logged. unfold run_script_with. now rewrite Hsplit.
Qed.

Lemma macro_lines_run_witness :
  let lines := ["# macros" +:+ LF;
                "init" +:+ LF; TAB +:+ "ping" +:+ LF; "# note" +:+ LF;
                "  echo 1 " +:+ LF;
                "init " +:+ LF; " ping" +:+ LF] in
  exists body,
    get_protocol_macros (Some lines) !! Some "init" = Some body
    /\ split_lines body = ["ping"; "echo 1"; "ping"].
Proof.
  intros lines.
  set (blocks := [("init" +:+ LF, [TAB +:+ "ping" +:+ LF;
                                   "  echo 1 " +:+ LF]);
                  ("init " +:+ LF, [" ping" +:+ LF])]).
  set (texts := [TAB +:+ "ping"; "  echo 1 "; " ping"]).
  assert (Hl : List.filter (fun l => negb (startswith "#" l)) lines
               = [] ++ concat (map (fun b => fst b :: snd b) blocks))
    by reflexivity.
  assert (Ho : Forall (fun l => indented l = true) []) by constructor.
  assert (Hb : Forall (fun b => indented (fst b) = false
                                /\ Forall (fun l => indented l = true) (snd b))
                      blocks)
    by (repeat constructor).
  assert (Hbodies : bodies_of "init" blocks = map (fun t => t +:+ LF) texts)
    by reflexivity.
  assert (Hne : texts <> []) by discriminate.
  assert (Hfree : Forall (fun t => str_forall line_char t = true) texts)
    by (repeat constructor).
  destruct (macro_lines_run lines [] blocks "init" texts
              Hl Ho Hb Hbodies Hne Hfree) as (body & H1 & H2 & _).
  exists body. split; [exact H1|exact H2].
Defined.
